(* ===== verification/_CoqProject ===== *)
-Q . S2P
Prelude.v
Cpp.v
HttpDefs.v
Decimal.v
HttpUrl.v
HttpExec.v
HttpLogic.v
HttpRecord.v
HttpCases.v
HttpSafety.v
HttpExecute.v
HttpRun.v
HttpRequest.v
HttpHeader.v
HttpNames.v
HttpRoundtrip.v
HttpMethod.v
HttpBody.v
HttpChunked.v
HttpLength.v
HttpResponse.v
HttpUpgrade.v
HttpHeaderName.v
HttpControl.v
HttpUrlSpec.v
HttpUrlRound.v
NetClient.v
StringUtil.v
StringSpec.v
MessagePump.v
MessagePumpSpec.v
MessagePumpQueue.v
Socks5.v
Socks5Spec.v
NetConnection.v
NetConnectionSpec.v
NetConnectionOrder.v
NetConnectionProgress.v
NetFactory.v
HttpClient.v
HttpClientSpec.v
HttpSession.v
HttpSessionSpec.v
Mvvm.v
MvvmSpec.v
Crypto.v
CryptoSpec.v
MessagePumpUi.v
MessagePumpUiSpec.v
MessageLoop.v
Threads.v
ThreadUtil.v
TcpServer.v
Auth.v
AuthSpec.v
Log.v
App.v
Cpp2Java.v
Jni.v
JniCall.v
JniSpec.v
NativeLib.v
NativeLibSpec.v
HttpFindings.v
