(* ===== verification/Prelude.v ===== *)
(** * kingkong: a verification library

    The program is a base library for desktop and mobile clients (src/base) with
    an MVVM framework on top of it (src/mvvm) and a small application (src/app).
    This library models its own code: the HTTP parser in C, and in C++ the network
    connections, the SOCKS5 client, the HTTP client and downloader, the TCP server,
    the authentication client, message pumps and loops, semaphores, callbacks at
    the exit, logging, string and cryptographic helpers, the bridge to Java, the
    MVVM framework, the application, and the generator src/tool/cpp2java.

    ** The parts and how they interact

    A user asks a factory of src/base/net/net.cc for a client.  CreateHttpClient
    takes the URL apart with http_parser_parse_url and creates an HTTP client,
    which is a connection (NetConnectionImpl) with itself as the delegate.  A
    connection does everything on the thread of a message pump: its methods post
    closures there; it resolves a name, connects, lets a SOCKS5 client talk to a
    proxy if there is one, makes the handshakes of its type, and then writes a
    queue of buffers and hands on what it reads.  The HTTP client reports headers,
    body and end of a response to its delegate; the downloader is such a delegate.
    http_parser_execute is the parser of src/base/net/http/http_parser.c for
    whole HTTP messages.  The authentication client encrypts its request, sends it
    with an HTTP client and checks the reply.

    A message loop owns a pump: one on an io_service for networking and files, one
    on a window (Windows) or on a file descriptor of the Looper (Android) for the
    user interface; all three run closures from the same ordered set.  Models and
    view models of the MVVM framework exchange events through subscriptions.  The
    application has one model, the view model of its dialog, and the dialog, which
    is a view: a view of MFC on Windows, an activity behind the bridge to Java on
    Android, for which cpp2java translates the constants the two sides share.

    ** Files

    - Prelude: literals, fixed-width integers ([wrap], [u8] to [u64]), buffers
      ([zlen], [byte_at], [slice]) and their lemmas.  Cpp: outcomes of C++ calls
      ([Ok], [Throws], [Undefined]), conversions, and handlers: methods as
      functions from the members of an object to the members and the calls made,
      with the class [Transition] for facts that hold of every handler because
      they hold of its parts.
    - HttpDefs, HttpUrl, HttpExec: src/base/net/http/http_parser.{h,c}, one
      definition for each function, each case of the switch of
      http_parser_execute and each loop.  HttpLogic to HttpExecute: the invariant
      of the parser object and that every call keeps it.  HttpRun and the files
      after it: runs over printed messages.  HttpUrlSpec, HttpUrlRound: the URL
      parser.  HttpFindings: inputs on which the code departs from its comments.
    - NetClient, NetFactory: src/base/net/net.cc.
    - StringUtil, StringSpec: src/base/string_util.cc.
    - MessagePump, MessagePumpSpec, MessagePumpQueue:
      src/base/message_loop/message_pump_impl.{h,cc} and
      message_pump_default.{h,cc}; operations as functions on the members, the
      threads, the timer and the io_service as the relation [step].
    - Socks5, Socks5Spec: src/base/net/socks5_client.{h,cc}.
    - NetConnection, NetConnectionSpec, NetConnectionOrder, NetConnectionProgress:
      src/base/net/net_connection_impl.{h,cc} with the subclasses under
      tcp_client, websocket and http, and dns_resolver_impl.{h,cc}; the relation
      [net_step] interleaves users, closures of the pump and completions of
      operations.
    - HttpClient, HttpClientSpec: src/base/net/http/http_connection_base.h and
      http_downloader_impl.{h,cc}; a delegate is an instance of the class
      [HttpClientDelegate], which the downloader implements.  HttpSession,
      HttpSessionSpec: client, connection and delegate together; the callbacks of
      the connection call the client, and [http_play] runs a sequence of events.
    - Mvvm, MvvmSpec: src/mvvm.
    - Crypto, CryptoSpec: src/base/crypto_util.cc.
    - MessagePumpUi, MessagePumpUiSpec: message_pump_win.{h,cc} and
      message_pump_android.{h,cc}; MessageLoop: message_loop_impl.{h,cc}; all
      under src/base/message_loop.  Threads: src/base/thread_util.cc, what the
      constructors of the pumps store there, and the pump of a thread.
    - ThreadUtil: src/base/semaphore_util.cc and src/base/at_exit.cc.
    - TcpServer: src/base/net/tcp_server.
    - Auth, AuthSpec: src/base/auth.  Log: src/base/log.cc.
    - App: src/app/logic, the view in src/app/ui/MFCMVVMDlg.cpp, and a run of the
      program from InitInstance in MFCMVVM.cpp.
    - Cpp2Java: src/tool/cpp2java.
    - Jni, JniCall, JniSpec: src/base/jni_util, src/mvvm/jni/ActivityView.cc and
      the loading and unloading in src/mvvm/native-lib.ipp; the class [JNIEnv] has
      the operations of the environment, [JNILaws] what its documentation says of
      references and exceptions, with a count of the exceptions reported to the
      code and of the frames refused to it.  NativeLib, NativeLibSpec: the functions of
      native-lib.ipp that Java calls, on the views Java holds by their handles.

    ** What the theorems show

    - C1, C2, C13, C16: http_parser_execute on any bytes, in any sequence of
      calls: no failed assertion, no access outside a buffer, all loops end,
      fields keep their ranges, all input is consumed; and nothing is taken for a
      message once the connection is to be closed.
    - C3 to C7, C11, C15: what the parser reports for printed requests and
      responses, for methods, bodies, chunks, lengths and header names.
    - C12, C14, C35: an HTTP client on its connection: the request is written
      once, a request is answered, nobody is told anything after Cancel, and what
      the user of a download is told when the connection is lost.
    - C8 to C10, C22, C23: the URL parser and CreateHttpClient, with which URLs
      give a client and which stop the program.
    - C17: when the authentication client reports success.
    - C18, C19, C27 to C29: all three pumps refine one queue of closures, in
      which a cancelled closure never runs; the pump on an io_service loses no
      wake-up, can always get to run what waits, and ends when it is stopped; the
      pump on a window runs nothing after it is stopped, and forgets delayed
      closures of other threads, which is why its theorem on wake-ups is about
      closures without delay.
    - C20: semaphores lose and invent no permits.  C21: the views and view
      models Java creates, binds and deletes, and the events it sends.
    - C24: the bridge to Java gives back the local references it takes, but for
      two at most for each exception it is told of.
    - C25, C38: the MVVM framework refines a list of subscriptions, and the
      application's login reaches every dialog through it.
    - C26: URL encoding.
    - C30, C31: the SOCKS5 handshake: when a proxy that accepts is taken to have
      accepted, and every outcome with any proxy.
    - C32 to C34: order of sending, protocol of the callbacks, progress of a
      connection.
    - C36: the downloader.
    - C37: the Java constants cpp2java writes have the values of the C++ ones.
    - C39, C40: RSA by blocks and AES-GCM in pieces.
    - Theorems without a number: hexadecimal text (StringSpec), tables and pausing
      (HttpControl), bodies up to the end of the input and
      CONNECT (HttpResponse, HttpUpgrade), what the factories create
      (NetFactory), cancelling inside a callback (HttpClientSpec), which
      connections verify their peer and how they are closed (NetConnectionSpec),
      the TCP server, a closure cleared without having run (MessagePumpQueue), the
      order of the closures of a loop (MessageLoop), the pump of a thread
      (Threads), a run of the program (App), the callbacks at the exit
      (ThreadUtil), the delivery of log records (Log), the cache of Java classes
      and the halved wide strings (JniSpec).

    ** Bounds, fuel and parameters

    A C [char] or a byte is its unsigned code, a [Z] from 0 to 255; where the
    signedness of [char] matters it is a parameter.  Integers keep their width.
    Buffers handed to the parsers have the length their type allows; URLs are at
    most 65535 bytes because the parser stores 16-bit offsets.  A loop over a
    buffer has fuel for one round per byte and one more, [reexecute] jumps at most
    four times for a byte, the SOCKS5 handshake calls itself at most two deep, and
    [io_run] needs [cost w] rounds; the theorems prove that the fuel is enough
    and that running out of it (a stuck or undefined result) does not happen.
    [BuildConfig] holds the build options of http_parser, [CallbacksOk] what it
    requires of its callbacks.  Parameters stand for code outside of src/: the
    recognition of IP addresses, [lexical_cast], [boost::split], the error of
    setting the TLS host name, the file, the fields of a Beast request, OpenSSL,
    base64, the encodings of protobuf, the paths of Boost.Filesystem, the Java
    virtual machine, and the numbers of the events, the messages and the
    subscriptions of the view models on Android.  The calls the parser of
    Boost.Beast makes for what is read are arbitrary.  Theorems with a hypothesis
    on such a parameter have a witness with a concrete function.  A
    [BOOST_VERIFY] that fails stops the program, as in a debug build ([Throws] or
    [Verify_failed]).  Delays on Android are below 2^43 milliseconds, a hypothesis
    of the theorems, so that the nanoseconds fit into 64 bits.

    ** Not modelled

    Boost.Asio, Boost.Beast and OpenSSL themselves; the lifetime of objects held
    by [shared_ptr] and [weak_ptr] (a closure or a completion finds its object
    alive), memory that runs out, connection ids and the log calls of the other
    components.  Users call a connection between two handlers, not inside one: a
    call from a callback locks a mutex twice, which [cancel_in_callback] of
    HttpClientSpec and the findings treat.  Ids of closures and of subscriptions do
    not wrap around at 64 bits.

    Left out: the event bus, whose functions have empty bodies; thread
    ids and clocks, which are calls of the operating system; the
    conversions of character sets in string_util.cc (Boost.Locale, Windows only);
    the caches of ids in var_cache.cc that no build compiles; the painting,
    menus and icons of the dialog and the other code of the MFC wizard; generated
    protobuf code; vendored libraries and the copy of CMake under src/build. *)

From Stdlib Require Import String Ascii Strings.Byte ZArith List Bool Lia.
Import ListNotations.
Local Open Scope Z_scope.

(** ** Character and string literals

    A C [char] is modelled by its unsigned code, a [Z] between 0 and 255; the
    literal ["H"%chr] elaborates to the numeral 72.  A C string literal is the
    list of its codes, without the terminating NUL. *)

Definition chr_of_bytes (l : list Byte.byte) : option Z :=
  match l with
  | [b] => Some (Z.of_N (Byte.to_N b))
  | _ => None
  end.

Definition chr_to_bytes (z : Z) : option (list Byte.byte) := None.

Declare Scope chr_scope.
Delimit Scope chr_scope with chr.
String Notation Z chr_of_bytes chr_to_bytes : chr_scope.

Fixpoint bytes (s : string) : list Z :=
  match s with
  | EmptyString => []
  | String a s' => Z.of_N (N_of_ascii a) :: bytes s'
  end.

(** ** Fixed-width unsigned integers

    [uN] is the conversion to an N-bit unsigned integer, that is, what an
    assignment to an N-bit field or variable stores. *)

Definition wrap (n z : Z) : Z := z mod 2 ^ n.

Abbreviation u7 := (wrap 7).
Abbreviation u8 := (wrap 8).
Abbreviation u16 := (wrap 16).
Abbreviation u32 := (wrap 32).
Abbreviation u64 := (wrap 64).

Definition ULLONG_MAX : Z := 18446744073709551615.

(** C truth value of an integer. *)
Definition truthy (z : Z) : bool := negb (z =? 0).

(** Length and indexing of a buffer by [Z] offsets. *)
Definition zlen {A} (l : list A) : Z := Z.of_nat (length l).

Definition byte_at (l : list Z) (i : Z) : option Z :=
  if i <? 0 then None else nth_error l (Z.to_nat i).

(** [slice l off n]: the [n] elements of [l] from offset [off]. *)
Definition slice {A} (l : list A) (off n : Z) : list A :=
  firstn (Z.to_nat n) (skipn (Z.to_nat off) l).

(** ** Tactics *)

(** Case analysis on the scrutinee of a [match] or [if], innermost first. *)
Ltac destruct_match_in t :=
  match t with
  | context [match ?x with _ => _ end] =>
      lazymatch x with
      | context [match _ with _ => _ end] => destruct_match_in x
      | _ => let E := fresh "E" in destruct x eqn:E
      end
  end.

Ltac case_match_goal :=
  match goal with |- ?g => destruct_match_in g end.

Ltac case_match_hyp H :=
  let t := type of H in destruct_match_in t.

Ltac bool_hyps :=
  repeat match goal with
  | H : andb _ _ = true |- _ => apply andb_true_iff in H; destruct H
  | H : orb _ _ = false |- _ => apply orb_false_iff in H; destruct H
  | H : negb _ = true |- _ => apply negb_true_iff in H
  | H : negb _ = false |- _ => apply negb_false_iff in H
  | H : (_ =? _) = true |- _ => apply Z.eqb_eq in H
  | H : (_ =? _) = false |- _ => apply Z.eqb_neq in H
  | H : (_ <? _) = true |- _ => apply Z.ltb_lt in H
  | H : (_ <? _) = false |- _ => apply Z.ltb_ge in H
  | H : (_ <=? _) = true |- _ => apply Z.leb_le in H
  | H : (_ <=? _) = false |- _ => apply Z.leb_gt in H
  end.

Ltac conjs :=
  repeat match goal with
  | H : _ /\ _ |- _ => destruct H
  | H : exists _, _ |- _ => destruct H
  end.

(** ** Lemmas on fixed-width integers *)

Create HintDb width discriminated.

Lemma wrap_range n z : 0 <= n -> 0 <= wrap n z < 2 ^ n.
Proof.
  intros Hn. unfold wrap. apply Z.mod_pos_bound.
  apply Z.pow_pos_nonneg; lia.
Qed.

Lemma wrap_small n z : 0 <= z < 2 ^ n -> wrap n z = z.
Proof. intros H. unfold wrap. apply Z.mod_small, H. Qed.

Lemma wrap_wrap n z : 0 <= n -> wrap n (wrap n z) = wrap n z.
Proof. intros Hn. apply wrap_small, wrap_range, Hn. Qed.

#[export] Hint Resolve wrap_range : width.

Lemma lor_range n a b :
  0 <= n -> 0 <= a < 2 ^ n -> 0 <= b < 2 ^ n -> 0 <= Z.lor a b < 2 ^ n.
Proof.
  intros Hn Ha Hb.
  assert (Z.lor a b mod 2 ^ n = Z.lor a b) as <-.
  { rewrite <- Z.land_ones, Z.land_lor_distr_l, !Z.land_ones by assumption.
    rewrite (Z.mod_small a), (Z.mod_small b) by assumption. reflexivity. }
  apply Z.mod_pos_bound, Z.pow_pos_nonneg; lia.
Qed.

#[export] Hint Resolve lor_range : width.

(** A bitwise or of disjoint fields is a sum. *)
Lemma lor_field a b n : 0 <= n -> 0 <= b < 2 ^ n -> Z.lor (Z.shiftl a n) b = a * 2 ^ n + b.
Proof.
  intros Hn Hb. assert (Z.land (Z.shiftl a n) b = 0) as Hl.
  { rewrite <- (Z.mod_small b (2 ^ n)) by assumption. rewrite <- Z.land_ones by assumption.
    rewrite (Z.land_comm b), Z.land_assoc, Z.land_ones by assumption.
    rewrite Z.shiftl_mul_pow2, Z.mod_mul by lia. reflexivity. }
  pose proof (Z.add_lor_land (Z.shiftl a n) b) as Hs.
  rewrite Z.shiftl_mul_pow2 in * by assumption. lia.
Qed.

Lemma truthy_true z : truthy z = true <-> z <> 0.
Proof. unfold truthy. rewrite negb_true_iff, Z.eqb_neq. reflexivity. Qed.

Lemma truthy_false z : truthy z = false <-> z = 0.
Proof. unfold truthy. rewrite negb_false_iff, Z.eqb_eq. reflexivity. Qed.

(** A flag test is a bit test. *)
Lemma truthy_bit x n : 0 <= n -> truthy (Z.land x (Z.shiftl 1 n)) = Z.testbit x n.
Proof.
  intros Hn. rewrite Z.shiftl_1_l. destruct (Z.testbit x n) eqn:E.
  - apply truthy_true. intros Hz. apply (f_equal (fun z => Z.testbit z n)) in Hz.
    rewrite Z.land_spec, E, Z.pow2_bits_true, Z.bits_0 in Hz by exact Hn. discriminate.
  - apply truthy_false. apply Z.bits_inj'. intros m Hm.
    rewrite Z.land_spec, Z.bits_0, Z.pow2_bits_eqb by exact Hn.
    destruct (Z.eqb_spec n m) as [<-|]; [rewrite E; reflexivity | apply andb_false_r].
Qed.

Lemma testbit_wrap n z m : 0 <= n -> Z.testbit (wrap n z) m = (m <? n) && Z.testbit z m.
Proof.
  intros Hn. unfold wrap. destruct (Z.ltb_spec m n).
  - apply Z.mod_pow2_bits_low. assumption.
  - apply Z.mod_pow2_bits_high. lia.
Qed.

(** ** Lemmas on buffers *)

Create HintDb buffer discriminated.
Create Rewrite HintDb buffer.

Lemma zlen_nonneg {A} (l : list A) : 0 <= zlen l.
Proof. unfold zlen. lia. Qed.

Lemma zlen_app {A} (l1 l2 : list A) :
  zlen (l1 ++ l2) = zlen l1 + zlen l2.
Proof. unfold zlen. rewrite length_app. lia. Qed.

Lemma zlen_cons {A} (a : A) (l : list A) : zlen (a :: l) = 1 + zlen l.
Proof. unfold zlen. cbn [length]. lia. Qed.

#[export] Hint Rewrite @zlen_app @zlen_cons : buffer.
#[export] Hint Resolve zlen_nonneg : buffer.

Lemma byte_at_Some l i :
  0 <= i < zlen l <-> exists b, byte_at l i = Some b.
Proof.
  unfold byte_at, zlen. split.
  - intros H. destruct (Z.ltb_spec i 0); [lia|].
    destruct (nth_error l (Z.to_nat i)) as [b|] eqn:E; [eauto|].
    apply nth_error_None in E. lia.
  - intros [b H]. destruct (Z.ltb_spec i 0); [discriminate|].
    assert (nth_error l (Z.to_nat i) <> None) as Hn by congruence.
    apply nth_error_Some in Hn. lia.
Qed.

Lemma byte_at_app_l l1 l2 i : i < zlen l1 -> byte_at (l1 ++ l2) i = byte_at l1 i.
Proof.
  unfold byte_at, zlen. intros H. destruct (Z.ltb_spec i 0); [reflexivity|].
  apply nth_error_app1. lia.
Qed.

Lemma byte_at_middle l1 b l2 : byte_at (l1 ++ b :: l2) (zlen l1) = Some b.
Proof.
  unfold byte_at, zlen. destruct (Z.ltb_spec (Z.of_nat (length l1)) 0); [lia|].
  rewrite Nat2Z.id, nth_error_app2 by lia. rewrite Nat.sub_diag. reflexivity.
Qed.

Lemma slice_app_middle {A} (l1 l2 l3 : list A) :
  slice (l1 ++ l2 ++ l3) (zlen l1) (zlen l2) = l2.
Proof.
  unfold slice, zlen. rewrite !Nat2Z.id, skipn_app, Nat.sub_diag, skipn_all.
  cbn [skipn app]. rewrite firstn_app, Nat.sub_diag, firstn_all. cbn [firstn].
  apply app_nil_r.
Qed.

Lemma zlen_slice {A} (l : list A) off n :
  0 <= off -> 0 <= n -> off + n <= zlen l -> zlen (slice l off n) = n.
Proof.
  unfold slice, zlen. intros. rewrite length_firstn, length_skipn. lia.
Qed.

Lemma firstn_snoc {A} (l : list A) n x :
  nth_error l n = Some x -> firstn (S n) l = firstn n l ++ [x].
Proof.
  revert l. induction n as [|n IH]; intros [|y l] Hx; try discriminate.
  - injection Hx as ->. reflexivity.
  - cbn in Hx |- *. f_equal. apply IH, Hx.
Qed.

Lemma slice_all {A} (l : list A) : slice l 0 (zlen l) = l.
Proof. unfold slice, zlen. rewrite Nat2Z.id. apply firstn_all. Qed.

Lemma skipn_slice l o n c :
  0 <= o -> 0 <= n -> byte_at l (o + n) = Some c ->
  exists r, skipn (Z.to_nat o) l = slice l o n ++ c :: r.
Proof.
  intros Ho Hn Hc. unfold byte_at in Hc. destruct (Z.ltb_spec (o + n) 0); [discriminate|].
  replace (Z.to_nat (o + n)) with (Z.to_nat o + Z.to_nat n)%nat in Hc by lia.
  rewrite <- nth_error_skipn in Hc. apply nth_error_split in Hc as (l1 & r & Hs & Hl).
  exists r. unfold slice. rewrite Hs, <- Hl, firstn_app, Nat.sub_diag, firstn_all.
  cbn [firstn]. rewrite app_nil_r. reflexivity.
Qed.

Lemma slice_Forall (Q : Z -> Prop) l o n :
  0 <= o -> (forall i c, o <= i < o + n -> byte_at l i = Some c -> Q c) -> Forall Q (slice l o n).
Proof.
  intros Ho HQ. apply Forall_forall. intros c Hc. apply In_nth_error in Hc as [i Hi].
  unfold slice in Hi.
  assert (i < Z.to_nat n)%nat as Hlt.
  { assert (nth_error (firstn (Z.to_nat n) (skipn (Z.to_nat o) l)) i <> None) as Hs by congruence.
    apply nth_error_Some in Hs. rewrite length_firstn in Hs. lia. }
  rewrite nth_error_firstn in Hi. apply Nat.ltb_lt in Hlt as E. rewrite E in Hi.
  rewrite nth_error_skipn in Hi. apply (HQ (o + Z.of_nat i)); [lia|].
  unfold byte_at. destruct (Z.ltb_spec (o + Z.of_nat i) 0); [lia|].
  replace (Z.to_nat (o + Z.of_nat i)) with (Z.to_nat o + i)%nat by lia. exact Hi.
Qed.

Lemma land_lor_disjoint f a b : Z.land a b = 0 -> Z.land (Z.lor f a) b = Z.land f b.
Proof. intros Hab. rewrite Z.land_lor_distr_l, Hab. apply Z.lor_0_r. Qed.

Lemma firstn_plus {A} (l : list A) n m : firstn (n + m) l = firstn n l ++ firstn m (skipn n l).
Proof.
  revert l. induction n as [|n IH]; intros l; [reflexivity|].
  destruct l as [|x l]; [destruct m; reflexivity|]. cbn. f_equal. apply IH.
Qed.
