(* ===== verification/Cpp.v ===== *)
(** * Shared notions for the C++ components

    What the files under src/base and src/mvvm use of C++: results of calls
    that may throw, conversions between integer types, bytes, buffers that are
    written by index, and handlers, that is, methods that change the members of
    an object and call out to other objects. *)

From Stdlib Require Import ZArith List Bool Lia.
From S2P Require Import Prelude.
Import ListNotations.
Local Open Scope Z_scope.

(** ** Outcomes

    A C++ function returns a value, throws, or has undefined behaviour. *)

Inductive outcome (A : Type) : Type :=
| Ok (a : A)
| Throws
| Undefined.
Arguments Ok {A} a.
Arguments Throws {A}.
Arguments Undefined {A}.

Definition outcome_bind {A B} (m : outcome A) (f : A -> outcome B) : outcome B :=
  match m with
  | Ok a => f a
  | Throws => Throws
  | Undefined => Undefined
  end.

Declare Scope cpp_scope.
Delimit Scope cpp_scope with cpp.
Notation "'let?' x := m 'in' k" := (outcome_bind m (fun x => k))
  (at level 10, x name, m at level 100, k at level 200) : cpp_scope.

(** ** Conversions *)

(** Conversion to a signed 32-bit integer. *)
Definition i32 (z : Z) : Z := (z + 2 ^ 31) mod 2 ^ 32 - 2 ^ 31.

Definition i64 (z : Z) : Z := (z + 2 ^ 63) mod 2 ^ 64 - 2 ^ 63.

(** A plain [char] whose code is [c], in a build where it is signed or not. *)
Definition char_value (char_signed : bool) (c : Z) : Z :=
  if char_signed && (128 <=? c) then c - 256 else c.

(** The result of [int] arithmetic, undefined when it overflows. *)
Definition int_result (z : Z) : outcome Z :=
  if (- 2 ^ 31 <=? z) && (z <? 2 ^ 31) then Ok z else Undefined.

Lemma i64_small z : - 2 ^ 63 <= z < 2 ^ 63 -> i64 z = z.
Proof. intros H. unfold i64. rewrite Z.mod_small; lia. Qed.

Lemma i32_small z : - 2 ^ 31 <= z < 2 ^ 31 -> i32 z = z.
Proof. intros H. unfold i32. rewrite Z.mod_small; lia. Qed.

Lemma int_result_ok z : - 2 ^ 31 <= z < 2 ^ 31 -> int_result z = Ok z.
Proof.
  intros [H1 H2]. unfold int_result. apply Z.leb_le in H1. apply Z.ltb_lt in H2.
  rewrite H1, H2. reflexivity.
Qed.

(** [std::string::substr(pos, n)]: the arguments have been converted to
    [size_t]. *)
Definition string_substr (s : list Z) (pos n : Z) : outcome (list Z) :=
  if zlen s <? pos then Throws else Ok (slice s pos (Z.min n (zlen s - pos))).

(** ** Integers on a stream: [stream << z] for an [int] *)

Fixpoint print_digits (fuel : nat) (n : Z) (rest : list Z) : list Z :=
  match fuel with
  | O => rest
  | S f => if n <? 10 then 48 + n :: rest else print_digits f (n / 10) (48 + n mod 10 :: rest)
  end.

Definition print_int (z : Z) : list Z :=
  if z <? 0 then 45 :: print_digits 10 (- z) [] else print_digits 10 z [].

(** ** Bytes *)

Definition is_byte (c : Z) : Prop := 0 <= c < 256.

Definition all_bytes : list Z := map Z.of_nat (seq 0 256).

(** A decidable fact about every byte is shown by evaluating it on each. *)
Lemma all_bytes_spec (f : Z -> bool) : forallb f all_bytes = true -> forall c, 0 <= c < 256 -> f c = true.
Proof.
  intros Hf c Hc. apply (proj1 (forallb_forall f all_bytes) Hf). apply in_map_iff.
  exists (Z.to_nat c). split; [lia|]. apply in_seq. lia.
Qed.

(** ** Buffers written by index *)

Fixpoint upd_nth {A} (n : nat) (x : A) (l : list A) : list A :=
  match l, n with
  | [], _ => []
  | _ :: l', O => x :: l'
  | y :: l', S n' => y :: upd_nth n' x l'
  end.

(** [buf[i] = x]. *)
Definition buf_set {A} (l : list A) (i : Z) (x : A) : list A := upd_nth (Z.to_nat i) x l.

Lemma upd_nth_middle {A} (l1 : list A) x y l2 : upd_nth (length l1) x (l1 ++ y :: l2) = l1 ++ x :: l2.
Proof. induction l1 as [|z l1 IH]; cbn; [reflexivity | f_equal; apply IH]. Qed.

Lemma buf_set_middle {A} (l1 : list A) i x y l2 :
  i = zlen l1 -> buf_set (l1 ++ y :: l2) i x = l1 ++ x :: l2.
Proof. intros ->. unfold buf_set, zlen. rewrite Nat2Z.id. apply upd_nth_middle. Qed.

Lemma zlen_map {A B} (f : A -> B) l : zlen (map f l) = zlen l.
Proof. unfold zlen. rewrite length_map. reflexivity. Qed.

(** ** Handlers

    A method of an object with members [S] that calls out to its surroundings:
    it gives the members it leaves and the calls it made, in order. *)

Definition handler (S O : Type) : Type := S -> S * list O.

Declare Scope handler_scope.
Delimit Scope handler_scope with handler.

Definition skip {S O} : handler S O := fun s => (s, []).

Definition emit {S O} (o : O) : handler S O := fun s => (s, [o]).

Definition modify {S O} (f : S -> S) : handler S O := fun s => (f s, []).

Definition andthen {S O} (h1 h2 : handler S O) : handler S O := fun s =>
  let (s1, o1) := h1 s in let (s2, o2) := h2 s1 in (s2, o1 ++ o2).

(** The rest of a method depends on the members as they are now. *)
Definition reading {S O} (f : S -> handler S O) : handler S O := fun s => f s s.

Notation "h1 ;; h2" := (andthen h1 h2) (at level 61, right associativity) : handler_scope.
Notation "'members' s => h" := (reading (fun s => h)) (at level 61, s name, right associativity) : handler_scope.

Section Handlers.
Context {S O : Type}.
Implicit Types h : handler S O.

Lemma andthen_eq h1 h2 s s1 o1 s2 o2 :
  h1 s = (s1, o1) -> h2 s1 = (s2, o2) -> andthen h1 h2 s = (s2, o1 ++ o2).
Proof. intros H1 H2. unfold andthen. rewrite H1, H2. reflexivity. Qed.

Lemma andthen_skip_l h s : andthen skip h s = h s.
Proof. unfold andthen, skip. destruct (h s). reflexivity. Qed.

Lemma andthen_skip_r h s : andthen h skip s = h s.
Proof. unfold andthen, skip. destruct (h s). rewrite app_nil_r. reflexivity. Qed.

Lemma andthen_assoc h1 h2 h3 s :
  andthen h1 (andthen h2 h3) s = andthen (andthen h1 h2) h3 s.
Proof.
  unfold andthen. destruct (h1 s) as [s1 o1]. destruct (h2 s1) as [s2 o2].
  destruct (h3 s2) as [s3 o3]. rewrite app_assoc. reflexivity.
Qed.

(** ** What every run of a handler does

    A transition relation between the members before, the calls made and the
    members after; it holds of a handler when it holds of its parts. *)

Class Transition (R : S -> list O -> S -> Prop) : Prop := {
  transition_skip s : R s [] s;
  transition_seq s o1 s1 o2 s2 : R s o1 s1 -> R s1 o2 s2 -> R s (o1 ++ o2) s2
}.

Definition respects (R : S -> list O -> S -> Prop) h : Prop :=
  forall s s' o, h s = (s', o) -> R s o s'.

Context (R : S -> list O -> S -> Prop) `{!Transition R}.

Lemma respects_skip : respects R skip.
Proof. intros s s' o H. injection H as <- <-. apply transition_skip. Qed.

Lemma respects_emit c : (forall s, R s [c] s) -> respects R (emit c).
Proof. intros Hc s s' o H. injection H as <- <-. apply Hc. Qed.

Lemma respects_modify f : (forall s, R s [] (f s)) -> respects R (modify f).
Proof. intros Hf s s' o H. injection H as <- <-. apply Hf. Qed.

Lemma respects_andthen h1 h2 : respects R h1 -> respects R h2 -> respects R (andthen h1 h2).
Proof.
  intros H1 H2 s s' o H. unfold andthen in H. destruct (h1 s) as [s1 o1] eqn:E1. destruct (h2 s1) as [s2 o2] eqn:E2.
  injection H as <- <-. eapply transition_seq; eauto.
Qed.

Lemma respects_reading f : (forall s, respects R (f s)) -> respects R (reading f).
Proof. intros Hf s s' o H. exact (Hf s s s' o H). Qed.

Lemma respects_if (b : bool) h1 h2 : respects R h1 -> respects R h2 -> respects R (if b then h1 else h2).
Proof. destruct b; auto. Qed.
End Handlers.

Create HintDb handler.
#[export] Hint Unfold skip emit modify andthen reading : handler.
Create Rewrite HintDb handler.
#[export] Hint Rewrite @andthen_skip_l @andthen_skip_r : handler.

(** A fact about a handler from the facts about its parts, which [leaf]
    supplies. *)
Ltac compose_with leaf :=
  repeat first
    [ assumption
    | leaf
    | lazymatch goal with
      | |- respects _ skip => apply respects_skip
      | |- respects _ (andthen _ _) => apply respects_andthen
      | |- respects _ (reading _) => apply respects_reading; intros ?s
      | |- respects _ (if _ then _ else _) => apply respects_if
      | |- respects _ (match ?x with _ => _ end) => destruct x eqn:?
      end ].
