(* ===== verification/HttpDefs.v ===== *)
(** * The HTTP parser: data model and leaf functions

    The enumerations, the [http_parser] and [http_parser_url] structures, the
    character tables and classes, and the functions of
    src/base/net/http/http_parser.{h,c} that do not scan a buffer.  The build
    options [HTTP_PARSER_STRICT] and [HTTP_MAX_HEADER_SIZE] are the fields of
    the class [BuildConfig]; [default_build] is what http_parser.h selects
    when neither macro is defined. *)

From Stdlib Require Import String ZArith List Bool Lia.
From S2P Require Import Prelude.
Import ListNotations.
Local Open Scope Z_scope.

(** ** Build configuration *)

Class BuildConfig := {
  HTTP_PARSER_STRICT : bool;
  HTTP_MAX_HEADER_SIZE : Z
}.

#[export] Instance default_build : BuildConfig := {|
  HTTP_PARSER_STRICT := true;
  HTTP_MAX_HEADER_SIZE := 80 * 1024
|}.

Definition HTTP_PARSER_VERSION_MAJOR : Z := 2.
Definition HTTP_PARSER_VERSION_MINOR : Z := 7.
Definition HTTP_PARSER_VERSION_PATCH : Z := 0.

(** ** Enumerations of http_parser.h *)

Inductive http_method :=
| HTTP_DELETE | HTTP_GET | HTTP_HEAD | HTTP_POST | HTTP_PUT
| HTTP_CONNECT | HTTP_OPTIONS | HTTP_TRACE
| HTTP_COPY | HTTP_LOCK | HTTP_MKCOL | HTTP_MOVE | HTTP_PROPFIND
| HTTP_PROPPATCH | HTTP_SEARCH | HTTP_UNLOCK | HTTP_BIND | HTTP_REBIND
| HTTP_UNBIND | HTTP_ACL
| HTTP_REPORT | HTTP_MKACTIVITY | HTTP_CHECKOUT | HTTP_MERGE
| HTTP_MSEARCH | HTTP_NOTIFY | HTTP_SUBSCRIBE | HTTP_UNSUBSCRIBE
| HTTP_PATCH | HTTP_PURGE
| HTTP_MKCALENDAR
| HTTP_LINK | HTTP_UNLINK.

Definition http_method_num (m : http_method) : Z :=
  match m with
  | HTTP_DELETE => 0 | HTTP_GET => 1 | HTTP_HEAD => 2 | HTTP_POST => 3
  | HTTP_PUT => 4 | HTTP_CONNECT => 5 | HTTP_OPTIONS => 6 | HTTP_TRACE => 7
  | HTTP_COPY => 8 | HTTP_LOCK => 9 | HTTP_MKCOL => 10 | HTTP_MOVE => 11
  | HTTP_PROPFIND => 12 | HTTP_PROPPATCH => 13 | HTTP_SEARCH => 14
  | HTTP_UNLOCK => 15 | HTTP_BIND => 16 | HTTP_REBIND => 17
  | HTTP_UNBIND => 18 | HTTP_ACL => 19 | HTTP_REPORT => 20
  | HTTP_MKACTIVITY => 21 | HTTP_CHECKOUT => 22 | HTTP_MERGE => 23
  | HTTP_MSEARCH => 24 | HTTP_NOTIFY => 25 | HTTP_SUBSCRIBE => 26
  | HTTP_UNSUBSCRIBE => 27 | HTTP_PATCH => 28 | HTTP_PURGE => 29
  | HTTP_MKCALENDAR => 30 | HTTP_LINK => 31 | HTTP_UNLINK => 32
  end.

Inductive http_parser_type := HTTP_REQUEST | HTTP_RESPONSE | HTTP_BOTH.

Definition http_parser_type_num (t : http_parser_type) : Z :=
  match t with HTTP_REQUEST => 0 | HTTP_RESPONSE => 1 | HTTP_BOTH => 2 end.

(** Flag values of the [flags] field. *)
Definition F_CHUNKED : Z := 1.
Definition F_CONNECTION_KEEP_ALIVE : Z := 2.
Definition F_CONNECTION_CLOSE : Z := 4.
Definition F_CONNECTION_UPGRADE : Z := 8.
Definition F_TRAILING : Z := 16.
Definition F_UPGRADE : Z := 32.
Definition F_SKIPBODY : Z := 64.
Definition F_CONTENTLENGTH : Z := 128.

Inductive http_errno :=
| HPE_OK
| HPE_CB_message_begin | HPE_CB_url | HPE_CB_header_field
| HPE_CB_header_value | HPE_CB_headers_complete | HPE_CB_body
| HPE_CB_message_complete | HPE_CB_status | HPE_CB_chunk_header
| HPE_CB_chunk_complete
| HPE_INVALID_EOF_STATE | HPE_HEADER_OVERFLOW | HPE_CLOSED_CONNECTION
| HPE_INVALID_VERSION | HPE_INVALID_STATUS | HPE_INVALID_METHOD
| HPE_INVALID_URL | HPE_INVALID_HOST | HPE_INVALID_PORT | HPE_INVALID_PATH
| HPE_INVALID_QUERY_STRING | HPE_INVALID_FRAGMENT | HPE_LF_EXPECTED
| HPE_INVALID_HEADER_TOKEN | HPE_INVALID_CONTENT_LENGTH
| HPE_UNEXPECTED_CONTENT_LENGTH | HPE_INVALID_CHUNK_SIZE
| HPE_INVALID_CONSTANT | HPE_INVALID_INTERNAL_STATE | HPE_STRICT
| HPE_PAUSED | HPE_UNKNOWN.

Definition http_errno_num (e : http_errno) : Z :=
  match e with
  | HPE_OK => 0 | HPE_CB_message_begin => 1 | HPE_CB_url => 2
  | HPE_CB_header_field => 3 | HPE_CB_header_value => 4
  | HPE_CB_headers_complete => 5 | HPE_CB_body => 6
  | HPE_CB_message_complete => 7 | HPE_CB_status => 8
  | HPE_CB_chunk_header => 9 | HPE_CB_chunk_complete => 10
  | HPE_INVALID_EOF_STATE => 11 | HPE_HEADER_OVERFLOW => 12
  | HPE_CLOSED_CONNECTION => 13 | HPE_INVALID_VERSION => 14
  | HPE_INVALID_STATUS => 15 | HPE_INVALID_METHOD => 16
  | HPE_INVALID_URL => 17 | HPE_INVALID_HOST => 18 | HPE_INVALID_PORT => 19
  | HPE_INVALID_PATH => 20 | HPE_INVALID_QUERY_STRING => 21
  | HPE_INVALID_FRAGMENT => 22 | HPE_LF_EXPECTED => 23
  | HPE_INVALID_HEADER_TOKEN => 24 | HPE_INVALID_CONTENT_LENGTH => 25
  | HPE_UNEXPECTED_CONTENT_LENGTH => 26 | HPE_INVALID_CHUNK_SIZE => 27
  | HPE_INVALID_CONSTANT => 28 | HPE_INVALID_INTERNAL_STATE => 29
  | HPE_STRICT => 30 | HPE_PAUSED => 31 | HPE_UNKNOWN => 32
  end.

(** ** Enumerations of http_parser.c *)

Inductive state :=
| s_dead
| s_start_req_or_res | s_res_or_resp_H | s_start_res | s_res_H | s_res_HT
| s_res_HTT | s_res_HTTP | s_res_first_http_major | s_res_http_major
| s_res_first_http_minor | s_res_http_minor | s_res_first_status_code
| s_res_status_code | s_res_status_start | s_res_status
| s_res_line_almost_done
| s_start_req
| s_req_method | s_req_spaces_before_url | s_req_schema | s_req_schema_slash
| s_req_schema_slash_slash | s_req_server_start | s_req_server
| s_req_server_with_at | s_req_path | s_req_query_string_start
| s_req_query_string | s_req_fragment_start | s_req_fragment
| s_req_http_start | s_req_http_H | s_req_http_HT | s_req_http_HTT
| s_req_http_HTTP | s_req_first_http_major | s_req_http_major
| s_req_first_http_minor | s_req_http_minor | s_req_line_almost_done
| s_header_field_start | s_header_field | s_header_value_discard_ws
| s_header_value_discard_ws_almost_done | s_header_value_discard_lws
| s_header_value_start | s_header_value | s_header_value_lws
| s_header_almost_done
| s_chunk_size_start | s_chunk_size | s_chunk_parameters
| s_chunk_size_almost_done
| s_headers_almost_done | s_headers_done
| s_chunk_data | s_chunk_data_almost_done | s_chunk_data_done
| s_body_identity | s_body_identity_eof
| s_message_done.

Definition state_num (s : state) : Z :=
  match s with
  | s_dead => 1
  | s_start_req_or_res => 2 | s_res_or_resp_H => 3 | s_start_res => 4
  | s_res_H => 5 | s_res_HT => 6 | s_res_HTT => 7 | s_res_HTTP => 8
  | s_res_first_http_major => 9 | s_res_http_major => 10
  | s_res_first_http_minor => 11 | s_res_http_minor => 12
  | s_res_first_status_code => 13 | s_res_status_code => 14
  | s_res_status_start => 15 | s_res_status => 16
  | s_res_line_almost_done => 17
  | s_start_req => 18
  | s_req_method => 19 | s_req_spaces_before_url => 20 | s_req_schema => 21
  | s_req_schema_slash => 22 | s_req_schema_slash_slash => 23
  | s_req_server_start => 24 | s_req_server => 25
  | s_req_server_with_at => 26 | s_req_path => 27
  | s_req_query_string_start => 28 | s_req_query_string => 29
  | s_req_fragment_start => 30 | s_req_fragment => 31
  | s_req_http_start => 32 | s_req_http_H => 33 | s_req_http_HT => 34
  | s_req_http_HTT => 35 | s_req_http_HTTP => 36
  | s_req_first_http_major => 37 | s_req_http_major => 38
  | s_req_first_http_minor => 39 | s_req_http_minor => 40
  | s_req_line_almost_done => 41
  | s_header_field_start => 42 | s_header_field => 43
  | s_header_value_discard_ws => 44
  | s_header_value_discard_ws_almost_done => 45
  | s_header_value_discard_lws => 46 | s_header_value_start => 47
  | s_header_value => 48 | s_header_value_lws => 49
  | s_header_almost_done => 50
  | s_chunk_size_start => 51 | s_chunk_size => 52 | s_chunk_parameters => 53
  | s_chunk_size_almost_done => 54
  | s_headers_almost_done => 55 | s_headers_done => 56
  | s_chunk_data => 57 | s_chunk_data_almost_done => 58
  | s_chunk_data_done => 59
  | s_body_identity => 60 | s_body_identity_eof => 61
  | s_message_done => 62
  end.

Definition PARSING_HEADER (s : state) : bool :=
  state_num s <=? state_num s_headers_done.

Inductive header_states :=
| h_general | h_C | h_CO | h_CON
| h_matching_connection | h_matching_proxy_connection
| h_matching_content_length | h_matching_transfer_encoding
| h_matching_upgrade
| h_connection | h_content_length | h_transfer_encoding | h_upgrade
| h_matching_transfer_encoding_chunked
| h_matching_connection_token_start | h_matching_connection_keep_alive
| h_matching_connection_close | h_matching_connection_upgrade
| h_matching_connection_token
| h_transfer_encoding_chunked | h_connection_keep_alive
| h_connection_close | h_connection_upgrade.

Definition header_states_num (h : header_states) : Z :=
  match h with
  | h_general => 0 | h_C => 1 | h_CO => 2 | h_CON => 3
  | h_matching_connection => 4 | h_matching_proxy_connection => 5
  | h_matching_content_length => 6 | h_matching_transfer_encoding => 7
  | h_matching_upgrade => 8
  | h_connection => 9 | h_content_length => 10 | h_transfer_encoding => 11
  | h_upgrade => 12
  | h_matching_transfer_encoding_chunked => 13
  | h_matching_connection_token_start => 14
  | h_matching_connection_keep_alive => 15
  | h_matching_connection_close => 16 | h_matching_connection_upgrade => 17
  | h_matching_connection_token => 18
  | h_transfer_encoding_chunked => 19 | h_connection_keep_alive => 20
  | h_connection_close => 21 | h_connection_upgrade => 22
  end.

Inductive http_host_state :=
| s_http_host_dead | s_http_userinfo_start | s_http_userinfo
| s_http_host_start | s_http_host_v6_start | s_http_host | s_http_host_v6
| s_http_host_v6_end | s_http_host_v6_zone_start | s_http_host_v6_zone
| s_http_host_port_start | s_http_host_port.

(** Equality tests on the enumerations, as the C code compares their values. *)
Definition state_eqb (a b : state) : bool := state_num a =? state_num b.
Definition http_method_eqb (a b : http_method) : bool :=
  http_method_num a =? http_method_num b.
Definition http_errno_eqb (a b : http_errno) : bool :=
  http_errno_num a =? http_errno_num b.
Definition http_parser_type_eqb (a b : http_parser_type) : bool :=
  http_parser_type_num a =? http_parser_type_num b.

(** ** Strings and tables *)

Definition PROXY_CONNECTION : list Z := Eval cbv in bytes "proxy-connection".
Definition CONNECTION : list Z := Eval cbv in bytes "connection".
Definition CONTENT_LENGTH : list Z := Eval cbv in bytes "content-length".
Definition TRANSFER_ENCODING : list Z := Eval cbv in bytes "transfer-encoding".
Definition UPGRADE : list Z := Eval cbv in bytes "upgrade".
Definition CHUNKED : list Z := Eval cbv in bytes "chunked".
Definition KEEP_ALIVE : list Z := Eval cbv in bytes "keep-alive".
Definition CLOSE : list Z := Eval cbv in bytes "close".

(** [sizeof] of a string literal: its characters and the NUL. *)
Definition sizeof (s : list Z) : Z := zlen s + 1.

(** Reading [s[i]] of a NUL-terminated literal; [None] is out of bounds. *)
Definition c_str_at (s : list Z) (i : Z) : option Z := byte_at (s ++ [0]) i.

Definition method_strings (m : http_method) : list Z :=
  match m with
  | HTTP_DELETE => bytes "DELETE" | HTTP_GET => bytes "GET"
  | HTTP_HEAD => bytes "HEAD" | HTTP_POST => bytes "POST"
  | HTTP_PUT => bytes "PUT" | HTTP_CONNECT => bytes "CONNECT"
  | HTTP_OPTIONS => bytes "OPTIONS" | HTTP_TRACE => bytes "TRACE"
  | HTTP_COPY => bytes "COPY" | HTTP_LOCK => bytes "LOCK"
  | HTTP_MKCOL => bytes "MKCOL" | HTTP_MOVE => bytes "MOVE"
  | HTTP_PROPFIND => bytes "PROPFIND" | HTTP_PROPPATCH => bytes "PROPPATCH"
  | HTTP_SEARCH => bytes "SEARCH" | HTTP_UNLOCK => bytes "UNLOCK"
  | HTTP_BIND => bytes "BIND" | HTTP_REBIND => bytes "REBIND"
  | HTTP_UNBIND => bytes "UNBIND" | HTTP_ACL => bytes "ACL"
  | HTTP_REPORT => bytes "REPORT" | HTTP_MKACTIVITY => bytes "MKACTIVITY"
  | HTTP_CHECKOUT => bytes "CHECKOUT" | HTTP_MERGE => bytes "MERGE"
  | HTTP_MSEARCH => bytes "M-SEARCH" | HTTP_NOTIFY => bytes "NOTIFY"
  | HTTP_SUBSCRIBE => bytes "SUBSCRIBE"
  | HTTP_UNSUBSCRIBE => bytes "UNSUBSCRIBE"
  | HTTP_PATCH => bytes "PATCH" | HTTP_PURGE => bytes "PURGE"
  | HTTP_MKCALENDAR => bytes "MKCALENDAR"
  | HTTP_LINK => bytes "LINK" | HTTP_UNLINK => bytes "UNLINK"
  end.

(** A C array initialiser: the elements not given are zero. *)
Definition c_array (size : nat) (init : list Z) : list Z :=
  init ++ repeat 0 (size - length init).

Definition tokens : list Z := Eval cbv in c_array 256 [
    0;   0;   0;   0;   0;   0;   0;   0;
    0;   0;   0;   0;   0;   0;   0;   0;
    0;   0;   0;   0;   0;   0;   0;   0;
    0;   0;   0;   0;   0;   0;   0;   0;
    0;   "!"%chr; 0; "#"%chr; "$"%chr; "%"%chr; "&"%chr; "'"%chr;
    0;   0;   "*"%chr; "+"%chr; 0; "-"%chr; "."%chr; 0;
    "0"%chr; "1"%chr; "2"%chr; "3"%chr; "4"%chr; "5"%chr; "6"%chr; "7"%chr;
    "8"%chr; "9"%chr; 0; 0; 0; 0; 0; 0;
    0;   "a"%chr; "b"%chr; "c"%chr; "d"%chr; "e"%chr; "f"%chr; "g"%chr;
    "h"%chr; "i"%chr; "j"%chr; "k"%chr; "l"%chr; "m"%chr; "n"%chr; "o"%chr;
    "p"%chr; "q"%chr; "r"%chr; "s"%chr; "t"%chr; "u"%chr; "v"%chr; "w"%chr;
    "x"%chr; "y"%chr; "z"%chr; 0; 0; 0; "^"%chr; "_"%chr;
    "`"%chr; "a"%chr; "b"%chr; "c"%chr; "d"%chr; "e"%chr; "f"%chr; "g"%chr;
    "h"%chr; "i"%chr; "j"%chr; "k"%chr; "l"%chr; "m"%chr; "n"%chr; "o"%chr;
    "p"%chr; "q"%chr; "r"%chr; "s"%chr; "t"%chr; "u"%chr; "v"%chr; "w"%chr;
    "x"%chr; "y"%chr; "z"%chr; 0; "|"%chr; 0; "~"%chr; 0 ].

(** The array has 256 elements and the initialiser 128: the elements for the
    bytes from 0x80 on are zero, not -1. *)
Definition unhex : list Z := Eval cbv in c_array 256 [
  -1;-1;-1;-1;-1;-1;-1;-1;-1;-1;-1;-1;-1;-1;-1;-1;
  -1;-1;-1;-1;-1;-1;-1;-1;-1;-1;-1;-1;-1;-1;-1;-1;
  -1;-1;-1;-1;-1;-1;-1;-1;-1;-1;-1;-1;-1;-1;-1;-1;
   0; 1; 2; 3; 4; 5; 6; 7; 8; 9;-1;-1;-1;-1;-1;-1;
  -1;10;11;12;13;14;15;-1;-1;-1;-1;-1;-1;-1;-1;-1;
  -1;-1;-1;-1;-1;-1;-1;-1;-1;-1;-1;-1;-1;-1;-1;-1;
  -1;10;11;12;13;14;15;-1;-1;-1;-1;-1;-1;-1;-1;-1;
  -1;-1;-1;-1;-1;-1;-1;-1;-1;-1;-1;-1;-1;-1;-1;-1 ].

(** The macro [T] of the table below: zero in strict mode. *)
Definition T_ (strict : bool) (v : Z) : Z := if strict then 0 else v.

Definition bits8 (b0 b1 b2 b3 b4 b5 b6 b7 : Z) : Z :=
  Z.lor b0 (Z.lor b1 (Z.lor b2 (Z.lor b3 (Z.lor b4 (Z.lor b5 (Z.lor b6 b7)))))).

Definition normal_url_char (strict : bool) : list Z := c_array 32 [
  bits8 0 0 0 0 0 0 0 0;
  bits8 0 (T_ strict 2) 0 0 (T_ strict 16) 0 0 0;
  bits8 0 0 0 0 0 0 0 0;
  bits8 0 0 0 0 0 0 0 0;
  bits8 0 2 4 0 16 32 64 128;
  bits8 1 2 4 8 16 32 64 128;
  bits8 1 2 4 8 16 32 64 128;
  bits8 1 2 4 8 16 32 64 0;
  bits8 1 2 4 8 16 32 64 128;
  bits8 1 2 4 8 16 32 64 128;
  bits8 1 2 4 8 16 32 64 128;
  bits8 1 2 4 8 16 32 64 128;
  bits8 1 2 4 8 16 32 64 128;
  bits8 1 2 4 8 16 32 64 128;
  bits8 1 2 4 8 16 32 64 128;
  bits8 1 2 4 8 16 32 64 0 ].

(** Table lookups: the index is converted to [unsigned char] first. *)
Definition tokens_at (c : Z) : Z := nth (Z.to_nat (u8 c)) tokens 0.
Definition unhex_at (c : Z) : Z := nth (Z.to_nat (u8 c)) unhex 0.

Definition BIT_AT (a : list Z) (i : Z) : bool :=
  truthy (Z.land (nth (Z.to_nat (Z.shiftr i 3)) a 0) (Z.shiftl 1 (Z.land i 7))).

(** ** Character classes *)

Definition CR : Z := 13.
Definition LF : Z := 10.
Definition HT : Z := 9.
Definition FF : Z := 12.

Definition LOWER (c : Z) : Z := u8 (Z.lor c 32).

Definition IS_ALPHA (c : Z) : bool :=
  ("a"%chr <=? LOWER c) && (LOWER c <=? "z"%chr).

Definition IS_NUM (c : Z) : bool := ("0"%chr <=? c) && (c <=? "9"%chr).

Definition IS_ALPHANUM (c : Z) : bool := IS_ALPHA c || IS_NUM c.

Definition IS_HEX (c : Z) : bool :=
  IS_NUM c || (("a"%chr <=? LOWER c) && (LOWER c <=? "f"%chr)).

Definition IS_MARK (c : Z) : bool :=
  (c =? "-"%chr) || (c =? "_"%chr) || (c =? "."%chr) || (c =? "!"%chr) ||
  (c =? "~"%chr) || (c =? "*"%chr) || (c =? "'"%chr) || (c =? "("%chr) ||
  (c =? ")"%chr).

Definition IS_USERINFO_CHAR (c : Z) : bool :=
  IS_ALPHANUM c || IS_MARK c || (c =? "%"%chr) || (c =? ";"%chr) ||
  (c =? ":"%chr) || (c =? "&"%chr) || (c =? "="%chr) || (c =? "+"%chr) ||
  (c =? "$"%chr) || (c =? ","%chr).

Definition STRICT_TOKEN (c : Z) : Z := tokens_at c.

Section CharClasses.
Context `{BuildConfig}.

Definition TOKEN (c : Z) : Z :=
  if HTTP_PARSER_STRICT then tokens_at c
  else if c =? " "%chr then " "%chr else tokens_at c.

Definition IS_URL_CHAR (c : Z) : bool :=
  if HTTP_PARSER_STRICT then BIT_AT (normal_url_char HTTP_PARSER_STRICT) (u8 c)
  else BIT_AT (normal_url_char HTTP_PARSER_STRICT) (u8 c) || truthy (Z.land c 128).

Definition IS_HOST_CHAR (c : Z) : bool :=
  if HTTP_PARSER_STRICT
  then IS_ALPHANUM c || (c =? "."%chr) || (c =? "-"%chr)
  else IS_ALPHANUM c || (c =? "."%chr) || (c =? "-"%chr) || (c =? "_"%chr).

End CharClasses.

Definition IS_HEADER_CHAR (ch : Z) : bool :=
  (ch =? CR) || (ch =? LF) || (ch =? 9) || ((31 <? u8 ch) && negb (ch =? 127)).

(** ** The parser object

    [struct http_parser]; each field keeps the width of its C declaration:
    [hp_flags] 8 bits, [hp_index] 7, [hp_nread] 32, [hp_content_length] 64,
    [hp_http_major], [hp_http_minor] and [hp_status_code] 16.  The fields the
    code only ever assigns enumerators to have the enumeration as type.
    [hp_data] is the address in [data]. *)
Record http_parser := mk_http_parser {
  hp_type : http_parser_type;
  hp_flags : Z;
  hp_state : state;
  hp_header_state : header_states;
  hp_index : Z;
  hp_lenient_http_headers : bool;
  hp_nread : Z;
  hp_content_length : Z;
  hp_http_major : Z;
  hp_http_minor : Z;
  hp_status_code : Z;
  hp_method : http_method;
  hp_http_errno : http_errno;
  hp_upgrade : bool;
  hp_data : Z
}.

Definition set_type (v : http_parser_type) (P : http_parser) : http_parser :=
  let '(mk_http_parser _ f s h i l n c ma mi sc m e u d) := P in
  mk_http_parser v f s h i l n c ma mi sc m e u d.
Definition set_flags (v : Z) (P : http_parser) : http_parser :=
  let '(mk_http_parser t _ s h i l n c ma mi sc m e u d) := P in
  mk_http_parser t v s h i l n c ma mi sc m e u d.
Definition set_state (v : state) (P : http_parser) : http_parser :=
  let '(mk_http_parser t f _ h i l n c ma mi sc m e u d) := P in
  mk_http_parser t f v h i l n c ma mi sc m e u d.
Definition set_header_state (v : header_states) (P : http_parser) : http_parser :=
  let '(mk_http_parser t f s _ i l n c ma mi sc m e u d) := P in
  mk_http_parser t f s v i l n c ma mi sc m e u d.
Definition set_index (v : Z) (P : http_parser) : http_parser :=
  let '(mk_http_parser t f s h _ l n c ma mi sc m e u d) := P in
  mk_http_parser t f s h v l n c ma mi sc m e u d.
Definition set_nread (v : Z) (P : http_parser) : http_parser :=
  let '(mk_http_parser t f s h i l _ c ma mi sc m e u d) := P in
  mk_http_parser t f s h i l v c ma mi sc m e u d.
Definition set_content_length (v : Z) (P : http_parser) : http_parser :=
  let '(mk_http_parser t f s h i l n _ ma mi sc m e u d) := P in
  mk_http_parser t f s h i l n v ma mi sc m e u d.
Definition set_http_major (v : Z) (P : http_parser) : http_parser :=
  let '(mk_http_parser t f s h i l n c _ mi sc m e u d) := P in
  mk_http_parser t f s h i l n c v mi sc m e u d.
Definition set_http_minor (v : Z) (P : http_parser) : http_parser :=
  let '(mk_http_parser t f s h i l n c ma _ sc m e u d) := P in
  mk_http_parser t f s h i l n c ma v sc m e u d.
Definition set_status_code (v : Z) (P : http_parser) : http_parser :=
  let '(mk_http_parser t f s h i l n c ma mi _ m e u d) := P in
  mk_http_parser t f s h i l n c ma mi v m e u d.
Definition set_method (v : http_method) (P : http_parser) : http_parser :=
  let '(mk_http_parser t f s h i l n c ma mi sc _ e u d) := P in
  mk_http_parser t f s h i l n c ma mi sc v e u d.
Definition set_http_errno (v : http_errno) (P : http_parser) : http_parser :=
  let '(mk_http_parser t f s h i l n c ma mi sc m _ u d) := P in
  mk_http_parser t f s h i l n c ma mi sc m v u d.
Definition set_upgrade (v : bool) (P : http_parser) : http_parser :=
  let '(mk_http_parser t f s h i l n c ma mi sc m e _ d) := P in
  mk_http_parser t f s h i l n c ma mi sc m e v d.
Definition set_data (v : Z) (P : http_parser) : http_parser :=
  let '(mk_http_parser t f s h i l n c ma mi sc m e u _) := P in
  mk_http_parser t f s h i l n c ma mi sc m e u v.

(** [parser->flags |= F] *)
Definition or_flags (F : Z) (P : http_parser) : http_parser :=
  set_flags (Z.lor (hp_flags P) F) P.

(** [parser->flags & F] as a condition *)
Definition has_flag (P : http_parser) (F : Z) : bool :=
  truthy (Z.land (hp_flags P) F).

(** ** Leaf functions *)

Definition start_state (P : http_parser) : state :=
  if http_parser_type_eqb (hp_type P) HTTP_REQUEST then s_start_req else s_start_res.

Definition http_message_needs_eof (P : http_parser) : bool :=
  if http_parser_type_eqb (hp_type P) HTTP_REQUEST then false
  else if (hp_status_code P / 100 =? 1) || (hp_status_code P =? 204) ||
          (hp_status_code P =? 304) || has_flag P F_SKIPBODY then false
  else if has_flag P F_CHUNKED || negb (hp_content_length P =? ULLONG_MAX) then false
  else true.

Definition http_should_keep_alive (P : http_parser) : bool :=
  if (0 <? hp_http_major P) && (0 <? hp_http_minor P) then
    if has_flag P F_CONNECTION_CLOSE then false
    else negb (http_message_needs_eof P)
  else
    if negb (has_flag P F_CONNECTION_KEEP_ALIVE) then false
    else negb (http_message_needs_eof P).

Definition NEW_MESSAGE `{BuildConfig} (P : http_parser) : state :=
  if HTTP_PARSER_STRICT
  then (if http_should_keep_alive P then start_state P else s_dead)
  else start_state P.

Definition http_methods : list http_method :=
  [ HTTP_DELETE; HTTP_GET; HTTP_HEAD; HTTP_POST; HTTP_PUT; HTTP_CONNECT;
    HTTP_OPTIONS; HTTP_TRACE; HTTP_COPY; HTTP_LOCK; HTTP_MKCOL; HTTP_MOVE;
    HTTP_PROPFIND; HTTP_PROPPATCH; HTTP_SEARCH; HTTP_UNLOCK; HTTP_BIND;
    HTTP_REBIND; HTTP_UNBIND; HTTP_ACL; HTTP_REPORT; HTTP_MKACTIVITY;
    HTTP_CHECKOUT; HTTP_MERGE; HTTP_MSEARCH; HTTP_NOTIFY; HTTP_SUBSCRIBE;
    HTTP_UNSUBSCRIBE; HTTP_PATCH; HTTP_PURGE; HTTP_MKCALENDAR; HTTP_LINK;
    HTTP_UNLINK ].

(** [ELEM_AT(method_strings, m, "<unknown>")]: the argument is any value of the
    enumeration's integer type. *)
Definition http_method_str (m : Z) : list Z :=
  if u32 m <? zlen http_methods
  then method_strings (nth (Z.to_nat m) http_methods HTTP_DELETE)
  else bytes "<unknown>".

Definition http_parser_init (P : http_parser) (t : http_parser_type) : http_parser :=
  {| hp_type := t;
     hp_flags := 0;
     hp_state := match t with
                 | HTTP_REQUEST => s_start_req
                 | HTTP_RESPONSE => s_start_res
                 | HTTP_BOTH => s_start_req_or_res
                 end;
     hp_header_state := h_general;
     hp_index := 0;
     hp_lenient_http_headers := false;
     hp_nread := 0;
     hp_content_length := 0;
     hp_http_major := 0;
     hp_http_minor := 0;
     hp_status_code := 0;
     hp_method := HTTP_DELETE;
     hp_http_errno := HPE_OK;
     hp_upgrade := false;
     hp_data := hp_data P |}.

Definition http_errno_name (e : http_errno) : string :=
  match e with
  | HPE_OK => "HPE_OK"
  | HPE_CB_message_begin => "HPE_CB_message_begin"
  | HPE_CB_url => "HPE_CB_url"
  | HPE_CB_header_field => "HPE_CB_header_field"
  | HPE_CB_header_value => "HPE_CB_header_value"
  | HPE_CB_headers_complete => "HPE_CB_headers_complete"
  | HPE_CB_body => "HPE_CB_body"
  | HPE_CB_message_complete => "HPE_CB_message_complete"
  | HPE_CB_status => "HPE_CB_status"
  | HPE_CB_chunk_header => "HPE_CB_chunk_header"
  | HPE_CB_chunk_complete => "HPE_CB_chunk_complete"
  | HPE_INVALID_EOF_STATE => "HPE_INVALID_EOF_STATE"
  | HPE_HEADER_OVERFLOW => "HPE_HEADER_OVERFLOW"
  | HPE_CLOSED_CONNECTION => "HPE_CLOSED_CONNECTION"
  | HPE_INVALID_VERSION => "HPE_INVALID_VERSION"
  | HPE_INVALID_STATUS => "HPE_INVALID_STATUS"
  | HPE_INVALID_METHOD => "HPE_INVALID_METHOD"
  | HPE_INVALID_URL => "HPE_INVALID_URL"
  | HPE_INVALID_HOST => "HPE_INVALID_HOST"
  | HPE_INVALID_PORT => "HPE_INVALID_PORT"
  | HPE_INVALID_PATH => "HPE_INVALID_PATH"
  | HPE_INVALID_QUERY_STRING => "HPE_INVALID_QUERY_STRING"
  | HPE_INVALID_FRAGMENT => "HPE_INVALID_FRAGMENT"
  | HPE_LF_EXPECTED => "HPE_LF_EXPECTED"
  | HPE_INVALID_HEADER_TOKEN => "HPE_INVALID_HEADER_TOKEN"
  | HPE_INVALID_CONTENT_LENGTH => "HPE_INVALID_CONTENT_LENGTH"
  | HPE_UNEXPECTED_CONTENT_LENGTH => "HPE_UNEXPECTED_CONTENT_LENGTH"
  | HPE_INVALID_CHUNK_SIZE => "HPE_INVALID_CHUNK_SIZE"
  | HPE_INVALID_CONSTANT => "HPE_INVALID_CONSTANT"
  | HPE_INVALID_INTERNAL_STATE => "HPE_INVALID_INTERNAL_STATE"
  | HPE_STRICT => "HPE_STRICT"
  | HPE_PAUSED => "HPE_PAUSED"
  | HPE_UNKNOWN => "HPE_UNKNOWN"
  end.

Definition http_errno_description (e : http_errno) : string :=
  match e with
  | HPE_OK => "success"
  | HPE_CB_message_begin => "the on_message_begin callback failed"
  | HPE_CB_url => "the on_url callback failed"
  | HPE_CB_header_field => "the on_header_field callback failed"
  | HPE_CB_header_value => "the on_header_value callback failed"
  | HPE_CB_headers_complete => "the on_headers_complete callback failed"
  | HPE_CB_body => "the on_body callback failed"
  | HPE_CB_message_complete => "the on_message_complete callback failed"
  | HPE_CB_status => "the on_status callback failed"
  | HPE_CB_chunk_header => "the on_chunk_header callback failed"
  | HPE_CB_chunk_complete => "the on_chunk_complete callback failed"
  | HPE_INVALID_EOF_STATE => "stream ended at an unexpected time"
  | HPE_HEADER_OVERFLOW => "too many header bytes seen; overflow detected"
  | HPE_CLOSED_CONNECTION =>
      "data received after completed connection: close message"
  | HPE_INVALID_VERSION => "invalid HTTP version"
  | HPE_INVALID_STATUS => "invalid HTTP status code"
  | HPE_INVALID_METHOD => "invalid HTTP method"
  | HPE_INVALID_URL => "invalid URL"
  | HPE_INVALID_HOST => "invalid host"
  | HPE_INVALID_PORT => "invalid port"
  | HPE_INVALID_PATH => "invalid path"
  | HPE_INVALID_QUERY_STRING => "invalid query string"
  | HPE_INVALID_FRAGMENT => "invalid fragment"
  | HPE_LF_EXPECTED => "LF character expected"
  | HPE_INVALID_HEADER_TOKEN => "invalid character in header"
  | HPE_INVALID_CONTENT_LENGTH => "invalid character in content-length header"
  | HPE_UNEXPECTED_CONTENT_LENGTH => "unexpected content-length header"
  | HPE_INVALID_CHUNK_SIZE => "invalid character in chunk size header"
  | HPE_INVALID_CONSTANT => "invalid constant string"
  | HPE_INVALID_INTERNAL_STATE => "encountered unexpected internal state"
  | HPE_STRICT => "strict mode assertion failed"
  | HPE_PAUSED => "parser is paused"
  | HPE_UNKNOWN => "an unknown error occurred"
  end.

(** [None]: the assertion that the parser is not in an error state fails. *)
Definition http_parser_pause (P : http_parser) (paused : bool) : option http_parser :=
  if http_errno_eqb (hp_http_errno P) HPE_OK || http_errno_eqb (hp_http_errno P) HPE_PAUSED
  then Some (set_http_errno (if paused then HPE_PAUSED else HPE_OK) P)
  else None.

Definition http_body_is_final (P : http_parser) : bool :=
  state_eqb (hp_state P) s_message_done.

Definition http_parser_version : Z :=
  Z.lor (HTTP_PARSER_VERSION_MAJOR * 65536)
    (Z.lor (HTTP_PARSER_VERSION_MINOR * 256) (HTTP_PARSER_VERSION_PATCH * 1)).

(** ** Lemmas *)

Lemma state_num_inj a b : state_num a = state_num b -> a = b.
Proof. destruct a, b; cbn; congruence. Qed.

Lemma state_eqb_spec a b : reflect (a = b) (state_eqb a b).
Proof.
  unfold state_eqb. destruct (Z.eqb_spec (state_num a) (state_num b)) as [H|H]; constructor.
  - apply state_num_inj, H.
  - congruence.
Qed.

Lemma http_errno_num_inj a b : http_errno_num a = http_errno_num b -> a = b.
Proof. destruct a, b; cbn; congruence. Qed.

Lemma http_errno_eqb_spec a b : reflect (a = b) (http_errno_eqb a b).
Proof.
  unfold http_errno_eqb.
  destruct (Z.eqb_spec (http_errno_num a) (http_errno_num b)) as [H|H]; constructor.
  - apply http_errno_num_inj, H.
  - congruence.
Qed.

Lemma http_method_num_inj a b : http_method_num a = http_method_num b -> a = b.
Proof. destruct a, b; cbn; congruence. Qed.

Lemma http_method_eqb_spec a b : reflect (a = b) (http_method_eqb a b).
Proof.
  unfold http_method_eqb.
  destruct (Z.eqb_spec (http_method_num a) (http_method_num b)) as [H|H]; constructor.
  - apply http_method_num_inj, H.
  - congruence.
Qed.
