(* ===== verification/Decimal.v ===== *)
(** * Decimal numbers

    The value of a string of decimal digits, the reference for the numbers the
    parser reads: lengths and ports. *)

From Stdlib Require Import ZArith List Bool Lia.
From S2P Require Import Prelude HttpDefs.
Import ListNotations.
Local Open Scope Z_scope.

Definition dec_value_from (v : Z) (ds : list Z) : Z :=
  fold_left (fun v b => v * 10 + (b - 48)) ds v.

Definition dec_value (ds : list Z) : Z := dec_value_from 0 ds.

Definition digits (ds : list Z) : Prop := Forall (fun b => IS_NUM b = true) ds.

Lemma dec_value_from_app v l1 l2 :
  dec_value_from v (l1 ++ l2) = dec_value_from (dec_value_from v l1) l2.
Proof. apply fold_left_app. Qed.

Lemma IS_NUM_range b : IS_NUM b = true -> 48 <= b <= 57.
Proof. unfold IS_NUM. intros. bool_hyps. lia. Qed.

Lemma dec_value_from_ge ds v : digits ds -> 0 <= v -> v <= dec_value_from v ds.
Proof.
  intros Hd. revert v. induction Hd as [|b ds Hb _ IH]; intros v Hv; [cbn; lia|].
  unfold dec_value_from in *. cbn [fold_left]. apply IS_NUM_range in Hb.
  specialize (IH (v * 10 + (b - 48))). lia.
Qed.
