(* ===== verification/HttpUrl.v ===== *)
(** * The URL parser

    [parse_url_char], [http_parse_host_char], [http_parse_host] and
    [http_parser_parse_url] of src/base/net/http/http_parser.c.  The buffer is
    the memory readable from the pointer [buf] on, as a list of bytes; reading
    outside of it, or failing an assertion, is the result [UrlAbort]. *)

From Stdlib Require Import String ZArith List Bool Lia.
From S2P Require Import Prelude HttpDefs.
Import ListNotations.
Local Open Scope Z_scope.

(** ** Data *)

Inductive http_parser_url_fields :=
| UF_SCHEMA | UF_HOST | UF_PORT | UF_PATH | UF_QUERY | UF_FRAGMENT
| UF_USERINFO | UF_MAX.

Definition uf_num (f : http_parser_url_fields) : Z :=
  match f with
  | UF_SCHEMA => 0 | UF_HOST => 1 | UF_PORT => 2 | UF_PATH => 3
  | UF_QUERY => 4 | UF_FRAGMENT => 5 | UF_USERINFO => 6 | UF_MAX => 7
  end.

Definition uf_eqb (a b : http_parser_url_fields) : bool := uf_num a =? uf_num b.

(** [struct { uint16_t off; uint16_t len; }] *)
Record url_field := mk_url_field { off : Z; len : Z }.

Record http_parser_url := mk_http_parser_url {
  field_set : Z;
  port : Z;
  field_data : http_parser_url_fields -> url_field
}.

Definition http_parser_url_init : http_parser_url :=
  {| field_set := 0; port := 0; field_data := fun _ => mk_url_field 0 0 |}.

(** Assignments to the members; a [uint16_t] member keeps the low 16 bits. *)
Definition set_off (f : http_parser_url_fields) (v : Z) (u : http_parser_url) :=
  mk_http_parser_url (field_set u) (port u)
    (fun g => if uf_eqb g f then mk_url_field (u16 v) (len (field_data u g))
              else field_data u g).

Definition set_len (f : http_parser_url_fields) (v : Z) (u : http_parser_url) :=
  mk_http_parser_url (field_set u) (port u)
    (fun g => if uf_eqb g f then mk_url_field (off (field_data u g)) (u16 v)
              else field_data u g).

(** [u->field_data[f].len++] *)
Definition incr_len (f : http_parser_url_fields) (u : http_parser_url) :=
  set_len f (len (field_data u f) + 1) u.

(** [u->field_set |= (1 << f)] *)
Definition mark_field (f : http_parser_url_fields) (u : http_parser_url) :=
  mk_http_parser_url (u16 (Z.lor (field_set u) (Z.shiftl 1 (uf_num f)))) (port u)
    (field_data u).

Definition set_port (v : Z) (u : http_parser_url) :=
  mk_http_parser_url (field_set u) (u16 v) (field_data u).

(** [u->field_set & (1 << f)] as a condition *)
Definition field_is_set (f : http_parser_url_fields) (u : http_parser_url) : bool :=
  truthy (Z.land (field_set u) (Z.shiftl 1 (uf_num f))).

(** ** State transitions *)

Section UrlParser.
Context `{BuildConfig}.

Definition parse_url_char (s : state) (ch : Z) : state :=
  if (ch =? " "%chr) || (ch =? CR) || (ch =? LF) then s_dead
  else if HTTP_PARSER_STRICT && ((ch =? HT) || (ch =? FF)) then s_dead
  else match s with
  | s_req_spaces_before_url =>
      if (ch =? "/"%chr) || (ch =? "*"%chr) then s_req_path
      else if IS_ALPHA ch then s_req_schema
      else s_dead
  | s_req_schema =>
      if IS_ALPHA ch then s
      else if ch =? ":"%chr then s_req_schema_slash
      else s_dead
  | s_req_schema_slash =>
      if ch =? "/"%chr then s_req_schema_slash_slash else s_dead
  | s_req_schema_slash_slash =>
      if ch =? "/"%chr then s_req_server_start else s_dead
  | s_req_server_with_at | s_req_server_start | s_req_server =>
      if state_eqb s s_req_server_with_at && (ch =? "@"%chr) then s_dead
      else if ch =? "/"%chr then s_req_path
      else if ch =? "?"%chr then s_req_query_string_start
      else if ch =? "@"%chr then s_req_server_with_at
      else if IS_USERINFO_CHAR ch || (ch =? "["%chr) || (ch =? "]"%chr) then s_req_server
      else s_dead
  | s_req_path =>
      if IS_URL_CHAR ch then s
      else if ch =? "?"%chr then s_req_query_string_start
      else if ch =? "#"%chr then s_req_fragment_start
      else s_dead
  | s_req_query_string_start | s_req_query_string =>
      if IS_URL_CHAR ch then s_req_query_string
      else if ch =? "?"%chr then s_req_query_string
      else if ch =? "#"%chr then s_req_fragment_start
      else s_dead
  | s_req_fragment_start =>
      if IS_URL_CHAR ch then s_req_fragment
      else if ch =? "?"%chr then s_req_fragment
      else if ch =? "#"%chr then s
      else s_dead
  | s_req_fragment =>
      if IS_URL_CHAR ch then s
      else if (ch =? "?"%chr) || (ch =? "#"%chr) then s
      else s_dead
  | _ => s_dead
  end.

Definition http_parse_host_char (s : http_host_state) (ch : Z) : http_host_state :=
  match s with
  | s_http_userinfo | s_http_userinfo_start =>
      if ch =? "@"%chr then s_http_host_start
      else if IS_USERINFO_CHAR ch then s_http_userinfo
      else s_http_host_dead
  | s_http_host_start =>
      if ch =? "["%chr then s_http_host_v6_start
      else if IS_HOST_CHAR ch then s_http_host
      else s_http_host_dead
  | s_http_host =>
      if IS_HOST_CHAR ch then s_http_host
      else if ch =? ":"%chr then s_http_host_port_start
      else s_http_host_dead
  | s_http_host_v6_end =>
      if ch =? ":"%chr then s_http_host_port_start else s_http_host_dead
  | s_http_host_v6 =>
      if ch =? "]"%chr then s_http_host_v6_end
      else if IS_HEX ch || (ch =? ":"%chr) || (ch =? "."%chr) then s_http_host_v6
      else if ch =? "%"%chr then s_http_host_v6_zone_start
      else s_http_host_dead
  | s_http_host_v6_start =>
      if IS_HEX ch || (ch =? ":"%chr) || (ch =? "."%chr) then s_http_host_v6
      else s_http_host_dead
  | s_http_host_v6_zone =>
      if ch =? "]"%chr then s_http_host_v6_end
      else if IS_ALPHANUM ch || (ch =? "%"%chr) || (ch =? "."%chr) ||
              (ch =? "-"%chr) || (ch =? "_"%chr) || (ch =? "~"%chr)
      then s_http_host_v6_zone
      else s_http_host_dead
  | s_http_host_v6_zone_start =>
      if IS_ALPHANUM ch || (ch =? "%"%chr) || (ch =? "."%chr) ||
         (ch =? "-"%chr) || (ch =? "_"%chr) || (ch =? "~"%chr)
      then s_http_host_v6_zone
      else s_http_host_dead
  | s_http_host_port | s_http_host_port_start =>
      if IS_NUM ch then s_http_host_port else s_http_host_dead
  | s_http_host_dead => s_http_host_dead
  end.

(** ** [http_parse_host] *)

Inductive url_stuck := Url_assert_failed | Url_out_of_bounds.

Inductive url_result :=
| UrlReturn (rc : Z) (u : http_parser_url)
| UrlAbort (why : url_stuck).

(** The [switch (new_s)] of the loop body: the field updates for the
    character at offset [p], coming from state [s]. *)
Definition host_fields (s new_s : http_host_state) (p : Z) (u : http_parser_url)
  : http_parser_url :=
  match new_s with
  | s_http_host =>
      incr_len UF_HOST (match s with s_http_host => u | _ => set_off UF_HOST p u end)
  | s_http_host_v6 =>
      incr_len UF_HOST (match s with s_http_host_v6 => u | _ => set_off UF_HOST p u end)
  | s_http_host_v6_zone_start | s_http_host_v6_zone => incr_len UF_HOST u
  | s_http_host_port =>
      incr_len UF_PORT
        (match s with
         | s_http_host_port => u
         | _ => mark_field UF_PORT (set_len UF_PORT 0 (set_off UF_PORT p u))
         end)
  | s_http_userinfo =>
      incr_len UF_USERINFO
        (match s with
         | s_http_userinfo => u
         | _ => mark_field UF_USERINFO (set_len UF_USERINFO 0 (set_off UF_USERINFO p u))
         end)
  | _ => u
  end.

(** States in which the host may not end. *)
Definition host_end_error (s : http_host_state) : bool :=
  match s with
  | s_http_host_start | s_http_host_v6_start | s_http_host_v6
  | s_http_host_v6_zone_start | s_http_host_v6_zone | s_http_host_port_start
  | s_http_userinfo | s_http_userinfo_start => true
  | _ => false
  end.

(** The loop [for (p = buf + off; p < buf + buflen; p++)]; [n] is the number of
    iterations left. *)
Fixpoint http_parse_host_loop (n : nat) (buf : list Z) (p : Z) (s : http_host_state)
  (u : http_parser_url) : url_result :=
  match n with
  | O => UrlReturn (if host_end_error s then 1 else 0) u
  | S n' =>
      match byte_at buf p with
      | None => UrlAbort Url_out_of_bounds
      | Some ch =>
          match http_parse_host_char s ch with
          | s_http_host_dead => UrlReturn 1 u
          | new_s => http_parse_host_loop n' buf (p + 1) new_s (host_fields s new_s p u)
          end
      end
  end.

Definition http_parse_host (buf : list Z) (u : http_parser_url) (found_at : bool)
  : url_result :=
  if negb (field_is_set UF_HOST u) then UrlAbort Url_assert_failed
  else
    let host := field_data u UF_HOST in
    let buflen := off host + len host in
    let s := if found_at then s_http_userinfo_start else s_http_host_start in
    http_parse_host_loop (Z.to_nat (buflen - off host)) buf (off host) s
      (set_len UF_HOST 0 u).

(** ** [strtoul(s, NULL, 10)]

    White space is skipped, a sign is accepted, and digits are read up to the
    first character that is not one; the value saturates at [ULONG_MAX] (64
    bits).  [None]: the characters run past the readable memory. *)
Definition isspace (c : Z) : bool := (c =? 32) || ((9 <=? c) && (c <=? 13)).

Fixpoint strtoul_digits (l : list Z) (acc : Z) : option Z :=
  match l with
  | [] => None
  | c :: l' =>
      if IS_NUM c then strtoul_digits l' (Z.min (acc * 10 + (c - "0"%chr)) ULLONG_MAX)
      else Some acc
  end.

Fixpoint strtoul (l : list Z) : option Z :=
  match l with
  | [] => None
  | c :: l' =>
      if isspace c then strtoul l'
      else if c =? "-"%chr then option_map (fun v => u64 (- v)) (strtoul_digits l' 0)
      else if c =? "+"%chr then strtoul_digits l' 0
      else strtoul_digits l 0
  end.

(** ** [http_parser_parse_url] *)

(** The [switch (s)] of the loop body: the field the character belongs to. *)
Inductive url_switch :=
| Url_return_1
| Url_continue
| Url_field (uf : http_parser_url_fields)
| Url_unexpected.

Definition url_field_of (s : state) : url_switch :=
  match s with
  | s_dead => Url_return_1
  | s_req_schema_slash | s_req_schema_slash_slash | s_req_server_start
  | s_req_query_string_start | s_req_fragment_start => Url_continue
  | s_req_schema => Url_field UF_SCHEMA
  | s_req_server_with_at | s_req_server => Url_field UF_HOST
  | s_req_path => Url_field UF_PATH
  | s_req_query_string => Url_field UF_QUERY
  | s_req_fragment => Url_field UF_FRAGMENT
  | _ => Url_unexpected
  end.

(** The assignments after the switch. *)
Definition url_extend (uf old_uf : http_parser_url_fields) (p : Z) (u : http_parser_url)
  : http_parser_url :=
  if uf_eqb uf old_uf then incr_len uf u
  else mark_field uf (set_len uf 1 (set_off uf p u)).

(** The loop [for (p = buf; p < buf + buflen; p++)]: a [return] of the loop
    body, or the values of [u] and [found_at] after the loop. *)
Inductive url_loop_result :=
| LoopReturn (r : url_result)
| LoopDone (found_at : bool) (u : http_parser_url).

Fixpoint url_loop (n : nat) (buf : list Z) (p : Z) (s : state)
  (old_uf : http_parser_url_fields) (found_at : bool) (u : http_parser_url)
  : url_loop_result :=
  match n with
  | O => LoopDone found_at u
  | S n' =>
      match byte_at buf p with
      | None => LoopReturn (UrlAbort Url_out_of_bounds)
      | Some ch =>
          let s' := parse_url_char s ch in
          match url_field_of s' with
          | Url_return_1 => LoopReturn (UrlReturn 1 u)
          | Url_unexpected => LoopReturn (UrlAbort Url_assert_failed)
          | Url_continue => url_loop n' buf (p + 1) s' old_uf found_at u
          | Url_field uf =>
              url_loop n' buf (p + 1) s' uf
                (found_at || state_eqb s' s_req_server_with_at)
                (url_extend uf old_uf p u)
          end
      end
  end.

(** From the test of the CONNECT shape to the end. *)
Definition url_finish_port (buf : list Z) (is_connect : bool) (u : http_parser_url)
  : url_result :=
  if is_connect &&
     negb (field_set u =? Z.lor (Z.shiftl 1 (uf_num UF_HOST)) (Z.shiftl 1 (uf_num UF_PORT)))
  then UrlReturn 1 u
  else if field_is_set UF_PORT u then
    match strtoul (skipn (Z.to_nat (off (field_data u UF_PORT))) buf) with
    | None => UrlAbort Url_out_of_bounds
    | Some v => if 65535 <? v then UrlReturn 1 u else UrlReturn 0 (set_port v u)
    end
  else UrlReturn 0 u.

(** From the schema test to the end. *)
Definition url_finish (buf : list Z) (is_connect found_at : bool) (u : http_parser_url)
  : url_result :=
  if field_is_set UF_SCHEMA u && negb (field_is_set UF_HOST u) then UrlReturn 1 u
  else if field_is_set UF_HOST u then
    match http_parse_host buf u found_at with
    | UrlReturn rc u' => if negb (rc =? 0) then UrlReturn 1 u'
                         else url_finish_port buf is_connect u'
    | UrlAbort w => UrlAbort w
    end
  else url_finish_port buf is_connect u.

Definition http_parser_parse_url (buf : list Z) (buflen : Z) (is_connect : bool)
  (u : http_parser_url) : url_result :=
  let u0 := mk_http_parser_url 0 0 (field_data u) in
  let s := if is_connect then s_req_server_start else s_req_spaces_before_url in
  match url_loop (Z.to_nat buflen) buf 0 s UF_MAX false u0 with
  | LoopReturn r => r
  | LoopDone found_at u' => url_finish buf is_connect found_at u'
  end.

End UrlParser.
