(* ===== verification/HttpExec.v ===== *)
(** * [http_parser_execute]

    The byte-driven state machine of src/base/net/http/http_parser.c.  The
    locals of the function and the parser object are the fields of [ctx]; a
    fragment of the function body is a computation of type [M], which either
    falls through ([Next]), jumps to the label [error] ([Goto_error]), executes
    a [return] ([Return]), or is [Stuck]: an assertion fails, a read or a range
    handed to a callback leaves its object, or a loop runs out of fuel.  Each
    [case] of the big [switch] is one definition, named after its label. *)

From Stdlib Require Import String ZArith List Bool Lia.
From S2P Require Import Prelude HttpDefs HttpUrl.
Import ListNotations.
Local Open Scope Z_scope.

(** ** Callbacks

    A callback receives the parser, may change it and the application's state
    [W], and returns an [int].  The pointer and length of a data callback are
    the bytes they designate. *)

Definition http_cb (W : Type) : Type := W -> http_parser -> W * http_parser * Z.

Definition http_data_cb (W : Type) : Type :=
  W -> http_parser -> list Z -> W * http_parser * Z.

Record http_parser_settings (W : Type) := mk_settings {
  on_message_begin : option (http_cb W);
  on_url : option (http_data_cb W);
  on_status : option (http_data_cb W);
  on_header_field : option (http_data_cb W);
  on_header_value : option (http_data_cb W);
  on_headers_complete : option (http_cb W);
  on_body : option (http_data_cb W);
  on_message_complete : option (http_cb W);
  on_chunk_header : option (http_cb W);
  on_chunk_complete : option (http_cb W)
}.

Arguments mk_settings {W}.
Arguments on_message_begin {W}.
Arguments on_url {W}.
Arguments on_status {W}.
Arguments on_header_field {W}.
Arguments on_header_value {W}.
Arguments on_headers_complete {W}.
Arguments on_body {W}.
Arguments on_message_complete {W}.
Arguments on_chunk_header {W}.
Arguments on_chunk_complete {W}.

Definition http_parser_settings_init (W : Type) : http_parser_settings W :=
  mk_settings None None None None None None None None None None.

(** The [FOR] argument of the callback macros. *)
Inductive notify_cb := message_begin | message_complete | chunk_header | chunk_complete.
Inductive data_cb := header_field | header_value | url | body | status.

Definition on_notify {W} (st : http_parser_settings W) (n : notify_cb) : option (http_cb W) :=
  match n with
  | message_begin => on_message_begin st
  | message_complete => on_message_complete st
  | chunk_header => on_chunk_header st
  | chunk_complete => on_chunk_complete st
  end.

Definition on_data {W} (st : http_parser_settings W) (d : data_cb) : option (http_data_cb W) :=
  match d with
  | header_field => on_header_field st
  | header_value => on_header_value st
  | url => on_url st
  | body => on_body st
  | status => on_status st
  end.

Definition HPE_CB_notify (n : notify_cb) : http_errno :=
  match n with
  | message_begin => HPE_CB_message_begin
  | message_complete => HPE_CB_message_complete
  | chunk_header => HPE_CB_chunk_header
  | chunk_complete => HPE_CB_chunk_complete
  end.

Definition HPE_CB_data (d : data_cb) : http_errno :=
  match d with
  | header_field => HPE_CB_header_field
  | header_value => HPE_CB_header_value
  | url => HPE_CB_url
  | body => HPE_CB_body
  | status => HPE_CB_status
  end.

(** ** The locals of the function

    Pointers into the buffer are offsets from [data]. *)
Record ctx (W : Type) := mk_ctx {
  prs : http_parser;
  p : Z;
  ch : Z;
  p_state : state;
  header_field_mark : option Z;
  header_value_mark : option Z;
  url_mark : option Z;
  body_mark : option Z;
  status_mark : option Z;
  world : W
}.

Arguments mk_ctx {W}.
Arguments prs {W}.
Arguments p {W}.
Arguments ch {W}.
Arguments p_state {W}.
Arguments header_field_mark {W}.
Arguments header_value_mark {W}.
Arguments url_mark {W}.
Arguments body_mark {W}.
Arguments status_mark {W}.
Arguments world {W}.

Definition with_prs {W} (v : http_parser) (k : ctx W) : ctx W :=
  let '(mk_ctx _ q c s a b d e f w) := k in mk_ctx v q c s a b d e f w.
Definition with_p {W} (v : Z) (k : ctx W) : ctx W :=
  let '(mk_ctx P _ c s a b d e f w) := k in mk_ctx P v c s a b d e f w.
Definition with_ch {W} (v : Z) (k : ctx W) : ctx W :=
  let '(mk_ctx P q _ s a b d e f w) := k in mk_ctx P q v s a b d e f w.
Definition with_p_state {W} (v : state) (k : ctx W) : ctx W :=
  let '(mk_ctx P q c _ a b d e f w) := k in mk_ctx P q c v a b d e f w.
Definition with_world {W} (v : W) (k : ctx W) : ctx W :=
  let '(mk_ctx P q c s a b d e f _) := k in mk_ctx P q c s a b d e f v.

Definition get_mark {W} (d : data_cb) (k : ctx W) : option Z :=
  match d with
  | header_field => header_field_mark k
  | header_value => header_value_mark k
  | url => url_mark k
  | body => body_mark k
  | status => status_mark k
  end.

Definition with_mark {W} (d : data_cb) (v : option Z) (k : ctx W) : ctx W :=
  let '(mk_ctx P q c s a b e f g w) := k in
  match d with
  | header_field => mk_ctx P q c s v b e f g w
  | header_value => mk_ctx P q c s a v e f g w
  | url => mk_ctx P q c s a b v f g w
  | body => mk_ctx P q c s a b e v g w
  | status => mk_ctx P q c s a b e f v w
  end.

(** ** The control-flow monad *)

Inductive stuck := Assert_failed | Out_of_bounds | Out_of_fuel.

Inductive outcome (W A : Type) :=
| Next (a : A) (k : ctx W)
| Goto_error (k : ctx W)
| Return (k : ctx W) (n : Z)
| Stuck (why : stuck).

Arguments Next {W A}.
Arguments Goto_error {W A}.
Arguments Return {W A}.
Arguments Stuck {W A}.

Definition M (W A : Type) : Type := ctx W -> outcome W A.

Definition ret {W A} (a : A) : M W A := fun k => Next a k.

Definition bind {W A B} (m : M W A) (f : A -> M W B) : M W B :=
  fun k =>
    match m k with
    | Next a k' => f a k'
    | Goto_error k' => Goto_error k'
    | Return k' n => Return k' n
    | Stuck w => Stuck w
    end.

Declare Scope exec_scope.
Delimit Scope exec_scope with exec.
Notation "x <- m ;; f" := (bind m (fun x => f))
  (at level 61, m at next level, right associativity) : exec_scope.
Notation "m ;; f" := (bind m (fun _ => f))
  (at level 61, right associativity) : exec_scope.
Local Open Scope exec_scope.

(** What ends a [case]: [break] out of the switch, or [goto reexecute]. *)
Inductive flow := Break | Reexecute.

Section Primitives.
Context {W : Type}.

Definition get : M W (ctx W) := fun k => Next k k.
Definition modify (f : ctx W -> ctx W) : M W unit := fun k => Next tt (f k).
Definition stop {A} (w : stuck) : M W A := fun _ => Stuck w.
Definition goto_error {A} : M W A := fun k => Goto_error k.

Definition assert_ (b : bool) : M W unit := if b then ret tt else stop Assert_failed.

Definition read_ {A} (o : option A) : M W A :=
  match o with Some a => ret a | None => stop Out_of_bounds end.

(** Assignments through [parser->]. *)
Definition upd (f : http_parser -> http_parser) : M W unit :=
  modify (fun k => with_prs (f (prs k)) k).

Definition parser : M W http_parser := fun k => Next (prs k) k.

Definition SET_ERRNO (e : http_errno) : M W unit := upd (set_http_errno e).
Definition UPDATE_STATE (s : state) : M W unit := modify (with_p_state s).
Definition set_p (v : Z) : M W unit := modify (with_p v).

(** [SET_ERRNO(e); goto error;] *)
Definition fail {A} (e : http_errno) : M W A := SET_ERRNO e ;; goto_error.

(** [RETURN(V)] *)
Definition RETURN {A} (v : Z) : M W A :=
  fun k => Return (with_prs (set_state (p_state k) (prs k)) k) v.

Definition MARK (d : data_cb) : M W unit :=
  modify (fun k => match get_mark d k with
                   | None => with_mark d (Some (p k)) k
                   | Some _ => k
                   end).

End Primitives.

(** ** The callback macros *)

Section Execute.
Context {W : Type} `{BuildConfig}.
Variable settings : http_parser_settings W.
Variable data : list Z.
Variable lenient : bool.

Definition data_len : Z := zlen data.

Definition CALLBACK_NOTIFY_ (FOR : notify_cb) (ER : Z) : M W unit :=
  fun k =>
    if negb (http_errno_eqb (hp_http_errno (prs k)) HPE_OK) then Stuck Assert_failed
    else match on_notify settings FOR with
    | None => Next tt k
    | Some cb =>
        let '(w, P, rc) := cb (world k) (set_state (p_state k) (prs k)) in
        let P := if negb (rc =? 0) then set_http_errno (HPE_CB_notify FOR) P else P in
        let k := with_p_state (hp_state P) (with_prs P (with_world w k)) in
        if negb (http_errno_eqb (hp_http_errno P) HPE_OK) then Return k ER
        else Next tt k
    end.

Definition CALLBACK_NOTIFY (FOR : notify_cb) : M W unit :=
  k <- get ;; CALLBACK_NOTIFY_ FOR (p k + 1).

Definition CALLBACK_NOTIFY_NOADVANCE (FOR : notify_cb) : M W unit :=
  k <- get ;; CALLBACK_NOTIFY_ FOR (p k).

(** [LEN] is a function of the mark. *)
Definition CALLBACK_DATA_ (FOR : data_cb) (LEN : Z -> Z) (ER : Z) : M W unit :=
  fun k =>
    if negb (http_errno_eqb (hp_http_errno (prs k)) HPE_OK) then Stuck Assert_failed
    else match get_mark FOR k with
    | None => Next tt k
    | Some mark =>
        match on_data settings FOR with
        | None => Next tt (with_mark FOR None k)
        | Some cb =>
            if (0 <=? mark) && (0 <=? LEN mark) && (mark + LEN mark <=? data_len) then
              let '(w, P, rc) :=
                cb (world k) (set_state (p_state k) (prs k)) (slice data mark (LEN mark)) in
              let P := if negb (rc =? 0) then set_http_errno (HPE_CB_data FOR) P else P in
              let k := with_p_state (hp_state P) (with_prs P (with_world w k)) in
              if negb (http_errno_eqb (hp_http_errno P) HPE_OK) then Return k ER
              else Next tt (with_mark FOR None k)
            else Stuck Out_of_bounds
        end
    end.

Definition CALLBACK_DATA (FOR : data_cb) : M W unit :=
  k <- get ;; CALLBACK_DATA_ FOR (fun mark => p k - mark) (p k + 1).

Definition CALLBACK_DATA_NOADVANCE (FOR : data_cb) : M W unit :=
  k <- get ;; CALLBACK_DATA_ FOR (fun mark => p k - mark) (p k).

Definition COUNT_HEADER_SIZE (V : Z) : M W unit :=
  upd (fun P => set_nread (u32 (hp_nread P + V)) P) ;;
  P <- parser ;;
  if HTTP_MAX_HEADER_SIZE <? hp_nread P then fail HPE_HEADER_OVERFLOW else ret tt.

Definition STRICT_CHECK (cond : bool) : M W unit :=
  if HTTP_PARSER_STRICT then (if cond then fail HPE_STRICT else ret tt) else ret tt.

(** [parser->index++] *)
Definition index_incr : M W unit :=
  upd (fun P => set_index (u7 (hp_index P + 1)) P).

(** [ch = *p] *)
Definition load_ch : M W unit :=
  k <- get ;;
  c <- read_ (byte_at data (p k)) ;;
  modify (with_ch c).

(** ** Start of a message and the status line *)

Definition case_s_dead : M W flow :=
  k <- get ;;
  if (ch k =? CR) || (ch k =? LF) then ret Break
  else fail HPE_CLOSED_CONNECTION.

(** [parser->flags = 0; parser->content_length = ULLONG_MAX;] *)
Definition reset_message : M W unit :=
  upd (fun P => set_content_length ULLONG_MAX (set_flags 0 P)).

Definition case_s_start_req_or_res : M W flow :=
  k <- get ;;
  if (ch k =? CR) || (ch k =? LF) then ret Break
  else
    reset_message ;;
    if ch k =? "H"%chr then
      UPDATE_STATE s_res_or_resp_H ;;
      CALLBACK_NOTIFY message_begin ;;
      ret Break
    else
      upd (set_type HTTP_REQUEST) ;;
      UPDATE_STATE s_start_req ;;
      ret Reexecute.

Definition case_s_res_or_resp_H : M W flow :=
  k <- get ;;
  if ch k =? "T"%chr then
    upd (set_type HTTP_RESPONSE) ;;
    UPDATE_STATE s_res_HT ;;
    ret Break
  else if negb (ch k =? "E"%chr) then fail HPE_INVALID_CONSTANT
  else
    upd (fun P => set_index 2 (set_method HTTP_HEAD (set_type HTTP_REQUEST P))) ;;
    UPDATE_STATE s_req_method ;;
    ret Break.

Definition case_s_start_res : M W flow :=
  k <- get ;;
  reset_message ;;
  (if ch k =? "H"%chr then UPDATE_STATE s_res_H
   else if (ch k =? CR) || (ch k =? LF) then ret tt
   else fail HPE_INVALID_CONSTANT) ;;
  CALLBACK_NOTIFY message_begin ;;
  ret Break.

(** [STRICT_CHECK(ch != c); UPDATE_STATE(s); break;] *)
Definition expect_char (c : Z) (s : state) : M W flow :=
  k <- get ;;
  STRICT_CHECK (negb (ch k =? c)) ;;
  UPDATE_STATE s ;;
  ret Break.

Definition case_s_res_H : M W flow := expect_char "T"%chr s_res_HT.
Definition case_s_res_HT : M W flow := expect_char "T"%chr s_res_HTT.
Definition case_s_res_HTT : M W flow := expect_char "P"%chr s_res_HTTP.
Definition case_s_res_HTTP : M W flow := expect_char "/"%chr s_res_first_http_major.

Definition case_s_res_first_http_major : M W flow :=
  k <- get ;;
  if (ch k <? "0"%chr) || ("9"%chr <? ch k) then fail HPE_INVALID_VERSION
  else
    upd (set_http_major (ch k - "0"%chr)) ;;
    UPDATE_STATE s_res_http_major ;;
    ret Break.

(** [parser->http_major *= 10; parser->http_major += ch - '0';] with the bound
    test that follows. *)
Definition http_major_digit (c : Z) : M W flow :=
  upd (fun P => set_http_major (u16 (hp_http_major P * 10)) P) ;;
  upd (fun P => set_http_major (u16 (hp_http_major P + (c - "0"%chr))) P) ;;
  P <- parser ;;
  if 999 <? hp_http_major P then fail HPE_INVALID_VERSION else ret Break.

Definition http_minor_digit (c : Z) : M W flow :=
  upd (fun P => set_http_minor (u16 (hp_http_minor P * 10)) P) ;;
  upd (fun P => set_http_minor (u16 (hp_http_minor P + (c - "0"%chr))) P) ;;
  P <- parser ;;
  if 999 <? hp_http_minor P then fail HPE_INVALID_VERSION else ret Break.

Definition case_s_res_http_major : M W flow :=
  k <- get ;;
  if ch k =? "."%chr then UPDATE_STATE s_res_first_http_minor ;; ret Break
  else if negb (IS_NUM (ch k)) then fail HPE_INVALID_VERSION
  else http_major_digit (ch k).

Definition case_s_res_first_http_minor : M W flow :=
  k <- get ;;
  if negb (IS_NUM (ch k)) then fail HPE_INVALID_VERSION
  else
    upd (set_http_minor (ch k - "0"%chr)) ;;
    UPDATE_STATE s_res_http_minor ;;
    ret Break.

Definition case_s_res_http_minor : M W flow :=
  k <- get ;;
  if ch k =? " "%chr then UPDATE_STATE s_res_first_status_code ;; ret Break
  else if negb (IS_NUM (ch k)) then fail HPE_INVALID_VERSION
  else http_minor_digit (ch k).

Definition case_s_res_first_status_code : M W flow :=
  k <- get ;;
  if negb (IS_NUM (ch k)) then
    if ch k =? " "%chr then ret Break else fail HPE_INVALID_STATUS
  else
    upd (set_status_code (ch k - "0"%chr)) ;;
    UPDATE_STATE s_res_status_code ;;
    ret Break.

Definition case_s_res_status_code : M W flow :=
  k <- get ;;
  if negb (IS_NUM (ch k)) then
    if ch k =? " "%chr then UPDATE_STATE s_res_status_start ;; ret Break
    else if ch k =? CR then UPDATE_STATE s_res_line_almost_done ;; ret Break
    else if ch k =? LF then UPDATE_STATE s_header_field_start ;; ret Break
    else fail HPE_INVALID_STATUS
  else
    upd (fun P => set_status_code (u16 (hp_status_code P * 10)) P) ;;
    upd (fun P => set_status_code (u16 (hp_status_code P + (ch k - "0"%chr))) P) ;;
    P <- parser ;;
    if 999 <? hp_status_code P then fail HPE_INVALID_STATUS else ret Break.

Definition case_s_res_status_start : M W flow :=
  k <- get ;;
  if ch k =? CR then UPDATE_STATE s_res_line_almost_done ;; ret Break
  else if ch k =? LF then UPDATE_STATE s_header_field_start ;; ret Break
  else
    MARK status ;;
    UPDATE_STATE s_res_status ;;
    upd (set_index 0) ;;
    ret Break.

Definition case_s_res_status : M W flow :=
  k <- get ;;
  if ch k =? CR then
    UPDATE_STATE s_res_line_almost_done ;; CALLBACK_DATA status ;; ret Break
  else if ch k =? LF then
    UPDATE_STATE s_header_field_start ;; CALLBACK_DATA status ;; ret Break
  else ret Break.

Definition case_s_res_line_almost_done : M W flow := expect_char LF s_header_field_start.

(** ** The request line *)

(** The [switch (ch)] of [s_start_req]. *)
Definition first_method (c : Z) : option http_method :=
  if c =? "A"%chr then Some HTTP_ACL
  else if c =? "B"%chr then Some HTTP_BIND
  else if c =? "C"%chr then Some HTTP_CONNECT
  else if c =? "D"%chr then Some HTTP_DELETE
  else if c =? "G"%chr then Some HTTP_GET
  else if c =? "H"%chr then Some HTTP_HEAD
  else if c =? "L"%chr then Some HTTP_LOCK
  else if c =? "M"%chr then Some HTTP_MKCOL
  else if c =? "N"%chr then Some HTTP_NOTIFY
  else if c =? "O"%chr then Some HTTP_OPTIONS
  else if c =? "P"%chr then Some HTTP_POST
  else if c =? "R"%chr then Some HTTP_REPORT
  else if c =? "S"%chr then Some HTTP_SUBSCRIBE
  else if c =? "T"%chr then Some HTTP_TRACE
  else if c =? "U"%chr then Some HTTP_UNLOCK
  else None.

Definition case_s_start_req : M W flow :=
  k <- get ;;
  if (ch k =? CR) || (ch k =? LF) then ret Break
  else
    reset_message ;;
    if negb (IS_ALPHA (ch k)) then fail HPE_INVALID_METHOD
    else
      upd (fun P => set_index 1 (set_method HTTP_DELETE P)) ;;
      match first_method (ch k) with
      | Some m =>
          upd (set_method m) ;;
          UPDATE_STATE s_req_method ;;
          CALLBACK_NOTIFY message_begin ;;
          ret Break
      | None => fail HPE_INVALID_METHOD
      end.

(** The [XX] lines of the method switch: method, position, character and new
    method; the case label is [HTTP_meth << 16 | pos << 8 | ch]. *)
Definition method_switch_cases : list (http_method * Z * Z * http_method) :=
  [ (HTTP_POST,      1, "U"%chr, HTTP_PUT);
    (HTTP_POST,      1, "A"%chr, HTTP_PATCH);
    (HTTP_CONNECT,   1, "H"%chr, HTTP_CHECKOUT);
    (HTTP_CONNECT,   2, "P"%chr, HTTP_COPY);
    (HTTP_MKCOL,     1, "O"%chr, HTTP_MOVE);
    (HTTP_MKCOL,     1, "E"%chr, HTTP_MERGE);
    (HTTP_MKCOL,     2, "A"%chr, HTTP_MKACTIVITY);
    (HTTP_MKCOL,     3, "A"%chr, HTTP_MKCALENDAR);
    (HTTP_SUBSCRIBE, 1, "E"%chr, HTTP_SEARCH);
    (HTTP_REPORT,    2, "B"%chr, HTTP_REBIND);
    (HTTP_POST,      1, "R"%chr, HTTP_PROPFIND);
    (HTTP_PROPFIND,  4, "P"%chr, HTTP_PROPPATCH);
    (HTTP_PUT,       2, "R"%chr, HTTP_PURGE);
    (HTTP_LOCK,      1, "I"%chr, HTTP_LINK);
    (HTTP_UNLOCK,    2, "S"%chr, HTTP_UNSUBSCRIBE);
    (HTTP_UNLOCK,    2, "B"%chr, HTTP_UNBIND);
    (HTTP_UNLOCK,    3, "I"%chr, HTTP_UNLINK) ].

Definition method_switch_key (m : http_method) (pos c : Z) : Z :=
  Z.lor (Z.lor (Z.shiftl (http_method_num m) 16) (Z.shiftl pos 8)) c.

Definition method_switch (m : http_method) (index c : Z) : option http_method :=
  option_map (fun '(_, _, _, m') => m')
    (find (fun '(m0, pos, c0, _) => method_switch_key m index c =? method_switch_key m0 pos c0)
       method_switch_cases).

Definition case_s_req_method : M W flow :=
  k <- get ;;
  if ch k =? 0 then fail HPE_INVALID_METHOD
  else
    P <- parser ;;
    mc <- read_ (c_str_at (method_strings (hp_method P)) (hp_index P)) ;;
    (if (ch k =? " "%chr) && (mc =? 0) then UPDATE_STATE s_req_spaces_before_url
     else if ch k =? mc then ret tt
     else if IS_ALPHA (ch k) then
       match method_switch (hp_method P) (hp_index P) (ch k) with
       | Some m => upd (set_method m)
       | None => fail HPE_INVALID_METHOD
       end
     else if (ch k =? "-"%chr) && (hp_index P =? 1) && http_method_eqb (hp_method P) HTTP_MKCOL
     then upd (set_method HTTP_MSEARCH)
     else fail HPE_INVALID_METHOD) ;;
    index_incr ;;
    ret Break.

(** [UPDATE_STATE(parse_url_char(CURRENT_STATE(), ch))] and the test for [s_dead]. *)
Definition url_step (c : Z) : M W unit :=
  k <- get ;;
  UPDATE_STATE (parse_url_char (p_state k) c) ;;
  k <- get ;;
  if state_eqb (p_state k) s_dead then fail HPE_INVALID_URL else ret tt.

Definition case_s_req_spaces_before_url : M W flow :=
  k <- get ;;
  if ch k =? " "%chr then ret Break
  else
    MARK url ;;
    (if http_method_eqb (hp_method (prs k)) HTTP_CONNECT
     then UPDATE_STATE s_req_server_start else ret tt) ;;
    url_step (ch k) ;;
    ret Break.

(** [s_req_schema], [s_req_schema_slash], [s_req_schema_slash_slash] and
    [s_req_server_start]. *)
Definition case_s_req_schema : M W flow :=
  k <- get ;;
  if (ch k =? " "%chr) || (ch k =? CR) || (ch k =? LF) then fail HPE_INVALID_URL
  else url_step (ch k) ;; ret Break.

(** [s_req_server] to [s_req_fragment]. *)
Definition case_s_req_server : M W flow :=
  k <- get ;;
  if ch k =? " "%chr then
    UPDATE_STATE s_req_http_start ;;
    CALLBACK_DATA url ;;
    ret Break
  else if (ch k =? CR) || (ch k =? LF) then
    upd (fun P => set_http_minor 9 (set_http_major 0 P)) ;;
    UPDATE_STATE (if ch k =? CR then s_req_line_almost_done else s_header_field_start) ;;
    CALLBACK_DATA url ;;
    ret Break
  else url_step (ch k) ;; ret Break.

Definition case_s_req_http_start : M W flow :=
  k <- get ;;
  if ch k =? "H"%chr then UPDATE_STATE s_req_http_H ;; ret Break
  else if ch k =? " "%chr then ret Break
  else fail HPE_INVALID_CONSTANT.

Definition case_s_req_http_H : M W flow := expect_char "T"%chr s_req_http_HT.
Definition case_s_req_http_HT : M W flow := expect_char "T"%chr s_req_http_HTT.
Definition case_s_req_http_HTT : M W flow := expect_char "P"%chr s_req_http_HTTP.
Definition case_s_req_http_HTTP : M W flow := expect_char "/"%chr s_req_first_http_major.

Definition case_s_req_first_http_major : M W flow :=
  k <- get ;;
  if (ch k <? "1"%chr) || ("9"%chr <? ch k) then fail HPE_INVALID_VERSION
  else
    upd (set_http_major (ch k - "0"%chr)) ;;
    UPDATE_STATE s_req_http_major ;;
    ret Break.

Definition case_s_req_http_major : M W flow :=
  k <- get ;;
  if ch k =? "."%chr then UPDATE_STATE s_req_first_http_minor ;; ret Break
  else if negb (IS_NUM (ch k)) then fail HPE_INVALID_VERSION
  else http_major_digit (ch k).

Definition case_s_req_first_http_minor : M W flow :=
  k <- get ;;
  if negb (IS_NUM (ch k)) then fail HPE_INVALID_VERSION
  else
    upd (set_http_minor (ch k - "0"%chr)) ;;
    UPDATE_STATE s_req_http_minor ;;
    ret Break.

Definition case_s_req_http_minor : M W flow :=
  k <- get ;;
  if ch k =? CR then UPDATE_STATE s_req_line_almost_done ;; ret Break
  else if ch k =? LF then UPDATE_STATE s_header_field_start ;; ret Break
  else if negb (IS_NUM (ch k)) then fail HPE_INVALID_VERSION
  else http_minor_digit (ch k).

Definition case_s_req_line_almost_done : M W flow :=
  k <- get ;;
  if negb (ch k =? LF) then fail HPE_LF_EXPECTED
  else UPDATE_STATE s_header_field_start ;; ret Break.

(** ** Header fields *)

(** The [switch (c)] of [s_header_field_start]. *)
Definition first_header_state (c : Z) : header_states :=
  if c =? "c"%chr then h_C
  else if c =? "p"%chr then h_matching_proxy_connection
  else if c =? "t"%chr then h_matching_transfer_encoding
  else if c =? "u"%chr then h_matching_upgrade
  else h_general.

Definition case_s_header_field_start : M W flow :=
  k <- get ;;
  if ch k =? CR then UPDATE_STATE s_headers_almost_done ;; ret Break
  else if ch k =? LF then UPDATE_STATE s_headers_almost_done ;; ret Reexecute
  else
    let c := TOKEN (ch k) in
    if c =? 0 then fail HPE_INVALID_HEADER_TOKEN
    else
      MARK header_field ;;
      upd (set_index 0) ;;
      UPDATE_STATE s_header_field ;;
      upd (set_header_state (first_header_state c)) ;;
      ret Break.

(** The recurring fragment
    [parser->index++; if (parser->index > sizeof(S)-1 || c != S[parser->index])
     {no} else if (parser->index == sizeof(S)-2) {yes}]. *)
Definition match_literal (S : list Z) (c : Z) (no yes : M W unit) : M W unit :=
  index_incr ;;
  P <- parser ;;
  if sizeof S - 1 <? hp_index P then no
  else
    x <- read_ (c_str_at S (hp_index P)) ;;
    if negb (c =? x) then no
    else if hp_index P =? sizeof S - 2 then yes
    else ret tt.

Definition set_hs (h : header_states) : M W unit := upd (set_header_state h).

(** The [switch (parser->header_state)] of [s_header_field]. *)
Definition header_field_char (ch c : Z) : M W unit :=
  P <- parser ;;
  match hp_header_state P with
  | h_general => ret tt
  | h_C => index_incr ;; set_hs (if c =? "o"%chr then h_CO else h_general)
  | h_CO => index_incr ;; set_hs (if c =? "n"%chr then h_CON else h_general)
  | h_CON =>
      index_incr ;;
      set_hs (if c =? "n"%chr then h_matching_connection
              else if c =? "t"%chr then h_matching_content_length
              else h_general)
  | h_matching_connection =>
      match_literal CONNECTION c (set_hs h_general) (set_hs h_connection)
  | h_matching_proxy_connection =>
      match_literal PROXY_CONNECTION c (set_hs h_general) (set_hs h_connection)
  | h_matching_content_length =>
      match_literal CONTENT_LENGTH c (set_hs h_general)
        (P <- parser ;;
         if has_flag P F_CONTENTLENGTH then fail HPE_UNEXPECTED_CONTENT_LENGTH
         else set_hs h_content_length ;; upd (or_flags F_CONTENTLENGTH))
  | h_matching_transfer_encoding =>
      match_literal TRANSFER_ENCODING c (set_hs h_general) (set_hs h_transfer_encoding)
  | h_matching_upgrade =>
      match_literal UPGRADE c (set_hs h_general) (set_hs h_upgrade)
  | h_connection | h_content_length | h_transfer_encoding | h_upgrade =>
      if negb (ch =? " "%chr) then set_hs h_general else ret tt
  | _ => stop Assert_failed
  end.

(** [for (; p != data + len; p++)] of [s_header_field]. *)
Fixpoint header_field_loop (fuel : nat) : M W unit :=
  k <- get ;;
  if p k =? data_len then ret tt
  else match fuel with
  | O => stop Out_of_fuel
  | S fuel' =>
      load_ch ;;
      k <- get ;;
      let c := TOKEN (ch k) in
      if c =? 0 then ret tt
      else
        header_field_char (ch k) c ;;
        set_p (p k + 1) ;;
        header_field_loop fuel'
  end.

Definition loop_fuel : nat := S (length data).

Definition case_s_header_field : M W flow :=
  k <- get ;;
  let start := p k in
  header_field_loop loop_fuel ;;
  k <- get ;;
  COUNT_HEADER_SIZE (p k - start) ;;
  if p k =? data_len then set_p (p k - 1) ;; ret Break
  else if ch k =? ":"%chr then
    UPDATE_STATE s_header_value_discard_ws ;;
    CALLBACK_DATA header_field ;;
    ret Break
  else fail HPE_INVALID_HEADER_TOKEN.

(** ** Header values *)

Definition case_s_header_value_start : M W flow :=
  k <- get ;;
  MARK header_value ;;
  UPDATE_STATE s_header_value ;;
  upd (set_index 0) ;;
  let c := LOWER (ch k) in
  P <- parser ;;
  (match hp_header_state P with
   | h_upgrade => upd (or_flags F_UPGRADE) ;; set_hs h_general
   | h_transfer_encoding =>
       set_hs (if c =? "c"%chr then h_matching_transfer_encoding_chunked else h_general)
   | h_content_length =>
       if negb (IS_NUM (ch k)) then fail HPE_INVALID_CONTENT_LENGTH
       else upd (set_content_length (ch k - "0"%chr))
   | h_connection =>
       set_hs (if c =? "k"%chr then h_matching_connection_keep_alive
               else if c =? "c"%chr then h_matching_connection_close
               else if c =? "u"%chr then h_matching_connection_upgrade
               else h_matching_connection_token)
   | h_matching_connection_token_start => ret tt
   | _ => set_hs h_general
   end) ;;
  ret Break.

Definition case_s_header_value_discard_ws : M W flow :=
  k <- get ;;
  if (ch k =? " "%chr) || (ch k =? HT) then ret Break
  else if ch k =? CR then
    UPDATE_STATE s_header_value_discard_ws_almost_done ;; ret Break
  else if ch k =? LF then
    UPDATE_STATE s_header_value_discard_lws ;; ret Break
  else case_s_header_value_start.

(** [memchr(data + q, c, limit)] *)
Fixpoint memchr_list (l : list Z) (c : Z) (q : Z) : option Z :=
  match l with
  | [] => None
  | x :: l' => if x =? c then Some q else memchr_list l' c (q + 1)
  end.

Definition memchr (q c limit : Z) : option Z := memchr_list (slice data q limit) c q.

(** The [h_general] case: skip to the byte before the next CR or LF. *)
Definition header_value_skip (q : Z) : Z :=
  let limit := Z.min (data_len - q) HTTP_MAX_HEADER_SIZE in
  let p_cr := memchr q CR limit in
  let p_lf := memchr q LF limit in
  (match p_cr, p_lf with
   | Some cr, Some lf => if lf <=? cr then lf else cr
   | Some cr, None => cr
   | None, Some lf => lf
   | None, None => data_len
   end) - 1.

(** [match_literal] on the local [h_state] instead of [parser->header_state]. *)
Definition match_literal_h (S : list Z) (c : Z) (no yes same : header_states)
  : M W header_states :=
  index_incr ;;
  P <- parser ;;
  if sizeof S - 1 <? hp_index P then ret no
  else
    x <- read_ (c_str_at S (hp_index P)) ;;
    if negb (c =? x) then ret no
    else if hp_index P =? sizeof S - 2 then ret yes
    else ret same.

(** The [switch (h_state)] of [s_header_value]; the result is the new value of
    [h_state]. *)
Definition header_value_char (h_state : header_states) (ch : Z) : M W header_states :=
  let c := LOWER ch in
  match h_state with
  | h_general =>
      k <- get ;;
      set_p (header_value_skip (p k)) ;;
      ret h_general
  | h_connection | h_transfer_encoding => stop Assert_failed
  | h_content_length =>
      if ch =? " "%chr then ret h_state
      else if negb (IS_NUM ch) then
        SET_ERRNO HPE_INVALID_CONTENT_LENGTH ;; set_hs h_state ;; goto_error
      else
        P <- parser ;;
        let t := u64 (u64 (hp_content_length P * 10) + (ch - "0"%chr)) in
        if (ULLONG_MAX - 10) / 10 <? hp_content_length P then
          SET_ERRNO HPE_INVALID_CONTENT_LENGTH ;; set_hs h_state ;; goto_error
        else upd (set_content_length t) ;; ret h_state
  | h_matching_transfer_encoding_chunked =>
      match_literal_h CHUNKED c h_general h_transfer_encoding_chunked h_state
  | h_matching_connection_token_start =>
      if c =? "k"%chr then ret h_matching_connection_keep_alive
      else if c =? "c"%chr then ret h_matching_connection_close
      else if c =? "u"%chr then ret h_matching_connection_upgrade
      else if truthy (STRICT_TOKEN c) then ret h_matching_connection_token
      else if (c =? " "%chr) || (c =? HT) then ret h_state
      else ret h_general
  | h_matching_connection_keep_alive =>
      match_literal_h KEEP_ALIVE c h_matching_connection_token h_connection_keep_alive h_state
  | h_matching_connection_close =>
      match_literal_h CLOSE c h_matching_connection_token h_connection_close h_state
  | h_matching_connection_upgrade =>
      match_literal_h UPGRADE c h_matching_connection_token h_connection_upgrade h_state
  | h_matching_connection_token =>
      if ch =? ","%chr then upd (set_index 0) ;; ret h_matching_connection_token_start
      else ret h_state
  | h_transfer_encoding_chunked =>
      if negb (ch =? " "%chr) then ret h_general else ret h_state
  | h_connection_keep_alive | h_connection_close | h_connection_upgrade =>
      if ch =? ","%chr then
        upd (or_flags (match h_state with
                       | h_connection_keep_alive => F_CONNECTION_KEEP_ALIVE
                       | h_connection_close => F_CONNECTION_CLOSE
                       | _ => F_CONNECTION_UPGRADE
                       end)) ;;
        upd (set_index 0) ;;
        ret h_matching_connection_token_start
      else if negb (ch =? " "%chr) then ret h_matching_connection_token
      else ret h_state
  | _ => UPDATE_STATE s_header_value ;; ret h_general
  end.

(** The [for (; p != data + len; p++)] of [s_header_value]: left with a value
    of [h_state], or by [goto reexecute]. *)
Inductive value_exit := Value_done (h_state : header_states) | Value_reexecute.

Fixpoint header_value_loop (fuel : nat) (start : Z) (h_state : header_states)
  : M W value_exit :=
  k <- get ;;
  if p k =? data_len then ret (Value_done h_state)
  else match fuel with
  | O => stop Out_of_fuel
  | S fuel' =>
      load_ch ;;
      k <- get ;;
      if ch k =? CR then
        UPDATE_STATE s_header_almost_done ;;
        set_hs h_state ;;
        CALLBACK_DATA header_value ;;
        ret (Value_done h_state)
      else if ch k =? LF then
        UPDATE_STATE s_header_almost_done ;;
        COUNT_HEADER_SIZE (p k - start) ;;
        set_hs h_state ;;
        CALLBACK_DATA_NOADVANCE header_value ;;
        ret Value_reexecute
      else if negb lenient && negb (IS_HEADER_CHAR (ch k)) then
        fail HPE_INVALID_HEADER_TOKEN
      else
        h <- header_value_char h_state (ch k) ;;
        k <- get ;;
        set_p (p k + 1) ;;
        header_value_loop fuel' start h
  end.

Definition case_s_header_value : M W flow :=
  k <- get ;;
  let start := p k in
  x <- header_value_loop loop_fuel start (hp_header_state (prs k)) ;;
  match x with
  | Value_reexecute => ret Reexecute
  | Value_done h_state =>
      set_hs h_state ;;
      k <- get ;;
      COUNT_HEADER_SIZE (p k - start) ;;
      (if p k =? data_len then set_p (p k - 1) else ret tt) ;;
      ret Break
  end.

Definition case_s_header_almost_done : M W flow :=
  k <- get ;;
  if negb (ch k =? LF) then fail HPE_LF_EXPECTED
  else UPDATE_STATE s_header_value_lws ;; ret Break.

(** The flag recorded when a header is finished. *)
Definition finish_header : M W unit :=
  P <- parser ;;
  match hp_header_state P with
  | h_connection_keep_alive => upd (or_flags F_CONNECTION_KEEP_ALIVE)
  | h_connection_close => upd (or_flags F_CONNECTION_CLOSE)
  | h_transfer_encoding_chunked => upd (or_flags F_CHUNKED)
  | h_connection_upgrade => upd (or_flags F_CONNECTION_UPGRADE)
  | _ => ret tt
  end.

Definition case_s_header_value_lws : M W flow :=
  k <- get ;;
  if (ch k =? " "%chr) || (ch k =? HT) then
    UPDATE_STATE s_header_value_start ;; ret Reexecute
  else
    finish_header ;;
    UPDATE_STATE s_header_field_start ;;
    ret Reexecute.

Definition case_s_header_value_discard_ws_almost_done : M W flow :=
  expect_char LF s_header_value_discard_lws.

Definition case_s_header_value_discard_lws : M W flow :=
  k <- get ;;
  if (ch k =? " "%chr) || (ch k =? HT) then
    UPDATE_STATE s_header_value_discard_ws ;; ret Break
  else
    finish_header ;;
    MARK header_value ;;
    UPDATE_STATE s_header_field_start ;;
    CALLBACK_DATA_NOADVANCE header_value ;;
    ret Reexecute.

(** ** End of the headers *)

(** [parser->upgrade = ((flags & (F_UPGRADE | F_CONNECTION_UPGRADE)) == ... ||
    parser->method == HTTP_CONNECT)] *)
Definition upgrade_requested (P : http_parser) : bool :=
  (Z.land (hp_flags P) (Z.lor F_UPGRADE F_CONNECTION_UPGRADE) =?
     Z.lor F_UPGRADE F_CONNECTION_UPGRADE)
  || http_method_eqb (hp_method P) HTTP_CONNECT.

(** The call of [on_headers_complete]: [parser->state] is not updated before
    the call and [p_state] not after it. *)
Definition call_on_headers_complete : M W unit :=
  match on_headers_complete settings with
  | None => ret tt
  | Some cb =>
      k <- get ;;
      let '(w, P, rc) := cb (world k) (prs k) in
      modify (fun k => with_prs P (with_world w k)) ;;
      if rc =? 0 then ret tt
      else if rc =? 2 then
        upd (set_upgrade true) ;; upd (or_flags F_SKIPBODY)
      else if rc =? 1 then upd (or_flags F_SKIPBODY)
      else SET_ERRNO HPE_CB_headers_complete ;; RETURN (p k)
  end.

Definition case_s_headers_almost_done : M W flow :=
  k <- get ;;
  STRICT_CHECK (negb (ch k =? LF)) ;;
  P <- parser ;;
  if has_flag P F_TRAILING then
    UPDATE_STATE s_message_done ;;
    CALLBACK_NOTIFY_NOADVANCE chunk_complete ;;
    ret Reexecute
  else if has_flag P F_CHUNKED && has_flag P F_CONTENTLENGTH then
    fail HPE_UNEXPECTED_CONTENT_LENGTH
  else
    UPDATE_STATE s_headers_done ;;
    upd (fun P => set_upgrade (upgrade_requested P) P) ;;
    call_on_headers_complete ;;
    P <- parser ;;
    if negb (http_errno_eqb (hp_http_errno P) HPE_OK) then RETURN (p k)
    else ret Reexecute.

(** [UPDATE_STATE(NEW_MESSAGE()); CALLBACK_NOTIFY(message_complete);] *)
Definition finish_message : M W unit :=
  P <- parser ;;
  UPDATE_STATE (NEW_MESSAGE P) ;;
  CALLBACK_NOTIFY message_complete.

Definition has_body (P : http_parser) : bool :=
  has_flag P F_CHUNKED ||
  ((0 <? hp_content_length P) && negb (hp_content_length P =? ULLONG_MAX)).

Definition case_s_headers_done : M W flow :=
  k <- get ;;
  STRICT_CHECK (negb (ch k =? LF)) ;;
  upd (set_nread 0) ;;
  P <- parser ;;
  if hp_upgrade P && (http_method_eqb (hp_method P) HTTP_CONNECT ||
                      has_flag P F_SKIPBODY || negb (has_body P)) then
    finish_message ;; RETURN (p k + 1)
  else if has_flag P F_SKIPBODY then finish_message ;; ret Break
  else if has_flag P F_CHUNKED then UPDATE_STATE s_chunk_size_start ;; ret Break
  else if hp_content_length P =? 0 then finish_message ;; ret Break
  else if negb (hp_content_length P =? ULLONG_MAX) then
    UPDATE_STATE s_body_identity ;; ret Break
  else if negb (http_message_needs_eof P) then finish_message ;; ret Break
  else UPDATE_STATE s_body_identity_eof ;; ret Break.

(** ** Bodies *)

(** [assert(parser->content_length != 0 && parser->content_length != ULLONG_MAX)] *)
Definition assert_content_length (P : http_parser) : M W unit :=
  assert_ (negb (hp_content_length P =? 0) && negb (hp_content_length P =? ULLONG_MAX)).

(** [MARK(body); parser->content_length -= to_read; p += to_read - 1;] *)
Definition consume_body (to_read : Z) : M W unit :=
  MARK body ;;
  upd (fun P => set_content_length (u64 (hp_content_length P - to_read)) P) ;;
  k <- get ;;
  set_p (p k + (to_read - 1)).

Definition case_s_body_identity : M W flow :=
  k <- get ;;
  let to_read := Z.min (hp_content_length (prs k)) (u64 (data_len - p k)) in
  assert_content_length (prs k) ;;
  consume_body to_read ;;
  k <- get ;;
  if hp_content_length (prs k) =? 0 then
    UPDATE_STATE s_message_done ;;
    CALLBACK_DATA_ body (fun mark => p k - mark + 1) (p k) ;;
    ret Reexecute
  else ret Break.

Definition case_s_body_identity_eof : M W flow :=
  MARK body ;;
  set_p (data_len - 1) ;;
  ret Break.

Definition case_s_message_done : M W flow :=
  k <- get ;;
  finish_message ;;
  P <- parser ;;
  if hp_upgrade P then RETURN (p k + 1) else ret Break.

(** ** Chunked bodies *)

Definition assert_chunked (P : http_parser) : M W unit := assert_ (has_flag P F_CHUNKED).

Definition case_s_chunk_size_start : M W flow :=
  k <- get ;;
  assert_ (hp_nread (prs k) =? 1) ;;
  assert_chunked (prs k) ;;
  let unhex_val := unhex_at (ch k) in
  if unhex_val =? -1 then fail HPE_INVALID_CHUNK_SIZE
  else
    upd (set_content_length (u64 unhex_val)) ;;
    UPDATE_STATE s_chunk_size ;;
    ret Break.

Definition case_s_chunk_size : M W flow :=
  k <- get ;;
  assert_chunked (prs k) ;;
  if ch k =? CR then UPDATE_STATE s_chunk_size_almost_done ;; ret Break
  else
    let unhex_val := unhex_at (ch k) in
    if unhex_val =? -1 then
      if (ch k =? ";"%chr) || (ch k =? " "%chr) then
        UPDATE_STATE s_chunk_parameters ;; ret Break
      else fail HPE_INVALID_CHUNK_SIZE
    else
      let t := u64 (u64 (hp_content_length (prs k) * 16) + unhex_val) in
      if (ULLONG_MAX - 16) / 16 <? hp_content_length (prs k) then
        fail HPE_INVALID_CONTENT_LENGTH
      else upd (set_content_length t) ;; ret Break.

Definition case_s_chunk_parameters : M W flow :=
  k <- get ;;
  assert_chunked (prs k) ;;
  if ch k =? CR then UPDATE_STATE s_chunk_size_almost_done ;; ret Break
  else ret Break.

Definition case_s_chunk_size_almost_done : M W flow :=
  k <- get ;;
  assert_chunked (prs k) ;;
  STRICT_CHECK (negb (ch k =? LF)) ;;
  upd (set_nread 0) ;;
  (if hp_content_length (prs k) =? 0 then
     upd (or_flags F_TRAILING) ;; UPDATE_STATE s_header_field_start
   else UPDATE_STATE s_chunk_data) ;;
  CALLBACK_NOTIFY chunk_header ;;
  ret Break.

Definition case_s_chunk_data : M W flow :=
  k <- get ;;
  let to_read := Z.min (hp_content_length (prs k)) (u64 (data_len - p k)) in
  assert_chunked (prs k) ;;
  assert_content_length (prs k) ;;
  consume_body to_read ;;
  k <- get ;;
  (if hp_content_length (prs k) =? 0 then UPDATE_STATE s_chunk_data_almost_done
   else ret tt) ;;
  ret Break.

Definition case_s_chunk_data_almost_done : M W flow :=
  k <- get ;;
  assert_chunked (prs k) ;;
  assert_ (hp_content_length (prs k) =? 0) ;;
  STRICT_CHECK (negb (ch k =? CR)) ;;
  UPDATE_STATE s_chunk_data_done ;;
  CALLBACK_DATA body ;;
  ret Break.

Definition case_s_chunk_data_done : M W flow :=
  k <- get ;;
  assert_chunked (prs k) ;;
  STRICT_CHECK (negb (ch k =? LF)) ;;
  upd (set_nread 0) ;;
  UPDATE_STATE s_chunk_size_start ;;
  CALLBACK_NOTIFY chunk_complete ;;
  ret Break.

(** ** The switch and the loop *)

(** The [case] of a state. *)
Definition switch_case (s : state) : M W flow :=
  match s with
  | s_dead => case_s_dead
  | s_start_req_or_res => case_s_start_req_or_res
  | s_res_or_resp_H => case_s_res_or_resp_H
  | s_start_res => case_s_start_res
  | s_res_H => case_s_res_H
  | s_res_HT => case_s_res_HT
  | s_res_HTT => case_s_res_HTT
  | s_res_HTTP => case_s_res_HTTP
  | s_res_first_http_major => case_s_res_first_http_major
  | s_res_http_major => case_s_res_http_major
  | s_res_first_http_minor => case_s_res_first_http_minor
  | s_res_http_minor => case_s_res_http_minor
  | s_res_first_status_code => case_s_res_first_status_code
  | s_res_status_code => case_s_res_status_code
  | s_res_status_start => case_s_res_status_start
  | s_res_status => case_s_res_status
  | s_res_line_almost_done => case_s_res_line_almost_done
  | s_start_req => case_s_start_req
  | s_req_method => case_s_req_method
  | s_req_spaces_before_url => case_s_req_spaces_before_url
  | s_req_schema | s_req_schema_slash | s_req_schema_slash_slash
  | s_req_server_start => case_s_req_schema
  | s_req_server | s_req_server_with_at | s_req_path
  | s_req_query_string_start | s_req_query_string | s_req_fragment_start
  | s_req_fragment => case_s_req_server
  | s_req_http_start => case_s_req_http_start
  | s_req_http_H => case_s_req_http_H
  | s_req_http_HT => case_s_req_http_HT
  | s_req_http_HTT => case_s_req_http_HTT
  | s_req_http_HTTP => case_s_req_http_HTTP
  | s_req_first_http_major => case_s_req_first_http_major
  | s_req_http_major => case_s_req_http_major
  | s_req_first_http_minor => case_s_req_first_http_minor
  | s_req_http_minor => case_s_req_http_minor
  | s_req_line_almost_done => case_s_req_line_almost_done
  | s_header_field_start => case_s_header_field_start
  | s_header_field => case_s_header_field
  | s_header_value_discard_ws => case_s_header_value_discard_ws
  | s_header_value_start => case_s_header_value_start
  | s_header_value => case_s_header_value
  | s_header_almost_done => case_s_header_almost_done
  | s_header_value_lws => case_s_header_value_lws
  | s_header_value_discard_ws_almost_done =>
         case_s_header_value_discard_ws_almost_done
  | s_header_value_discard_lws => case_s_header_value_discard_lws
  | s_headers_almost_done => case_s_headers_almost_done
  | s_headers_done => case_s_headers_done
  | s_body_identity => case_s_body_identity
  | s_body_identity_eof => case_s_body_identity_eof
  | s_message_done => case_s_message_done
  | s_chunk_size_start => case_s_chunk_size_start
  | s_chunk_size => case_s_chunk_size
  | s_chunk_parameters => case_s_chunk_parameters
  | s_chunk_size_almost_done => case_s_chunk_size_almost_done
  | s_chunk_data => case_s_chunk_data
  | s_chunk_data_almost_done => case_s_chunk_data_almost_done
  | s_chunk_data_done => case_s_chunk_data_done
  end.

Definition execute_switch : M W flow := fun k => switch_case (p_state k) k.

(** The label [reexecute]. *)
Fixpoint reexecute (fuel : nat) : M W unit :=
  match fuel with
  | O => stop Out_of_fuel
  | S fuel' =>
      f <- execute_switch ;;
      match f with
      | Break => ret tt
      | Reexecute => reexecute fuel'
      end
  end.

(** A bound on the executions of the switch for one byte. *)
Definition reexecute_fuel : nat := 4.

(** [for (p=data; p != data + len; p++)] *)
Fixpoint execute_loop (fuel : nat) : M W unit :=
  k <- get ;;
  if p k =? data_len then ret tt
  else match fuel with
  | O => stop Out_of_fuel
  | S fuel' =>
      load_ch ;;
      (if PARSING_HEADER (p_state k) then COUNT_HEADER_SIZE 1 else ret tt) ;;
      reexecute reexecute_fuel ;;
      k <- get ;;
      set_p (p k + 1) ;;
      execute_loop fuel'
  end.

Definition mark_count (o : option Z) : Z := match o with Some _ => 1 | None => 0 end.

(** From the assertion on the marks to [RETURN(len)]. *)
Definition execute_end : M W unit :=
  k <- get ;;
  assert_ (mark_count (header_field_mark k) + mark_count (header_value_mark k) +
           mark_count (url_mark k) + mark_count (body_mark k) +
           mark_count (status_mark k) <=? 1) ;;
  CALLBACK_DATA_NOADVANCE header_field ;;
  CALLBACK_DATA_NOADVANCE header_value ;;
  CALLBACK_DATA_NOADVANCE url ;;
  CALLBACK_DATA_NOADVANCE body ;;
  CALLBACK_DATA_NOADVANCE status ;;
  RETURN data_len.

(** The marks set on entry: a callback left open by the previous call goes on
    with the first byte of this one. *)
Definition entry_mark (d : data_cb) (s : state) : option Z :=
  match d, s with
  | header_field, s_header_field => Some 0
  | header_value, s_header_value => Some 0
  | url, (s_req_path | s_req_schema | s_req_schema_slash | s_req_schema_slash_slash
         | s_req_server_start | s_req_server | s_req_server_with_at
         | s_req_query_string_start | s_req_query_string | s_req_fragment_start
         | s_req_fragment) => Some 0
  | status, s_res_status => Some 0
  | _, _ => None
  end.

Definition entry_ctx (P : http_parser) (w : W) : ctx W :=
  let s := hp_state P in
  mk_ctx P 0 0 s (entry_mark header_field s) (entry_mark header_value s)
    (entry_mark url s) (entry_mark body s) (entry_mark status s) w.

(** The case [len == 0]: the end of the input. *)
Definition execute_eof : M W unit :=
  k <- get ;;
  match p_state k with
  | s_body_identity_eof =>
      CALLBACK_NOTIFY_NOADVANCE message_complete ;;
      (fun k => Return k 0)
  | s_dead | s_start_req_or_res | s_start_res | s_start_req => fun k => Return k 0
  | _ => SET_ERRNO HPE_INVALID_EOF_STATE ;; (fun k => Return k 1)
  end.

End Execute.

Inductive exec_result (W : Type) :=
| Returned (P : http_parser) (w : W) (n : Z)
| Aborted (why : stuck).

Arguments Returned {W}.
Arguments Aborted {W}.

(** The label [error]. *)
Definition execute_error {W} (k : ctx W) : exec_result W :=
  let P := if http_errno_eqb (hp_http_errno (prs k)) HPE_OK
           then set_http_errno HPE_UNKNOWN (prs k) else prs k in
  Returned (set_state (p_state k) P) (world k) (p k).

Definition run_body {W} (m : M W unit) (k : ctx W) : exec_result W :=
  match m k with
  | Next _ k' => Aborted Out_of_fuel
  | Return k' n => Returned (prs k') (world k') n
  | Goto_error k' => execute_error k'
  | Stuck why => Aborted why
  end.

Definition http_parser_execute {W} `{BuildConfig} (settings : http_parser_settings W)
  (P : http_parser) (w : W) (data : list Z) : exec_result W :=
  if negb (http_errno_eqb (hp_http_errno P) HPE_OK) then Returned P w 0
  else if zlen data =? 0 then
    run_body (execute_eof settings) (entry_ctx P w)
  else
    run_body
      (bind (execute_loop settings data (hp_lenient_http_headers P) (loop_fuel data))
            (fun _ => execute_end settings data))
      (entry_ctx P w).
