(* ===== verification/HttpLogic.v ===== *)
(** * Reasoning about [http_parser_execute]

    A weakest-precondition calculus for the control-flow monad of [HttpExec],
    the interface the parser requires of the application's callbacks
    ([CallbacksOk]), and the invariant of the parser object. *)

From Stdlib Require Import String ZArith List Bool Lia.
From S2P Require Import Prelude HttpDefs HttpUrl HttpExec.
Import ListNotations.
Local Open Scope Z_scope.

(** ** Weakest preconditions

    [wp m Q E R k]: run from [k], the computation [m] does not get stuck; it
    falls through in a context that satisfies [Q], jumps to [error] in one
    that satisfies [E], or returns in one that satisfies [R]. *)

Definition wp {W A} (m : M W A) (Q : A -> ctx W -> Prop) (E : ctx W -> Prop)
  (R : ctx W -> Z -> Prop) (k : ctx W) : Prop :=
  match m k with
  | Next a k' => Q a k'
  | Goto_error k' => E k'
  | Return k' n => R k' n
  | Stuck _ => False
  end.

(** ** The callback interface

    A callback may replace [parser->data] and pause the parser; it leaves the
    rest of the object alone. *)

Definition cb_frame (P P' : http_parser) : Prop :=
  exists e d, (e = HPE_OK \/ e = HPE_PAUSED) /\ P' = set_data d (set_http_errno e P).

Class CallbacksOk {W} (settings : http_parser_settings W) : Prop := {
  notify_frame : forall n cb w P w' P' rc,
    on_notify settings n = Some cb -> hp_http_errno P = HPE_OK ->
    cb w P = (w', P', rc) -> cb_frame P P';
  data_frame : forall d cb w P l w' P' rc,
    on_data settings d = Some cb -> hp_http_errno P = HPE_OK ->
    cb w P l = (w', P', rc) -> cb_frame P P';
  headers_complete_frame : forall cb w P w' P' rc,
    on_headers_complete settings = Some cb -> hp_http_errno P = HPE_OK ->
    cb w P = (w', P', rc) -> cb_frame P P'
}.

(** ** The invariant *)

(** Every field fits its C declaration. *)
Record parser_ranges `{BuildConfig} (P : http_parser) : Prop := {
  flags_range : 0 <= hp_flags P < 2 ^ 8;
  index_range : 0 <= hp_index P < 2 ^ 7;
  nread_range : 0 <= hp_nread P < 2 ^ 32;
  nread_limit : hp_nread P <= Z.max 0 HTTP_MAX_HEADER_SIZE;
  content_length_range : 0 <= hp_content_length P < 2 ^ 64;
  http_major_range : 0 <= hp_http_major P <= 999;
  http_minor_range : 0 <= hp_http_minor P <= 999;
  status_code_range : 0 <= hp_status_code P <= 999
}.

(** The header states of a header name being read, and of a value. *)
Definition name_state (h : header_states) : bool :=
  header_states_num h <=? header_states_num h_upgrade.

Definition value_state (h : header_states) : bool :=
  match h with h_connection | h_transfer_encoding => false | _ => true end.

(** The chunked coding frames the body, and no Content-Length was given. *)
Definition chunked_only (P : http_parser) : Prop :=
  has_flag P F_CHUNKED = true /\ has_flag P F_CONTENTLENGTH = false.

(** What holds of the object in a state; [nr] is the value of [nread] on which
    [s_chunk_size_start] relies: 0 between two bytes, 1 once the byte is counted. *)
Definition state_inv (nr : Z) (s : state) (P : http_parser) : Prop :=
  match s with
  | s_req_method => 1 <= hp_index P <= zlen (method_strings (hp_method P))
  | s_header_field => name_state (hp_header_state P) = true
  | s_header_value => value_state (hp_header_state P) = true
  | s_body_identity =>
      hp_content_length P <> 0 /\ hp_content_length P <> ULLONG_MAX
  | s_headers_done => has_flag P F_CHUNKED && has_flag P F_CONTENTLENGTH = false
  | s_chunk_size_start => hp_nread P = nr /\ chunked_only P
  | s_chunk_size | s_chunk_parameters | s_chunk_size_almost_done =>
      chunked_only P /\ hp_content_length P <> ULLONG_MAX
  | s_chunk_data =>
      chunked_only P /\ hp_content_length P <> 0 /\ hp_content_length P <> ULLONG_MAX
  | s_chunk_data_almost_done => chunked_only P /\ hp_content_length P = 0
  | s_chunk_data_done => chunked_only P
  | _ => True
  end.

(** The invariant of the parser object between two calls. *)
Definition parser_inv `{BuildConfig} (P : http_parser) : Prop :=
  parser_ranges P /\ state_inv 0 (hp_state P) P.

(** The states in which a mark may be set. *)
Definition mark_state (d : data_cb) (s : state) : bool :=
  match d, s with
  | header_field, s_header_field => true
  | header_value, s_header_value => true
  | url, (s_req_path | s_req_schema | s_req_schema_slash | s_req_schema_slash_slash
         | s_req_server_start | s_req_server | s_req_server_with_at
         | s_req_query_string_start | s_req_query_string | s_req_fragment_start
         | s_req_fragment) => true
  | body, (s_body_identity | s_body_identity_eof | s_chunk_data
          | s_chunk_data_almost_done) => true
  | status, s_res_status => true
  | _, _ => false
  end.

Definition mark_ok (d : data_cb) (s : state) (q : Z) (o : option Z) : Prop :=
  match o with
  | None => True
  | Some m => 0 <= m <= q /\ mark_state d s = true
  end.

Definition marks_ok {W} (k : ctx W) : Prop :=
  forall d, mark_ok d (p_state k) (p k) (get_mark d k).

(** The invariant inside the loop: [lo] bounds [p] from below. *)
Record loop_inv {W} `{BuildConfig} (nr lo hi : Z) (k : ctx W) : Prop := {
  inv_errno : hp_http_errno (prs k) = HPE_OK;
  inv_ranges : parser_ranges (prs k);
  inv_state : state_inv nr (p_state k) (prs k);
  inv_marks : marks_ok k;
  inv_ch : 0 <= ch k < 256;
  inv_lo : 0 <= lo <= p k;
  inv_hi : p k < hi
}.

(** The jump to [error]: an error number other than a pause is set. *)
Definition error_post {W} (len : Z) (k : ctx W) : Prop :=
  hp_http_errno (prs k) <> HPE_OK /\ hp_http_errno (prs k) <> HPE_PAUSED /\
  0 <= p k <= len.

(** A [return] of [n]: unless it reports an error, the object satisfies its
    invariant; without an error or a pause all [len] bytes are consumed, except
    after an upgrade. *)
Definition returns {W} `{BuildConfig} (hi len : Z) (k : ctx W) (n : Z) : Prop :=
  0 <= n <= hi /\
  (hp_http_errno (prs k) = HPE_OK \/ hp_http_errno (prs k) = HPE_PAUSED ->
   parser_inv (prs k)) /\
  (hp_http_errno (prs k) = HPE_OK -> n = len \/ hp_upgrade (prs k) = true).

Definition return_post {W} `{BuildConfig} (len : Z) : ctx W -> Z -> Prop := returns len len.

(** The number of times a state can still [goto reexecute] on the same byte. *)
Definition reexecute_rank (s : state) : nat :=
  match s with
  | s_header_value_lws | s_header_value_discard_lws => 3
  | s_header_field_start => 2
  | s_headers_almost_done | s_header_value | s_body_identity
  | s_start_req_or_res => 1
  | _ => 0
  end%nat.

(** The postcondition of the switch entered in state [s]. *)
Definition switch_post {W} `{BuildConfig} (s : state) (lo len : Z) (f : flow) (k : ctx W) : Prop :=
  match f with
  | Break => loop_inv 0 lo len k
  | Reexecute => loop_inv 1 lo len k /\ (reexecute_rank (p_state k) < reexecute_rank s)%nat
  end.

(** ** Rules of the calculus *)

Section Rules.
Context {W : Type}.
Implicit Types (k : ctx W) (E : ctx W -> Prop) (R : ctx W -> Z -> Prop).

Lemma wp_bind {A B} (m : M W A) (f : A -> M W B) Q E R k :
  wp m (fun a => wp (f a) Q E R) E R k -> wp (bind m f) Q E R k.
Proof. unfold wp, bind. destruct (m k); auto. Qed.

Lemma wp_mono {A} (m : M W A) (Q Q' : A -> ctx W -> Prop) E E' R R' k :
  wp m Q E R k ->
  (forall a k', Q a k' -> Q' a k') -> (forall k', E k' -> E' k') ->
  (forall k' n, R k' n -> R' k' n) -> wp m Q' E' R' k.
Proof. unfold wp. destruct (m k); auto. Qed.

Lemma wp_ret {A} (a : A) (Q : A -> ctx W -> Prop) E R k : Q a k -> wp (ret a) Q E R k.
Proof. auto. Qed.

Lemma wp_get (Q : ctx W -> ctx W -> Prop) E R k : Q k k -> wp get Q E R k.
Proof. auto. Qed.

Lemma wp_parser (Q : http_parser -> ctx W -> Prop) E R k : Q (prs k) k -> wp parser Q E R k.
Proof. auto. Qed.

Lemma wp_modify g (Q : unit -> ctx W -> Prop) E R k : Q tt (g k) -> wp (modify g) Q E R k.
Proof. auto. Qed.

Lemma wp_fail {A} e (Q : A -> ctx W -> Prop) E R k :
  E (with_prs (set_http_errno e (prs k)) k) -> wp (fail e) Q E R k.
Proof. auto. Qed.

Lemma wp_goto_error {A} (Q : A -> ctx W -> Prop) E R k : E k -> wp goto_error Q E R k.
Proof. auto. Qed.

Lemma wp_RETURN {A} v (Q : A -> ctx W -> Prop) E R k :
  R (with_prs (set_state (p_state k) (prs k)) k) v -> wp (RETURN v) Q E R k.
Proof. auto. Qed.

Lemma wp_assert b (Q : unit -> ctx W -> Prop) E R k :
  b = true -> Q tt k -> wp (assert_ b) Q E R k.
Proof. intros ->. auto. Qed.

Lemma wp_switch `{BuildConfig} settings data lenient (Q : flow -> ctx W -> Prop) E R k :
  wp (switch_case settings data lenient (p_state k)) Q E R k ->
  wp (execute_switch settings data lenient) Q E R k.
Proof. auto. Qed.

Lemma wp_read {A} (o : option A) a (Q : A -> ctx W -> Prop) E R k :
  o = Some a -> Q a k -> wp (read_ o) Q E R k.
Proof. intros ->. auto. Qed.

End Rules.

(** ** Rules of the callback macros *)

Section CallbackRules.
Context {W : Type} `{BuildConfig}.
Variable settings : http_parser_settings W.
Context `{!CallbacksOk settings}.
Variable data : list Z.
Implicit Types (k : ctx W) (E : ctx W -> Prop) (R : ctx W -> Z -> Prop).

Lemma cb_frame_cases P P' : cb_frame P P' ->
  exists d, P' = set_data d (set_http_errno HPE_OK P) \/
            P' = set_data d (set_http_errno HPE_PAUSED P).
Proof. intros (e & d & [-> | ->] & ->); eauto. Qed.

(** After a callback: the parser up to [data] and [state], or an exit with an
    error number that is set. *)
Definition after_cb (P : http_parser) (d : Z) (s : state) : http_parser :=
  set_state s (set_data d P).

Definition exit_cb (P : http_parser) (d : Z) (s : state) (e : http_errno) : http_parser :=
  set_http_errno e (after_cb P d s).

Lemma wp_notify_state FOR ER (Q : unit -> ctx W -> Prop) E R k :
  hp_http_errno (prs k) = HPE_OK ->
  (forall w d s, s = p_state k \/ s = hp_state (prs k) ->
     Q tt (with_prs (after_cb (prs k) d s) (with_world w k))) ->
  (forall w d e, e <> HPE_OK ->
     R (with_prs (exit_cb (prs k) d (p_state k) e) (with_world w k)) ER) ->
  wp (CALLBACK_NOTIFY_ settings FOR ER) Q E R k.
Proof.
  intros He HQ HR. unfold wp, CALLBACK_NOTIFY_. rewrite He. cbn.
  destruct k as [P q c s a b d' e f w]. destruct P. cbn in *. subst.
  destruct (on_notify settings FOR) as [cb|] eqn:Hcb;
    [|exact (HQ w _ _ (or_intror eq_refl))].
  destruct (cb _ _) as [[w' P'] rc] eqn:Hrun.
  eapply notify_frame in Hrun; [|exact Hcb|reflexivity].
  apply cb_frame_cases in Hrun as [d [-> | ->]]; cbn;
    destruct (rc =? 0); destruct FOR; cbn;
    (apply (HQ w' d s); auto; fail) || (apply (HR w' d); discriminate).
Qed.

Lemma wp_notify FOR ER (Q : unit -> ctx W -> Prop) E R k :
  hp_http_errno (prs k) = HPE_OK ->
  (forall w d s, Q tt (with_prs (after_cb (prs k) d s) (with_world w k))) ->
  (forall w d e, e <> HPE_OK ->
     R (with_prs (exit_cb (prs k) d (p_state k) e) (with_world w k)) ER) ->
  wp (CALLBACK_NOTIFY_ settings FOR ER) Q E R k.
Proof. intros He HQ HR. apply wp_notify_state; auto. Qed.

Lemma wp_data FOR LEN ER (Q : unit -> ctx W -> Prop) E R k :
  hp_http_errno (prs k) = HPE_OK ->
  (forall m, get_mark FOR k = Some m -> 0 <= m /\ 0 <= LEN m /\ m + LEN m <= zlen data) ->
  (forall w d s, Q tt (with_mark FOR None (with_prs (after_cb (prs k) d s) (with_world w k)))) ->
  (forall w d e, e <> HPE_OK ->
     R (with_prs (exit_cb (prs k) d (p_state k) e) (with_world w k)) ER) ->
  wp (CALLBACK_DATA_ settings data FOR LEN ER) Q E R k.
Proof.
  intros He Hm HQ HR. unfold wp, CALLBACK_DATA_. rewrite He. cbn.
  destruct k as [P q c s a b d' e f w]. destruct P. cbn in He. subst.
  destruct (get_mark FOR _) as [m|] eqn:Hmark.
  2:{ specialize (HQ w hp_data hp_state). destruct FOR; cbn in *; subst; exact HQ. }
  destruct (on_data settings FOR) as [cb|] eqn:Hcb.
  2:{ specialize (HQ w hp_data hp_state). destruct FOR; cbn in *; exact HQ. }
  destruct (Hm m eq_refl) as (H1 & H2 & H3). unfold data_len.
  rewrite (proj2 (Z.leb_le _ _) H1), (proj2 (Z.leb_le _ _) H2), (proj2 (Z.leb_le _ _) H3).
  cbn. destruct (cb _ _ _) as [[w' P'] rc] eqn:Hrun.
  eapply data_frame in Hrun; [|exact Hcb|reflexivity].
  apply cb_frame_cases in Hrun as [dd [-> | ->]]; cbn;
    destruct (rc =? 0); destruct FOR; cbn;
    (apply (HQ w' dd s) || (apply (HR w' dd); discriminate)).
Qed.

(** [on_headers_complete] may in addition skip the body and ask for an upgrade. *)
Lemma wp_headers_complete (Q : unit -> ctx W -> Prop) E R k :
  hp_http_errno (prs k) = HPE_OK ->
  (forall w d e u f, e = HPE_OK \/ e = HPE_PAUSED ->
     f = hp_flags (prs k) \/ f = Z.lor (hp_flags (prs k)) F_SKIPBODY ->
     Q tt (with_prs (set_http_errno e (set_data d (set_upgrade u (set_flags f (prs k)))))
             (with_world w k))) ->
  (forall w d,
     R (with_prs (exit_cb (prs k) d (p_state k) HPE_CB_headers_complete) (with_world w k)) (p k)) ->
  wp (call_on_headers_complete settings) Q E R k.
Proof.
  intros He HQ HR. unfold wp, call_on_headers_complete.
  destruct k as [P q c s a b d' e f w]. destruct P. cbn in He. subst.
  destruct (on_headers_complete settings) as [cb|] eqn:Hcb.
  2:{ exact (HQ w _ HPE_OK _ _ (or_introl eq_refl) (or_introl eq_refl)). }
  cbn. destruct (cb _ _) as [[w' P'] rc] eqn:Hrun.
  eapply headers_complete_frame in Hrun; [|exact Hcb|reflexivity].
  destruct Hrun as (e' & d & He' & ->). cbn.
  destruct (rc =? 0); [exact (HQ w' d e' _ _ He' (or_introl eq_refl))|].
  destruct (rc =? 2); [exact (HQ w' d e' _ _ He' (or_intror eq_refl))|].
  destruct (rc =? 1); [exact (HQ w' d e' _ _ He' (or_intror eq_refl))|].
  exact (HR w' d).
Qed.

End CallbackRules.
