(* ===== verification/HttpRecord.v ===== *)
(** * A recording application

    Concrete callbacks for [http_parser_execute]: they append what they are
    told to a list of events and return 0.  They satisfy the callback interface
    [CallbacksOk]; the examples and witnesses of the later files run the parser
    with them. *)

From Stdlib Require Import String ZArith List Bool.
From S2P Require Import Prelude HttpDefs HttpUrl HttpExec HttpLogic.
Import ListNotations.
Local Open Scope Z_scope.

Inductive event :=
| Notify (n : notify_cb)
| Data (d : data_cb) (b : list Z)
| Headers_complete.

Definition record_notify (n : notify_cb) : option (http_cb (list event)) :=
  Some (fun w P => (w ++ [Notify n], P, 0)).

Definition record_data (d : data_cb) : option (http_data_cb (list event)) :=
  Some (fun w P b => (w ++ [Data d b], P, 0)).

Definition recorder : http_parser_settings (list event) :=
  mk_settings (record_notify message_begin) (record_data url) (record_data status)
    (record_data header_field) (record_data header_value)
    (Some (fun w P => (w ++ [Headers_complete], P, 0)))
    (record_data body) (record_notify message_complete)
    (record_notify chunk_header) (record_notify chunk_complete).

Lemma cb_frame_refl P : hp_http_errno P = HPE_OK -> cb_frame P P.
Proof. intros He. exists HPE_OK, (hp_data P). destruct P; cbn in *; subst. auto. Qed.

#[export] Instance recorder_ok : CallbacksOk recorder.
Proof.
  constructor.
  - intros [] cb w P w' P' rc [= <-] He [= _ <- _]; apply cb_frame_refl; exact He.
  - intros [] cb w P l w' P' rc [= <-] He [= _ <- _]; apply cb_frame_refl; exact He.
  - intros cb w P w' P' rc [= <-] He [= _ <- _]. apply cb_frame_refl. exact He.
Qed.

(** Memory before [http_parser_init]. *)
Definition raw_parser : http_parser :=
  mk_http_parser HTTP_REQUEST 0 s_dead h_general 0 false 0 0 0 0 0 HTTP_DELETE HPE_OK false 0.

Definition fresh_parser (t : http_parser_type) : http_parser := http_parser_init raw_parser t.

(** Lines of text as a message. *)
Definition crlf : list Z := [13; 10].

Fixpoint message (lines : list string) : list Z :=
  match lines with
  | [] => []
  | [l] => bytes l
  | l :: ls => bytes l ++ crlf ++ message ls
  end.

Definition is_bytes (l : list Z) : bool := forallb (fun b => (0 <=? b) && (b <? 256)) l.

Lemma is_bytes_spec l : is_bytes l = true -> Forall (fun b => 0 <= b < 256) l.
Proof.
  unfold is_bytes. rewrite forallb_forall, Forall_forall. intros Hb x Hx.
  specialize (Hb x Hx). apply andb_prop in Hb as [H1 H2].
  split; [apply Z.leb_le | apply Z.ltb_lt]; assumption.
Qed.

(** The parser a call leaves behind. *)
Definition parser_after {W} (r : exec_result W) : http_parser :=
  match r with Returned P _ _ => P | _ => raw_parser end.
