(* ===== verification/HttpCases.v ===== *)
(** * The cases of the switch preserve the invariant

    For each [case] of [http_parser_execute] that has no loop of its own, a
    lemma that it meets [switch_post]: run in a context that satisfies the
    invariant of [HttpLogic], it does not get stuck and re-establishes the
    invariant, with [p] not moved back and fewer jumps to [reexecute] left.
    The tactics execute a case symbolically and discharge the conditions. *)

From Stdlib Require Import String ZArith List Bool Lia.
From S2P Require Import Prelude HttpDefs HttpUrl HttpExec HttpLogic.
Import ListNotations.
Local Open Scope Z_scope.

(** ** Automation *)

Create HintDb http_cases.

(** Reduce the context and parser records, and nothing else. *)
Ltac red_ctx :=
  try unfold has_flag in *;
  cbn [prs p ch p_state header_field_mark header_value_mark url_mark body_mark
       status_mark world with_prs with_p with_ch with_p_state with_world get_mark
       with_mark hp_type hp_flags hp_state hp_header_state hp_index
       hp_lenient_http_headers hp_nread hp_content_length hp_http_major
       hp_http_minor hp_status_code hp_method hp_http_errno hp_upgrade hp_data
       set_type set_flags set_state set_header_state set_index set_nread
       set_content_length set_http_major set_http_minor set_status_code
       set_method set_http_errno set_upgrade set_data or_flags after_cb
       exit_cb fst snd] in *.

(** Open a context and the parser in it; [s] is the state of the case. *)
Ltac open_parser P :=
  destruct P as [ptype flags pstate hstate index plen nread clen maj min scode meth perr upgr pdata].

Ltac open_marks :=
  repeat match goal with
  | H : mark_ok _ _ _ ?o |- _ =>
      is_var o; destruct o;
      cbn [mark_ok mark_state] in H;
      [first [destruct H as [_ H]; discriminate H | destruct H as [H _]] | clear H]
  end.

(** The hypotheses on the five marks. *)
Ltac marks_of Hm :=
  pose proof (Hm header_field); pose proof (Hm header_value); pose proof (Hm url);
  pose proof (Hm body); pose proof (Hm status); clear Hm; red_ctx.

Ltac open_ctx k :=
  let P := fresh "P" in
  destruct k as [P q c s m1 m2 m3 m4 m5 w];
  repeat match goal with
  | H : loop_inv _ _ _ (mk_ctx _ _ _ _ _ _ _ _ _ _) |- _ =>
      let Hm := fresh "Hm" in
      destruct H as [He Hr Hst Hm Hch Hlo Hhi];
      pose proof (Hm header_field) as Hm1; pose proof (Hm header_value) as Hm2;
      pose proof (Hm url) as Hm3; pose proof (Hm body) as Hm4;
      pose proof (Hm status) as Hm5; clear Hm
  end;
  open_parser P; red_ctx; subst;
  repeat match goal with
  | H : parser_ranges _ |- _ => destruct H; red_ctx
  end;
  cbn [state_inv] in *; unfold chunked_only in *; red_ctx; conjs; subst; open_marks.

Ltac wp_step :=
  lazymatch goal with
  | |- wp (bind _ _) _ _ _ _ => apply wp_bind
  | |- wp (ret _) _ _ _ _ => apply wp_ret
  | |- wp get _ _ _ _ => apply wp_get
  | |- wp parser _ _ _ _ => apply wp_parser
  | |- wp (modify _) _ _ _ _ => apply wp_modify
  | |- wp (upd _) _ _ _ _ => apply wp_modify
  | |- wp (UPDATE_STATE _) _ _ _ _ => apply wp_modify
  | |- wp (set_p _) _ _ _ _ => apply wp_modify
  | |- wp (SET_ERRNO _) _ _ _ _ => apply wp_modify
  | |- wp (set_hs _) _ _ _ _ => apply wp_modify
  | |- wp (MARK _) _ _ _ _ => apply wp_modify
  | |- wp index_incr _ _ _ _ => apply wp_modify
  | |- wp (fail _) _ _ _ _ => apply wp_fail
  | |- wp goto_error _ _ _ _ => apply wp_goto_error
  | |- wp (RETURN _) _ _ _ _ => apply wp_RETURN
  | |- wp (STRICT_CHECK _) _ _ _ _ => unfold STRICT_CHECK
  | |- wp reset_message _ _ _ _ => unfold reset_message
  | |- wp (expect_char _ _) _ _ _ _ => unfold expect_char
  | |- wp (COUNT_HEADER_SIZE _) _ _ _ _ => unfold COUNT_HEADER_SIZE
  | |- wp (http_major_digit _) _ _ _ _ => unfold http_major_digit
  | |- wp (http_minor_digit _) _ _ _ _ => unfold http_minor_digit
  | |- wp finish_header _ _ _ _ => unfold finish_header
  | |- wp (finish_message _) _ _ _ _ => unfold finish_message
  | |- wp (assert_content_length _) _ _ _ _ => unfold assert_content_length
  | |- wp (assert_chunked _) _ _ _ _ => unfold assert_chunked
  | |- wp (consume_body _) _ _ _ _ => unfold consume_body
  | |- wp (assert_ _) _ _ _ _ => apply wp_assert
  | |- wp case_s_header_value_start _ _ _ _ => unfold case_s_header_value_start
  | |- wp (call_on_headers_complete _) _ _ _ _ =>
      apply wp_headers_complete;
      [eassumption | reflexivity | intros ? ? ? ? ? [-> | ->] [-> | ->] | intros ? ?]
  | |- wp (CALLBACK_NOTIFY _ _) _ _ _ _ => unfold CALLBACK_NOTIFY
  | |- wp (CALLBACK_NOTIFY_NOADVANCE _ _) _ _ _ _ => unfold CALLBACK_NOTIFY_NOADVANCE
  | |- wp (CALLBACK_DATA _ _ _) _ _ _ _ => unfold CALLBACK_DATA
  | |- wp (CALLBACK_DATA_NOADVANCE _ _ _) _ _ _ _ => unfold CALLBACK_DATA_NOADVANCE
  | |- wp (CALLBACK_NOTIFY_ _ _ _) _ _ _ _ =>
      apply wp_notify; [eassumption | reflexivity | intros ? ? ? | intros ? ? ? ?]
  | |- wp (CALLBACK_DATA_ _ _ _ _ _) _ _ _ _ =>
      apply wp_data; [eassumption | reflexivity | intros ? Hmark | intros ? ? ? | intros ? ? ? ?]
  | |- wp (if negb (http_errno_eqb _ _) then _ else _) _ _ _ _ =>
      cbn [http_errno_eqb http_errno_num negb Z.eqb Pos.eqb]
  | |- wp (if ?b then _ else _) _ _ _ _ => let E := fresh "E" in destruct b eqn:E
  | |- wp (match ?b with _ => _ end) _ _ _ _ => let E := fresh "E" in destruct b eqn:E
  end; red_ctx.

Ltac wp_run := repeat wp_step.

(** Side conditions on ranges. *)
Ltac range :=
  first
    [ assumption
    | apply wrap_range; lia
    | match goal with
      | |- 0 <= wrap ?n ?z <= _ => pose proof (wrap_range n z ltac:(lia)); bool_hyps; lia
      end
    | apply lor_range; [lia | lia | unfold F_CHUNKED, F_CONNECTION_KEEP_ALIVE,
        F_CONNECTION_CLOSE, F_CONNECTION_UPGRADE, F_TRAILING, F_UPGRADE, F_SKIPBODY,
        F_CONTENTLENGTH; lia]
    | unfold IS_NUM, ULLONG_MAX in *; bool_hyps; lia ].

Ltac solve_ranges := constructor; red_ctx; range.

Ltac solve_marks :=
  let d := fresh "d" in
  intros d; destruct d; red_ctx; cbn [mark_ok mark_state];
  first [exact I | split; [lia | first [reflexivity | assumption]]].

Lemma method_strings_len m : 3 <= zlen (method_strings m) < 16.
Proof. destruct m; cbv; split; congruence. Qed.

Lemma NEW_MESSAGE_cases `{BuildConfig} P :
  NEW_MESSAGE P = s_dead \/ NEW_MESSAGE P = s_start_req \/ NEW_MESSAGE P = s_start_res.
Proof.
  unfold NEW_MESSAGE, start_state.
  destruct HTTP_PARSER_STRICT, (http_should_keep_alive P),
    (http_parser_type_eqb (hp_type P) HTTP_REQUEST); auto.
Qed.

Lemma unhex_range c : -1 <= unhex_at c <= 15.
Proof.
  unfold unhex_at. apply (proj1 (Forall_forall (fun v => -1 <= v <= 15) unhex)).
  - unfold unhex. repeat constructor; lia.
  - apply nth_In. pose proof (wrap_range 8 c ltac:(lia)).
    change (length unhex) with 256%nat. lia.
Qed.

(** The conservative limit of the number accumulators excludes wrap-around and
    the value that stands for an absent length. *)
Lemma accumulate_small base cl v :
  1 < base <= 16 -> 0 <= cl -> cl <= (ULLONG_MAX - base) / base -> 0 <= v < base ->
  u64 (u64 (cl * base) + v) = cl * base + v /\ 0 <= cl * base + v < ULLONG_MAX.
Proof.
  intros Hb Hc Hle Hv. unfold ULLONG_MAX in *.
  assert (cl * base <= 18446744073709551615 - base).
  { apply Z.le_trans with ((18446744073709551615 - base) / base * base); [nia|].
    rewrite Z.mul_comm. apply Z.mul_div_le. lia. }
  assert (0 <= cl * base) by nia.
  rewrite (wrap_small 64 (cl * base)) by lia.
  rewrite wrap_small by lia. lia.
Qed.

Lemma first_header_state_name c : name_state (first_header_state c) = true.
Proof. unfold first_header_state. repeat case_match_goal; reflexivity. Qed.

Ltac method_len :=
  match goal with
  | |- context [method_strings ?m] => pose proof (method_strings_len m); lia
  end.

Ltac solve_state :=
  cbn [state_inv]; unfold chunked_only; red_ctx;
  try first [exact I | assumption | tauto | method_len | apply first_header_state_name
    | repeat case_match_goal; reflexivity | bool_hyps; tauto].

(** A new message starts in one of three states. *)
Ltac split_new_message :=
  repeat match goal with
  | |- context [NEW_MESSAGE ?P] =>
      let E := fresh "E" in destruct (NEW_MESSAGE_cases P) as [E|[E|E]]; rewrite E
  end.

Ltac solve_inv :=
  constructor; red_ctx;
  [first [reflexivity | assumption] | solve_ranges | solve_state | solve_marks
  | first [lia | assumption] | first [lia | assumption] | first [lia | assumption]].

Ltac solve_return :=
  split; [red_ctx; lia | split; red_ctx];
  [ intros [?|?];
    first [congruence | split; red_ctx; [solve_ranges | solve_state]]
  | intros ?;
    first [congruence | left; lia | right; first [reflexivity | assumption | bool_hyps; assumption]] ].

Ltac solve_leaf :=
  lazymatch goal with
  | |- switch_post _ _ _ Break _ => cbn [switch_post]; solve_inv
  | |- switch_post _ _ _ Reexecute _ =>
      cbn [switch_post]; split; [solve_inv | cbn [reexecute_rank p_state]; lia]
  | |- error_post _ _ =>
      repeat split; red_ctx; first [discriminate | lia]
  | |- return_post _ _ _ => unfold return_post; solve_return
  | |- returns _ _ _ _ => solve_return
  | |- _ => idtac
  end.

Ltac solve_mark_range :=
  lazymatch goal with
  | H : Some _ = Some _ |- _ => injection H as <-; lia
  | H : None = Some _ |- _ => discriminate H
  end.

(** Assertions of the source follow from the invariant of the state. *)
Ltac solve_assert :=
  lazymatch goal with
  | |- _ = true =>
      rewrite ?andb_true_iff, ?negb_true_iff, ?Z.eqb_eq, ?Z.eqb_neq;
      try first [assumption | reflexivity | tauto]
  | |- _ => idtac
  end.

Ltac solve_case :=
  unfold data_len; wp_run; try solve_mark_range; solve_assert; split_new_message; solve_leaf.

(** Run the case [c] of the switch. *)
Tactic Notation "by_case" reference(c) :=
  intros lo k Hinv Hs; open_ctx k; unfold c; solve_case.

Section Cases.
Context {W : Type} `{BuildConfig}.
Variable settings : http_parser_settings W.
Context `{!CallbacksOk settings}.
Variable data : list Z.

Abbreviation dlen := (zlen data).
(** The case [c] of the switch, entered in state [s], meets the postcondition. *)
Definition case_ok (c : M W flow) (s : state) : Prop :=
  forall lo k, loop_inv 1 lo dlen k -> p_state k = s ->
    wp c (switch_post s lo dlen) (error_post dlen) (return_post dlen) k.

Lemma case_s_dead_ok : case_ok (case_s_dead) s_dead.
Proof. by_case case_s_dead. Qed.

Lemma case_s_start_req_or_res_ok : case_ok (case_s_start_req_or_res settings) s_start_req_or_res.
Proof. by_case case_s_start_req_or_res. Qed.

Lemma case_s_res_or_resp_H_ok : case_ok (case_s_res_or_resp_H) s_res_or_resp_H.
Proof. by_case case_s_res_or_resp_H. Qed.

Lemma case_s_start_res_ok : case_ok (case_s_start_res settings) s_start_res.
Proof. by_case case_s_start_res. Qed.

Lemma case_s_res_H_ok : case_ok (case_s_res_H) s_res_H.
Proof. by_case case_s_res_H. Qed.

Lemma case_s_res_HT_ok : case_ok (case_s_res_HT) s_res_HT.
Proof. by_case case_s_res_HT. Qed.

Lemma case_s_res_HTT_ok : case_ok (case_s_res_HTT) s_res_HTT.
Proof. by_case case_s_res_HTT. Qed.

Lemma case_s_res_HTTP_ok : case_ok (case_s_res_HTTP) s_res_HTTP.
Proof. by_case case_s_res_HTTP. Qed.

Lemma case_s_res_first_http_major_ok : case_ok (case_s_res_first_http_major) s_res_first_http_major.
Proof. by_case case_s_res_first_http_major. Qed.

Lemma case_s_res_http_major_ok : case_ok (case_s_res_http_major) s_res_http_major.
Proof. by_case case_s_res_http_major. Qed.

Lemma case_s_res_first_http_minor_ok : case_ok (case_s_res_first_http_minor) s_res_first_http_minor.
Proof. by_case case_s_res_first_http_minor. Qed.

Lemma case_s_res_http_minor_ok : case_ok (case_s_res_http_minor) s_res_http_minor.
Proof. by_case case_s_res_http_minor. Qed.

Lemma case_s_res_first_status_code_ok : case_ok (case_s_res_first_status_code) s_res_first_status_code.
Proof. by_case case_s_res_first_status_code. Qed.

Lemma case_s_res_status_code_ok : case_ok (case_s_res_status_code) s_res_status_code.
Proof. by_case case_s_res_status_code. Qed.

Lemma case_s_res_status_start_ok : case_ok (case_s_res_status_start) s_res_status_start.
Proof. by_case case_s_res_status_start. Qed.

Lemma case_s_res_status_ok : case_ok (case_s_res_status settings data) s_res_status.
Proof. by_case case_s_res_status. Qed.

Lemma case_s_res_line_almost_done_ok : case_ok (case_s_res_line_almost_done) s_res_line_almost_done.
Proof. by_case case_s_res_line_almost_done. Qed.

Lemma case_s_start_req_ok : case_ok (case_s_start_req settings) s_start_req.
Proof. by_case case_s_start_req. Qed.

Lemma case_s_req_http_start_ok : case_ok (case_s_req_http_start) s_req_http_start.
Proof. by_case case_s_req_http_start. Qed.

Lemma case_s_req_http_H_ok : case_ok (case_s_req_http_H) s_req_http_H.
Proof. by_case case_s_req_http_H. Qed.

Lemma case_s_req_http_HT_ok : case_ok (case_s_req_http_HT) s_req_http_HT.
Proof. by_case case_s_req_http_HT. Qed.

Lemma case_s_req_http_HTT_ok : case_ok (case_s_req_http_HTT) s_req_http_HTT.
Proof. by_case case_s_req_http_HTT. Qed.

Lemma case_s_req_http_HTTP_ok : case_ok (case_s_req_http_HTTP) s_req_http_HTTP.
Proof. by_case case_s_req_http_HTTP. Qed.

Lemma case_s_req_first_http_major_ok : case_ok (case_s_req_first_http_major) s_req_first_http_major.
Proof. by_case case_s_req_first_http_major. Qed.

Lemma case_s_req_http_major_ok : case_ok (case_s_req_http_major) s_req_http_major.
Proof. by_case case_s_req_http_major. Qed.

Lemma case_s_req_first_http_minor_ok : case_ok (case_s_req_first_http_minor) s_req_first_http_minor.
Proof. by_case case_s_req_first_http_minor. Qed.

Lemma case_s_req_http_minor_ok : case_ok (case_s_req_http_minor) s_req_http_minor.
Proof. by_case case_s_req_http_minor. Qed.

Lemma case_s_req_line_almost_done_ok : case_ok (case_s_req_line_almost_done) s_req_line_almost_done.
Proof. by_case case_s_req_line_almost_done. Qed.

Lemma case_s_header_field_start_ok : case_ok (case_s_header_field_start) s_header_field_start.
Proof. by_case case_s_header_field_start. Qed.

Lemma case_s_header_value_start_ok : case_ok (case_s_header_value_start) s_header_value_start.
Proof. by_case case_s_header_value_start. Qed.

Lemma case_s_header_value_discard_ws_ok : case_ok (case_s_header_value_discard_ws) s_header_value_discard_ws.
Proof. by_case case_s_header_value_discard_ws. Qed.

Lemma case_s_header_almost_done_ok : case_ok (case_s_header_almost_done) s_header_almost_done.
Proof. by_case case_s_header_almost_done. Qed.

Lemma case_s_header_value_lws_ok : case_ok (case_s_header_value_lws) s_header_value_lws.
Proof. by_case case_s_header_value_lws. Qed.

Lemma case_s_header_value_discard_ws_almost_done_ok : case_ok (case_s_header_value_discard_ws_almost_done) s_header_value_discard_ws_almost_done.
Proof. by_case case_s_header_value_discard_ws_almost_done. Qed.

Lemma case_s_header_value_discard_lws_ok : case_ok (case_s_header_value_discard_lws settings data) s_header_value_discard_lws.
Proof. by_case case_s_header_value_discard_lws. Qed.

Lemma case_s_headers_almost_done_ok : case_ok (case_s_headers_almost_done settings) s_headers_almost_done.
Proof.
  by_case case_s_headers_almost_done.
  all: rewrite !land_lor_disjoint by reflexivity; assumption.
Qed.

Lemma case_s_headers_done_ok : case_ok (case_s_headers_done settings) s_headers_done.
Proof. by_case case_s_headers_done. Qed.

Lemma case_s_body_identity_eof_ok : case_ok (case_s_body_identity_eof data) s_body_identity_eof.
Proof. by_case case_s_body_identity_eof. Qed.

Lemma case_s_message_done_ok : case_ok (case_s_message_done settings) s_message_done.
Proof. by_case case_s_message_done. Qed.

Lemma case_s_chunk_size_start_ok : case_ok (case_s_chunk_size_start) s_chunk_size_start.
Proof.
  by_case case_s_chunk_size_start.
  all: bool_hyps; pose proof (unhex_range c); split; [split; assumption|].
  all: rewrite wrap_small by lia; unfold ULLONG_MAX; lia.
Qed.

Lemma case_s_chunk_size_ok : case_ok (case_s_chunk_size) s_chunk_size.
Proof.
  by_case case_s_chunk_size.
  bool_hyps. pose proof (unhex_range c).
  destruct (accumulate_small 16 clen (unhex_at c)) as [-> ?]; [lia..|].
  split; [split; assumption | lia].
Qed.

Lemma case_s_chunk_parameters_ok : case_ok (case_s_chunk_parameters) s_chunk_parameters.
Proof. by_case case_s_chunk_parameters. Qed.

Lemma case_s_chunk_size_almost_done_ok : case_ok (case_s_chunk_size_almost_done settings) s_chunk_size_almost_done.
Proof. by_case case_s_chunk_size_almost_done. Qed.

Lemma case_s_chunk_data_almost_done_ok : case_ok (case_s_chunk_data_almost_done settings data) s_chunk_data_almost_done.
Proof. by_case case_s_chunk_data_almost_done. Qed.

Lemma case_s_chunk_data_done_ok : case_ok (case_s_chunk_data_done settings) s_chunk_data_done.
Proof. by_case case_s_chunk_data_done. Qed.

End Cases.

#[export] Hint Resolve
  case_s_dead_ok case_s_start_req_or_res_ok case_s_res_or_resp_H_ok
  case_s_start_res_ok case_s_res_H_ok case_s_res_HT_ok case_s_res_HTT_ok
  case_s_res_HTTP_ok case_s_res_first_http_major_ok case_s_res_http_major_ok
  case_s_res_first_http_minor_ok case_s_res_http_minor_ok
  case_s_res_first_status_code_ok case_s_res_status_code_ok
  case_s_res_status_start_ok case_s_res_status_ok
  case_s_res_line_almost_done_ok case_s_start_req_ok case_s_req_http_start_ok
  case_s_req_http_H_ok case_s_req_http_HT_ok case_s_req_http_HTT_ok
  case_s_req_http_HTTP_ok case_s_req_first_http_major_ok
  case_s_req_http_major_ok case_s_req_first_http_minor_ok
  case_s_req_http_minor_ok case_s_req_line_almost_done_ok
  case_s_header_field_start_ok case_s_header_value_start_ok
  case_s_header_value_discard_ws_ok case_s_header_almost_done_ok
  case_s_header_value_lws_ok case_s_header_value_discard_ws_almost_done_ok
  case_s_header_value_discard_lws_ok case_s_headers_almost_done_ok
  case_s_headers_done_ok case_s_body_identity_eof_ok case_s_message_done_ok
  case_s_chunk_size_start_ok case_s_chunk_size_ok case_s_chunk_parameters_ok
  case_s_chunk_size_almost_done_ok case_s_chunk_data_almost_done_ok
  case_s_chunk_data_done_ok : http_cases.
