(* ===== verification/HttpSafety.v ===== *)
(** * Safety of [http_parser_execute]

    The cases with loops, the switch, the main loop and the whole function: a
    call on a parser that satisfies the invariant returns.  No assertion
    fails, no read leaves the buffer or a literal, no range outside the buffer
    is handed to a callback, and every loop ends within its fuel. *)

From Stdlib Require Import String ZArith List Bool Lia.
From S2P Require Import Prelude HttpDefs HttpUrl HttpExec HttpLogic HttpCases.
Import ListNotations.
Local Open Scope Z_scope.

Section Safety.
Context {W : Type} `{BuildConfig}.
Variable settings : http_parser_settings W.
Context `{!CallbacksOk settings}.
Variable data : list Z.
Variable lenient : bool.

(** The type of [len] is [size_t], and the buffer holds bytes. *)
Hypothesis data_size_t : zlen data < 2 ^ 64.
Hypothesis data_bytes : Forall (fun b => 0 <= b < 256) data.

Abbreviation dlen := (zlen data).

Abbreviation ok := (@case_ok W _ data).

(** ** Bodies *)

(** The number of body bytes in the buffer, and what is left to read after them. *)
Lemma to_read_spec cl q :
  0 <= q < dlen -> 0 <= cl < 2 ^ 64 -> cl <> 0 ->
  exists n, Z.min cl (u64 (data_len data - q)) = n /\ (1 <= n <= dlen - q) /\
            n <= cl /\ u64 (cl - n) = cl - n.
Proof.
  intros Hq Hcl Hz. unfold data_len. rewrite (wrap_small 64 (zlen data - q)) by lia.
  eexists. split; [reflexivity|]. repeat split; try lia. apply wrap_small. lia.
Qed.

Ltac solve_body :=
  match goal with
  | Hq : ?q < dlen, Hz : ?cl <> 0 |- _ =>
      let Hn := fresh "Hn" in let Hu := fresh "Hu" in
      destruct (to_read_spec cl q) as (n & Hn & ? & ? & Hu); [lia..|];
      do 2 wp_step; rewrite Hn; wp_run; rewrite ?Hu in *; bool_hyps;
      try solve_mark_range; solve_assert; solve_leaf;
      unfold ULLONG_MAX in *; repeat split; try assumption; try lia
  end.

Lemma case_s_body_identity_ok :
 ok (case_s_body_identity settings data) s_body_identity.
Proof.
  intros lo k Hinv Hs. open_ctx k; unfold case_s_body_identity; solve_body.
Qed.

Lemma case_s_chunk_data_ok : ok (case_s_chunk_data data) s_chunk_data.
Proof.
  intros lo k Hinv Hs. open_ctx k; unfold case_s_chunk_data; solve_body.
Qed.

(** ** The request line *)

(** The keys of the method switch are injective on a 7-bit index and a byte. *)
Lemma method_switch_key_index m i c :
  0 <= i < 2 ^ 7 -> 0 <= c < 256 ->
  Z.land (Z.shiftr (method_switch_key m i c) 8) 255 = i.
Proof.
  intros Hi Hc. unfold method_switch_key.
  rewrite !Z.shiftr_lor, !Z.shiftr_shiftl_l by lia. rewrite Z.shiftl_0_r.
  rewrite (Z.shiftr_div_pow2 c 8), (Z.div_small c) by lia. rewrite Z.lor_0_r.
  rewrite Z.land_lor_distr_l. change 255 with (Z.ones 8).
  rewrite (Z.land_ones (Z.shiftl _ _)), (Z.land_ones i) by lia.
  rewrite (Z.mod_small i) by lia.
  rewrite Z.shiftl_mul_pow2 by lia. rewrite Z.mod_mul by lia. apply Z.lor_0_l.
Qed.

Lemma method_switch_len m i c m' :
  0 <= i < 2 ^ 7 -> 0 <= c < 256 -> method_switch m i c = Some m' ->
  1 <= i /\ i + 1 <= zlen (method_strings m').
Proof.
  intros Hi Hc Hm. unfold method_switch in Hm.
  destruct (find _ method_switch_cases) as [[[[m0 pos] c0] m1]|] eqn:Hf; [|discriminate].
  cbn in Hm. injection Hm as <-. apply find_some in Hf as [Hin Hkey].
  apply Z.eqb_eq in Hkey.
  apply (f_equal (fun z => Z.land (Z.shiftr z 8) 255)) in Hkey.
  rewrite method_switch_key_index in Hkey by assumption. subst i.
  cbn in Hin. repeat (destruct Hin as [[= <- <- <- <-]|Hin]; [vm_compute; split; congruence|]).
  destruct Hin.
Qed.

(** Reading a literal up to and including its NUL. *)
Lemma c_str_at_spec s i :
  0 <= i <= zlen s -> exists x, c_str_at s i = Some x /\ (x <> 0 -> i < zlen s).
Proof.
  intros Hi. destruct (Z.eq_dec i (zlen s)) as [->|Hne].
  - exists 0. split; [apply byte_at_middle | lia].
  - destruct (proj1 (byte_at_Some s i)) as [x Hx]; [lia|].
    exists x. split; [|lia]. unfold c_str_at. rewrite byte_at_app_l by lia. exact Hx.
Qed.

Lemma case_s_req_method_ok : ok case_s_req_method s_req_method.
Proof.
  intros lo k Hinv Hs. open_ctx k; unfold case_s_req_method.
  destruct (c_str_at_spec (method_strings meth) index) as (x & Hx & Hlt); [lia|].
  pose proof (method_strings_len meth).
  do 2 wp_step. wp_step; [solve_case|]. do 3 wp_step. eapply wp_read; [exact Hx|].
  wp_run; solve_leaf; bool_hyps.
  all: rewrite wrap_small by lia.
  all: try (split; lia).
  all: match goal with
       | E : method_switch _ _ _ = Some _ |- _ => apply method_switch_len in E; lia
       | |- context [method_strings ?m] => pose proof (method_strings_len m); lia
       end.
Qed.

(** ** The URL *)

Lemma parse_url_char_states s c :
  parse_url_char s c = s_dead \/ mark_state url (parse_url_char s c) = true.
Proof.
  unfold parse_url_char. destruct s; repeat case_match_goal; auto.
Qed.

(** The states of a URL have no condition of their own. *)
Lemma url_state_inv nr s P : mark_state url s = true -> state_inv nr s P.
Proof. destruct s; cbn; discriminate || trivial. Qed.

(** A character of the URL: the new state is one of a URL. *)
Lemma wp_url_step c (Q : unit -> ctx W -> Prop) E R k :
  (forall s, mark_state url s = true -> Q tt (with_p_state s k)) ->
  (forall s, E (with_prs (set_http_errno HPE_INVALID_URL (prs k)) (with_p_state s k))) ->
  wp (url_step c) Q E R k.
Proof.
  intros HQ HE. unfold url_step.
  apply wp_bind, wp_get, wp_bind, wp_modify, wp_bind, wp_get.
  destruct k as [P q c' s m1 m2 m3 m4 m5 w]; cbn [p_state with_p_state].
  destruct (parse_url_char_states s c) as [->|Hs].
  - apply wp_fail, (HE s_dead).
  - destruct (state_eqb_spec (parse_url_char s c) s_dead) as [Heq|_].
    + rewrite Heq in Hs. discriminate.
    + apply wp_ret, HQ, Hs.
Qed.

Ltac solve_url :=
  wp_run;
  repeat (apply wp_url_step; [intros ? ? | intros ?]; red_ctx; wp_run);
  try solve_mark_range; solve_leaf; try (apply url_state_inv; assumption).

Lemma case_s_req_spaces_before_url_ok :
  ok case_s_req_spaces_before_url s_req_spaces_before_url.
Proof.
  intros lo k Hinv Hs. open_ctx k; unfold case_s_req_spaces_before_url; solve_url.
Qed.

Lemma case_s_req_schema_ok s :
  In s [s_req_schema; s_req_schema_slash; s_req_schema_slash_slash; s_req_server_start] ->
  ok case_s_req_schema s.
Proof.
  intros Hin lo k Hinv Hs. cbn in Hin. unfold case_s_req_schema.
  repeat destruct Hin as [<-|Hin]; try destruct Hin; open_ctx k; solve_url.
Qed.

Lemma case_s_req_server_ok s :
  In s [s_req_server; s_req_server_with_at; s_req_path; s_req_query_string_start;
        s_req_query_string; s_req_fragment_start; s_req_fragment] ->
  ok (case_s_req_server settings data) s.
Proof.
  intros Hin lo k Hinv Hs. cbn in Hin. unfold case_s_req_server.
  repeat destruct Hin as [<-|Hin]; try destruct Hin; open_ctx k; solve_url.
Qed.

(** ** Header names *)

(** The invariant of the scanning loops in [s_header_field] and
    [s_header_value]: [p] has moved on from [start], the marks have not, and
    [nm] holds of the header state. *)
Record scan_inv (s : state) (nm : http_parser -> Prop) (lo start hi : Z) (k : ctx W) : Prop := {
  scan_errno : hp_http_errno (prs k) = HPE_OK;
  scan_ranges : parser_ranges (prs k);
  scan_p_state : p_state k = s;
  scan_name : nm (prs k);
  scan_marks : forall d, mark_ok d s start (get_mark d k);
  scan_ch : 0 <= ch k < 256;
  scan_lo : 0 <= lo <= start;
  scan_start : start <= p k;
  scan_hi : p k < hi
}.

Definition is_name (P : http_parser) : Prop := name_state (hp_header_state P) = true.

Lemma wp_load_ch (Q : unit -> ctx W -> Prop) E R k :
  0 <= p k < dlen ->
  (forall c, 0 <= c < 256 -> byte_at data (p k) = Some c -> Q tt (with_ch c k)) ->
  wp (load_ch data) Q E R k.
Proof.
  intros Hp HQ. unfold load_ch. apply wp_bind, wp_get, wp_bind.
  destruct (proj1 (byte_at_Some data (p k)) Hp) as [c Hc].
  eapply wp_read; [exact Hc|]. apply wp_modify, HQ; [|exact Hc].
  unfold byte_at in Hc. destruct (p k <? 0); [discriminate|].
  apply nth_error_In in Hc. rewrite Forall_forall in data_bytes. auto.
Qed.

Lemma wp_match_literal S c no yes (Q : unit -> ctx W -> Prop) E R k :
  let k' := with_prs (set_index (u7 (hp_index (prs k) + 1)) (prs k)) k in
  wp no Q E R k' -> wp yes Q E R k' -> Q tt k' ->
  wp (match_literal S c no yes) Q E R k.
Proof.
  intros k' Hno Hyes HQ. unfold match_literal.
  apply wp_bind, wp_modify, wp_bind, wp_parser. fold k'.
  destruct (Z.ltb_spec (sizeof S - 1) (hp_index (prs k'))) as [|Hle]; [assumption|].
  assert (0 <= hp_index (prs k') < 2 ^ 7).
  { subst k'. destruct k as [P q' c' s m1 m2 m3 m4 m5 w], P. apply wrap_range. lia. }
  destruct (c_str_at_spec S (hp_index (prs k'))) as (x & Hx & _); [unfold sizeof in Hle; lia|].
  apply wp_bind. eapply wp_read; [exact Hx|].
  repeat case_match_goal; assumption || exact HQ.
Qed.

Ltac open_scan k :=
  destruct k as [P q c s m1 m2 m3 m4 m5 w];
  match goal with
  | H : scan_inv _ _ _ _ _ (mk_ctx _ _ _ _ _ _ _ _ _ _) |- _ =>
      destruct H as [He Hr Hst Hnm Hm Hch Hlo Hsp Hhi]
  end;
  open_parser P; red_ctx; subst.

Ltac solve_scan :=
  constructor; red_ctx;
  [reflexivity
  | match goal with H : parser_ranges _ |- _ => destruct H; red_ctx; solve_ranges end
  | reflexivity | try reflexivity; try assumption | assumption | lia | lia | lia | lia].

Lemma header_field_char_ok tc ch' lo start hi R k :
  scan_inv s_header_field is_name lo start hi k -> hi <= dlen + 1 ->
  wp (header_field_char ch' tc)
    (fun _ k' => scan_inv s_header_field is_name lo start hi k' /\ p k' = p k)
    (error_post dlen) R k.
Proof.
  intros Hinv Hhi'. open_scan k. unfold header_field_char, is_name in *. red_ctx.
  wp_step. wp_step.
  destruct hstate; try discriminate Hnm.
  all: repeat first [apply wp_match_literal; red_ctx | wp_step].
  all: lazymatch goal with
       | |- _ /\ _ => split; [solve_scan | reflexivity]
       | |- _ => solve_leaf
       end.
  all: repeat case_match_goal; reflexivity.
Qed.

Lemma header_field_loop_ok lo start R fuel k :
  scan_inv s_header_field is_name lo start (dlen + 1) k ->
  dlen - p k < Z.of_nat fuel ->
  wp (header_field_loop data fuel)
    (fun _ => scan_inv s_header_field is_name lo start (dlen + 1)) (error_post dlen) R k.
Proof.
  revert k. induction fuel as [|fuel IH]; intros k Hinv Hfuel;
    cbn [header_field_loop]; apply wp_bind, wp_get; unfold data_len;
    destruct (Z.eqb_spec (p k) dlen) as [Heq|Hne]; try (apply wp_ret; assumption).
  - pose proof (scan_hi _ _ _ _ _ _ Hinv). lia.
  - assert (0 <= p k < dlen) as Hp by (destruct Hinv; lia).
    apply wp_bind, wp_load_ch; [exact Hp|]. intros b Hb _.
    assert (scan_inv s_header_field is_name lo start (dlen + 1) (with_ch b k)) as Hinv'.
    { open_scan k. solve_scan. }
    replace (p k) with (p (with_ch b k)) in * by (destruct k; reflexivity).
    generalize dependent (with_ch b k). clear k Hinv. intros k Hfuel Hne Hp Hinv.
    apply wp_bind, wp_get. destruct (TOKEN (ch k) =? 0); [apply wp_ret; assumption|].
    apply wp_bind. eapply wp_mono; [eapply header_field_char_ok with (R := R); [exact Hinv|lia]| |auto|auto].
    intros _ k' [Hk' Hpk]. apply wp_bind, wp_modify, IH.
    + open_scan k'. solve_scan.
    + destruct k' as [P' q' b' s' ? ? ? ? ? ?]. red_ctx. lia.
Qed.

Lemma case_s_header_field_ok : ok (case_s_header_field settings data) s_header_field.
Proof.
  intros lo k Hinv Hs. unfold case_s_header_field. apply wp_bind, wp_get, wp_bind.
  eapply wp_mono;
    [apply (header_field_loop_ok lo (p k) (return_post dlen)) | | auto | auto].
  - open_ctx k; constructor; red_ctx; try reflexivity; try lia; try assumption;
      try solve_ranges; intros []; cbn; auto; lia.
  - unfold loop_fuel, zlen. destruct Hinv. lia.
  - intros [] k' Hk'. cbv beta in Hk'. assert (p k < dlen) as Hpk by (destruct Hinv; assumption).
    generalize dependent (p k). clear k Hinv Hs. intros start Hk' Hstart.
    open_scan k'.
    pose proof (Hm header_field) as Hm1. pose proof (Hm header_value) as Hm2.
    pose proof (Hm url) as Hm3. pose proof (Hm body) as Hm4. pose proof (Hm status) as Hm5.
    clear Hm. destruct Hr; red_ctx. open_marks; unfold data_len; solve_case; bool_hyps; try lia.
Qed.

(** ** Header values *)

Lemma memchr_list_first l c q r : memchr_list l c q = Some r ->
  q <= r < q + zlen l /\ nth_error l (Z.to_nat (r - q)) = Some c /\
  forall i, q <= i < r -> nth_error l (Z.to_nat (i - q)) <> Some c.
Proof.
  revert q. induction l as [|x l IH]; intros q; [discriminate|].
  cbn [memchr_list]. rewrite zlen_cons. pose proof (zlen_nonneg l).
  destruct (Z.eqb_spec x c) as [->|Hne].
  - injection 1 as <-. rewrite Z.sub_diag. repeat split; auto; lia.
  - intros Hr. destruct (IH _ Hr) as (Hb & Hn & Hf). split; [lia|].
    replace (Z.to_nat (r - q)) with (S (Z.to_nat (r - (q + 1)))) by lia.
    split; [exact Hn|]. intros i Hi. destruct (Z.eq_dec i q) as [->|].
    + rewrite Z.sub_diag. cbn. congruence.
    + replace (Z.to_nat (i - q)) with (S (Z.to_nat (i - (q + 1)))) by lia.
      apply Hf. lia.
Qed.

Lemma memchr_list_none l c q i : memchr_list l c q = None -> nth_error l i <> Some c.
Proof.
  revert q i. induction l as [|x l IH]; intros q [|i]; cbn; try discriminate;
    destruct (Z.eqb_spec x c); try discriminate; [congruence|apply IH].
Qed.

Lemma nth_error_slice l q n i : 0 <= q -> q <= i < q + n ->
  nth_error (slice l q n) (Z.to_nat (i - q)) = byte_at l i.
Proof.
  intros Hq Hi. unfold slice, byte_at. destruct (Z.ltb_spec i 0); [lia|].
  rewrite nth_error_firstn. destruct (Nat.ltb_spec (Z.to_nat (i - q)) (Z.to_nat n)); [|lia].
  rewrite nth_error_skipn. f_equal. lia.
Qed.

Lemma memchr_first q c limit r : 0 <= q -> q + limit <= dlen ->
  memchr data q c limit = Some r ->
  q <= r < q + limit /\ byte_at data r = Some c /\
  forall i, q <= i < r -> byte_at data i <> Some c.
Proof.
  intros Hq Hd Hr. unfold memchr in Hr.
  destruct (Z.ltb_spec limit 0).
  { unfold slice in Hr. replace (Z.to_nat limit) with 0%nat in Hr by lia. discriminate. }
  apply memchr_list_first in Hr as (Hb & Hn & Hf).
  rewrite zlen_slice in Hb by lia. rewrite nth_error_slice in Hn by lia.
  repeat split; try lia; [exact Hn|]. intros i Hi. specialize (Hf i Hi).
  rewrite nth_error_slice in Hf by lia. exact Hf.
Qed.

(** The search of the [h_general] case stops before the first CR or LF among
    the bytes it looks at, or at the end of the buffer. *)
Lemma header_value_skip_cases q :
  let n := Z.min (dlen - q) HTTP_MAX_HEADER_SIZE in
  let e := header_value_skip data q + 1 in
  0 <= q < dlen ->
  (q <= e < q + n /\ (byte_at data e = Some CR \/ byte_at data e = Some LF) /\
   forall i, q <= i < e -> byte_at data i <> Some CR /\ byte_at data i <> Some LF) \/
  (e = dlen /\ memchr data q CR n = None /\ memchr data q LF n = None).
Proof.
  intros n e Hq. subst e. unfold header_value_skip, data_len. fold n.
  assert (q + n <= dlen) as Hd by lia.
  assert (forall c i, memchr data q c n = None -> q <= i < q + n -> byte_at data i <> Some c)
    as Hnone.
  { intros c i Hi Hr. rewrite <- (nth_error_slice data q n i) by lia.
    eapply memchr_list_none. exact Hi. }
  destruct (memchr data q CR n) as [cr|] eqn:Ecr, (memchr data q LF n) as [lf|] eqn:Elf;
    repeat match goal with
    | H : memchr data _ _ _ = Some _ |- _ => apply memchr_first in H as (? & ? & ?); [|lia..]
    end; [destruct (Z.leb_spec lf cr)|..]; rewrite ?Z.sub_add; auto.
  all: left; split; [lia|split; [auto|]]; intros i Hi; split;
    match goal with
    | H : forall i, _ -> byte_at data i <> Some ?c |- byte_at data _ <> Some ?c => apply H; lia
    | H : memchr data _ ?c _ = None, Hnone : forall c i, _ |- byte_at data _ <> Some ?c =>
        apply Hnone; [exact H|lia]
    end.
Qed.

Lemma header_value_skip_range q b :
  0 <= q < dlen -> byte_at data q = Some b -> b <> CR -> b <> LF ->
  q <= header_value_skip data q < dlen.
Proof.
  intros Hq Hb H1 H2.
  destruct (header_value_skip_cases q Hq) as [(Hr & Hc & _)|(He & _)]; [|lia].
  destruct (Z.eq_dec (header_value_skip data q + 1) q) as [Heq|]; [|lia].
  rewrite Heq, Hb in Hc. destruct Hc as [Hc|Hc]; congruence.
Qed.

Lemma wp_match_literal_h S c no yes same (Q : header_states -> ctx W -> Prop) E R k :
  let k' := with_prs (set_index (u7 (hp_index (prs k) + 1)) (prs k)) k in
  Q no k' -> Q yes k' -> Q same k' ->
  wp (match_literal_h S c no yes same) Q E R k.
Proof.
  intros k' Hno Hyes HQ. unfold match_literal_h.
  apply wp_bind, wp_modify, wp_bind, wp_parser. fold k'.
  destruct (Z.ltb_spec (sizeof S - 1) (hp_index (prs k'))) as [|Hle]; [assumption|].
  assert (0 <= hp_index (prs k') < 2 ^ 7).
  { subst k'. destruct k as [P q' c' s m1 m2 m3 m4 m5 w], P. apply wrap_range. lia. }
  destruct (c_str_at_spec S (hp_index (prs k'))) as (x & Hx & _); [unfold sizeof in Hle; lia|].
  apply wp_bind. eapply wp_read; [exact Hx|].
  repeat case_match_goal; assumption.
Qed.

Abbreviation value_inv := (scan_inv s_header_value (fun _ => True)).

Lemma header_value_char_ok h lo start R k :
  value_inv lo start dlen k -> value_state h = true ->
  byte_at data (p k) = Some (ch k) -> ch k <> CR -> ch k <> LF ->
  wp (header_value_char data h (ch k))
    (fun h' k' => value_inv lo start dlen k' /\ value_state h' = true /\ p k <= p k')
    (error_post dlen) R k.
Proof.
  intros Hinv Hh Hb H1 H2.
  pose proof (header_value_skip_range (p k) (ch k)
    ltac:(destruct Hinv; lia) Hb H1 H2) as Hskip.
  open_scan k. unfold header_value_char. red_ctx.
  destruct h; try discriminate Hh.
  all: repeat first [apply wp_match_literal_h; red_ctx | wp_step].
  all: lazymatch goal with
       | |- _ /\ _ /\ _ => split; [solve_scan | split; [reflexivity | red_ctx; lia]]
       | |- _ => solve_leaf
       end.
Qed.

Abbreviation almost_done_inv := (scan_inv s_header_almost_done (fun _ => True)).

(** The exits of the value loop: at the end of the buffer inside the value, or
    behind its last byte. *)
Definition value_post (lo start : Z) (x : value_exit) (k : ctx W) : Prop :=
  match x with
  | Value_done h =>
      (value_inv lo start (dlen + 1) k /\ p k = dlen /\ value_state h = true) \/
      almost_done_inv lo start dlen k
  | Value_reexecute => almost_done_inv lo start dlen k
  end.

(** Leaving the value: its mark is cleared. *)
Ltac solve_left :=
  intros []; red_ctx; cbn [mark_ok mark_state];
  first [exact I | match goal with H : mark_ok _ _ _ ?o |- match ?o with _ => _ end =>
    destruct o; [destruct H as [_ H]; discriminate H | exact I] end].

Lemma header_value_done_ok lo start h k :
  value_inv lo start dlen k ->
  wp (bind (UPDATE_STATE s_header_almost_done) (fun _ =>
      bind (set_hs h) (fun _ =>
      bind (CALLBACK_DATA settings data header_value) (fun _ => ret (Value_done h)))))
    (value_post lo start) (error_post dlen) (return_post dlen) k.
Proof.
  intros Hinv. open_scan k. marks_of Hm. destruct Hr; red_ctx. open_marks; wp_run;
  try solve_mark_range; solve_leaf; cbn [value_post]; right;
  constructor; red_ctx; try reflexivity; try assumption; try exact I; try lia;
    try solve_ranges; solve_left.
Qed.

Lemma header_value_lf_ok lo start h k :
  value_inv lo start dlen k ->
  wp (bind (UPDATE_STATE s_header_almost_done) (fun _ =>
      bind (COUNT_HEADER_SIZE (p k - start)) (fun _ =>
      bind (set_hs h) (fun _ =>
      bind (CALLBACK_DATA_NOADVANCE settings data header_value) (fun _ =>
      ret Value_reexecute)))))
    (value_post lo start) (error_post dlen) (return_post dlen) k.
Proof.
  intros Hinv. open_scan k. marks_of Hm. destruct Hr; red_ctx. open_marks; wp_run;
  try solve_mark_range; solve_leaf; cbn [value_post];
  constructor; red_ctx; try reflexivity; try assumption; try exact I; try lia;
    try solve_ranges; solve_left.
Qed.

Lemma header_value_loop_ok lo start fuel h k :
  value_inv lo start (dlen + 1) k -> value_state h = true ->
  dlen - p k < Z.of_nat fuel ->
  wp (header_value_loop settings data lenient fuel start h)
    (value_post lo start) (error_post dlen) (return_post dlen) k.
Proof.
  revert h k. induction fuel as [|fuel IH]; intros h k Hinv Hh Hfuel;
    cbn [header_value_loop]; apply wp_bind, wp_get; unfold data_len;
    destruct (Z.eqb_spec (p k) dlen) as [Heq|Hne];
    try (apply wp_ret; cbn [value_post]; auto; fail).
  - pose proof (scan_hi _ _ _ _ _ _ Hinv). lia.
  - assert (0 <= p k < dlen) as Hp by (destruct Hinv; lia).
    apply wp_bind, wp_load_ch; [exact Hp|]. intros b Hb Hat.
    assert (value_inv lo start dlen (with_ch b k)) as Hinv'.
    { open_scan k. solve_scan. }
    replace b with (ch (with_ch b k)) in Hat by (destruct k; reflexivity).
    replace (p k) with (p (with_ch b k)) in * by (destruct k; reflexivity).
    generalize dependent (with_ch b k). clear b Hb k Hinv.
    intros k Hfuel Hne Hp Hat Hinv.
    apply wp_bind, wp_get. destruct (Z.eqb_spec (ch k) CR) as [|Hcr].
    { apply header_value_done_ok. exact Hinv. }
    destruct (Z.eqb_spec (ch k) LF) as [|Hlf].
    { apply header_value_lf_ok. exact Hinv. }
    destruct (negb lenient && negb (IS_HEADER_CHAR (ch k))).
    { open_scan k. wp_run. solve_leaf. }
    apply wp_bind. eapply wp_mono;
      [apply header_value_char_ok with (R := return_post dlen); eassumption| |auto|auto].
    intros h' k' (Hk' & Hh' & Hpk). apply wp_bind, wp_get, wp_bind, wp_modify, IH.
    + open_scan k'. solve_scan.
    + exact Hh'.
    + destruct k' as [P' q' b' s' ? ? ? ? ? ?]. red_ctx. lia.
Qed.

Lemma case_s_header_value_ok :
  ok (case_s_header_value settings data lenient) s_header_value.
Proof.
  intros lo k Hinv Hs. unfold case_s_header_value. apply wp_bind, wp_get, wp_bind.
  eapply wp_mono;
    [apply (header_value_loop_ok lo (p k)) | | auto | auto].
  - open_ctx k; constructor; red_ctx; try reflexivity; try lia; try assumption;
      try solve_ranges; try exact I; intros []; cbn; auto; lia.
  - destruct Hinv as [_ _ Hst _ _ _ _]. rewrite Hs in Hst. exact Hst.
  - unfold loop_fuel, zlen. destruct Hinv. lia.
  - intros x k' Hk'. assert (p k < dlen) as Hpk by (destruct Hinv; assumption).
    generalize dependent (p k). clear k Hinv Hs. intros start Hk' Hstart.
    destruct x as [h|]; cbn [value_post] in Hk'; [destruct Hk' as [(Hk' & Heq & Hh)|Hk']|].
    all: open_scan k'; marks_of Hm; destruct Hr; red_ctx; unfold data_len.
    all: open_marks; solve_case; bool_hyps; lia.
Qed.

End Safety.

#[export] Hint Resolve case_s_body_identity_ok case_s_chunk_data_ok
  case_s_req_method_ok case_s_req_spaces_before_url_ok case_s_req_schema_ok
  case_s_req_server_ok case_s_header_field_ok case_s_header_value_ok : http_cases.
