(* ===== verification/HttpExecute.v ===== *)
(** * [http_parser_execute]

    The switch, the main loop and the whole function, from the lemmas on the
    cases: the guarantee of a call. *)

From Stdlib Require Import String ZArith List Bool Lia.
From S2P Require Import Prelude HttpDefs HttpUrl HttpExec HttpLogic HttpRecord HttpCases HttpSafety.
Import ListNotations.
Local Open Scope Z_scope.

Section Execute.
Context {W : Type} `{BuildConfig}.
Variable settings : http_parser_settings W.
Context `{!CallbacksOk settings}.
Variable data : list Z.
Variable lenient : bool.
Hypothesis data_size_t : zlen data < 2 ^ 64.
Hypothesis data_bytes : Forall (fun b => 0 <= b < 256) data.

Abbreviation dlen := (zlen data).

Implicit Types k : ctx W.

(** ** The switch *)

Lemma execute_switch_ok lo k :
  loop_inv 1 lo dlen k ->
  wp (execute_switch settings data lenient) (switch_post (p_state k) lo dlen)
    (error_post dlen) (return_post dlen) k.
Proof.
  intros Hinv. apply wp_switch. destruct (p_state k) eqn:Hs; cbn [switch_case];
    match goal with
    | |- wp ?c (switch_post ?s _ _) _ _ _ =>
        cut (@case_ok W _ data c s); [intros Hok; exact (Hok lo k Hinv Hs)|]
    end; auto 20 with http_cases datatypes.
Qed.

(** ** The loop *)

Lemma reexecute_ok fuel lo k :
  loop_inv 1 lo dlen k -> (reexecute_rank (p_state k) < fuel)%nat ->
  wp (reexecute settings data lenient fuel) (fun _ => loop_inv 0 lo dlen)
    (error_post dlen) (return_post dlen) k.
Proof.
  revert k. induction fuel as [|fuel IH]; intros k Hinv Hfuel; [lia|].
  cbn [reexecute]. apply wp_bind.
  eapply wp_mono; [apply execute_switch_ok; exact Hinv| |auto|auto].
  intros [|] k' Hk'; [apply wp_ret; exact Hk'|].
  destruct Hk' as [Hk' Hrank]. apply IH; [exact Hk'|lia].
Qed.

(** The invariant at the head of the loop, where [p] may be at the end. *)
Abbreviation head_inv := (loop_inv 0 0 (dlen + 1)).

(** Counting the byte of a header. *)
Lemma state_inv_count s P :
  state_inv 0 s P ->
  state_inv 1 s (if PARSING_HEADER s then set_nread (u32 (hp_nread P + 1)) P else P).
Proof.
  destruct P; destruct s; cbn; auto. intros [-> Hf]. auto.
Qed.

Lemma count_byte_ok lo k :
  loop_inv 0 lo dlen k ->
  wp (if PARSING_HEADER (p_state k) then COUNT_HEADER_SIZE 1 else ret tt)
    (fun _ => loop_inv 1 lo dlen) (error_post dlen) (return_post dlen) k.
Proof.
  intros [He Hr Hs Hm Hc Hl Hh]. apply state_inv_count in Hs.
  destruct k as [P q c s m1 m2 m3 m4 m5 w]. open_parser P. red_ctx. subst.
  destruct (PARSING_HEADER s); [unfold COUNT_HEADER_SIZE; wp_run; solve_leaf | apply wp_ret];
    (constructor; red_ctx; [reflexivity | | exact Hs | exact Hm | lia..]);
    destruct Hr; solve_ranges.
Qed.

Lemma mark_ok_le d s q q' o : q <= q' -> mark_ok d s q o -> mark_ok d s q' o.
Proof. destruct o; cbn; intuition lia. Qed.

Lemma execute_loop_ok fuel k :
  head_inv k -> dlen - p k < Z.of_nat fuel ->
  wp (execute_loop settings data lenient fuel) (fun _ k' => head_inv k' /\ p k' = dlen)
    (error_post dlen) (return_post dlen) k.
Proof.
  revert k. induction fuel as [|fuel IH]; intros k Hinv Hfuel;
    cbn [execute_loop]; apply wp_bind, wp_get; unfold data_len;
    destruct (Z.eqb_spec (p k) dlen) as [Heq|Hne]; try (apply wp_ret; auto; fail).
  - destruct Hinv; lia.
  - apply wp_bind, wp_load_ch; [assumption | destruct Hinv; lia |]. intros b Hb _.
    apply wp_bind.
    replace (p_state k) with (p_state (with_ch b k)) by (destruct k; reflexivity).
    eapply wp_mono; [apply (count_byte_ok (p k))| |auto|auto].
    { destruct Hinv. destruct k as [P q c s m1 m2 m3 m4 m5 w].
      constructor; red_ctx; assumption || lia. }
    intros [] k1 Hk1. apply wp_bind.
    eapply wp_mono; [apply (reexecute_ok _ (p k)); [exact Hk1|]| |auto|auto].
    { unfold reexecute_fuel. destruct (p_state k1); cbn; lia. }
    intros [] k2 [He Hr Hs Hm Hc Hl Hh]. apply wp_bind, wp_get, wp_bind, wp_modify, IH.
    + destruct k2 as [P q c s m1 m2 m3 m4 m5 w]. constructor; red_ctx; try assumption || lia.
      intros d. apply mark_ok_le with q; [cbn; lia|]. destruct d; exact (Hm _).
    + destruct k2 as [P q c s m1 m2 m3 m4 m5 w]. red_ctx. lia.
Qed.

(** ** The end of the buffer and of the input *)

(** A state leaves at most one mark open. *)
Lemma mark_state_unique d d' s :
  mark_state d s = true -> mark_state d' s = true -> d = d'.
Proof. destruct d, d', s; (reflexivity || discriminate). Qed.

Ltac open_one_mark :=
  repeat match goal with
  | H : mark_ok _ _ _ ?o |- _ => is_var o; destruct o; cbn [mark_ok] in H; conjs
  end;
  repeat match goal with
  | H : mark_state ?d ?s = true, H' : mark_state ?d' ?s = true |- _ =>
      assert_fails (constr_eq d d'); discriminate (mark_state_unique _ _ _ H H')
  end.

Lemma execute_end_ok k :
  head_inv k -> p k = dlen ->
  wp (execute_end settings data) (fun _ _ => False) (error_post dlen) (return_post dlen) k.
Proof.
  intros [He Hr Hs Hm Hc Hl Hh] Hp. unfold execute_end.
  destruct k as [P q c s m1 m2 m3 m4 m5 w]. open_parser P. red_ctx. subst.
  marks_of Hm. destruct Hr; red_ctx. open_one_mark; wp_run; try solve_mark_range; try reflexivity; unfold data_len; solve_leaf.
Qed.

Lemma execute_eof_ok P w :
  parser_inv P -> hp_http_errno P = HPE_OK ->
  wp (execute_eof settings) (fun _ _ => False) (error_post 1) (returns 1 0) (entry_ctx P w).
Proof.
  intros [Hr Hs] He. unfold execute_eof. apply wp_bind, wp_get.
  destruct P as [ptype flags pstate hstate index plen nread clen maj min scode meth perr upgr pdata].
  red_ctx. subst. unfold entry_ctx. red_ctx. destruct Hr; red_ctx.
  destruct pstate;
    repeat first
      [ apply wp_notify_state; [assumption | reflexivity | intros ? ? ? [-> | ->] | intros ? ? ? ?]
      | wp_step | progress unfold CALLBACK_NOTIFY_NOADVANCE ];
    cbv beta iota delta [wp]; red_ctx; solve_leaf.
Qed.

(** The context on entry. *)
Lemma entry_mark_ok d s : mark_ok d s 0 (entry_mark d s).
Proof. destruct d, s; cbn; first [exact I | split; [lia | reflexivity]]. Qed.

Lemma entry_ctx_ok P w :
  parser_inv P -> hp_http_errno P = HPE_OK ->
  loop_inv (W := W) 0 0 (dlen + 1) (entry_ctx P w).
Proof.
  intros [Hr Hs] He. pose proof (zlen_nonneg data).
  constructor; cbn; try assumption || lia.
  intros d. destruct d; apply entry_mark_ok.
Qed.

(** What a call guarantees: it returns [n] in a state [P']. *)
Definition call_post (hi len : Z) (r : exec_result W) : Prop :=
  exists P' w' n, r = Returned P' w' n /\ 0 <= n <= hi /\
    (hp_http_errno P' = HPE_OK \/ hp_http_errno P' = HPE_PAUSED -> parser_inv P') /\
    (hp_http_errno P' = HPE_OK -> n = len \/ hp_upgrade P' = true).

Lemma run_body_ok m hi len k :
  wp m (fun _ _ => False) (error_post hi) (returns hi len) k ->
  call_post hi len (run_body m k).
Proof.
  unfold wp, run_body, call_post. destruct (m k) as [a k'|k'|k' n|]; try tauto.
  - intros (H1 & H2 & H3). unfold execute_error.
    destruct (http_errno_eqb_spec (hp_http_errno (prs k')) HPE_OK); [contradiction|].
    do 3 eexists. split; [reflexivity|]. split; [exact H3|].
    destruct k' as [P q c s m1 m2 m3 m4 m5 w], P. cbn in *. tauto.
  - intros (Hn & HP & Hl). eauto 10.
Qed.

Lemma http_parser_execute_ok P w :
  parser_inv P -> hp_lenient_http_headers P = lenient -> hp_http_errno P = HPE_OK ->
  call_post (Z.max 1 dlen) dlen (http_parser_execute settings P w data).
Proof.
  intros Hinv Hlen He. unfold http_parser_execute. rewrite He, Hlen. cbn [negb http_errno_eqb http_errno_num Z.eqb].
  destruct (Z.eqb_spec (zlen data) 0) as [Hz|Hz].
  - rewrite Hz. apply run_body_ok, execute_eof_ok; assumption.
  - pose proof (zlen_nonneg data). replace (Z.max 1 dlen) with dlen by lia.
    apply run_body_ok, wp_bind.
    eapply wp_mono; [apply execute_loop_ok; [apply entry_ctx_ok; assumption|]| |auto|auto].
    + cbn. unfold loop_fuel, zlen. lia.
    + intros [] k' [Hk' Hp]. apply execute_end_ok; assumption.
Qed.

End Execute.

(** ** Sessions

    The life of a parser object: it is initialised, runs over any sequence of
    buffers and is paused and resumed by the application, in any order. *)

(** Unless an error has been reported, the invariant holds. *)
Definition object_inv `{BuildConfig} (P : http_parser) : Prop :=
  hp_http_errno P = HPE_OK \/ hp_http_errno P = HPE_PAUSED -> parser_inv P.

Inductive session {W} `{BuildConfig} (settings : http_parser_settings W)
  : http_parser -> W -> Prop :=
| session_init P t w : session settings (http_parser_init P t) w
| session_execute P w data P' w' n :
    session settings P w ->
    zlen data < 2 ^ 64 -> Forall (fun b => 0 <= b < 256) data ->
    http_parser_execute settings P w data = Returned P' w' n ->
    session settings P' w'
| session_pause P w paused P' :
    session settings P w -> http_parser_pause P paused = Some P' ->
    session settings P' w.

Lemma http_parser_init_inv `{BuildConfig} P t : parser_inv (http_parser_init P t).
Proof. destruct t; split; cbn; auto; constructor; cbn; lia. Qed.

Lemma http_parser_pause_inv `{BuildConfig} P b P' :
  object_inv P -> http_parser_pause P b = Some P' -> object_inv P'.
Proof.
  unfold http_parser_pause, object_inv. intros HP.
  destruct (http_errno_eqb_spec (hp_http_errno P) HPE_OK),
    (http_errno_eqb_spec (hp_http_errno P) HPE_PAUSED); cbn; try discriminate;
    injection 1 as <-; intros _; destruct (HP ltac:(auto)) as [Hr Hs];
    destruct P; split; cbn in *; try assumption; destruct Hr; constructor; assumption.
Qed.

Lemma http_parser_execute_object {W} `{BuildConfig} (settings : http_parser_settings W)
  `{!CallbacksOk settings} P w data :
  zlen data < 2 ^ 64 -> Forall (fun b => 0 <= b < 256) data -> object_inv P ->
  exists P' w' n, http_parser_execute settings P w data = Returned P' w' n /\
    0 <= n <= Z.max 1 (zlen data) /\ object_inv P' /\
    (hp_http_errno P' = HPE_OK -> n = zlen data \/ hp_upgrade P' = true).
Proof.
  intros Hlen Hb HP. destruct (http_errno_eqb_spec (hp_http_errno P) HPE_OK) as [He|He].
  - eapply http_parser_execute_ok; eauto.
  - exists P, w, 0. unfold http_parser_execute.
    destruct (http_errno_eqb_spec (hp_http_errno P) HPE_OK); [contradiction|].
    split; [reflexivity|]. split; [lia|]. split; [exact HP|]. intros; contradiction.
Qed.

Lemma session_inv {W} `{BuildConfig} (settings : http_parser_settings W)
  `{!CallbacksOk settings} P w : session settings P w -> object_inv P.
Proof.
  induction 1 as [P t w | P w data P' w' n _ IH Hl Hb Hx | P w b P' _ IH Hp].
  - intros _. apply http_parser_init_inv.
  - destruct (http_parser_execute_object settings P w data Hl Hb IH)
      as (P2 & w2 & n2 & Hx2 & _ & HP & _). rewrite Hx in Hx2. injection Hx2 as -> -> ->.
    exact HP.
  - exact (http_parser_pause_inv _ _ _ IH Hp).
Qed.

(** ** Theorems *)

(** C1: Whatever an application does with a parser object (initialise it, feed it
    any sequence of byte buffers, pause and resume it, with any callbacks that
    keep to the callback interface), the next call of [http_parser_execute] on
    any buffer returns: no assertion of the source fails, no byte outside the
    buffer or a literal is read, no range outside the buffer is passed to a
    callback, and no loop or chain of [goto reexecute] runs on.  The count it
    returns is at most the length (or 1 at the end of the input). *)
Theorem execute_safe {W} `{BuildConfig} (settings : http_parser_settings W)
  `{!CallbacksOk settings} P w data :
  session settings P w ->
  zlen data < 2 ^ 64 -> Forall (fun b => 0 <= b < 256) data ->
  exists P' w' n, http_parser_execute settings P w data = Returned P' w' n /\
    0 <= n <= Z.max 1 (zlen data).
Proof.
  intros Hs Hl Hb. apply session_inv in Hs; [|assumption].
  destruct (http_parser_execute_object settings P w data Hl Hb Hs)
    as (P' & w' & n & Hx & Hn & _).
  eauto.
Qed.

Definition get_request : list Z :=
  message ["GET /a?b HTTP/1.1"; "Host: h"; "Connection: close"; ""; ""]%string.

Lemma execute_safe_witness :
  exists P' w' n,
    http_parser_execute recorder (fresh_parser HTTP_REQUEST) [] get_request
      = Returned P' w' n /\ 0 <= n <= Z.max 1 (zlen get_request).
Proof.
  apply (execute_safe recorder).
  - constructor.
  - vm_compute. reflexivity.
  - apply is_bytes_spec. vm_compute. reflexivity.
Defined.

(** C2: A call that leaves no error and no pause behind has consumed the whole
    buffer, unless it stopped after a message that asks for an upgrade: the
    test [nparsed != len] of a caller detects every other case. *)
Theorem execute_consumes_all {W} `{BuildConfig} (settings : http_parser_settings W)
  `{!CallbacksOk settings} P w data P' w' n :
  session settings P w ->
  zlen data < 2 ^ 64 -> Forall (fun b => 0 <= b < 256) data ->
  http_parser_execute settings P w data = Returned P' w' n ->
  hp_http_errno P' = HPE_OK -> hp_upgrade P' = false ->
  n = zlen data.
Proof.
  intros Hs Hl Hb Hx He Hu. apply session_inv in Hs; [|assumption].
  destruct (http_parser_execute_object settings P w data Hl Hb Hs)
    as (P2 & w2 & n2 & Hx2 & _ & _ & Hc).
  rewrite Hx in Hx2. injection Hx2 as <- <- <-.
  destruct (Hc He); congruence.
Qed.

Lemma execute_consumes_all_witness :
  exists P' w' n,
    http_parser_execute recorder (fresh_parser HTTP_REQUEST) [] get_request
      = Returned P' w' n /\ n = zlen get_request.
Proof.
  do 3 eexists. split; [vm_compute; reflexivity|].
  eapply (execute_consumes_all recorder (fresh_parser HTTP_REQUEST) [] get_request).
  - constructor.
  - vm_compute. reflexivity.
  - apply is_bytes_spec. vm_compute. reflexivity.
  - vm_compute. reflexivity.
  - reflexivity.
  - reflexivity.
Defined.

(** The states between the end of the headers and the last chunk of a chunked body. *)
Definition in_chunked_body (s : state) : bool :=
  match s with
  | s_chunk_size_start | s_chunk_size | s_chunk_parameters | s_chunk_size_almost_done
  | s_chunk_data | s_chunk_data_almost_done | s_chunk_data_done => true
  | _ => false
  end.

(** C13: The object between two calls.  After any sequence of calls that has not
    ended in an error, every field fits its bit-field or integer type, version
    numbers and status are at most 999, no more header bytes have been counted
    than [HTTP_MAX_HEADER_SIZE], a body that is read by its length has a length
    that is neither 0 nor the value for an absent one, and a body that is read in
    chunks belongs to a message that asked for chunks and gave no Content-Length:
    the framing of a body is never ambiguous. *)
Theorem session_wellformed {W} `{BuildConfig} (settings : http_parser_settings W)
  `{!CallbacksOk settings} P w :
  session settings P w -> hp_http_errno P = HPE_OK \/ hp_http_errno P = HPE_PAUSED ->
  0 <= hp_flags P < 2 ^ 8 /\ 0 <= hp_index P < 2 ^ 7 /\
  0 <= hp_content_length P < 2 ^ 64 /\
  0 <= hp_http_major P <= 999 /\ 0 <= hp_http_minor P <= 999 /\ 0 <= hp_status_code P <= 999 /\
  0 <= hp_nread P <= Z.max 0 HTTP_MAX_HEADER_SIZE /\
  (hp_state P = s_body_identity -> 0 < hp_content_length P < ULLONG_MAX) /\
  (in_chunked_body (hp_state P) = true ->
     has_flag P F_CHUNKED = true /\ has_flag P F_CONTENTLENGTH = false).
Proof.
  intros Hs He. apply session_inv in Hs; [|assumption]. destruct (Hs He) as [[] Hst].
  repeat match goal with |- _ /\ _ => split end; try lia.
  - intros E. rewrite E in Hst. cbn in Hst. unfold ULLONG_MAX in *. lia.
  - intros Hc. destruct (hp_state P); try discriminate Hc; cbn in Hst; unfold chunked_only in Hst; tauto.
Qed.

(** A chunked request in the middle of its body. *)
Definition half_chunked : list Z :=
  message ["POST / HTTP/1.1"; "Transfer-Encoding: chunked"; ""; "5"; "ab"]%string.

Definition half_parser : http_parser :=
  match http_parser_execute recorder (fresh_parser HTTP_REQUEST) [] half_chunked with
  | Returned P _ _ => P
  | Aborted _ => raw_parser
  end.

Lemma half_session : exists w, session recorder half_parser w.
Proof.
  destruct (http_parser_execute recorder (fresh_parser HTTP_REQUEST) [] half_chunked) as [P w n|] eqn:E.
  - exists w. unfold half_parser. rewrite E.
    eapply (session_execute recorder (fresh_parser HTTP_REQUEST)); [constructor | | | exact E].
    + vm_compute. reflexivity.
    + apply is_bytes_spec. vm_compute. reflexivity.
  - vm_compute in E. discriminate E.
Qed.

Lemma session_wellformed_witness :
  hp_state half_parser = s_chunk_data /\
  0 <= hp_nread half_parser <= Z.max 0 HTTP_MAX_HEADER_SIZE /\
  has_flag half_parser F_CONTENTLENGTH = false.
Proof.
  destruct half_session as [w Hs].
  destruct (session_wellformed recorder half_parser w Hs) as (_ & _ & _ & _ & _ & _ & Hn & _ & Hc);
    [left; vm_compute; reflexivity|].
  split; [vm_compute; reflexivity|]. split; [exact Hn|]. apply Hc. vm_compute. reflexivity.
Defined.
