(* ===== verification/HttpRun.v ===== *)
(** * Running the parser over known input

    [reaches k J]: the main loop of [http_parser_execute], started in [k], comes
    to a context that satisfies [J] without leaving the function.  The rules
    follow the loop byte by byte; [reaches_returns] turns a run to the end of
    the buffer into the result of the call.  The callbacks are those of the
    recording application. *)

From Stdlib Require Import String ZArith List Bool Lia.
From S2P Require Import Prelude HttpDefs HttpUrl HttpExec HttpLogic HttpRecord HttpCases.
Import ListNotations.
Local Open Scope Z_scope.

(** A computation that falls through in a context that satisfies [Q]. *)
Definition falls_through {W A} (m : M W A) (Q : A -> ctx W -> Prop) (k : ctx W) : Prop :=
  wp m Q (fun _ => False) (fun _ _ => False) k.

Section Run.
Context {W : Type} `{BuildConfig}.
Variable settings : http_parser_settings W.
Variable data : list Z.
Variable lenient : bool.
Implicit Types k : ctx W.

Abbreviation dlen := (zlen data).

(** One iteration of the loop, after [ch = *p]. *)
Definition byte_step : M W unit :=
  bind get (fun k =>
  bind (if PARSING_HEADER (p_state k) then COUNT_HEADER_SIZE 1 else ret tt) (fun _ =>
  reexecute settings data lenient reexecute_fuel)).

Inductive reaches (k : ctx W) (J : ctx W -> Prop) : Prop :=
| reaches_refl : J k -> reaches k J
| reaches_step b k1 :
    byte_at data (p k) = Some b ->
    byte_step (with_ch b k) = Next tt k1 -> p k <= p k1 ->
    reaches (with_p (p k1 + 1) k1) J -> reaches k J.

Lemma reaches_byte k b J :
  byte_at data (p k) = Some b ->
  falls_through byte_step
    (fun _ k1 => p k <= p k1 /\ reaches (with_p (p k1 + 1) k1) J) (with_ch b k) ->
  reaches k J.
Proof.
  intros Hb. unfold falls_through, wp. destruct (byte_step _) as [[] k1|?|?|] eqn:E; try tauto.
  intros [Hp Hr]. exact (reaches_step _ _ _ _ Hb E Hp Hr).
Qed.

Lemma reaches_trans k J J' :
  reaches k J -> (forall k', J k' -> reaches k' J') -> reaches k J'.
Proof.
  induction 1 as [k J Hk|k J b k1 Hb Hs Hp _ IH]; intros HJ; [auto|].
  eapply reaches_step; eauto.
Qed.

Lemma reaches_mono k (J J' : ctx W -> Prop) :
  reaches k J -> (forall k', J k' -> J' k') -> reaches k J'.
Proof. intros Hr HJ. eapply reaches_trans; [exact Hr|]. intros; apply reaches_refl; auto. Qed.

Lemma execute_loop_byte fuel k b :
  byte_at data (p k) = Some b ->
  execute_loop settings data lenient (S fuel) k =
  bind byte_step (fun _ => bind get (fun k => bind (set_p (p k + 1)) (fun _ =>
    execute_loop settings data lenient fuel))) (with_ch b k).
Proof.
  intros Hb. assert (0 <= p k < dlen) as Hp by (apply byte_at_Some; eauto).
  cbn [execute_loop]. unfold bind at 1, get at 1, data_len.
  destruct (Z.eqb_spec (p k) dlen); [lia|].
  unfold load_ch, bind, get, read_, modify. rewrite Hb.
  unfold byte_step, bind, get.
  replace (p_state (with_ch b k)) with (p_state k) by (destruct k; reflexivity).
  unfold ret at 1. cbv beta iota.
  destruct ((if PARSING_HEADER (p_state k) then COUNT_HEADER_SIZE 1 else ret tt) (with_ch b k));
    reflexivity.
Qed.

Lemma reaches_loop k J :
  reaches k J ->
  forall fuel, dlen - p k < Z.of_nat fuel -> (forall k', J k' -> p k' <= dlen) ->
  exists fuel' k', J k' /\ dlen - p k' < Z.of_nat fuel' /\
    execute_loop settings data lenient fuel k = execute_loop settings data lenient fuel' k'.
Proof.
  induction 1 as [k J Hk|k J b k1 Hb Hs Hp _ IH]; intros fuel Hf HJ; [eauto|].
  assert (0 <= p k < dlen) by (apply byte_at_Some; eauto).
  destruct fuel as [|fuel]; [lia|].
  destruct (IH fuel) as (fuel' & k' & Hk' & Hf' & He); [|exact HJ|].
  { destruct k1 as [P1 q1 c1 s1 n1 n2 n3 n4 n5 w1]. red_ctx. lia. }
  exists fuel', k'. repeat split; [assumption..|]. rewrite <- He.
  rewrite (execute_loop_byte _ _ _ Hb). unfold bind, get, set_p, modify. rewrite Hs. reflexivity.
Qed.

(** A run to the end of the buffer, and what [execute_end] makes of it. *)
Lemma reaches_returns P w J (R : http_parser -> W -> Z -> Prop) :
  hp_http_errno P = HPE_OK -> dlen <> 0 -> hp_lenient_http_headers P = lenient ->
  reaches (entry_ctx P w) J ->
  (forall k, J k -> p k = dlen /\
     wp (execute_end settings data) (fun _ _ => False) (fun _ => False)
       (fun k' n => R (prs k') (world k') n) k) ->
  exists P' w' n,
    http_parser_execute settings P w data = Returned P' w' n /\ R P' w' n.
Proof.
  intros He Hz Hl Hr HJ. unfold http_parser_execute. rewrite He, Hl.
  cbn [negb http_errno_eqb http_errno_num Z.eqb].
  destruct (Z.eqb_spec dlen 0); [contradiction|].
  destruct (reaches_loop _ _ Hr (loop_fuel data)) as (fuel & k & Hk & Hf & Hloop).
  - cbn. unfold loop_fuel, zlen. lia.
  - intros k Hk. destruct (HJ k Hk). lia.
  - destruct (HJ k Hk) as (Hp & Hend). unfold wp in Hend.
    unfold run_body, bind. rewrite Hloop.
    destruct fuel; cbn [execute_loop]; unfold bind, get, data_len;
      rewrite Hp, Z.eqb_refl; unfold ret; cbv beta iota;
      destruct (execute_end settings data k); try contradiction; eauto.
Qed.

(** A run whose last byte leaves the function. *)
Lemma reaches_leaves P w J E R :
  hp_http_errno P = HPE_OK -> dlen <> 0 -> hp_lenient_http_headers P = lenient ->
  reaches (entry_ctx P w) J ->
  (forall k, J k -> exists b, byte_at data (p k) = Some b /\
     wp byte_step (fun _ _ => False) E R (with_ch b k)) ->
  (exists k', E k' /\ http_parser_execute settings P w data = execute_error k') \/
  (exists k' n, R k' n /\ http_parser_execute settings P w data = Returned (prs k') (world k') n).
Proof.
  intros He Hz Hl Hr HJ. unfold http_parser_execute. rewrite He, Hl.
  cbn [negb http_errno_eqb http_errno_num Z.eqb].
  destruct (Z.eqb_spec dlen 0); [contradiction|].
  assert (forall k, J k -> 0 <= p k < dlen) as HJp.
  { intros k Hk. destruct (HJ k Hk) as (b & Hb & _). apply byte_at_Some. eauto. }
  destruct (reaches_loop _ _ Hr (loop_fuel data)) as (fuel & k & Hk & Hf & Hloop).
  - cbn. unfold loop_fuel, zlen. lia.
  - intros k Hk. specialize (HJp k Hk). lia.
  - specialize (HJp k Hk). destruct (HJ k Hk) as (b & Hb & Hw). destruct fuel as [|fuel]; [lia|].
    unfold wp in Hw. destruct (byte_step (with_ch b k)) as [? ?|k'|k' n'|?] eqn:Eb; try contradiction;
      [left; exists k' | right; exists k', n']; (split; [exact Hw|]);
      unfold run_body, bind at 1; rewrite Hloop, (execute_loop_byte _ _ _ Hb);
      unfold bind at 1; rewrite Eb; reflexivity.
Qed.

(** A run that ends with a jump to [error]. *)
Lemma reaches_fails P w J e :
  hp_http_errno P = HPE_OK -> dlen <> 0 -> hp_lenient_http_headers P = lenient -> e <> HPE_OK ->
  reaches (entry_ctx P w) J ->
  (forall k, J k -> exists b, byte_at data (p k) = Some b /\
     wp byte_step (fun _ _ => False) (fun k' => hp_http_errno (prs k') = e)
       (fun _ _ => False) (with_ch b k)) ->
  exists P' w' n,
    http_parser_execute settings P w data = Returned P' w' n /\ hp_http_errno P' = e.
Proof.
  intros He Hz Hl Hne Hr HJ.
  destruct (reaches_leaves _ _ _ _ _ He Hz Hl Hr HJ) as [(k' & Hk & ->)|(? & ? & [] & _)].
  do 3 eexists. split; [reflexivity|]. destruct k' as [P' q' c' s' n1 n2 n3 n4 n5 w'], P'.
  cbn in Hk |- *. subst. destruct (http_errno_eqb_spec e HPE_OK); [contradiction|]. reflexivity.
Qed.

(** A run that ends with a [return] in the loop. *)
Lemma reaches_exits P w J (R : http_parser -> W -> Z -> Prop) :
  hp_http_errno P = HPE_OK -> dlen <> 0 -> hp_lenient_http_headers P = lenient ->
  reaches (entry_ctx P w) J ->
  (forall k, J k -> exists b, byte_at data (p k) = Some b /\
     wp byte_step (fun _ _ => False) (fun _ => False)
       (fun k' n => R (prs k') (world k') n) (with_ch b k)) ->
  exists P' w' n, http_parser_execute settings P w data = Returned P' w' n /\ R P' w' n.
Proof.
  intros He Hz Hl Hr HJ.
  destruct (reaches_leaves _ _ _ _ _ He Hz Hl Hr HJ) as [(? & [] & _)|(k' & n & Hk & ->)]. eauto.
Qed.

End Run.

(** ** The bytes ahead *)

Section Bytes.
Variable data : list Z.
Abbreviation dlen := (zlen data).

(** The next bytes of the buffer are [l]. *)
Definition next_bytes (q : Z) (l : list Z) : Prop :=
  0 <= q /\ forall i b, nth_error l i = Some b -> byte_at data (q + Z.of_nat i) = Some b.

Lemma next_bytes_cons q b l :
  next_bytes q (b :: l) -> byte_at data q = Some b /\ 0 <= q < dlen /\ next_bytes (q + 1) l.
Proof.
  intros [Hq Hn]. assert (byte_at data q = Some b) as Hb.
  { specialize (Hn 0%nat b eq_refl). rewrite Z.add_0_r in Hn. exact Hn. }
  split; [exact Hb|]. split; [apply byte_at_Some; eauto|]. split; [lia|].
  intros i b' Hi. specialize (Hn (S i) b' Hi). rewrite <- Hn. f_equal. lia.
Qed.

Lemma next_bytes_intro q b l :
  byte_at data q = Some b -> next_bytes (q + 1) l -> next_bytes q (b :: l).
Proof.
  intros Hb [Hq Hn]. split; [apply (byte_at_Some data q); eauto|].
  intros [|i] b' Hi.
  - injection Hi as <-. rewrite Z.add_0_r. exact Hb.
  - specialize (Hn i b' Hi). rewrite <- Hn. f_equal. lia.
Qed.

Lemma next_bytes_app q l1 l2 :
  next_bytes q (l1 ++ l2) -> next_bytes q l1 /\ next_bytes (q + zlen l1) l2.
Proof.
  intros [Hq Hn]. split; split; try (unfold zlen; lia); intros i b Hi.
  - apply Hn. rewrite nth_error_app1; [exact Hi|]. apply nth_error_Some. congruence.
  - unfold zlen. rewrite <- Z.add_assoc, <- Nat2Z.inj_add. apply Hn.
    rewrite nth_error_app2 by lia. rewrite Nat.add_comm, Nat.add_sub. exact Hi.
Qed.

Lemma next_bytes_end q l : next_bytes q l -> l <> [] -> q + zlen l <= dlen.
Proof.
  intros Hn Hl. destruct (exists_last Hl) as (l' & b & ->).
  apply next_bytes_app in Hn as [_ Hn]. apply next_bytes_cons in Hn as (_ & Hr & _).
  rewrite zlen_app. unfold zlen at 2. cbn. lia.
Qed.

Lemma next_bytes_all : next_bytes 0 data.
Proof.
  split; [lia|]. intros i b Hi. unfold byte_at. destruct (Z.ltb_spec (0 + Z.of_nat i) 0); [lia|].
  rewrite Z.add_0_l, Nat2Z.id. exact Hi.
Qed.

(** The range handed to a callback, when it is known. *)
Lemma next_bytes_slice q l : next_bytes q l -> slice data q (zlen l) = l.
Proof.
  intros [Hq Hn]. apply nth_error_ext. intros i. unfold slice, zlen. rewrite Nat2Z.id.
  rewrite nth_error_firstn, nth_error_skipn.
  destruct (Nat.ltb_spec i (length l)).
  - destruct (nth_error l i) as [b|] eqn:E; [|apply nth_error_None in E; lia].
    specialize (Hn i b E). unfold byte_at in Hn.
    destruct (Z.ltb_spec (q + Z.of_nat i) 0); [lia|]. rewrite <- Hn. f_equal. lia.
  - symmetry. apply nth_error_None. lia.
Qed.

End Bytes.

(** ** The recording application *)

Section Recorder.
Context `{BuildConfig}.
Variable data : list Z.
Implicit Types (k : ctx (list event)) (E : ctx (list event) -> Prop)
  (R : ctx (list event) -> Z -> Prop).

Lemma wp_notify_rec FOR ER (Q : unit -> ctx (list event) -> Prop) E R k :
  hp_http_errno (prs k) = HPE_OK ->
  Q tt (with_prs (set_state (p_state k) (prs k)) (with_world (world k ++ [Notify FOR]) k)) ->
  wp (CALLBACK_NOTIFY_ recorder FOR ER) Q E R k.
Proof.
  intros He HQ. unfold wp, CALLBACK_NOTIFY_. rewrite He.
  destruct k as [P q c s a b d' e f w], P. cbn in He. subst.
  destruct FOR; exact HQ.
Qed.

Lemma wp_data_rec FOR LEN ER m (Q : unit -> ctx (list event) -> Prop) E R k :
  hp_http_errno (prs k) = HPE_OK -> get_mark FOR k = Some m ->
  0 <= m -> 0 <= LEN m -> m + LEN m <= zlen data ->
  Q tt (with_mark FOR None (with_prs (set_state (p_state k) (prs k))
          (with_world (world k ++ [Data FOR (slice data m (LEN m))]) k))) ->
  wp (CALLBACK_DATA_ recorder data FOR LEN ER) Q E R k.
Proof.
  intros He Hm H1 H2 H3 HQ. unfold wp, CALLBACK_DATA_. rewrite He, Hm. unfold data_len.
  rewrite (proj2 (Z.leb_le _ _) H1), (proj2 (Z.leb_le _ _) H2), (proj2 (Z.leb_le _ _) H3).
  destruct k as [P q c s a b d' e f w], P. cbn in He. subst.
  destruct FOR; exact HQ.
Qed.

Lemma wp_headers_complete_rec (Q : unit -> ctx (list event) -> Prop) E R k :
  Q tt (with_world (world k ++ [Headers_complete]) k) ->
  wp (call_on_headers_complete recorder) Q E R k.
Proof. destruct k as [P q c s a b d' e f w]. auto. Qed.

Lemma wp_data_none FOR LEN ER (Q : unit -> ctx (list event) -> Prop) E R k :
  hp_http_errno (prs k) = HPE_OK -> get_mark FOR k = None -> Q tt k ->
  wp (CALLBACK_DATA_ recorder data FOR LEN ER) Q E R k.
Proof. intros He Hm HQ. unfold wp, CALLBACK_DATA_. rewrite He, Hm. exact HQ. Qed.

End Recorder.

(** What a parser knows of the message it is reading. *)
Record msg := mk_msg {
  m_type : http_parser_type;
  m_flags : Z;
  m_length : Z;
  m_major : Z;
  m_minor : Z;
  m_status : Z;
  m_method : http_method;
  m_upgrade : bool
}.

Definition msg_of (P : http_parser) : msg :=
  mk_msg (hp_type P) (hp_flags P) (hp_content_length P) (hp_http_major P)
    (hp_http_minor P) (hp_status_code P) (hp_method P) (hp_upgrade P).

(** The state for the next message, from what is known of this one. *)
Definition next_message `{BuildConfig} (x : msg) : state :=
  NEW_MESSAGE (mk_http_parser (m_type x) (m_flags x) s_dead h_general 0 false 0 (m_length x)
    (m_major x) (m_minor x) (m_status x) (m_method x) HPE_OK (m_upgrade x) 0).

Lemma NEW_MESSAGE_msg `{BuildConfig} P : NEW_MESSAGE P = next_message (msg_of P).
Proof. destruct P. reflexivity. Qed.

Definition data_cb_eqb (a b : data_cb) : bool :=
  match a, b with
  | header_field, header_field | header_value, header_value | url, url
  | body, body | status, status => true
  | _, _ => false
  end.

(** The value of a mark when [om] is the only one that is open. *)
Definition open_mark (om : option (data_cb * Z)) (d : data_cb) : option Z :=
  match om with
  | Some (d0, m) => if data_cb_eqb d0 d then Some m else None
  | None => None
  end.

(** Between two bytes: [p], the state, the open mark, the events so far and the
    message. *)
Record at_state (q : Z) (s : state) (om : option (data_cb * Z)) (w : list event) (m : msg)
  (k : ctx (list event)) : Prop := {
  at_p : p k = q;
  at_s : p_state k = s;
  at_marks : forall d, get_mark d k = open_mark om d;
  at_w : world k = w;
  at_errno : hp_http_errno (prs k) = HPE_OK;
  at_nread : 0 <= hp_nread (prs k) <= q;
  at_msg : msg_of (prs k) = m
}.

Lemma wp_count {W} `{BuildConfig} V (Q : unit -> ctx W -> Prop) E R k :
  0 <= hp_nread (prs k) + V <= HTTP_MAX_HEADER_SIZE -> HTTP_MAX_HEADER_SIZE < 2 ^ 32 ->
  Q tt (with_prs (set_nread (hp_nread (prs k) + V) (prs k)) k) ->
  wp (COUNT_HEADER_SIZE V) Q E R k.
Proof.
  intros Hr Hmax HQ. unfold COUNT_HEADER_SIZE. apply wp_bind, wp_modify, wp_bind, wp_parser.
  destruct k as [P q c s m1 m2 m3 m4 m5 w], P. red_ctx.
  rewrite (wrap_small 32) by lia. destruct (Z.ltb_spec HTTP_MAX_HEADER_SIZE (hp_nread + V)); [lia|].
  exact HQ.
Qed.

Lemma wp_strict {W} `{BuildConfig} b (Q : unit -> ctx W -> Prop) E R k :
  b = false -> Q tt k -> wp (STRICT_CHECK b) Q E R k.
Proof. intros -> HQ. unfold STRICT_CHECK. destruct HTTP_PARSER_STRICT; exact HQ. Qed.

(** The context on entry, in a state without an open mark. *)
Lemma entry_at_state P w :
  hp_http_errno P = HPE_OK -> hp_nread P = 0 ->
  (forall d, entry_mark d (hp_state P) = None) ->
  at_state 0 (hp_state P) None w (msg_of P) (entry_ctx P w).
Proof.
  intros He Hn Hm.
  constructor; first [reflexivity | assumption | (cbn; lia) | (intros []; apply Hm)].
Qed.

Lemma entry_at t :
  at_state 0 (hp_state (fresh_parser t)) None [] (msg_of (fresh_parser t))
    (entry_ctx (fresh_parser t) []).
Proof. apply entry_at_state; try reflexivity. destruct t; intros []; reflexivity. Qed.

(** ** Automation *)

Ltac open_at k :=
  destruct k as [P q0 c0 s0 m1 m2 m3 m4 m5 w0];
  match goal with
  | H : at_state _ _ _ _ _ (mk_ctx _ _ _ _ _ _ _ _ _ _) |- _ =>
      let Hp := fresh "Hp" in let Hs := fresh "Hs" in let Hw := fresh "Hw" in
      let He := fresh "He" in let Hn := fresh "Hnread" in
      let Hm := fresh "Hm" in let Hmsg := fresh "Hmsg" in
      destruct H as [Hp Hs Hm Hw He Hn Hmsg];
      let Hm1 := fresh "Hm" in let Hm2 := fresh "Hm" in let Hm3 := fresh "Hm" in
      let Hm4 := fresh "Hm" in let Hm5 := fresh "Hm" in
      pose proof (Hm header_field) as Hm1; pose proof (Hm header_value) as Hm2;
      pose proof (Hm url) as Hm3; pose proof (Hm body) as Hm4;
      pose proof (Hm status) as Hm5; clear Hm;
      open_parser P; unfold msg_of in Hmsg; red_ctx;
      cbn [open_mark data_cb_eqb] in *;
      first [(injection Hmsg as ? ? ? ? ? ? ? ?; subst) | subst]
  end.

Ltac head_of t := lazymatch t with ?f _ => head_of f | _ => t end.

(** Enter a case of the switch. *)
Ltac unfold_case :=
  lazymatch goal with
  | |- wp (header_field_loop _ _) _ _ _ _ => fail
  | |- wp (header_value_loop _ _ _ _ _ _) _ _ _ _ => fail
  | |- wp (load_ch _) _ _ _ _ => fail
  | |- wp ?c _ _ _ _ => let h := head_of c in unfold h; red_ctx
  end.

(** Drop a branch whose condition contradicts the context. *)
Ltac split_ors :=
  repeat match goal with
  | H : orb _ _ = true |- _ => apply orb_true_iff in H; destruct H
  end.

Ltac prune := try (exfalso; unfold CR, LF, HT, data_len in *; split_ors; bool_hyps; first [lia | congruence | discriminate]; fail).

Ltac rec_step :=
  lazymatch goal with
  | |- wp (execute_switch _ _ _) _ _ _ _ => apply wp_switch; red_ctx; cbn [switch_case]
  | |- wp (COUNT_HEADER_SIZE _) _ _ _ _ => apply wp_count; red_ctx; [lia | lia | ]
  | |- wp (CALLBACK_NOTIFY_ recorder _ _) _ _ _ _ =>
      apply wp_notify_rec; [reflexivity | red_ctx]
  | |- wp (call_on_headers_complete recorder) _ _ _ _ =>
      apply wp_headers_complete_rec; red_ctx
  | |- wp (CALLBACK_DATA_ recorder _ _ _ _) _ _ _ _ =>
      first [ eapply wp_data_none; [reflexivity | reflexivity | red_ctx]
            | eapply wp_data_rec; [reflexivity | reflexivity | lia | lia | lia | red_ctx] ]
  | |- wp (if PARSING_HEADER ?s then _ else _) _ _ _ _ =>
      let v := eval vm_compute in (PARSING_HEADER s) in change (PARSING_HEADER s) with v; cbv iota
  | |- wp (if ?b then _ else _) _ _ _ _ =>
      first [ lazymatch b with context [wrap] => fail | _ => idtac end;
              let v := eval vm_compute in b in
              first [constr_eq v true | constr_eq v false]; change b with v; cbv iota
            | wp_step ]
  | |- wp (reexecute _ _ _ (S _)) _ _ _ _ => cbn [reexecute]
  | |- wp (reexecute _ _ _ reexecute_fuel) _ _ _ _ => unfold reexecute_fuel; cbn [reexecute]
  | |- wp (STRICT_CHECK _) _ _ _ _ => apply wp_strict; [reflexivity | red_ctx]
  | |- wp (expect_char _ _) _ _ _ _ => unfold expect_char
  | |- wp (assert_ _) _ _ _ _ =>
      apply wp_assert; [first [reflexivity | assumption | idtac] | red_ctx]
  | |- wp (byte_step _ _ _) _ _ _ _ => unfold byte_step
  | |- wp (load_ch _) _ _ _ _ =>
      unfold load_ch; apply wp_bind, wp_get, wp_bind; red_ctx;
      eapply wp_read; [eassumption |]; apply wp_modify; red_ctx
  | |- falls_through _ _ _ => unfold falls_through
  | |- _ => first [wp_step | unfold_case]
  end; prune.

Ltac rec_run := repeat rec_step.

Ltac solve_at :=
  constructor; red_ctx;
  first [reflexivity | assumption | lia | intros []; reflexivity | idtac].

(** Feed the next byte of [H : next_bytes _ _ (_ :: _)]. *)
Ltac feed H :=
  let Hb := fresh "Hb" in let Hq := fresh "Hq" in
  apply next_bytes_cons in H as (Hb & Hq & H);
  eapply reaches_byte; [exact Hb |]; rec_run;
  lazymatch goal with |- _ /\ _ => split; [red_ctx; lia | red_ctx] | |- _ => idtac end;
  clear Hb.

(** Simplify the conditions of [H] that are known. *)
Ltac use_conds H :=
  repeat match goal with
  | E : ?b = true |- _ => lazymatch type of H with context [b] => rewrite E in H end
  | E : ?b = false |- _ => lazymatch type of H with context [b] => rewrite E in H end
  end; cbn [andb orb negb] in H.

(** ** The end of the buffer without an open mark *)

Lemma reaches_end `{BuildConfig} data lenient P0 w1 s w x (V : header_states -> Prop) :
  hp_http_errno P0 = HPE_OK -> zlen data <> 0 -> hp_lenient_http_headers P0 = lenient ->
  reaches recorder data lenient (entry_ctx P0 w1)
    (fun k => at_state (zlen data) s None w x k /\ V (hp_header_state (prs k))) ->
  exists P', http_parser_execute recorder P0 w1 data = Returned P' w (zlen data) /\
    hp_http_errno P' = HPE_OK /\ hp_state P' = s /\ msg_of P' = x /\ V (hp_header_state P').
Proof.
  intros He Hz Hl Hr.
  destruct (reaches_returns recorder data lenient P0 w1 _
    (fun P' w' n => n = zlen data /\ w' = w /\ hp_http_errno P' = HPE_OK /\ hp_state P' = s /\
       msg_of P' = x /\ V (hp_header_state P')) He Hz Hl Hr)
    as (P' & w' & n & Hx & -> & -> & HR); [|eauto].
  clear Hr He Hz Hl. intros k [Hat HV]. split; [exact (at_p _ _ _ _ _ _ Hat)|].
  open_at k. unfold execute_end. rec_run. red_ctx. auto 10.
Qed.
