(* ===== verification/HttpRequest.v ===== *)
(** * The request line

    Runs of the main loop over the start line of a printed request: method, URL
    and version.  The theorem on whole requests is in [HttpRoundtrip]. *)

From Stdlib Require Import String ZArith List Bool Lia.
From S2P Require Import Prelude HttpDefs HttpUrl HttpExec HttpLogic HttpRecord HttpCases HttpSafety HttpRun.
Import ListNotations.
Local Open Scope Z_scope.

(** ** The request line, byte by byte *)

(** A character of a method name after the first, as [s_req_method] treats it. *)
Definition method_next (m : http_method) (i c : Z) : option http_method :=
  match c_str_at (method_strings m) i with
  | None => None
  | Some mc =>
      if c =? mc then Some m
      else if IS_ALPHA c then method_switch m i c
      else if (c =? "-"%chr) && (i =? 1) && http_method_eqb m HTTP_MKCOL then Some HTTP_MSEARCH
      else None
  end.

Fixpoint method_scan (l : list Z) (m : http_method) (i : Z) : option http_method :=
  match l with
  | [] => Some m
  | c :: l' =>
      match method_next m i c with
      | Some m' => method_scan l' m' (i + 1)
      | None => None
      end
  end.

Fixpoint url_scan `{BuildConfig} (s : state) (l : list Z) : option state :=
  match l with
  | [] => Some s
  | c :: l' =>
      let s' := parse_url_char s c in
      if state_eqb s' s_dead then None else url_scan s' l'
  end.

Definition url_start (m : http_method) : state :=
  if http_method_eqb m HTTP_CONNECT then s_req_server_start else s_req_spaces_before_url.

(** The states in which a space ends the URL. *)
Definition url_end_state (s : state) : bool :=
  match s with
  | s_req_server | s_req_server_with_at | s_req_path | s_req_query_string_start
  | s_req_query_string | s_req_fragment_start | s_req_fragment => true
  | _ => false
  end.

Definition with_method (m : http_method) (x : msg) : msg :=
  mk_msg (m_type x) (m_flags x) (m_length x) (m_major x) (m_minor x) (m_status x) m (m_upgrade x).

Definition with_version (major minor : Z) (x : msg) : msg :=
  mk_msg (m_type x) (m_flags x) (m_length x) major minor (m_status x) (m_method x) (m_upgrade x).

Section Request.
Context `{BuildConfig}.
Variable data : list Z.
Variable lenient : bool.

Abbreviation dlen := (zlen data).
Abbreviation reaches := (reaches recorder data lenient).

(** The whole buffer is within the limit on headers. *)
Hypothesis header_limit : dlen <= HTTP_MAX_HEADER_SIZE < 2 ^ 32.

Lemma version_reaches q w m k :
  at_state q s_req_http_start None w m k ->
  next_bytes data q [72; 84; 84; 80; 47; 49; 46; 49; 13; 10] ->
  reaches k (at_state (q + 10) s_header_field_start None w (with_version 1 1 m)).
Proof.
  intros Hat Hnb. open_at k. do 10 feed Hnb. apply reaches_refl. solve_at.
Qed.

(** The method. *)

Lemma method_next_index m i c m' :
  0 <= i -> method_next m i c = Some m' -> i <= zlen (method_strings m).
Proof.
  unfold method_next, c_str_at. intros Hi Hn.
  destruct (byte_at _ _) eqn:E; [|discriminate].
  assert (0 <= i < zlen (method_strings m ++ [0])) as Hb by (apply byte_at_Some; eauto).
  rewrite zlen_app in Hb. cbn in Hb. lia.
Qed.

Lemma method_byte_reaches q w x k c i m' J :
  at_state q s_req_method None w x k -> hp_index (prs k) = i ->
  0 <= i -> byte_at data q = Some c -> c <> 0 -> c <> 32 ->
  method_next (m_method x) i c = Some m' ->
  (forall k', at_state (q + 1) s_req_method None w (with_method m' x) k' ->
     hp_index (prs k') = i + 1 -> reaches k' J) ->
  reaches k J.
Proof.
  intros Hat Hi H0 Hb Hc0 Hc32 Hn HJ.
  assert (0 <= q < dlen) as Hq by (apply byte_at_Some; eauto).
  pose proof (method_next_index _ _ _ _ H0 Hn). pose proof (method_strings_len (m_method x)).
  unfold method_next in Hn.
  open_at k. cbn [m_method] in *. eapply reaches_byte; [exact Hb|]. rec_run.
  all: use_conds Hn; try discriminate Hn; try injection Hn as <-.
  all: split; [lia|]; apply HJ; [solve_at | red_ctx; apply wrap_small; lia].
Qed.

Lemma method_reaches l q w x k i m' :
  at_state q s_req_method None w x k -> hp_index (prs k) = i -> 0 <= i ->
  next_bytes data q l -> Forall (fun c => c <> 0 /\ c <> 32) l ->
  method_scan l (m_method x) i = Some m' ->
  reaches k (fun k' => at_state (q + zlen l) s_req_method None w (with_method m' x) k' /\
                       hp_index (prs k') = i + zlen l).
Proof.
  revert q x k i. induction l as [|c l IH]; intros q x k i Hat Hi H0 Hnb Hc Hs.
  - injection Hs as <-. apply reaches_refl. unfold zlen. cbn. rewrite !Z.add_0_r.
    destruct x; auto.
  - apply next_bytes_cons in Hnb as (Hb & Hq & Hnb). inversion Hc as [|? ? [] Hc']; subst.
    cbn [method_scan] in Hs. destruct (method_next _ _ _) as [m1|] eqn:Hn; [|discriminate].
    eapply method_byte_reaches; eauto. intros k' Hat' Hi'.
    rewrite zlen_cons, !Z.add_assoc.
    eapply reaches_mono; [eapply IH; eauto; lia|]. auto.
Qed.

(** The message a request line starts. *)
Definition new_request (m : http_method) (x : msg) : msg :=
  mk_msg (m_type x) 0 ULLONG_MAX (m_major x) (m_minor x) (m_status x) m (m_upgrade x).

Lemma start_req_reaches q w x k c m :
  at_state q s_start_req None w x k -> byte_at data q = Some c -> first_method c = Some m ->
  reaches k (fun k' =>
    at_state (q + 1) s_req_method None (w ++ [Notify message_begin]) (new_request m x) k' /\
    hp_index (prs k') = 1).
Proof.
  intros Hat Hb Hm. assert (0 <= q < dlen) as Hq by (apply byte_at_Some; eauto).
  open_at k. eapply reaches_byte; [exact Hb|].
  assert (IS_ALPHA c = true /\ c <> CR /\ c <> LF) as (Ha & Hcr & Hlf).
  { unfold first_method in Hm.
    repeat match type of Hm with
    | (if ?b then _ else _) = _ =>
        let E := fresh in destruct b eqn:E; [apply Z.eqb_eq in E; subst; repeat split; discriminate|]
    end. discriminate. }
  rec_run; try discriminate Hm; try (rewrite Ha in *; discriminate).
  all: injection Hm as ->; split; [lia|]; apply reaches_refl; split; [solve_at | reflexivity].
Qed.

Lemma method_space_reaches q w x k :
  at_state q s_req_method None w x k ->
  hp_index (prs k) = zlen (method_strings (m_method x)) -> byte_at data q = Some 32 ->
  reaches k (at_state (q + 1) s_req_spaces_before_url None w x).
Proof.
  intros Hat Hi Hb. assert (0 <= q < dlen) as Hq by (apply byte_at_Some; eauto).
  assert (c_str_at (method_strings (m_method x)) (zlen (method_strings (m_method x))) = Some 0)
    as Hz by apply byte_at_middle.
  open_at k. cbn [m_method] in *. eapply reaches_byte; [exact Hb|].
  rec_run; try discriminate Hz; injection Hz as ->; try discriminate.
  split; [lia|]. apply reaches_refl. solve_at.
Qed.

(** The URL. *)
Lemma parse_url_char_blank s c :
  c = 32 \/ c = 13 \/ c = 10 -> parse_url_char s c = s_dead.
Proof. intros [-> | [-> | ->]]; destruct s; reflexivity. Qed.

(** The states inside a URL. *)
Definition url_state (s : state) : bool := mark_state url s.

Lemma parse_url_char_state s c :
  url_state s = true \/ s = s_req_spaces_before_url ->
  parse_url_char s c = s_dead \/ url_state (parse_url_char s c) = true.
Proof.
  intros Hs. destruct s; (destruct Hs; discriminate) || idtac;
    unfold parse_url_char; cbn -[IS_URL_CHAR IS_ALPHA IS_USERINFO_CHAR];
    repeat case_match_goal; auto.
Qed.

Lemma url_byte_reaches q w x k c s m J :
  at_state q s (Some (url, m)) w x k -> url_state s = true -> byte_at data q = Some c ->
  parse_url_char s c <> s_dead ->
  (forall k', at_state (q + 1) (parse_url_char s c) (Some (url, m)) w x k' -> reaches k' J) ->
  reaches k J.
Proof.
  intros Hat Hs Hb Hd HJ. assert (0 <= q < dlen) as Hq by (apply byte_at_Some; eauto).
  assert (c <> 32 /\ c <> 13 /\ c <> 10) as (H1 & H2 & H3).
  { repeat split; intros ->; apply Hd, parse_url_char_blank; auto. }
  open_at k. eapply reaches_byte; [exact Hb|].
  destruct s; try discriminate Hs; rec_run.
  all: try (split; [lia|]; apply HJ; solve_at).
  all: match goal with
       | E : state_eqb ?s s_dead = true |- _ => 
           destruct (state_eqb_spec s s_dead); [contradiction | discriminate]
       end.
Qed.

Lemma url_reaches l q w x k s m s' :
  at_state q s (Some (url, m)) w x k -> url_state s = true -> next_bytes data q l ->
  url_scan s l = Some s' ->
  reaches k (at_state (q + zlen l) s' (Some (url, m)) w x).
Proof.
  revert q k s. induction l as [|c l IH]; intros q k s Hat Hu Hnb Hs.
  - injection Hs as <-. apply reaches_refl. rewrite Z.add_0_r. exact Hat.
  - apply next_bytes_cons in Hnb as (Hb & Hq & Hnb). cbn [url_scan] in Hs.
    destruct (state_eqb_spec (parse_url_char s c) s_dead) as [|Hd]; [discriminate Hs|].
    eapply url_byte_reaches; eauto. intros k' Hat'. rewrite zlen_cons, Z.add_assoc.
    apply IH with (s := parse_url_char s c); auto.
    destruct (parse_url_char_state s c (or_introl Hu)); [contradiction|assumption].
Qed.

(** The first byte of the URL opens the mark. *)
Lemma url_first_reaches q w x k c :
  let s := parse_url_char (url_start (m_method x)) c in
  at_state q s_req_spaces_before_url None w x k -> byte_at data q = Some c ->
  s <> s_dead ->
  reaches k (at_state (q + 1) s (Some (url, q)) w x).
Proof.
  intros s Hat Hb Hd. assert (0 <= q < dlen) as Hq by (apply byte_at_Some; eauto).
  assert (c <> 32) by (intros ->; apply Hd, parse_url_char_blank; auto).
  subst s. unfold url_start in *. open_at k. cbn [m_method] in *.
  eapply reaches_byte; [exact Hb|]. rec_run.
  all: try (split; [lia|]; apply reaches_refl; solve_at).
  all: match goal with
       | E : state_eqb ?s s_dead = true |- _ =>
           destruct (state_eqb_spec s s_dead); [contradiction | discriminate]
       end.
Qed.

Lemma url_end_reaches q w x k s m :
  at_state q s (Some (url, m)) w x k -> url_end_state s = true -> 0 <= m <= q ->
  byte_at data q = Some 32 ->
  reaches k (at_state (q + 1) s_req_http_start None (w ++ [Data url (slice data m (q - m))]) x).
Proof.
  intros Hat He Hm Hb. assert (0 <= q < dlen) as Hq by (apply byte_at_Some; eauto).
  open_at k. eapply reaches_byte; [exact Hb|].
  destruct s; try discriminate He; rec_run; split; try lia; apply reaches_refl; solve_at.
Qed.

(** The whole request line. *)
Definition request_line (m : http_method) (u : list Z) : list Z :=
  method_strings m ++ [32] ++ u ++ [32] ++ bytes "HTTP/1.1" ++ crlf.

Definition url_valid (m : http_method) (u : list Z) : bool :=
  match url_scan (url_start m) u with
  | Some s => url_end_state s
  | None => false
  end.

Lemma method_strings_scan m :
  exists c l m0, method_strings m = c :: l /\ first_method c = Some m0 /\
    method_scan l m0 1 = Some m /\ Forall (fun c => c <> 0 /\ c <> 32) l.
Proof.
  destruct m; do 3 eexists; (split; [reflexivity|]); (split; [reflexivity|]);
    (split; [vm_compute; reflexivity|]);
    repeat first [apply Forall_nil | apply Forall_cons; [split; discriminate|]].
Qed.

Lemma request_line_reaches m u q w x k :
  at_state q s_start_req None w x k -> next_bytes data q (request_line m u) ->
  url_valid m u = true ->
  reaches k (at_state (q + zlen (request_line m u)) s_header_field_start None
    (w ++ [Notify message_begin; Data url u]) (with_version 1 1 (new_request m x))).
Proof.
  intros Hat Hnb Hu.
  destruct (method_strings_scan m) as (c & l & m0 & Hm & Hc & Hl & Hnz).
  assert (zlen (method_strings m) = 1 + zlen l) as Hlen by (rewrite Hm; apply zlen_cons).
  unfold request_line in Hnb |- *. rewrite !zlen_app, Hlen.
  apply next_bytes_app in Hnb as [Hnb1 Hnb2]. rewrite Hlen in Hnb2.
  rewrite Hm in Hnb1. apply next_bytes_cons in Hnb1 as (Hb & _ & Hnb1).
  apply next_bytes_cons in Hnb2 as (Hsp & _ & Hnb2).
  apply next_bytes_app in Hnb2 as [Hnu Hnb2].
  apply next_bytes_cons in Hnb2 as (Hsp2 & _ & Hv).
  destruct u as [|c1 u]; [destruct m; discriminate Hu|].
  unfold url_valid in Hu. destruct (url_scan _ _) as [s'|] eqn:Hs; [|discriminate].
  cbn [url_scan] in Hs.
  destruct (state_eqb_spec (parse_url_char (url_start m) c1) s_dead) as [|Hd]; [discriminate Hs|].
  pose proof (next_bytes_slice _ _ _ Hnu) as Hslice.
  apply next_bytes_cons in Hnu as (Hc1 & Hq1 & Hnu).
  eapply reaches_trans; [eapply start_req_reaches; eauto|]. intros k1 [Hat1 Hi1].
  eapply reaches_trans; [eapply method_reaches; eauto; lia|]. cbn [m_method]. intros k2 [Hat2 Hi2].
  rewrite <- (Z.add_assoc q 1) in Hat2. set (q2 := q + (1 + zlen l)) in *.
  eapply reaches_trans; [eapply method_space_reaches; eauto; rewrite Hi2; symmetry; exact Hlen|].
  intros k3 Hat3. eapply reaches_trans; [eapply url_first_reaches; eauto|]. intros k4 Hat4.
  assert (url_state (parse_url_char (url_start m) c1) = true) as Hus.
  { destruct (parse_url_char_state (url_start m) c1); [|contradiction|assumption].
    unfold url_start. destruct (http_method_eqb m HTTP_CONNECT); auto. }
  eapply reaches_trans; [eapply (url_reaches u); eauto|]. intros k5 Hat5.
  rewrite zlen_cons in Hsp2, Hv, Hslice. rewrite (Z.add_assoc (q2 + 1)) in Hsp2, Hv.
  rewrite (zlen_cons c1 u). pose proof (zlen_nonneg u).
  eapply reaches_trans; [eapply url_end_reaches; eauto; lia|]. intros k6 Hat6.
  eapply reaches_mono; [eapply version_reaches; eauto|]. intros k7 Hat7.
  replace (q2 + 1 + 1 + zlen u - (q2 + 1)) with (1 + zlen u) in Hat7 by lia.
  rewrite Hslice, <- app_assoc in Hat7.
  match goal with |- at_state ?a _ _ _ _ _ => match type of Hat7 with at_state ?b _ _ _ _ _ =>
    replace a with b; [exact Hat7 |] end end.
  subst q2. change (zlen [32]) with 1. change (zlen (bytes _)) with 8. change (zlen crlf) with 2. lia.
Qed.

End Request.
