(* ===== verification/HttpHeader.v ===== *)
(** * Header fields

    Header names as the parser recognises them: the scan of [s_header_field] as
    a function on the characters of the name, what it recognises, and the run of
    the main loop over a header field. *)

From Stdlib Require Import String ZArith List Bool Lia.
From S2P Require Import Prelude HttpDefs HttpUrl HttpExec HttpLogic HttpRecord HttpCases HttpSafety HttpRun.
Import ListNotations.
Local Open Scope Z_scope.

(** ** Names *)

(** [header_state], [index] and [flags] while a name is read. *)
Definition name_pos : Type := header_states * Z * Z.

(** One step of a literal match. *)
Definition literal_next (S : list Z) (c : Z) (i : Z) (same yes : header_states)
  : option (header_states * Z) :=
  let i := u7 (i + 1) in
  if sizeof S - 1 <? i then Some (h_general, i)
  else match c_str_at S i with
  | Some x =>
      Some (if negb (c =? x) then h_general else if i =? sizeof S - 2 then yes else same, i)
  | None => None
  end.

(** The literal a matching state compares the name with, and the state of a
    complete match. *)
Definition matched_literal (h : header_states) : option (list Z * header_states) :=
  match h with
  | h_matching_connection => Some (CONNECTION, h_connection)
  | h_matching_proxy_connection => Some (PROXY_CONNECTION, h_connection)
  | h_matching_content_length => Some (CONTENT_LENGTH, h_content_length)
  | h_matching_transfer_encoding => Some (TRANSFER_ENCODING, h_transfer_encoding)
  | h_matching_upgrade => Some (UPGRADE, h_upgrade)
  | _ => None
  end.

(** The effect of [header_field_char] on the character [ch] with token [c]; [None]
    stands for the error on a second Content-Length. *)
Definition name_next (x : name_pos) (ch c : Z) : option name_pos :=
  let '(h, i, f) := x in
  match h with
  | h_general => Some (h_general, i, f)
  | h_C => Some (if c =? "o"%chr then h_CO else h_general, u7 (i + 1), f)
  | h_CO => Some (if c =? "n"%chr then h_CON else h_general, u7 (i + 1), f)
  | h_CON =>
      Some (if c =? "n"%chr then h_matching_connection
            else if c =? "t"%chr then h_matching_content_length else h_general, u7 (i + 1), f)
  | h_connection | h_content_length | h_transfer_encoding | h_upgrade =>
      Some (if negb (ch =? " "%chr) then h_general else h, i, f)
  | _ =>
      match matched_literal h with
      | None => None
      | Some (lit, yes) =>
          match literal_next lit c i h yes with
          | None => None
          | Some (h_content_length, i') =>
              if truthy (Z.land f F_CONTENTLENGTH) then None
              else Some (h_content_length, i', Z.lor f F_CONTENTLENGTH)
          | Some (h', i') => Some (h', i', f)
          end
      end
  end.

Fixpoint name_scan `{BuildConfig} (l : list Z) (x : name_pos) : option name_pos :=
  match l with
  | [] => Some x
  | ch :: l' =>
      match name_next x ch (TOKEN ch) with
      | Some x' => name_scan l' x'
      | None => None
      end
  end.

Definition with_flags (f : Z) (x : msg) : msg :=
  mk_msg (m_type x) f (m_length x) (m_major x) (m_minor x) (m_status x) (m_method x) (m_upgrade x).

Section Header.
Context `{BuildConfig}.
Variable data : list Z.
Variable lenient : bool.

Abbreviation dlen := (zlen data).
Abbreviation reaches := (reaches recorder data lenient).

Hypothesis header_limit : dlen <= HTTP_MAX_HEADER_SIZE < 2 ^ 32.

Definition with_name (x : name_pos) (P : http_parser) : http_parser :=
  set_flags (snd x) (set_index (snd (fst x)) (set_header_state (fst (fst x)) P)).

Lemma wp_header_field_char {W} x ch c x' (Q : unit -> ctx W -> Prop) E R k :
  x = (hp_header_state (prs k), hp_index (prs k), hp_flags (prs k)) ->
  name_next x ch c = Some x' -> Q tt (with_prs (with_name x' (prs k)) k) ->
  wp (header_field_char ch c) Q E R k.
Proof.
  intros -> Hn HQ. unfold header_field_char. apply wp_bind, wp_parser.
  destruct k as [P q0 c0 s0 m1 m2 m3 m4 m5 w0]. open_parser P. unfold with_name in HQ. red_ctx.
  destruct hstate; cbn [name_next matched_literal] in Hn; try discriminate Hn.
  all: unfold match_literal, literal_next, set_hs in *; cbv zeta in Hn.
  all: repeat first [wp_step | unfold_case]; use_conds Hn;
    try discriminate Hn; injection Hn as <-; exact HQ.
Qed.

Definition name_of (P : http_parser) : name_pos :=
  (hp_header_state P, hp_index P, hp_flags P).

Lemma wp_header_field_loop {W} l c0 x' fuel (Q : unit -> ctx W -> Prop) E R k :
  next_bytes data (p k) (l ++ [c0]) ->
  Forall (fun b => TOKEN b <> 0) l -> TOKEN c0 = 0 ->
  name_scan l (name_of (prs k)) = Some x' -> (length l < fuel)%nat ->
  Q tt (with_ch c0 (with_p (p k + zlen l) (with_prs (with_name x' (prs k)) k))) ->
  wp (header_field_loop data fuel) Q E R k.
Proof.
  revert fuel k. induction l as [|b l IH]; intros fuel k Hnb Ht Hc Hs Hf HQ;
    apply next_bytes_cons in Hnb as (Hb & Hp & Hnb);
    destruct fuel as [|fuel]; try (cbn in Hf; lia); cbn [header_field_loop];
    apply wp_bind, wp_get; unfold data_len; destruct (Z.eqb_spec (p k) dlen) as [|_]; try lia;
    apply wp_bind; unfold load_ch; apply wp_bind, wp_get, wp_bind;
    (eapply wp_read; [exact Hb|]); apply wp_modify, wp_bind, wp_get;
    destruct k as [P q c s n1 n2 n3 n4 n5 w]; red_ctx.
  - rewrite Hc. apply wp_ret. injection Hs as <-. unfold zlen in HQ. cbn [length Z.of_nat] in HQ.
    rewrite Z.add_0_r in HQ. destruct P. exact HQ.
  - inversion Ht as [|? ? Hb0 Ht']; subst.
    destruct (Z.eqb_spec (TOKEN b) 0) as [|_]; [contradiction|].
    cbn [name_scan] in Hs. destruct (name_next _ _ _) as [x1|] eqn:Hn; [|discriminate].
    apply wp_bind. eapply wp_header_field_char; [reflexivity | exact Hn | ].
    apply wp_bind, wp_modify. red_ctx. apply IH; try assumption; red_ctx.
    + destruct x1 as [[h1 i1] f1], P. exact Hs.
    + cbn in Hf. lia.
    + rewrite zlen_cons, Z.add_assoc in HQ. destruct P. exact HQ.
Qed.

(** A name and the colon behind it. *)
Lemma header_name_reaches l q w x k m x' :
  at_state q s_header_field (Some (header_field, m)) w x k -> 0 <= m <= q ->
  next_bytes data q (l ++ [58]) -> Forall (fun b => TOKEN b <> 0) l ->
  name_scan l (hp_header_state (prs k), hp_index (prs k), m_flags x) = Some x' ->
  reaches k (fun k' =>
    at_state (q + zlen l + 1) s_header_value_discard_ws None
      (w ++ [Data header_field (slice data m (q + zlen l - m))]) (with_flags (snd x') x) k' /\
    hp_header_state (prs k') = fst (fst x')).
Proof.
  intros Hat Hm Hnb Ht Hs. destruct (next_bytes_app _ _ _ _ Hnb) as [_ Hcolon].
  apply next_bytes_cons in Hcolon as (Hcb & Hcr & _).
  assert (exists b, byte_at data q = Some b) as [b Hb].
  { destruct l as [|b l]; apply next_bytes_cons in Hnb as (Hb & _); eauto. }
  pose proof (zlen_nonneg l).
  assert (TOKEN 58 = 0) as Hc by (unfold TOKEN; destruct HTTP_PARSER_STRICT; reflexivity).
  open_at k. red_ctx. cbn [m_flags] in Hs. eapply reaches_byte; [exact Hb|]. rec_run.
  eapply wp_header_field_loop; red_ctx; eauto.
  { pose proof (Nat2Z.inj_lt (length l) (loop_fuel data)). unfold loop_fuel, zlen in *. lia. }
  destruct x' as [[h' i'] f']. unfold with_name. red_ctx. rec_run.
  split; [lia|]. apply reaches_refl. split; [solve_at | reflexivity].
Qed.

(** The first byte of a name, behind the request line or behind another header. *)
Lemma header_first_reaches q w x k c s :
  at_state q s None w x k ->
  s = s_header_field_start \/ s = s_header_value_lws /\ hp_header_state (prs k) = h_general ->
  byte_at data q = Some c -> TOKEN c <> 0 -> c <> 32 ->
  reaches k (fun k' =>
    at_state (q + 1) s_header_field (Some (header_field, q)) w x k' /\
    hp_header_state (prs k') = first_header_state (TOKEN c) /\ hp_index (prs k') = 0).
Proof.
  intros Hat Hs Hb Ht Hsp. assert (0 <= q < dlen) as Hq by (apply byte_at_Some; eauto).
  assert (c <> CR /\ c <> LF /\ c <> HT) as (H1 & H2 & H3).
  { repeat split; intros ->; apply Ht; unfold TOKEN; destruct HTTP_PARSER_STRICT; reflexivity. }
  open_at k. eapply reaches_byte; [exact Hb|].
  destruct Hs as [-> | [-> ->]]; rec_run;
    (split; [lia|]; apply reaches_refl; split; [solve_at | split; reflexivity]).
Qed.

(** The blank behind the colon and the first byte of the value. *)
Definition special_header (h : header_states) : bool :=
  match h with
  | h_connection | h_content_length | h_transfer_encoding | h_upgrade
  | h_matching_connection_token_start => true
  | _ => false
  end.

Lemma value_first_reaches q w x k c h :
  at_state q s_header_value_discard_ws None w x k -> hp_header_state (prs k) = h ->
  special_header h = false -> next_bytes data q [32; c] ->
  c <> 32 -> c <> HT -> c <> CR -> c <> LF ->
  reaches k (fun k' =>
    at_state (q + 2) s_header_value (Some (header_value, q + 1)) w x k' /\
    hp_header_state (prs k') = h_general).
Proof.
  intros Hat Hh Hsp Hnb H1 H2 H3 H4. open_at k. red_ctx. feed Hnb.
  feed Hnb; try discriminate Hsp; apply reaches_refl; split; solve [solve_at | reflexivity].
Qed.

(** The search for the end of a value finds the CR. *)
Lemma header_value_skip_cr l q :
  next_bytes data q (l ++ [13]) -> Forall (fun b => b <> CR /\ b <> LF) l ->
  header_value_skip data q = q + zlen l - 1.
Proof.
  intros Hnb Hl. pose proof (next_bytes_app _ _ _ _ Hnb) as [Hl1 Hcr].
  apply next_bytes_cons in Hcr as (Hcr & Hr & _).
  pose proof (zlen_nonneg l). destruct Hnb as [Hq0 _].
  assert (forall i b, q <= i < q + zlen l -> byte_at data i = Some b -> b <> CR /\ b <> LF) as Hno.
  { intros i b Hi Hb. destruct (nth_error l (Z.to_nat (i - q))) as [b'|] eqn:E.
    - pose proof (proj2 Hl1 _ _ E) as Hb'. replace (q + Z.of_nat (Z.to_nat (i - q))) with i in Hb' by lia.
      rewrite Hb in Hb'. injection Hb' as <-. apply nth_error_In in E.
      rewrite Forall_forall in Hl. auto.
    - apply nth_error_None in E. unfold zlen in Hi. lia. }
  destruct (header_value_skip_cases data q) as [(He & Hc & Hf)|(_ & Hn & _)]; [lia| |].
  - set (e := header_value_skip data q + 1) in *.
    destruct (Z.lt_trichotomy e (q + zlen l)) as [Hlt|[Heq|Hgt]]; [|lia|].
    + destruct Hc as [Hc|Hc]; destruct (Hno e _ ltac:(lia) Hc); unfold CR, LF in *; congruence.
    + destruct (Hf (q + zlen l)); [lia|]. unfold CR in *. congruence.
  - exfalso. unfold memchr in Hn.
    eapply (memchr_list_none _ _ _ (Z.to_nat (q + zlen l - q)) Hn).
    rewrite nth_error_slice; [exact Hcr|lia|lia].
Qed.

Lemma value_rest_reaches l q w x k m :
  at_state q s_header_value (Some (header_value, m)) w x k ->
  hp_header_state (prs k) = h_general -> 0 <= m <= q ->
  next_bytes data q (l ++ [13; 10]) ->
  Forall (fun b => b <> CR /\ b <> LF) l -> Forall (fun b => IS_HEADER_CHAR b = true) l ->
  reaches k (fun k' =>
    at_state (q + zlen l + 2) s_header_value_lws None
      (w ++ [Data header_value (slice data m (q + zlen l - m))]) x k' /\
    hp_header_state (prs k') = h_general).
Proof.
  intros Hat Hh Hm Hnb Hl Hc.
  destruct (next_bytes_app _ _ _ _ Hnb) as [_ Hend].
  apply next_bytes_cons in Hend as (Hcr & Hr & Hlf).
  apply next_bytes_cons in Hlf as (Hlf & Hr' & _).
  pose proof (zlen_nonneg l).
  destruct (loop_fuel data) as [|[|fuel]] eqn:Hfuel; try (unfold loop_fuel, zlen in *; lia).
  destruct l as [|b l].
  - change (zlen (@nil Z)) with 0 in *. rewrite !Z.add_0_r in *.
    open_at k. red_ctx. subst. eapply reaches_byte; [exact Hcr|]. rec_run.
    rewrite Hfuel. cbn [header_value_loop]. rec_run.
    split; [lia|]. eapply reaches_byte; [exact Hlf|]. rec_run.
    split; [lia|]. apply reaches_refl. split; [solve_at | reflexivity].
  - assert (next_bytes data q ((b :: l) ++ [13])) as Hnb'.
    { change [13; 10] with ([13] ++ [10]) in Hnb. rewrite app_assoc in Hnb.
      apply next_bytes_app in Hnb. tauto. }
    pose proof (header_value_skip_cr _ _ Hnb' Hl) as Hskip.
    assert (byte_at data (header_value_skip data q + 1) = Some 13) as Hcr'
      by (rewrite Hskip, Z.sub_add; exact Hcr).
    apply next_bytes_cons in Hnb as (Hb & _).
    inversion Hl as [|? ? [Hb1 Hb2] _]; inversion Hc as [|? ? Hb3 _]; subst.
    open_at k. red_ctx. subst. eapply reaches_byte; [exact Hb|]. rec_run.
    rewrite Hfuel. cbn [header_value_loop]. rec_run; try congruence.
    rewrite Hskip, !Z.sub_add. split; [lia|]. eapply reaches_byte; [exact Hlf|]. rec_run.
    split; [lia|]. apply reaches_refl. split; [solve_at | reflexivity].
Qed.

End Header.
