(* ===== verification/HttpNames.v ===== *)
(** * Which header names the parser recognises

    The scan of a header name ([name_scan] of [HttpHeader], which is what
    [s_header_field] computes) ends in the state of Connection, Content-Length,
    Transfer-Encoding or Upgrade exactly for these names, in any case. *)

From Stdlib Require Import String ZArith List Bool Lia.
From S2P Require Import Prelude HttpDefs HttpUrl HttpExec HttpLogic HttpRecord HttpCases HttpSafety HttpRun HttpHeader.
Import ListNotations.
Local Open Scope Z_scope.

(** The header state after a whole name, [f] being the flags before it. *)
Definition recognise `{BuildConfig} (f : Z) (name : list Z) : option name_pos :=
  match name with
  | [] => None
  | c :: l => name_scan l (first_header_state (TOKEN c), 0, f)
  end.

(** The same scan on the tokens of a name without blanks. *)
Fixpoint token_scan (t : list Z) (x : name_pos) : option name_pos :=
  match t with
  | [] => Some x
  | c :: t' =>
      match name_next x 0 c with
      | Some x' => token_scan t' x'
      | None => None
      end
  end.

Lemma name_next_char x ch c : ch <> 32 -> name_next x ch c = name_next x 0 c.
Proof.
  intros Hc. destruct x as [[[] i] f]; cbn [name_next]; try reflexivity;
    destruct (Z.eqb_spec ch 32); try contradiction; reflexivity.
Qed.

Lemma name_scan_tokens `{BuildConfig} l x :
  Forall (fun b => b <> 32) l -> name_scan l x = token_scan (map TOKEN l) x.
Proof.
  intros Hl. revert x. induction Hl as [|b l Hb _ IH]; intros x; [reflexivity|].
  cbn [name_scan map token_scan]. rewrite (name_next_char _ _ _ Hb).
  destruct (name_next _ _ _); auto.
Qed.

(** ** The invariant of the scan: what has been read, given the state *)

Definition name_read (h : header_states) (i : Z) (t : list Z) : Prop :=
  match h with
  | h_general => True
  | h_C => t = bytes "c" /\ i = 0
  | h_CO => t = bytes "co" /\ i = 1
  | h_CON => t = bytes "con" /\ i = 2
  | h_connection => t = CONNECTION \/ t = PROXY_CONNECTION
  | h_content_length => t = CONTENT_LENGTH
  | h_transfer_encoding => t = TRANSFER_ENCODING
  | h_upgrade => t = UPGRADE
  | _ =>
      match matched_literal h with
      | Some (lit, _) => t = firstn (Z.to_nat (i + 1)) lit /\ 0 <= i < zlen lit - 1
      | None => False
      end
  end.

(** One step of a literal match extends the prefix that has been read. *)
Lemma literal_next_read lit c i h yes h' i' t :
  literal_next lit c i h yes = Some (h', i') ->
  t = firstn (Z.to_nat (i + 1)) lit -> 0 <= i < zlen lit - 1 -> zlen lit < 127 ->
  h' = h_general \/
  h' = yes /\ t ++ [c] = lit \/
  h' = h /\ i' = i + 1 /\ t ++ [c] = firstn (Z.to_nat (i' + 1)) lit /\ i' < zlen lit - 1.
Proof.
  intros Hn -> Hi Hlen. unfold literal_next, sizeof in Hn. rewrite (wrap_small 7) in Hn by lia.
  destruct (Z.ltb_spec (zlen lit + 1 - 1) (i + 1)); [injection Hn; auto|].
  destruct (c_str_at lit (i + 1)) as [x|] eqn:Hx; [|discriminate].
  destruct (Z.eqb_spec c x) as [->|]; [|injection Hn; auto]. cbn [negb] in Hn.
  assert (firstn (Z.to_nat (i + 1)) lit ++ [x] = firstn (S (Z.to_nat (i + 1))) lit) as ->.
  { symmetry. apply firstn_snoc. unfold c_str_at in Hx. rewrite byte_at_app_l in Hx by lia.
    unfold byte_at in Hx. destruct (Z.ltb_spec (i + 1) 0); [lia|]. exact Hx. }
  destruct (Z.eqb_spec (i + 1) (zlen lit + 1 - 2)); injection Hn as <- <-; right.
  - left. split; [reflexivity|]. apply firstn_all2. unfold zlen in *. lia.
  - right. repeat split; try lia. f_equal. lia.
Qed.

Lemma name_next_read h i f c h' i' f' t :
  name_next (h, i, f) 0 c = Some (h', i', f') -> name_read h i t -> name_read h' i' (t ++ [c]).
Proof.
  intros Hn Hr.
  destruct h; cbn [name_next] in Hn; try discriminate Hn;
    cbn [name_read matched_literal] in Hr;
    try (injection Hn as <- <- <-; exact I).
  1-3: destruct Hr as [-> ->]; injection Hn as <- <- <-;
       repeat match goal with |- context [?a =? ?b] => destruct (Z.eqb_spec a b) end;
       subst; exact I || (split; reflexivity) || (split; [reflexivity|cbv; split; congruence]).
  all: cbn [matched_literal] in Hn; destruct Hr as [Hr Hi];
    match type of Hn with
    | match ?e with _ => _ end = _ => destruct e as [[h1 i1]|] eqn:Hl; [|discriminate Hn]
    end;
    destruct (literal_next_read _ _ _ _ _ _ _ _ Hl Hr Hi ltac:(reflexivity))
      as [->|[[-> Heq]|(-> & -> & Heq & Hlt)]].
  all: try destruct (truthy _); try discriminate Hn; injection Hn as <- <- <-;
    try exact I; cbn [name_read matched_literal]; auto.
  all: split; [exact Heq | lia].
Qed.

Lemma token_scan_read t x h' i' f' t0 :
  token_scan t x = Some (h', i', f') -> name_read (fst (fst x)) (snd (fst x)) t0 ->
  name_read h' i' (t0 ++ t).
Proof.
  revert x t0. induction t as [|c t IH]; intros [[h i] f] t0 Hs Hr.
  - injection Hs as <- <- <-. rewrite app_nil_r. exact Hr.
  - cbn [token_scan] in Hs. destruct (name_next _ _ _) as [[[h1 i1] f1]|] eqn:Hn; [|discriminate].
    change (c :: t) with ([c] ++ t). rewrite app_assoc. eapply IH; [exact Hs|].
    eapply name_next_read; eassumption.
Qed.

Lemma first_header_state_read c :
  name_read (first_header_state c) 0 [c].
Proof.
  unfold first_header_state.
  repeat match goal with |- context [?a =? ?b] => destruct (Z.eqb_spec a b) end;
    subst; cbn [name_read matched_literal]; auto; split; reflexivity || (cbv; split; congruence).
Qed.

(** ** Names that do not begin with Content-Length leave the flags alone *)

Lemma literal_next_total lit c i h yes :
  0 <= i < zlen lit - 1 -> zlen lit < 127 -> literal_next lit c i h yes <> None.
Proof.
  intros Hi Hl. unfold literal_next, sizeof. rewrite (wrap_small 7) by lia.
  destruct (_ <? _); [discriminate|].
  destruct (c_str_at_spec lit (i + 1)) as (x & -> & _); [lia|]. discriminate.
Qed.

Lemma name_next_total h i f c t :
  name_read h i t -> t ++ [c] <> CONTENT_LENGTH ->
  exists h' i', name_next (h, i, f) 0 c = Some (h', i', f).
Proof.
  intros Hr Hc.
  destruct h; cbn [name_next]; cbn [name_read matched_literal] in Hr; eauto; try contradiction.
  all: cbn [matched_literal]; destruct Hr as [Hr Hi];
    match goal with
    | Hi : 0 <= ?i < _ |- context [literal_next ?l ?c ?i ?h ?y] =>
        destruct (literal_next l c i h y) as [[h1 i1]|] eqn:Hl;
        [|destruct (literal_next_total l c i h y Hi ltac:(reflexivity) Hl)]
    end;
    destruct (literal_next_read _ _ _ _ _ _ _ _ Hl Hr Hi ltac:(reflexivity))
      as [->|[[-> Heq]|(-> & -> & Heq & Hlt)]]; eauto; contradiction.
Qed.

Lemma token_scan_total t h i f t0 :
  name_read h i t0 -> (forall n, firstn n (t0 ++ t) <> CONTENT_LENGTH) ->
  exists h' i', token_scan t (h, i, f) = Some (h', i', f).
Proof.
  revert h i t0. induction t as [|c t IH]; intros h i t0 Hr Hc; [cbn; eauto|].
  assert (t0 ++ c :: t = (t0 ++ [c]) ++ t) as Happ by (rewrite <- app_assoc; reflexivity).
  destruct (name_next_total h i f c t0 Hr) as (h1 & i1 & Hn).
  { intros Heq. apply (Hc (length (t0 ++ [c]))). rewrite Happ, firstn_app, firstn_all, Nat.sub_diag.
    cbn [firstn]. rewrite app_nil_r. exact Heq. }
  cbn [token_scan]. rewrite Hn. apply (IH h1 i1 (t0 ++ [c])).
  - eapply name_next_read; eassumption.
  - rewrite <- Happ. exact Hc.
Qed.

Section Recognise.
Context `{BuildConfig}.

(** The tokens of a name. *)
Definition tokens_of (name : list Z) : list Z := map TOKEN name.

Lemma recognise_read f name h i f' :
  Forall (fun b => b <> 32) name -> recognise f name = Some (h, i, f') ->
  name_read h i (tokens_of name).
Proof.
  intros Hb Hr. destruct name as [|c l]; [discriminate|]. inversion Hb; subst.
  cbn [recognise] in Hr. rewrite name_scan_tokens in Hr by assumption.
  apply (token_scan_read _ _ _ _ _ [TOKEN c] Hr). apply first_header_state_read.
Qed.

Lemma recognise_total f name :
  Forall (fun b => b <> 32) name -> name <> [] ->
  (forall n, firstn n (tokens_of name) <> CONTENT_LENGTH) ->
  exists h i, recognise f name = Some (h, i, f).
Proof.
  intros Hb Hn Hc. destruct name as [|c l]; [contradiction|]. inversion Hb; subst.
  cbn [recognise]. rewrite name_scan_tokens by assumption.
  apply (token_scan_total _ _ _ _ [TOKEN c]); [apply first_header_state_read | exact Hc].
Qed.

(** On the names themselves the scan ends in their states. *)
Lemma recognise_literals f name :
  Forall (fun b => b <> 32) name -> name <> [] ->
  (tokens_of name = CONNECTION \/ tokens_of name = PROXY_CONNECTION ->
   exists i, recognise f name = Some (h_connection, i, f)) /\
  (tokens_of name = TRANSFER_ENCODING ->
   exists i, recognise f name = Some (h_transfer_encoding, i, f)) /\
  (tokens_of name = UPGRADE -> exists i, recognise f name = Some (h_upgrade, i, f)) /\
  (tokens_of name = CONTENT_LENGTH -> Z.land f F_CONTENTLENGTH = 0 ->
   exists i, recognise f name = Some (h_content_length, i, Z.lor f F_CONTENTLENGTH)).
Proof.
  intros Hb Hn. destruct name as [|c l]; [contradiction|]. inversion Hb; subst.
  cbn [recognise]. rewrite name_scan_tokens by assumption.
  unfold tokens_of. cbn [map]. repeat split; intros Ht; try (intros Hf).
  1: destruct Ht as [Ht|Ht].
  all: injection Ht as -> ->; try (eexists; vm_compute; reflexivity).
  eexists. vm_compute in Hf |- *. rewrite Hf. reflexivity.
Qed.

End Recognise.
