(* ===== verification/HttpRoundtrip.v ===== *)
(** * Requests: printing and parsing

    A request as an application would print it, and the theorem that
    [http_parser_execute] reports exactly what was printed. *)

From Stdlib Require Import String ZArith List Bool Lia.
From S2P Require Import Prelude HttpDefs HttpUrl HttpExec HttpLogic HttpRecord HttpCases HttpSafety HttpRun HttpRequest HttpHeader HttpNames.
Import ListNotations.
Local Open Scope Z_scope.

(** ** Printing *)

Definition header : Type := list Z * list Z.

Definition print_header (h : header) : list Z :=
  fst h ++ [58; 32] ++ snd h ++ crlf.

Definition print_request (m : http_method) (u : list Z) (hs : list header) : list Z :=
  request_line m u ++ concat (map print_header hs) ++ crlf.

(** ** Headers without a meaning of their own to the parser *)

Section Valid.
Context `{BuildConfig}.

Definition name_chars (n : list Z) : bool :=
  forallb (fun b => negb (TOKEN b =? 0) && negb (b =? 32)) n.

Definition value_chars (v : list Z) : bool :=
  forallb (fun b => IS_HEADER_CHAR b && negb (b =? CR) && negb (b =? LF)) v.

Fixpoint is_prefix (l l' : list Z) : bool :=
  match l, l' with
  | [], _ => true
  | a :: l, b :: l' => (a =? b) && is_prefix l l'
  | _, [] => false
  end.

(** A header that is neither Connection, Content-Length, Transfer-Encoding nor
    Upgrade; its value does not begin with a blank. *)
Definition plain_header (h : header) : bool :=
  let t := tokens_of (fst h) in
  name_chars (fst h) && negb (is_prefix CONTENT_LENGTH t) &&
  negb (is_prefix CONNECTION t) && negb (is_prefix PROXY_CONNECTION t) &&
  negb (is_prefix TRANSFER_ENCODING t) && negb (is_prefix UPGRADE t) &&
  match fst h with [] => false | _ => true end &&
  match snd h with [] => false | v :: _ => negb (v =? 32) && negb (v =? HT) end &&
  value_chars (snd h).

Lemma is_prefix_firstn l n : is_prefix (firstn n l) l = true.
Proof. revert n. induction l; intros [|n]; cbn; auto; rewrite Z.eqb_refl; cbn; auto. Qed.

Lemma is_prefix_refl l : is_prefix l l = true.
Proof. rewrite <- (firstn_all l) at 1. apply is_prefix_firstn. Qed.

Record plain (n v : list Z) : Prop := {
  plain_name : Forall (fun b => TOKEN b <> 0) n;
  plain_blank : Forall (fun b => b <> 32) n;
  plain_nonempty : n <> [];
  plain_state : forall f, exists h i, recognise f n = Some (h, i, f) /\ special_header h = false;
  plain_value : exists b v', v = b :: v' /\ b <> 32 /\ b <> HT;
  plain_chars : Forall (fun b => IS_HEADER_CHAR b = true) v;
  plain_lines : Forall (fun b => b <> CR /\ b <> LF) v
}.

Lemma plain_header_spec n v : plain_header (n, v) = true -> plain n v.
Proof.
  unfold plain_header, name_chars, value_chars. cbn [fst snd].
  rewrite !andb_true_iff, !negb_true_iff, !forallb_forall.
  intros ((((((((Hn & Hcl) & Hco) & Hpc) & Hte) & Hup) & Hne) & Hv) & Hvc).
  assert (Forall (fun b => b <> 32) n) as Hblank.
  { apply Forall_forall. intros b Hb. specialize (Hn b Hb). apply andb_prop in Hn as [_ Hn].
    apply negb_true_iff, Z.eqb_neq in Hn. exact Hn. }
  assert (n <> []) as Hnil by (destruct n; discriminate).
  constructor; try assumption.
  - apply Forall_forall. intros b Hb. specialize (Hn b Hb). apply andb_prop in Hn as [Hn _].
    apply negb_true_iff, Z.eqb_neq in Hn. exact Hn.
  - intros f. destruct (recognise_total f n Hblank Hnil) as (h & i & Hr).
    { intros k Hk. rewrite <- Hk, is_prefix_firstn in Hcl. discriminate. }
    exists h, i. split; [exact Hr|]. apply recognise_read in Hr; [|exact Hblank].
    destruct h; try reflexivity; cbn in Hr; try contradiction;
      [destruct Hr as [Hr|Hr]|..]; rewrite Hr, is_prefix_refl in *; discriminate.
  - destruct v as [|b v]; [discriminate|]. apply andb_prop in Hv as [H1 H2].
    apply negb_true_iff, Z.eqb_neq in H1, H2. eauto.
  - apply Forall_forall. intros b Hb. specialize (Hvc b Hb). bool_hyps. assumption.
  - apply Forall_forall. intros b Hb. specialize (Hvc b Hb). bool_hyps. auto.
Qed.

End Valid.

Section Roundtrip.
Context `{BuildConfig}.
Variable data : list Z.
Variable lenient : bool.

Abbreviation dlen := (zlen data).
Abbreviation reaches := (reaches recorder data lenient).

Hypothesis header_limit : dlen <= HTTP_MAX_HEADER_SIZE < 2 ^ 32.

(** At the beginning of a header line. *)
Definition at_line (q : Z) (w : list event) (x : msg) (k : ctx (list event)) : Prop :=
  at_state q s_header_field_start None w x k \/
  at_state q s_header_value_lws None w x k /\ hp_header_state (prs k) = h_general.

Lemma header_reaches n v q w x k :
  at_line q w x k -> plain n v -> next_bytes data q (print_header (n, v)) ->
  reaches k (at_line (q + zlen (print_header (n, v)))
    (w ++ [Data header_field n; Data header_value v]) x).
Proof.
  intros Hat Hp Hnb. destruct Hp as [Hn Hb Hne Hst (b & v' & -> & Hb1 & Hb2) Hc Hl].
  destruct n as [|c n]; [contradiction|].
  inversion Hn as [|? ? Hc0 Hn']; inversion Hb as [|? ? Hcb _]; subst.
  inversion Hc as [|? ? _ Hc']; inversion Hl as [|? ? [Hb3 Hb4] Hl']; subst.
  unfold print_header in *. cbn [fst snd] in *.
  destruct (next_bytes_app _ _ _ _ Hnb) as [Hname Hrest].
  pose proof (next_bytes_slice _ _ _ Hname) as Hslice_n.
  apply next_bytes_cons in Hrest as (Hcolon & _ & Hrest).
  assert (next_bytes data (q + 1) (n ++ [58])) as Hn58.
  { cbn [app] in Hnb. apply next_bytes_cons in Hnb as (_ & _ & Hnb).
    match type of Hnb with next_bytes _ _ (n ++ 58 :: ?r) =>
      apply (next_bytes_app _ _ (n ++ [58]) r); rewrite <- app_assoc; exact Hnb end. }
  apply next_bytes_cons in Hname as (Hfirst & _ & _).
  destruct (Hst (m_flags x)) as (h & i & Hrec & Hsp). cbn [recognise] in Hrec.
  eapply reaches_trans.
  { destruct Hat as [Hat|[Hat Hh]]; eapply header_first_reaches; eauto. }
  intros k1 (Hat1 & Hh1 & Hi1). destruct Hnb as [Hq0 _]. pose proof (zlen_nonneg n).
  assert (q + 1 + zlen n = q + zlen (c :: n)) as Hq1 by (rewrite zlen_cons; lia).
  set (q1 := q + zlen (c :: n)) in *.
  eapply reaches_trans; [eapply (header_name_reaches _ _ header_limit n); eauto; [lia|rewrite Hh1, Hi1; eauto]|].
  cbn [fst snd]. intros k2 [Hat2 Hh2]. rewrite Hq1 in Hat2.
  replace (q1 - q) with (zlen (c :: n)) in Hat2 by (subst q1; lia). rewrite Hslice_n in Hat2.
  assert (with_flags (m_flags x) x = x) as Hx by (destruct x; reflexivity). rewrite Hx in Hat2.
  change (32 :: (b :: v') ++ crlf) with ([32; b] ++ v' ++ [13; 10]) in Hrest.
  apply next_bytes_app in Hrest as [Hsb Hrest]. change (zlen [32; b]) with 2 in Hrest.
  eapply reaches_trans; [eapply value_first_reaches; eauto|]. intros k3 [Hat3 Hh3].
  eapply reaches_mono; [eapply (value_rest_reaches _ _ header_limit v'); eauto; lia|].
  intros k4 [Hat4 Hh4]. right. split; [|exact Hh4]. pose proof (zlen_nonneg v').
  assert (slice data (q1 + 1 + 1) (zlen (b :: v')) = b :: v') as Hslice_v.
  { apply next_bytes_slice. apply next_bytes_cons in Hsb as (_ & _ & Hsb).
    apply next_bytes_cons in Hsb as (Hb0 & Hr0 & _).
    apply next_bytes_app in Hrest as [Hrest _]. apply next_bytes_intro; [exact Hb0|].
    replace (q1 + 1 + 1 + 1) with (q1 + 1 + 2) by lia. exact Hrest. }
  replace (q1 + 1 + 2 + zlen v' - (q1 + 1 + 1)) with (zlen (b :: v')) in Hat4 by (rewrite zlen_cons; lia).
  rewrite Hslice_v, <- app_assoc in Hat4. cbn [app] in Hat4.
  match goal with |- at_state ?a _ _ _ _ _ => match type of Hat4 with at_state ?b _ _ _ _ _ =>
    replace a with b; [exact Hat4 |] end end.
  rewrite zlen_app, (zlen_app [58; 32]), zlen_app. change (zlen [58; 32]) with 2.
  change (zlen crlf) with 2. rewrite (zlen_cons b). subst q1. lia.
Qed.

Definition header_events (h : header) : list event :=
  [Data header_field (fst h); Data header_value (snd h)].

Lemma headers_reaches hs q w x k :
  at_line q w x k -> forallb plain_header hs = true ->
  next_bytes data q (concat (map print_header hs)) ->
  reaches k (at_line (q + zlen (concat (map print_header hs)))
    (w ++ concat (map header_events hs)) x).
Proof.
  revert q w k. induction hs as [|[n v] hs IH]; intros q w k Hat Hp Hnb.
  - apply reaches_refl. cbn. rewrite Z.add_0_r, app_nil_r. exact Hat.
  - cbn [map concat forallb] in *. apply andb_prop in Hp as [Hh Hp].
    apply next_bytes_app in Hnb as [Hnb Hrest]. apply plain_header_spec in Hh.
    eapply reaches_trans; [apply header_reaches; eassumption|]. intros k' Hat'.
    rewrite zlen_app, Z.add_assoc, app_assoc. apply IH; assumption.
Qed.

(** The message of a request without headers the parser acts on. *)
Definition plain_request (m : http_method) (x : msg) : msg :=
  mk_msg HTTP_REQUEST 0 ULLONG_MAX 1 1 (m_status x) m (m_upgrade x).

(** Without a Connection header the connection stays open. *)
Lemma NEW_MESSAGE_plain P :
  hp_type P = HTTP_REQUEST -> hp_flags P = 0 -> hp_http_major P = 1 -> hp_http_minor P = 1 ->
  NEW_MESSAGE P = s_start_req.
Proof.
  destruct P; cbn; intros -> -> -> ->. unfold NEW_MESSAGE.
  destruct HTTP_PARSER_STRICT; reflexivity.
Qed.

Lemma headers_end_reaches q w m x k :
  at_line q w (plain_request m x) k -> m <> HTTP_CONNECT -> next_bytes data q [13; 10] ->
  reaches k (at_state (q + 2) s_start_req None
    (w ++ [Headers_complete; Notify message_complete])
    (mk_msg HTTP_REQUEST 0 ULLONG_MAX 1 1 (m_status x) m false)).
Proof.
  intros Hat Hm Hnb.
  assert (http_method_eqb m HTTP_CONNECT = false) as Hc
    by (destruct (http_method_eqb_spec m HTTP_CONNECT); congruence).
  unfold plain_request in Hat.
  destruct Hat as [Hat|[Hat Hh]]; open_at k; red_ctx; subst; do 2 feed Hnb.
  all: unfold upgrade_requested, has_flag in *; red_ctx; rewrite ?Hc in *; try discriminate.
  all: rewrite ?NEW_MESSAGE_plain by reflexivity; apply reaches_refl; rewrite <- ?app_assoc.
  all: solve_at; rewrite <- app_assoc; reflexivity.
Qed.

(** The whole message, from a parser that waits for a request. *)
Lemma request_reaches m u hs w x k :
  data = print_request m u hs -> at_state 0 s_start_req None w x k -> m_type x = HTTP_REQUEST ->
  url_valid m u = true -> forallb plain_header hs = true -> m <> HTTP_CONNECT ->
  reaches k (at_state dlen s_start_req None
    (w ++ [Notify message_begin; Data url u] ++ concat (map header_events hs) ++
       [Headers_complete; Notify message_complete])
    (mk_msg HTTP_REQUEST 0 ULLONG_MAX 1 1 (m_status x) m false)).
Proof.
  intros Hd Hat Ht Hu Hhs Hm. pose proof (next_bytes_all data) as Hnb.
  rewrite Hd in Hnb at 2. unfold print_request in *.
  apply next_bytes_app in Hnb as [Hline Hnb]. apply next_bytes_app in Hnb as [Hheads Hend].
  eapply reaches_trans; [eapply request_line_reaches; eassumption|]. intros k1 Hat1.
  eapply reaches_trans; [eapply headers_reaches; [left; exact Hat1 | eassumption..]|].
  intros k2 Hat2.
  replace (with_version 1 1 (new_request m x)) with (plain_request m x) in Hat2
    by (destruct x; cbn in Ht; subst; reflexivity).
  eapply reaches_mono; [eapply headers_end_reaches; eassumption|]. intros k3 Hat3.
  replace dlen with (0 + zlen (request_line m u) + zlen (concat (map print_header hs)) + 2)
    by (rewrite Hd, !zlen_app; change (zlen crlf) with 2; lia).
  rewrite <- !app_assoc in Hat3. exact Hat3.
Qed.

End Roundtrip.

(** C3: Printing a request and parsing it gives the request back.  For every
    method but CONNECT, every URL the URL automaton accepts and every list of
    headers the parser attaches no meaning to, one call of
    [http_parser_execute] on the printed message consumes all of it without an
    error, and the callbacks receive the URL, the name and value of each header
    in order, the end of the headers and the end of the message; the method and
    the version 1.1 are recorded, and the parser is ready for the next message. *)
Theorem request_roundtrip `{BuildConfig} m u hs :
  HTTP_MAX_HEADER_SIZE < 2 ^ 32 -> zlen (print_request m u hs) <= HTTP_MAX_HEADER_SIZE ->
  m <> HTTP_CONNECT -> url_valid m u = true -> forallb plain_header hs = true ->
  exists P n,
    http_parser_execute recorder (fresh_parser HTTP_REQUEST) [] (print_request m u hs) =
      Returned P
        ([Notify message_begin; Data url u] ++ concat (map header_events hs) ++
         [Headers_complete; Notify message_complete]) n /\
    n = zlen (print_request m u hs) /\ hp_http_errno P = HPE_OK /\
    hp_state P = s_start_req /\ hp_method P = m /\
    hp_http_major P = 1 /\ hp_http_minor P = 1 /\ hp_upgrade P = false.
Proof.
  intros Hmax Hlen Hm Hu Hhs. set (data := print_request m u hs) in *.
  assert (zlen data <= HTTP_MAX_HEADER_SIZE < 2 ^ 32) as Hlim by lia.
  destruct (reaches_end data false (fresh_parser HTTP_REQUEST) [] s_start_req
    ([Notify message_begin; Data url u] ++ concat (map header_events hs) ++
     [Headers_complete; Notify message_complete])
    (mk_msg HTTP_REQUEST 0 ULLONG_MAX 1 1 0 m false) (fun _ => True))
    as (P & Hx & He & Hs & Hmsg & _); [reflexivity | | reflexivity | |].
  - pose proof (method_strings_len m). subst data. unfold print_request, request_line.
    rewrite !zlen_app. pose proof (zlen_nonneg u).
    pose proof (zlen_nonneg (concat (map print_header hs))). change (zlen crlf) with 2.
    change (zlen [32]) with 1. change (zlen (bytes _)) with 8. lia.
  - eapply reaches_mono;
      [apply (request_reaches data false Hlim m u hs []); auto;
       [exact (entry_at HTTP_REQUEST) | reflexivity]|]. auto.
  - exists P, (zlen data). injection Hmsg as ? ? ? ? ? ? ? ?. rewrite Hx. auto 10.
Qed.

Lemma request_roundtrip_witness :
  exists P n,
    http_parser_execute recorder (fresh_parser HTTP_REQUEST) []
      (print_request HTTP_GET (bytes "/a?b#c") [(bytes "Host", bytes "h"); (bytes "Accept", bytes "*/*")]) =
      Returned P
        [Notify message_begin; Data url (bytes "/a?b#c");
         Data header_field (bytes "Host"); Data header_value (bytes "h");
         Data header_field (bytes "Accept"); Data header_value (bytes "*/*");
         Headers_complete; Notify message_complete] n /\
    n = 45 /\ hp_http_errno P = HPE_OK /\ hp_state P = s_start_req /\ hp_method P = HTTP_GET /\
    hp_http_major P = 1 /\ hp_http_minor P = 1 /\ hp_upgrade P = false.
Proof.
  apply (request_roundtrip HTTP_GET (bytes "/a?b#c")
    [(bytes "Host", bytes "h"); (bytes "Accept", bytes "*/*")]);
    try (vm_compute; reflexivity); vm_compute; discriminate.
Defined.
