(* ===== verification/HttpMethod.v ===== *)
(** * Methods

    The prefix tree that [s_start_req] and [s_req_method] encode in a switch on
    (method, index, character) accepts exactly the names of
    [method_strings]. *)

From Stdlib Require Import String ZArith List Bool Lia.
From S2P Require Import Prelude HttpDefs HttpUrl HttpExec HttpLogic HttpRecord HttpCases HttpSafety HttpRun HttpRequest.
Import ListNotations.
Local Open Scope Z_scope.

Lemma method_switch_key_sum m i c :
  0 <= i < 256 -> 0 <= c < 256 ->
  method_switch_key m i c = http_method_num m * 65536 + i * 256 + c.
Proof.
  intros Hi Hc. unfold method_switch_key.
  rewrite <- Z.lor_assoc, (lor_field i c 8), lor_field by lia. lia.
Qed.

(** A line of the switch: both names agree up to the position, and the new one
    goes on with the character. *)
Definition switch_line_ok (x : http_method * Z * Z * http_method) : bool :=
  let '(m, i, c, m') := x in
  let n := Z.to_nat i in
  (if list_eq_dec Z.eq_dec (firstn n (method_strings m) ++ [c]) (firstn (S n) (method_strings m'))
   then true else false) && (0 <=? i) && (i <? 256) && (0 <=? c) && (c <? 256).

Lemma switch_lines_ok : forallb switch_line_ok method_switch_cases = true.
Proof. vm_compute. reflexivity. Qed.

Lemma method_switch_prefix m i c m' :
  0 <= i < 256 -> 0 <= c < 256 -> method_switch m i c = Some m' ->
  firstn (Z.to_nat i) (method_strings m) ++ [c] = firstn (S (Z.to_nat i)) (method_strings m').
Proof.
  intros Hi Hc Hm. unfold method_switch in Hm.
  destruct (find _ method_switch_cases) as [[[[m0 pos] c0] m1]|] eqn:Hf; [|discriminate].
  injection Hm as <-. apply find_some in Hf as [Hin Hkey]. apply Z.eqb_eq in Hkey.
  pose proof (proj1 (forallb_forall _ _) switch_lines_ok _ Hin) as Hok.
  unfold switch_line_ok in Hok. destruct (list_eq_dec _ _ _) as [Heq|]; [|discriminate].
  bool_hyps. rewrite !method_switch_key_sum in Hkey by lia.
  assert (0 <= http_method_num m < 256 /\ 0 <= http_method_num m0 < 256)
    by (split; [destruct m|destruct m0]; cbn; lia).
  assert (http_method_num m = http_method_num m0 /\ i = pos /\ c = c0) as (Hmm & -> & ->) by lia.
  apply http_method_num_inj in Hmm as ->. exact Heq.
Qed.

(** What has been read, given the method and the index. *)
Definition method_read (m : http_method) (t : list Z) : Prop :=
  t = firstn (length t) (method_strings m).

Lemma method_read_len m t : method_read m t -> zlen t <= zlen (method_strings m).
Proof.
  unfold method_read, zlen. intros Ht. apply (f_equal (@length Z)) in Ht.
  rewrite length_firstn in Ht. lia.
Qed.

Lemma method_next_read m t c m' :
  method_read m t -> 0 < c < 256 -> method_next m (zlen t) c = Some m' -> method_read m' (t ++ [c]).
Proof.
  intros Ht Hc Hn. pose proof (method_read_len _ _ Ht). pose proof (method_strings_len m).
  pose proof (zlen_nonneg t).
  unfold method_next in Hn. destruct (c_str_at_spec (method_strings m) (zlen t)) as (x & Hx & Hlt); [lia|].
  rewrite Hx in Hn. unfold method_read. rewrite length_app, Nat.add_comm. cbn [length Nat.add].
  destruct (Z.eqb_spec c x) as [->|_].
  - injection Hn as <-. rewrite Ht at 1. symmetry. apply firstn_snoc.
    unfold c_str_at in Hx. rewrite byte_at_app_l in Hx by lia. unfold byte_at, zlen in Hx.
    destruct (Z.ltb_spec (Z.of_nat (length t)) 0); [lia|]. rewrite Nat2Z.id in Hx. exact Hx.
  - destruct (IS_ALPHA c).
    + apply method_switch_prefix in Hn; [|lia..]. unfold zlen in Hn. rewrite Nat2Z.id in Hn.
      rewrite <- Hn. f_equal. exact Ht.
    + destruct ((c =? 45) && (zlen t =? 1) && http_method_eqb m HTTP_MKCOL) eqn:E; [|discriminate].
      injection Hn as <-. bool_hyps.
      destruct (http_method_eqb_spec m HTTP_MKCOL) as [->|]; [|discriminate]. subst c.
      unfold zlen in *. assert (length t = 1)%nat as Hl by lia. 
      unfold method_read in Ht. rewrite Hl in *. rewrite Ht. reflexivity.
Qed.

Lemma method_scan_read l m t m' :
  method_read m t -> Forall (fun c => 0 < c < 256) l -> method_scan l m (zlen t) = Some m' ->
  method_read m' (t ++ l).
Proof.
  revert m t. induction l as [|c l IH]; intros m t Ht Hl Hs.
  - injection Hs as <-. rewrite app_nil_r. exact Ht.
  - cbn [method_scan] in Hs. inversion Hl; subst.
    destruct (method_next m (zlen t) c) as [m1|] eqn:Hn; [|discriminate].
    change (c :: l) with ([c] ++ l). rewrite app_assoc. apply (IH m1).
    + eapply method_next_read; eassumption.
    + assumption.
    + rewrite zlen_app. exact Hs.
Qed.

Lemma first_method_read c m : first_method c = Some m -> method_read m [c].
Proof.
  unfold first_method. intros Hm.
  repeat match type of Hm with
  | (if ?a =? ?b then _ else _) = _ =>
      destruct (Z.eqb_spec a b) as [->|_]; [injection Hm as <-; reflexivity|]
  end. discriminate.
Qed.

(** Where a scan stops. *)
Lemma method_scan_none l m i :
  method_scan l m i = None ->
  exists l1 c l2 m1, l = l1 ++ c :: l2 /\ method_scan l1 m i = Some m1 /\
    method_next m1 (i + zlen l1) c = None.
Proof.
  revert m i. induction l as [|c l IH]; intros m i Hs; [discriminate|].
  cbn [method_scan] in Hs. destruct (method_next m i c) as [m1|] eqn:Hn.
  - destruct (IH _ _ Hs) as (l1 & c1 & l2 & m2 & -> & Hs1 & Hn1).
    exists (c :: l1), c1, l2, m2. cbn [method_scan app]. rewrite Hn, zlen_cons, Z.add_assoc. auto.
  - exists [], c, l, m. rewrite Z.add_0_r. auto.
Qed.

Lemma method_strings_no_nul m i : c_str_at (method_strings m) i = Some 0 -> i = zlen (method_strings m).
Proof.
  unfold c_str_at. intros Hi.
  assert (0 <= i < zlen (method_strings m ++ [0])) as Hr by (apply byte_at_Some; eauto).
  rewrite zlen_app in Hr. change (zlen [0]) with 1 in Hr.
  destruct (Z.eq_dec i (zlen (method_strings m))); [assumption|].
  rewrite byte_at_app_l in Hi by lia. unfold byte_at in Hi. destruct (i <? 0); [discriminate|].
  apply nth_error_In in Hi. exfalso. revert Hi. clear. destruct m; cbn; intuition discriminate.
Qed.

Section Method.
Context `{BuildConfig}.
Variable data : list Z.
Variable lenient : bool.
Abbreviation dlen := (zlen data).
Abbreviation reaches := (reaches recorder data lenient).
Hypothesis header_limit : dlen <= HTTP_MAX_HEADER_SIZE < 2 ^ 32.

(** The byte that is not accepted ends the run with [HPE_INVALID_METHOD]. *)
Definition rejects (k : ctx (list event)) : Prop :=
  exists b, byte_at data (p k) = Some b /\
    wp (byte_step recorder data lenient) (fun _ _ => False)
      (fun k' => hp_http_errno (prs k') = HPE_INVALID_METHOD) (fun _ _ => False) (with_ch b k).

Lemma start_rejects w x k c :
  at_state 0 s_start_req None w x k -> byte_at data 0 = Some c -> c <> CR -> c <> LF ->
  first_method c = None -> rejects k.
Proof.
  intros Hat Hb H1 H2 Hc. assert (0 <= 0 < dlen) as Hq by (apply byte_at_Some; eauto).
  exists c. split; [rewrite (at_p _ _ _ _ _ _ Hat); exact Hb|].
  open_at k. rec_run; try reflexivity; congruence.
Qed.

Lemma method_rejects q w x k c :
  at_state q s_req_method None w x k -> 0 <= hp_index (prs k) <= zlen (method_strings (m_method x)) ->
  byte_at data q = Some c -> 0 < c < 256 ->
  method_next (m_method x) (hp_index (prs k)) c = None ->
  (c = 32 -> hp_index (prs k) <> zlen (method_strings (m_method x))) ->
  rejects k.
Proof.
  intros Hat Hi Hb Hc Hn Hsp. assert (0 <= q < dlen) as Hq by (apply byte_at_Some; eauto).
  exists c. split; [rewrite (at_p _ _ _ _ _ _ Hat); exact Hb|].
  destruct (c_str_at_spec (method_strings (m_method x)) (hp_index (prs k))) as (y & Hy & _); [exact Hi|].
  open_at k. cbn [m_method] in *. unfold method_next in Hn.
  rec_run; use_conds Hn; try discriminate; try reflexivity.
  bool_hyps. subst. match goal with E : c_str_at _ _ = Some 0 |- _ =>
    exact (Hsp eq_refl (method_strings_no_nul _ _ E)) end.
Qed.

End Method.

(** The space behind a name can only be its end. *)
Lemma method_next_space m i : method_next m i 32 = None.
Proof.
  unfold method_next. destruct (c_str_at _ _) as [x|] eqn:Hx; [|reflexivity].
  destruct (Z.eqb_spec 32 x) as [<-|]; [|reflexivity]. exfalso. unfold c_str_at, byte_at in Hx.
  destruct (i <? 0); [discriminate|]. apply nth_error_In in Hx. revert Hx. clear.
  destruct m; cbn; intuition discriminate.
Qed.

Lemma scan_name m c l :
  method_strings m = c :: l ->
  exists m0, first_method c = Some m0 /\ method_scan l m0 1 = Some m.
Proof.
  intros Hm. destruct (method_strings_scan m) as (c' & l' & m0 & Hm' & Hc & Hl & _).
  rewrite Hm in Hm'. injection Hm' as <- <-. eauto.
Qed.

(** No method has this name. *)
Definition not_a_method (name : list Z) : Prop := forall m, method_strings m <> name.

Section Token.
Context `{BuildConfig}.
Variables (c : Z) (l : list Z).
Abbreviation data := ((c :: l) ++ [32]).
Abbreviation entry := (entry_ctx (fresh_parser HTTP_REQUEST) []).
Abbreviation reaches := (reaches recorder data false).
Hypothesis header_limit : zlen data <= HTTP_MAX_HEADER_SIZE < 2 ^ 32.
Hypothesis token_bytes : Forall (fun b => 0 < b < 256 /\ b <> 32) (c :: l).

(** What a call on the token reports. *)
Definition method_verdict : Prop :=
  exists P w n,
    http_parser_execute recorder (fresh_parser HTTP_REQUEST) [] data = Returned P w n /\
    (hp_http_errno P = HPE_OK /\ method_strings (hp_method P) = c :: l \/
     hp_http_errno P = HPE_INVALID_METHOD /\ not_a_method (c :: l)).

Lemma data_nonempty : zlen data <> 0.
Proof. rewrite zlen_app, zlen_cons. change (zlen [32]) with 1. pose proof (zlen_nonneg l). lia. Qed.

Lemma rejected :
  reaches entry (rejects data false) -> not_a_method (c :: l) -> method_verdict.
Proof.
  intros Hr Hno.
  destruct (reaches_fails recorder data false (fresh_parser HTTP_REQUEST) [] _ HPE_INVALID_METHOD
    eq_refl data_nonempty eq_refl ltac:(discriminate) Hr) as (P & w & n & Hx & He); [auto|].
  exists P, w, n. auto.
Qed.

(** After a part of the token that is accepted. *)
Lemma prefix_reaches m0 l1 l2 m1 :
  l = l1 ++ l2 -> first_method c = Some m0 -> method_scan l1 m0 1 = Some m1 ->
  reaches entry (fun k => exists w x,
    at_state (zlen (c :: l1)) s_req_method None w x k /\ m_method x = m1 /\
    hp_index (prs k) = zlen (c :: l1)).
Proof.
  intros Hl Hc Hs.
  assert (next_bytes data 0 (c :: l1 ++ l2 ++ [32])) as Hnb
    by (rewrite app_assoc, <- Hl; apply next_bytes_all).
  apply next_bytes_cons in Hnb as (Hb & _ & Hnb).
  apply next_bytes_app in Hnb as [Hnb _].
  eapply reaches_trans;
    [eapply (start_req_reaches data false header_limit); eauto; exact (entry_at HTTP_REQUEST)|].
  intros k [Hat Hi].
  eapply reaches_mono; [eapply (method_reaches data false header_limit l1); eauto; try lia|].
  - rewrite Hl in token_bytes. inversion token_bytes as [|? ? _ Ht]; subst.
    apply Forall_app in Ht as [Ht _]. eapply Forall_impl; [|exact Ht]. cbn. lia.
  - rewrite zlen_cons. intros k' [Hat' Hi']. eauto.
Qed.

Lemma prefix_read m0 l1 l2 m1 :
  l = l1 ++ l2 -> first_method c = Some m0 -> method_scan l1 m0 1 = Some m1 ->
  method_read m1 (c :: l1).
Proof.
  intros Hl Hc Hs. apply (method_scan_read l1 m0 [c]); [exact (first_method_read _ _ Hc)| |exact Hs].
  rewrite Hl in token_bytes. inversion token_bytes as [|? ? _ Ht]; subst.
  apply Forall_app in Ht as [Ht _]. eapply Forall_impl; [|exact Ht]. cbn. lia.
Qed.

(** A part of the token is accepted and the byte behind it is not. *)
Lemma stopped m0 l1 l2 m1 b :
  l ++ [32] = l1 ++ b :: l2 -> l = l1 ++ removelast (b :: l2) ->
  first_method c = Some m0 -> method_scan l1 m0 1 = Some m1 ->
  method_next m1 (zlen (c :: l1)) b = None -> (b = 32 -> method_strings m1 <> c :: l1) ->
  0 < b < 256 -> not_a_method (c :: l) -> method_verdict.
Proof.
  intros Hd Hl Hc Hs Hn Hsp Hb Hno. apply rejected; [|exact Hno].
  pose proof (prefix_read _ _ _ _ Hl Hc Hs) as Hread.
  eapply reaches_mono; [exact (prefix_reaches _ _ _ _ Hl Hc Hs)|].
  intros k (w & x & Hat & <- & Hi).
  eapply (method_rejects data false header_limit _ _ _ _ b Hat); rewrite ?Hi; try assumption.
  - split; [apply zlen_nonneg | apply method_read_len, Hread].
  - cbn [app]. rewrite Hd. exact (byte_at_middle (c :: l1) b l2).
  - intros Hb32 Hlen. apply (Hsp Hb32). unfold method_read in Hread. rewrite Hread.
    unfold zlen in Hlen. apply Nat2Z.inj in Hlen. rewrite Hlen, firstn_all. reflexivity.
Qed.

(** The whole token is accepted. *)
Lemma accepted m0 m1 :
  first_method c = Some m0 -> method_scan l m0 1 = Some m1 -> method_strings m1 = c :: l ->
  method_verdict.
Proof.
  intros Hc Hs Hm. assert (l = l ++ []) as Hl by (symmetry; apply app_nil_r).
  destruct (reaches_returns recorder data false (fresh_parser HTTP_REQUEST) []
    (fun k => exists w x, at_state (zlen data) s_req_spaces_before_url None w x k /\ m_method x = m1)
    (fun P' w' n => hp_http_errno P' = HPE_OK /\ hp_method P' = m1))
    as (P & w & n & Hx & He & HP); [reflexivity | apply data_nonempty | reflexivity | | |].
  - eapply reaches_trans; [exact (prefix_reaches _ _ _ _ Hl Hc Hs)|].
    intros k (w & x & Hat & Hx & Hi).
    eapply reaches_mono; [eapply (method_space_reaches data false header_limit); [exact Hat| |]|].
    + rewrite Hi, Hx, Hm. reflexivity.
    + exact (byte_at_middle (c :: l) 32 []).
    + intros k' Hat'. rewrite (zlen_app (c :: l)). eauto.
  - intros k (w & x & Hat & <-). split; [exact (at_p _ _ _ _ _ _ Hat)|].
    open_at k. unfold execute_end. rec_run. red_ctx. auto.
  - exists P, w, n. split; [exact Hx|]. left. rewrite HP. auto.
Qed.

End Token.

(** C4: A request is accepted for exactly the methods of the table.  Fed with a
    token (non-zero bytes without a blank, not beginning with a line break) and
    the blank behind it, a new parser either records the method whose name the
    token is, or reports [HPE_INVALID_METHOD], and then no method has that
    name. *)
Theorem method_recognised `{BuildConfig} c l :
  zlen ((c :: l) ++ [32]) <= HTTP_MAX_HEADER_SIZE < 2 ^ 32 ->
  c <> CR -> c <> LF -> Forall (fun b => 0 < b < 256 /\ b <> 32) (c :: l) ->
  exists P w n,
    http_parser_execute recorder (fresh_parser HTTP_REQUEST) [] ((c :: l) ++ [32]) = Returned P w n /\
    (hp_http_errno P = HPE_OK /\ method_strings (hp_method P) = c :: l \/
     hp_http_errno P = HPE_INVALID_METHOD /\ not_a_method (c :: l)).
Proof.
  intros Hlim H1 H2 Hb. change (method_verdict c l).
  destruct (first_method c) as [m0|] eqn:Hf.
  2:{ apply rejected.
      - apply reaches_refl. eapply (start_rejects _ false Hlim _ _ _ c);
          [exact (entry_at HTTP_REQUEST) | reflexivity | assumption..].
      - intros m Hm. destruct (scan_name _ _ _ Hm) as (m0 & Hc & _). congruence. }
  destruct (method_scan l m0 1) as [m1|] eqn:Hs.
  - assert (l = l ++ []) as Hnil by (symmetry; apply app_nil_r).
    destruct (list_eq_dec Z.eq_dec (method_strings m1) (c :: l)) as [Heq|Hne].
    + eapply accepted; eassumption.
    + eapply (stopped c l Hlim Hb m0 l [] m1 32); eauto; [apply method_next_space|lia|].
      intros m Hm. destruct (scan_name _ _ _ Hm) as (m0' & Hc & Hs'). congruence.
  - destruct (method_scan_none _ _ _ Hs) as (l1 & b & l2 & m1 & Hl & Hs1 & Hn).
    eapply (stopped c l Hlim Hb m0 l1 (l2 ++ [32]) m1 b); eauto.
    + rewrite Hl, <- app_assoc. reflexivity.
    + rewrite Hl. f_equal. symmetry. apply (removelast_last (b :: l2)).
    + rewrite zlen_cons. exact Hn.
    + rewrite Hl in Hb. inversion Hb as [|? ? _ Ht]; subst.
      apply Forall_app in Ht as [_ Ht]. inversion Ht as [|? ? [] _]. contradiction.
    + rewrite Hl in Hb. inversion Hb as [|? ? _ Ht]; subst.
      apply Forall_app in Ht as [_ Ht]. inversion Ht. tauto.
    + intros m Hm. destruct (scan_name _ _ _ Hm) as (m0' & Hc & Hs'). congruence.
Qed.

Lemma method_recognised_witness :
  exists P w n,
    http_parser_execute recorder (fresh_parser HTTP_REQUEST) [] (bytes "UNSUBSCRIBE ") = Returned P w n /\
    (hp_http_errno P = HPE_OK /\ method_strings (hp_method P) = bytes "UNSUBSCRIBE" \/
     hp_http_errno P = HPE_INVALID_METHOD /\ not_a_method (bytes "UNSUBSCRIBE")).
Proof.
  apply (method_recognised "U"%chr (bytes "NSUBSCRIBE")).
  - vm_compute. split; [discriminate | reflexivity].
  - discriminate.
  - discriminate.
  - repeat constructor; discriminate.
Defined.
