(* ===== verification/HttpBody.v ===== *)
(** * Message bodies

    Bodies with a Content-Length, delivered over any number of buffers. *)

From Stdlib Require Import String ZArith List Bool Lia.
From S2P Require Import Prelude HttpDefs HttpUrl HttpExec HttpLogic HttpRecord HttpCases HttpSafety HttpRun.
Import ListNotations.
Local Open Scope Z_scope.

(** ** Content-Length *)

Section Identity.
Context `{BuildConfig}.

(** Inside a body of which [n] bytes are missing. *)
Record in_body (n : Z) (P : http_parser) : Prop := {
  in_body_errno : hp_http_errno P = HPE_OK;
  in_body_state : hp_state P = s_body_identity;
  in_body_nread : hp_nread P = 0;
  in_body_left : hp_content_length P = n;
  in_body_upgrade : hp_upgrade P = false
}.

Lemma body_to_read data cl :
  0 <= zlen data <= cl -> cl < 2 ^ 64 ->
  Z.min cl (u64 (data_len data - 0)) = zlen data /\ u64 (cl - zlen data) = cl - zlen data.
Proof.
  intros Hl Hc. unfold data_len. rewrite Z.sub_0_r, (wrap_small 64 (zlen data)) by lia.
  rewrite wrap_small by lia. lia.
Qed.

Definition with_length (n : Z) (x : msg) : msg :=
  mk_msg (m_type x) (m_flags x) n (m_major x) (m_minor x) (m_status x) (m_method x) (m_upgrade x).

(** The iteration that consumes a buffer: all of it belongs to the body. *)
Lemma body_reaches data lenient w x k :
  at_state 0 s_body_identity None w x k -> 0 < zlen data < m_length x -> m_length x < 2 ^ 64 - 1 ->
  reaches recorder data lenient k (fun k' =>
    at_state (zlen data) s_body_identity (Some (body, 0)) w
      (with_length (m_length x - zlen data) x) k' /\ hp_nread (prs k') = 0).
Proof.
  intros Hat Hd Hn. destruct (proj1 (byte_at_Some data 0)) as [c Hc]; [lia|].
  destruct (body_to_read data (m_length x)) as [Ht Hsub]; [lia..|].
  open_at k. cbn [m_length] in *. eapply reaches_byte; [exact Hc|].
  do 10 rec_step. unfold case_s_body_identity. do 2 rec_step. rewrite Ht.
  rec_run.
  - unfold ULLONG_MAX. destruct (Z.eqb_spec clen 0), (Z.eqb_spec clen 18446744073709551615); lia || reflexivity.
  - split; [lia|]. apply reaches_refl. rewrite Hsub. split; [solve_at | red_ctx; lia].
Qed.

(** The iteration that consumes the last part of the body. *)
Lemma body_end_reaches data lenient w x k :
  at_state 0 s_body_identity None w x k -> 0 < zlen data -> m_length x = zlen data ->
  zlen data < 2 ^ 64 - 1 -> m_upgrade x = false ->
  reaches recorder data lenient k
    (at_state (zlen data) (next_message (with_length 0 x)) None
      (w ++ [Data body data; Notify message_complete]) (with_length 0 x)).
Proof.
  intros Hat Hd Hl Hn Hu. destruct (proj1 (byte_at_Some data 0)) as [c Hc]; [lia|].
  destruct (body_to_read data (m_length x)) as [Ht Hsub]; [lia..|].
  open_at k. cbn [m_length m_upgrade] in *. subst. eapply reaches_byte; [exact Hc|].
  do 10 rec_step. unfold case_s_body_identity. do 2 rec_step. rewrite Ht.
  rec_run.
  - unfold ULLONG_MAX. destruct (Z.eqb_spec (zlen data) 0), (Z.eqb_spec (zlen data) 18446744073709551615); lia || reflexivity.
  - split; [lia|]. apply reaches_refl. rewrite Hsub, Z.sub_diag, NEW_MESSAGE_msg.
    replace (0 + (zlen data - 1) - 0 + 1) with (zlen data) by lia.
    rewrite slice_all, <- app_assoc. solve_at.
Qed.

(** The context on entry. *)
Lemma in_body_entry n P w :
  in_body n P -> at_state 0 s_body_identity None w (msg_of P) (entry_ctx P w).
Proof.
  intros [He Hs Hr Hl Hu]. rewrite <- Hs. apply entry_at_state; try assumption.
  rewrite Hs. intros []; reflexivity.
Qed.

(** The effect of a call on a part of the body. *)
Lemma body_part P0 w b n :
  in_body n P0 -> 0 < zlen b < n -> n < 2 ^ 64 - 1 ->
  exists P', http_parser_execute recorder P0 w b = Returned P' (w ++ [Data body b]) (zlen b) /\
    in_body (n - zlen b) P' /\ with_length 0 (msg_of P') = with_length 0 (msg_of P0).
Proof.
  intros Hin Hb Hn. pose proof (in_body_entry n P0 w Hin) as Hat0. destruct Hin as [He Hs Hr Hl Hu].
  destruct (reaches_returns recorder b (hp_lenient_http_headers P0) P0 w _
    (fun P' w' m => w' = w ++ [Data body b] /\ m = zlen b /\ hp_http_errno P' = HPE_OK /\
       hp_state P' = s_body_identity /\ hp_nread P' = 0 /\
       msg_of P' = with_length (m_length (msg_of P0) - zlen b) (msg_of P0)) He ltac:(lia) eq_refl
    (body_reaches b _ w (msg_of P0) (entry_ctx P0 w) Hat0 ltac:(cbn; lia) ltac:(cbn; lia)))
    as (P' & w' & m & Hx & -> & -> & He' & Hs' & Hr' & Hm).
  - clear Hat0. intros k [Hat Hk]. split; [exact (at_p _ _ _ _ _ _ Hat)|].
    generalize dependent (msg_of P0). intros x Hat. open_at k. unfold execute_end.
    rec_run. red_ctx. rewrite Z.sub_0_r, slice_all. auto 10.
  - exists P'. split; [exact Hx|]. split; [|rewrite Hm; reflexivity].
    assert (hp_content_length P' = hp_content_length P0 - zlen b /\ hp_upgrade P' = hp_upgrade P0)
      as [H1 H2] by (injection Hm; auto).
    constructor; try assumption; congruence.
Qed.

Lemma body_last P0 w b :
  in_body (zlen b) P0 -> 0 < zlen b < 2 ^ 64 - 1 ->
  exists P', http_parser_execute recorder P0 w b =
      Returned P' (w ++ [Data body b; Notify message_complete]) (zlen b) /\
    hp_http_errno P' = HPE_OK /\ hp_state P' = next_message (with_length 0 (msg_of P0)).
Proof.
  intros Hin Hb. pose proof (in_body_entry _ P0 w Hin) as Hat0. destruct Hin as [He Hs Hr Hl Hu].
  destruct (reaches_end b (hp_lenient_http_headers P0) P0 w (next_message (with_length 0 (msg_of P0)))
    (w ++ [Data body b; Notify message_complete]) (with_length 0 (msg_of P0)) (fun _ => True))
    as (P' & Hx & He' & Hs' & _ & _); [assumption | lia | reflexivity | | eauto].
  eapply reaches_mono; [eapply (body_end_reaches b _ w (msg_of P0)); eauto; lia|]. auto.
Qed.

End Identity.

(** Feeding a list of buffers, as long as each is consumed without an error. *)
Fixpoint execute_all `{BuildConfig} {W} (settings : http_parser_settings W)
  (P : http_parser) (w : W) (bufs : list (list Z)) : option (http_parser * W) :=
  match bufs with
  | [] => Some (P, w)
  | b :: bufs' =>
      match http_parser_execute settings P w b with
      | Returned P' w' n =>
          if http_errno_eqb (hp_http_errno P') HPE_OK && (n =? zlen b)
          then execute_all settings P' w' bufs' else None
      | Aborted _ => None
      end
  end.

(** C5: A body with a Content-Length is delivered exactly.  A parser that waits for
    [n] body bytes hands every buffer of a sequence of non-empty buffers of
    total length [n] to [on_body] unchanged and in order, reports the end of the
    message after the last byte and not before, and is ready for the next
    message. *)
Theorem body_delivered `{BuildConfig} P w bufs n :
  in_body n P -> n < 2 ^ 64 - 1 -> bufs <> [] -> Forall (fun b => b <> []) bufs ->
  zlen (concat bufs) = n ->
  exists P', execute_all recorder P w bufs =
      Some (P', w ++ map (Data body) bufs ++ [Notify message_complete]) /\
    hp_http_errno P' = HPE_OK /\ hp_state P' = next_message (with_length 0 (msg_of P)).
Proof.
  intros Hin Hn Hne Hb Hlen. revert P w n Hin Hn Hlen.
  induction bufs as [|b bufs IH]; [contradiction|]. intros P w n Hin Hn Hlen.
  inversion Hb as [|? ? Hb0 Hb']; subst. cbn [concat] in *. rewrite zlen_app in *.
  assert (0 < zlen b) by (destruct b; [contradiction|rewrite zlen_cons; pose proof (zlen_nonneg b); lia]).
  destruct bufs as [|b1 bufs].
  - cbn [concat] in *. change (zlen (@nil Z)) with 0 in *. rewrite Z.add_0_r in *.
    destruct (body_last P w b Hin ltac:(lia)) as (P' & Hx & He & Hs).
    exists P'. cbn [execute_all]. rewrite Hx, He, Z.eqb_refl. auto.
  - assert (0 < zlen (concat (b1 :: bufs))).
    { inversion Hb'; subst. cbn [concat]. rewrite zlen_app.
      destruct b1; [contradiction|]. rewrite zlen_cons.
      pose proof (zlen_nonneg b1). pose proof (zlen_nonneg (concat bufs)). lia. }
    destruct (body_part P w b _ Hin ltac:(lia) ltac:(lia)) as (P1 & Hx & Hin1 & Hm).
    cbn [execute_all]. rewrite Hx, (in_body_errno _ _ Hin1), Z.eqb_refl. cbn [http_errno_eqb].
    destruct (IH ltac:(discriminate) Hb' P1 (w ++ [Data body b]) _ Hin1 ltac:(lia) ltac:(lia))
      as (P' & Hx' & He & Hs).
    exists P'. rewrite Hm in Hs. rewrite <- app_assoc in Hx'. auto.
Qed.

(** A request with a body of five bytes, up to the end of its headers. *)
Definition post_headers : list Z :=
  message ["POST / HTTP/1.1"; "Content-Length: 5"; ""; ""]%string.

Definition post_parser : http_parser :=
  parser_after (http_parser_execute recorder (fresh_parser HTTP_REQUEST) [] post_headers).

Lemma body_delivered_witness :
  exists P', execute_all recorder post_parser [] [bytes "he"; bytes "llo"] =
      Some (P', [Data body (bytes "he"); Data body (bytes "llo"); Notify message_complete]) /\
    hp_http_errno P' = HPE_OK /\ hp_state P' = next_message (with_length 0 (msg_of post_parser)).
Proof.
  apply (body_delivered post_parser [] [bytes "he"; bytes "llo"] 5).
  - constructor; vm_compute; reflexivity.
  - reflexivity.
  - discriminate.
  - repeat constructor; discriminate.
  - reflexivity.
Defined.
