(* ===== verification/HttpChunked.v ===== *)
(** * Chunked bodies

    The chunked transfer coding: a body is printed as a sequence of chunks, each
    with its length in hexadecimal, and decoded by the [s_chunk_*] states. *)

From Stdlib Require Import String ZArith List Bool Lia.
From S2P Require Import Prelude HttpDefs HttpUrl HttpExec HttpLogic HttpRecord HttpCases HttpSafety HttpRun HttpHeader HttpBody.
Import ListNotations.
Local Open Scope Z_scope.

(** ** Hexadecimal numbers *)

Definition hex_digit (d : Z) : Z := if d <? 10 then 48 + d else 87 + d.

Fixpoint hex_digits (fuel : nat) (n : Z) (acc : list Z) : list Z :=
  match fuel with
  | O => acc
  | S fuel' =>
      if n <? 16 then hex_digit n :: acc
      else hex_digits fuel' (n / 16) (hex_digit (n mod 16) :: acc)
  end.

(** 16 digits are enough for 64 bits. *)
Definition print_hex (n : Z) : list Z := hex_digits 16 n [].

(** The value of a line of digits, as [s_chunk_size] accumulates it. *)
Definition hex_value_from (v : Z) (ds : list Z) : Z :=
  fold_left (fun v b => v * 16 + unhex_at b) ds v.

Definition hex_value (ds : list Z) : Z := hex_value_from 0 ds.

Definition is_hex (b : Z) : bool := negb (unhex_at b =? -1).

Lemma unhex_digit d : 0 <= d < 16 -> unhex_at (hex_digit d) = d.
Proof.
  intros Hd. assert (In d (map Z.of_nat (seq 0 16))) as Hin.
  { apply in_map_iff. exists (Z.to_nat d). split; [lia|]. apply in_seq. lia. }
  cbn in Hin. repeat destruct Hin as [<-|Hin]; try reflexivity. destruct Hin.
Qed.

Lemma hex_digits_value fuel n acc :
  0 <= n < 16 ^ Z.of_nat fuel ->
  hex_value_from 0 (hex_digits fuel n acc) = hex_value_from n acc.
Proof.
  revert n acc. induction fuel as [|fuel IH]; intros n acc Hn.
  - cbn in *. replace n with 0 by lia. reflexivity.
  - cbn [hex_digits]. destruct (Z.ltb_spec n 16).
    + unfold hex_value_from. cbn [fold_left]. rewrite unhex_digit by lia. reflexivity.
    + assert (0 <= n mod 16 < 16) by (apply Z.mod_pos_bound; lia).
      rewrite IH.
      * unfold hex_value_from. cbn [fold_left]. rewrite unhex_digit by assumption.
        replace (n / 16 * 16 + n mod 16) with n; [reflexivity|].
        rewrite (Z.mul_comm (n / 16)). apply Z.div_mod. lia.
      * rewrite Nat2Z.inj_succ, Z.pow_succ_r in Hn by lia. split; [apply Z.div_pos; lia|].
        apply Z.div_lt_upper_bound; lia.
Qed.

Lemma print_hex_value n : 0 <= n < 2 ^ 64 -> hex_value (print_hex n) = n.
Proof. intros Hn. apply hex_digits_value. change (16 ^ Z.of_nat 16) with (2 ^ 64). exact Hn. Qed.

Lemma hex_digits_hex fuel n acc :
  0 <= n -> Forall (fun b => is_hex b = true) acc ->
  Forall (fun b => is_hex b = true) (hex_digits fuel n acc).
Proof.
  assert (forall d, 0 <= d < 16 -> is_hex (hex_digit d) = true) as Hd.
  { intros d Hd. unfold is_hex. rewrite unhex_digit by exact Hd.
    destruct (Z.eqb_spec d (-1)); [lia|reflexivity]. }
  revert n acc. induction fuel as [|fuel IH]; intros n acc Hn Hacc; [exact Hacc|].
  cbn [hex_digits]. destruct (Z.ltb_spec n 16); [constructor; auto|].
  apply IH; [apply Z.div_pos; lia|]. constructor; [apply Hd, Z.mod_pos_bound; lia | exact Hacc].
Qed.

Lemma hex_digits_length fuel n acc :
  (Nat.min 1 fuel + length acc <= length (hex_digits fuel n acc) <= fuel + length acc)%nat.
Proof.
  revert n acc. induction fuel as [|fuel IH]; intros n acc; cbn [hex_digits]; [lia|].
  destruct (n <? 16); cbn [length]; [lia|]. specialize (IH (n / 16) (hex_digit (n mod 16) :: acc)).
  cbn in IH. lia.
Qed.

Lemma print_hex_length n : 1 <= zlen (print_hex n) <= 16.
Proof.
  unfold print_hex, zlen. pose proof (hex_digits_length 16 n []). cbn [length Nat.min] in *. lia.
Qed.

(** The value grows with the digits. *)
Lemma hex_value_from_ge ds v :
  Forall (fun b => is_hex b = true) ds -> 0 <= v -> v <= hex_value_from v ds.
Proof.
  intros Hd. revert v. induction Hd as [|b ds Hb _ IH]; intros v Hv; [cbn; lia|].
  unfold hex_value_from in *. cbn [fold_left].
  unfold is_hex in Hb. pose proof (unhex_range b). bool_hyps.
  specialize (IH (v * 16 + unhex_at b)). lia.
Qed.

(** ** The chunk states *)

Section Chunks.
Context `{BuildConfig}.
Variable data : list Z.
Variable lenient : bool.
Abbreviation dlen := (zlen data).
Abbreviation reaches := (reaches recorder data lenient).
Hypothesis header_limit : 32 <= HTTP_MAX_HEADER_SIZE < 2 ^ 32.
Hypothesis data_size_t : dlen < 2 ^ 64 - 32.

(** In a chunk state, with the value of [nread]. *)
Definition at_chunk (q : Z) (s : state) (w : list event) (x : msg) (r : Z)
  (k : ctx (list event)) : Prop :=
  at_state q s None w x k /\ hp_nread (prs k) = r /\ truthy (Z.land (m_flags x) F_CHUNKED) = true.

Lemma digits_reaches ds q w x r k :
  at_chunk q s_chunk_size w x r k -> next_bytes data q ds ->
  Forall (fun b => is_hex b = true) ds -> 0 <= m_length x ->
  hex_value_from (m_length x) ds < ULLONG_MAX - 16 -> r + zlen ds <= HTTP_MAX_HEADER_SIZE ->
  reaches k (at_chunk (q + zlen ds) s_chunk_size w
    (with_length (hex_value_from (m_length x) ds) x) (r + zlen ds)).
Proof.
  revert q x r k. induction ds as [|b ds IH]; intros q x r k Hat Hnb Hd Hl Hv Hr.
  - apply reaches_refl. change (zlen (@nil Z)) with 0. rewrite !Z.add_0_r.
    destruct x. exact Hat.
  - apply next_bytes_cons in Hnb as (Hb & Hq & Hnb). inversion Hd as [|? ? Hb0 Hd']; subst.
    rewrite zlen_cons in Hr. pose proof (zlen_nonneg ds).
    cbn [hex_value_from fold_left] in Hv. fold (hex_value_from (m_length x * 16 + unhex_at b) ds) in Hv.
    unfold is_hex in Hb0. pose proof (unhex_range b).
    pose proof (hex_value_from_ge ds (m_length x * 16 + unhex_at b) Hd'). bool_hyps.
    eapply reaches_trans with (J := at_chunk (q + 1) s_chunk_size w
      (with_length (m_length x * 16 + unhex_at b) x) (r + 1)).
    + destruct Hat as (Hat & Hr0 & Hf). open_at k. cbn [m_flags m_length] in *. red_ctx. subst.
      assert (b <> CR) by (intros ->; apply Hb0; reflexivity).
      assert (clen <= (ULLONG_MAX - 16) / 16) as Hle
        by (unfold ULLONG_MAX in *; apply Z.div_le_lower_bound; lia).
      destruct (accumulate_small 16 clen (unhex_at b)) as [Hacc _]; [lia..|].
      eapply reaches_byte; [exact Hb|]. rec_run.
      split; [lia|]. apply reaches_refl. rewrite Hacc. split; [solve_at|]. auto.
    + intros k' Hat'. rewrite zlen_cons, !Z.add_assoc.
      eapply reaches_mono; [apply (IH _ _ _ _ Hat'); cbn [m_length with_length]; auto; lia|]. intros k2 Hk2.
      destruct x. exact Hk2.
Qed.

(** A chunk: its size, its bytes and the line breaks behind them. *)
Definition print_chunk (b : list Z) : list Z := print_hex (zlen b) ++ crlf ++ b ++ crlf.

Definition chunk_events (b : list Z) : list event :=
  [Notify chunk_header; Data body b; Notify chunk_complete].

(** The size line. *)
Lemma size_reaches n q w x k :
  at_chunk q s_chunk_size_start w x 0 k -> next_bytes data q (print_hex n ++ [13]) ->
  0 <= n < ULLONG_MAX - 16 ->
  reaches k (fun k' => exists r, 0 <= r <= 17 /\
    at_chunk (q + zlen (print_hex n) + 1) s_chunk_size_almost_done w (with_length n x) r k').
Proof.
  intros Hat Hnb Hn. pose proof (print_hex_length n) as Hlen.
  pose proof (print_hex_value n ltac:(unfold ULLONG_MAX in *; lia)) as Hval.
  pose proof (hex_digits_hex 16 n [] ltac:(lia) (Forall_nil _)) as Hhex. fold (print_hex n) in Hhex.
  apply next_bytes_app in Hnb as [Hds Hcr]. apply next_bytes_cons in Hcr as (Hcr & Hqr & _).
  destruct (print_hex n) as [|d ds]; [cbn in Hlen; lia|]. apply Forall_cons_iff in Hhex as [Hd Hhex'].
  apply next_bytes_cons in Hds as (Hd0 & Hq & Hds). rewrite zlen_cons in *.
  unfold is_hex in Hd. pose proof (unhex_range d). bool_hyps.
  unfold hex_value, hex_value_from in Hval. cbn [fold_left] in Hval.
  change (0 * 16 + unhex_at d) with (unhex_at d) in Hval. fold (hex_value_from (unhex_at d) ds) in Hval.
  eapply reaches_trans with (J := at_chunk (q + 1) s_chunk_size w (with_length (unhex_at d) x) 1).
  { destruct Hat as (Hat & Hr0 & Hf). open_at k. cbn [m_flags m_length] in *. red_ctx. subst.
    eapply reaches_byte; [exact Hd0|]. rec_run.
    split; [lia|]. apply reaches_refl. rewrite (wrap_small 64) by lia. split; [solve_at|]. auto. }
  intros k1 Hat1.
  eapply reaches_trans; [apply (digits_reaches ds _ _ _ _ _ Hat1); cbn [m_length with_length]; auto; lia|].
  intros k2 (Hat2 & Hr2 & Hf). cbn [m_length with_length] in Hat2. rewrite Hval in Hat2.
  rewrite <- Z.add_assoc in Hat2.
  change (with_length n (with_length (unhex_at d) x)) with (with_length n x) in Hat2.
  change (truthy (Z.land (m_flags (with_length n x)) F_CHUNKED) = true) in Hf.
  generalize dependent (with_length n x). intros y Hat2 Hf.
  open_at k2. cbn [m_flags] in Hf. red_ctx. eapply reaches_byte; [exact Hcr|].
  rec_run. split; [lia|]. apply reaches_refl. exists (1 + zlen ds + 1).
  split; [lia|]. split; [solve_at|]. red_ctx. auto with zarith.
Qed.

(** The bytes of a chunk, behind its size line. *)
Lemma chunk_data_reaches b q w x k :
  at_chunk q s_chunk_data w x 0 k -> next_bytes data q (b ++ [13; 10]) ->
  m_length x = zlen b -> 0 < zlen b -> zlen b < ULLONG_MAX ->
  reaches k (at_chunk (q + zlen b + 2) s_chunk_size_start
    (w ++ [Data body b; Notify chunk_complete]) (with_length 0 x) 0).
Proof.
  intros (Hat & Hr & Hf) Hnb Hl Hb Hmax.
  pose proof (next_bytes_end _ _ _ Hnb ltac:(destruct b; discriminate)) as Hend.
  rewrite zlen_app in Hend. change (zlen [13; 10]) with 2 in Hend.
  apply next_bytes_app in Hnb as [Hbs Hnb]. pose proof (next_bytes_slice _ _ _ Hbs) as Hslice.
  assert (0 <= q) as Hq0 by exact (proj1 Hbs).
  destruct (proj1 (byte_at_Some data q)) as [c Hc]; [lia|].
  assert (Z.min (zlen b) (u64 (data_len data - q)) = zlen b) as Ht.
  { unfold data_len. rewrite wrap_small by lia. lia. }
  assert (u64 (zlen b - zlen b) = 0) as Hsub by (rewrite Z.sub_diag; reflexivity).
  open_at k. cbn [m_flags m_length] in *. red_ctx. subst. eapply reaches_byte; [exact Hc|].
  do 10 rec_step. unfold case_s_chunk_data. do 2 rec_step. rewrite Ht.
  rec_run.
  { unfold ULLONG_MAX in *.
    destruct (Z.eqb_spec (zlen b) 0), (Z.eqb_spec (zlen b) 18446744073709551615); lia || reflexivity. }
  split; [lia|]. rewrite Hsub. replace (q + (zlen b - 1) + 1) with (q + zlen b) by lia.
  do 2 feed Hnb. apply reaches_refl.
  replace (q + zlen b - q) with (zlen b) by lia. rewrite Hslice, <- app_assoc.
  split; [solve_at|]. auto.
Qed.

Lemma chunk_reaches b q w x k :
  at_chunk q s_chunk_size_start w x 0 k -> next_bytes data q (print_chunk b) ->
  0 < zlen b < ULLONG_MAX - 16 ->
  reaches k (at_chunk (q + zlen (print_chunk b)) s_chunk_size_start (w ++ chunk_events b)
    (with_length 0 x) 0).
Proof.
  intros Hat Hnb Hb. unfold print_chunk, crlf in *.
  change [13; 10] with ([13] ++ [10]) in Hnb at 1. rewrite <- (app_assoc [13]), app_assoc in Hnb.
  apply next_bytes_app in Hnb as [Hsize Hnb]. rewrite zlen_app in Hnb. change (zlen [13]) with 1 in Hnb.
  eapply reaches_trans; [apply (size_reaches (zlen b)); eauto; lia|].
  intros k1 (r & Hr & Hat1). apply next_bytes_cons in Hnb as (Hlf & Hq & Hnb).
  rewrite Z.add_assoc in Hlf, Hq, Hnb. set (q1 := q + zlen (print_hex (zlen b)) + 1) in *.
  eapply reaches_trans with
    (J := at_chunk (q1 + 1) s_chunk_data (w ++ [Notify chunk_header]) (with_length (zlen b) x) 0).
  { destruct Hat1 as (Hat1 & Hr1 & Hf). unfold with_length in *.
    open_at k1. cbn [m_flags] in Hf. red_ctx. subst.
    eapply reaches_byte; [exact Hlf|]. rec_run.
    split; [lia|]. apply reaches_refl. split; [solve_at|]. auto. }
  intros k2 Hat2. rewrite !zlen_app. change (zlen [13; 10]) with 2.
  eapply reaches_mono; [apply (chunk_data_reaches b _ _ _ _ Hat2 Hnb); cbn [m_length with_length]; lia|].
  intros k3 Hat3. unfold chunk_events. rewrite <- app_assoc in Hat3.
  replace (q + (zlen (print_hex (zlen b)) + (2 + (zlen b + 2)))) with (q1 + 1 + zlen b + 2)
    by (subst q1; lia).
  exact Hat3.
Qed.

(** The chunk of length 0 and the end of the message. *)
Definition last_chunk : list Z := bytes "0" ++ crlf ++ crlf.

Lemma last_chunk_reaches q w x k :
  at_chunk q s_chunk_size_start w x 0 k -> next_bytes data q last_chunk -> m_upgrade x = false ->
  let y := with_flags (Z.lor (m_flags x) F_TRAILING) (with_length 0 x) in
  reaches k (at_state (q + 5) (next_message y) None
    (w ++ [Notify chunk_header; Notify chunk_complete; Notify message_complete]) y).
Proof.
  intros (Hat & Hr & Hf) Hnb Hu y. subst y.
  change last_chunk with [48; 13; 10; 13; 10] in Hnb.
  open_at k. cbn [m_flags m_upgrade] in *. red_ctx. subst.
  assert (truthy (Z.land (Z.lor flags F_TRAILING) F_TRAILING) = true) as Ht.
  { rewrite Z.land_lor_distr_l, truthy_true. change (Z.land F_TRAILING F_TRAILING) with 16.
    intros Hz. apply Z.lor_eq_0_iff in Hz. lia. }
  do 3 feed Hnb; try discriminate. change (u64 (unhex_at 48)) with 0. do 2 feed Hnb.
  apply reaches_refl. rewrite NEW_MESSAGE_msg, <- !app_assoc. solve_at.
Qed.

Lemma chunks_reach bs q w x k :
  at_chunk q s_chunk_size_start w x 0 k ->
  next_bytes data q (concat (map print_chunk bs)) -> Forall (fun b => b <> []) bs ->
  reaches k (fun k' => exists n,
    at_chunk (q + zlen (concat (map print_chunk bs))) s_chunk_size_start
      (w ++ concat (map chunk_events bs)) (with_length n x) 0 k').
Proof.
  intros Hat Hnb Hb. revert q w x k Hat Hnb. induction Hb as [|b bs Hb _ IH]; intros.
  - apply reaches_refl. exists (m_length x). cbn [map concat]. change (zlen (@nil Z)) with 0.
    rewrite Z.add_0_r, app_nil_r. destruct x. exact Hat.
  - cbn [map concat] in *. apply next_bytes_app in Hnb as [Hnb Hrest].
    assert (0 < zlen b < ULLONG_MAX - 16).
    { pose proof (next_bytes_end _ _ _ Hnb ltac:(unfold print_chunk; destruct (print_hex (zlen b)); discriminate)) as Hend.
      unfold print_chunk in Hend. rewrite !zlen_app in Hend. change (zlen crlf) with 2 in Hend.
      pose proof (print_hex_length (zlen b)). destruct Hnb. unfold ULLONG_MAX.
      destruct b; [contradiction|]. rewrite zlen_cons in *. pose proof (zlen_nonneg b). lia. }
    eapply reaches_trans; [apply chunk_reaches; eassumption|]. intros k' Hat'.
    rewrite zlen_app, Z.add_assoc, app_assoc.
    eapply reaches_mono; [apply IH; eassumption|]. auto.
Qed.

End Chunks.

(** ** The theorem *)

Definition print_chunked (bs : list (list Z)) : list Z :=
  concat (map print_chunk bs) ++ last_chunk.

(** Before the first chunk of a body. *)
Record before_chunks (P : http_parser) : Prop := {
  before_errno : hp_http_errno P = HPE_OK;
  before_state : hp_state P = s_chunk_size_start;
  before_nread : hp_nread P = 0;
  before_chunked : has_flag P F_CHUNKED = true;
  before_upgrade : hp_upgrade P = false
}.

(** C6: The chunked transfer coding round trip.  A body printed as a sequence of
    non-empty chunks (lengths in hexadecimal, then the chunk of length 0) is
    decoded by one call: [on_body] receives exactly the chunks, in order, each
    between [on_chunk_header] and [on_chunk_complete]; the final chunk and the
    end of the message are reported, everything is consumed without an error,
    and the parser goes on to the state for the next message. *)
Theorem chunked_roundtrip `{BuildConfig} P0 w bs :
  32 <= HTTP_MAX_HEADER_SIZE < 2 ^ 32 ->
  before_chunks P0 -> Forall (fun b => b <> []) bs -> zlen (print_chunked bs) < 2 ^ 64 - 32 ->
  exists P',
    http_parser_execute recorder P0 w (print_chunked bs) =
      Returned P' (w ++ concat (map chunk_events bs) ++
        [Notify chunk_header; Notify chunk_complete; Notify message_complete])
        (zlen (print_chunked bs)) /\
    hp_http_errno P' = HPE_OK /\
    hp_state P' = next_message (with_flags (Z.lor (hp_flags P0) F_TRAILING) (with_length 0 (msg_of P0))).
Proof.
  intros Hmax [He Hs Hn Hf Hu] Hb Hlen.
  destruct (reaches_end (print_chunked bs) (hp_lenient_http_headers P0) P0 w
    (next_message (with_flags (Z.lor (hp_flags P0) F_TRAILING) (with_length 0 (msg_of P0))))
    (w ++ concat (map chunk_events bs) ++
       [Notify chunk_header; Notify chunk_complete; Notify message_complete])
    (with_flags (Z.lor (hp_flags P0) F_TRAILING) (with_length 0 (msg_of P0))) (fun _ => True))
    as (P' & Hx & He' & Hs' & _); [assumption | | reflexivity | | eauto].
  { unfold print_chunked. rewrite zlen_app. change (zlen last_chunk) with 5.
    pose proof (zlen_nonneg (concat (map print_chunk bs))). lia. }
  pose proof (next_bytes_all (print_chunked bs)) as Hnb. unfold print_chunked in Hnb at 2.
  apply next_bytes_app in Hnb as [Hnb Hlast].
  eapply reaches_trans.
  { apply (chunks_reach _ _ Hmax Hlen bs 0 w (msg_of P0)); [|exact Hnb | exact Hb].
    split; [|auto]. rewrite <- Hs. apply entry_at_state; try assumption.
    rewrite Hs. intros []; reflexivity. }
  intros k (n & Hat).
  eapply reaches_mono; [apply (last_chunk_reaches _ _ Hmax); eassumption|].
  intros k' Hat'. split; [|exact I]. rewrite <- app_assoc in Hat'.
  replace (zlen (print_chunked bs)) with (0 + zlen (concat (map print_chunk bs)) + 5)
    by (unfold print_chunked; rewrite zlen_app; reflexivity).
  exact Hat'.
Qed.

(** A request with a chunked body, up to the end of its headers. *)
Definition chunked_headers : list Z :=
  message ["POST / HTTP/1.1"; "Transfer-Encoding: chunked"; ""; ""]%string.

Definition chunked_parser : http_parser :=
  parser_after (http_parser_execute recorder (fresh_parser HTTP_REQUEST) [] chunked_headers).

Definition two_chunks : list (list Z) := [bytes "twenty-five bytes of data"; bytes "x"].

Lemma chunked_roundtrip_witness :
  exists P',
    http_parser_execute recorder chunked_parser [] (print_chunked two_chunks) =
      Returned P'
        [Notify chunk_header; Data body (bytes "twenty-five bytes of data"); Notify chunk_complete;
         Notify chunk_header; Data body (bytes "x"); Notify chunk_complete;
         Notify chunk_header; Notify chunk_complete; Notify message_complete]
        (zlen (print_chunked two_chunks)) /\
    hp_http_errno P' = HPE_OK /\
    hp_state P' = next_message
      (with_flags (Z.lor (hp_flags chunked_parser) F_TRAILING) (with_length 0 (msg_of chunked_parser))).
Proof.
  apply (chunked_roundtrip chunked_parser [] two_chunks).
  - vm_compute. split; [discriminate | reflexivity].
  - constructor; vm_compute; reflexivity.
  - repeat constructor; discriminate.
  - reflexivity.
Defined.
