(* ===== verification/HttpLength.v ===== *)
(** * Content-Length

    The decimal number of a Content-Length header: its value, and the numbers
    that are rejected because they do not fit. *)

From Stdlib Require Import String ZArith List Bool Lia.
From S2P Require Import Prelude HttpDefs Decimal HttpUrl HttpExec HttpLogic HttpRecord HttpCases HttpSafety HttpRun HttpRequest HttpHeader HttpNames HttpRoundtrip HttpBody.
Import ListNotations.
Local Open Scope Z_scope.

(** The smallest number that is rejected. *)
Definition length_limit : Z := 18446744073709551610.

Lemma IS_NUM_header b : IS_NUM b = true -> IS_HEADER_CHAR b = true.
Proof.
  intros Hb. apply IS_NUM_range in Hb. unfold IS_HEADER_CHAR. rewrite (wrap_small 8) by lia.
  destruct (Z.ltb_spec 31 b), (Z.eqb_spec b 127); lia.
Qed.

Lemma slash_valid `{BuildConfig} : url_valid HTTP_POST (bytes "/") = true.
Proof.
  unfold url_valid, url_scan, parse_url_char. cbn. destruct HTTP_PARSER_STRICT; reflexivity.
Qed.

Lemma content_length_name `{BuildConfig} :
  Forall (fun b => TOKEN b <> 0) (bytes "Content-Length") /\
  Forall (fun b => b <> 32) (bytes "Content-Length") /\
  tokens_of (bytes "Content-Length") = CONTENT_LENGTH.
Proof.
  unfold tokens_of, TOKEN.
  destruct HTTP_PARSER_STRICT; cbn [bytes map]; repeat split; repeat constructor; discriminate.
Qed.

Section Length.
Context `{BuildConfig}.
Variable data : list Z.
Variable lenient : bool.
Abbreviation dlen := (zlen data).
Abbreviation reaches := (reaches recorder data lenient).
Hypothesis header_limit : dlen <= HTTP_MAX_HEADER_SIZE < 2 ^ 32.

Abbreviation value_loop := (header_value_loop recorder data lenient).

(** The loop over the digits. *)
Lemma wp_value_digits ds fuel start Q E R k :
  next_bytes data (p k) ds -> digits ds -> 0 <= hp_content_length (prs k) ->
  dec_value_from (hp_content_length (prs k)) ds < length_limit ->
  (forall c, wp (value_loop fuel start h_content_length) Q E R
    (with_ch c (with_p (p k + zlen ds)
      (with_prs (set_content_length (dec_value_from (hp_content_length (prs k)) ds) (prs k)) k)))) ->
  wp (value_loop (length ds + fuel) start h_content_length) Q E R k.
Proof.
  revert k. induction ds as [|b ds IH]; intros k Hnb Hd Hc Hv HQ.
  - specialize (HQ (ch k)). change (zlen (@nil Z)) with 0 in HQ. rewrite Z.add_0_r in HQ.
    destruct k as [P q0 c0 s0 m1 m2 m3 m4 m5 w0], P. exact HQ.
  - apply next_bytes_cons in Hnb as (Hb & Hp & Hnb). apply Forall_cons_iff in Hd as [Hb0 Hd].
    pose proof (IS_NUM_range _ Hb0) as Hr.
    destruct k as [P q0 c0 s0 m1 m2 m3 m4 m5 w0]. open_parser P. red_ctx.
    unfold dec_value_from in Hv, HQ. cbn [fold_left] in Hv, HQ.
    pose proof (dec_value_from_ge ds (clen * 10 + (b - 48)) Hd ltac:(lia)) as Hge.
    unfold dec_value_from in Hge.
    assert (clen <= (ULLONG_MAX - 10) / 10) as Hle.
    { change ((ULLONG_MAX - 10) / 10) with 1844674407370955160. unfold length_limit in *. lia. }
    destruct (accumulate_small 10 clen (b - 48)) as [Hacc _]; [lia..|].
    cbn [length Nat.add header_value_loop]. unfold data_len.
    apply wp_bind, wp_get. red_ctx. destruct (Z.eqb_spec q0 dlen); [lia|].
    do 2 rec_step. do 2 rec_step.
    destruct (Z.eqb_spec b CR); [unfold CR in *; lia|]. destruct (Z.eqb_spec b LF); [unfold LF in *; lia|].
    rewrite (IS_NUM_header _ Hb0), andb_false_r. unfold header_value_char. rewrite Hb0. cbn [negb].
    destruct (Z.eqb_spec b 32); [lia|].
    rec_step. do 2 rec_step. rewrite Hacc.
    destruct (Z.ltb_spec ((ULLONG_MAX - 10) / 10) clen); [lia|].
    rec_run. apply IH; red_ctx; try assumption; try lia.
    intros c. specialize (HQ c). rewrite zlen_cons, Z.add_assoc in HQ. exact HQ.
Qed.

Lemma length_first_reaches q w x k d :
  at_state q s_header_value_discard_ws None w x k ->
  hp_header_state (prs k) = h_content_length -> next_bytes data q [32; d] -> IS_NUM d = true ->
  reaches k (fun k' =>
    at_state (q + 2) s_header_value (Some (header_value, q + 1)) w (with_length (d - 48) x) k' /\
    hp_header_state (prs k') = h_content_length).
Proof.
  intros Hat Hh Hnb Hd. pose proof (IS_NUM_range _ Hd). open_at k. red_ctx. subst.
  do 2 feed Hnb; try (rewrite Hd in *; discriminate).
  apply reaches_refl. split; [solve_at | reflexivity].
Qed.

(** The fuel of the loop is more than the digits and the line break need. *)
Lemma loop_fuel_split ds q l :
  next_bytes data q (ds ++ l) -> l <> [] -> exists fuel, loop_fuel data = (length ds + S (S fuel))%nat.
Proof.
  intros Hnb Hl. pose proof (next_bytes_end _ _ _ Hnb) as He. rewrite zlen_app in He.
  destruct Hnb as [Hq _]. exists (length data - length ds - 1)%nat. unfold loop_fuel, zlen in *.
  destruct l; [contradiction|]. cbn [length] in He.
  specialize (He ltac:(destruct ds; discriminate)). lia.
Qed.

Lemma length_rest_reaches ds q w x k m :
  at_state q s_header_value (Some (header_value, m)) w x k ->
  hp_header_state (prs k) = h_content_length -> 0 <= m <= q ->
  next_bytes data q (ds ++ [13; 10]) -> digits ds -> 0 <= m_length x ->
  dec_value_from (m_length x) ds < length_limit ->
  reaches k (at_state (q + zlen ds + 2) s_header_value_lws None
    (w ++ [Data header_value (slice data m (q + zlen ds - m))])
    (with_length (dec_value_from (m_length x) ds) x)).
Proof.
  intros Hat Hh Hm Hnb Hd Hl Hv.
  destruct (loop_fuel_split _ _ _ Hnb ltac:(discriminate)) as [fuel Hfuel].
  destruct (next_bytes_app _ _ _ _ Hnb) as [Hds Hend].
  apply next_bytes_cons in Hend as (Hcr & Hr & Hlf).
  apply next_bytes_cons in Hlf as (Hlf & Hr' & _). pose proof (zlen_nonneg ds).
  destruct (proj1 (byte_at_Some data q)) as [b Hb]; [destruct Hnb; lia|].
  open_at k. cbn [m_length] in *. red_ctx. subst. eapply reaches_byte; [exact Hb|].
  rec_run. rewrite Hfuel. apply wp_value_digits; red_ctx; try assumption.
  intros c. cbn [header_value_loop]. red_ctx. rec_run.
  split; [lia|]. eapply reaches_byte; [exact Hlf|]. rec_run.
  split; [lia|]. apply reaches_refl. solve_at.
Qed.

(** The digit with which the number gets too large. *)
Lemma length_overflow ds b l q w x k m :
  at_state q s_header_value (Some (header_value, m)) w x k ->
  hp_header_state (prs k) = h_content_length -> 0 <= m <= q ->
  next_bytes data q (ds ++ b :: l) -> digits ds -> IS_NUM b = true -> 0 <= m_length x ->
  dec_value_from (m_length x) ds < length_limit <= dec_value_from (m_length x) (ds ++ [b]) ->
  exists b0, byte_at data (p k) = Some b0 /\
    wp (byte_step recorder data lenient) (fun _ _ => False)
      (fun k' => hp_http_errno (prs k') = HPE_INVALID_CONTENT_LENGTH) (fun _ _ => False)
      (with_ch b0 k).
Proof.
  intros Hat Hh Hm Hnb Hd Hn Hl [Hv Hv'].
  destruct (loop_fuel_split _ _ _ Hnb ltac:(discriminate)) as [fuel Hfuel].
  destruct (next_bytes_app _ _ _ _ Hnb) as [Hds Hend].
  apply next_bytes_cons in Hend as (Hbb & Hr & _). pose proof (zlen_nonneg ds).
  destruct (proj1 (byte_at_Some data q)) as [b0 Hb]; [destruct Hnb; lia|].
  exists b0. split; [rewrite (at_p _ _ _ _ _ _ Hat); exact Hb|].
  rewrite dec_value_from_app in Hv'. pose proof (IS_NUM_range _ Hn).
  set (v := dec_value_from (m_length x) ds) in *.
  unfold dec_value_from in Hv'. cbn [fold_left] in Hv'.
  assert ((ULLONG_MAX - 10) / 10 < v) as Hbig.
  { change ((ULLONG_MAX - 10) / 10) with 1844674407370955160. unfold length_limit in *. lia. }
  open_at k. cbn [m_length] in *. red_ctx. subst. rec_run. rewrite Hfuel.
  apply wp_value_digits; red_ctx; try assumption. intros c. fold v.
  cbn [header_value_loop]. red_ctx. rec_run; try reflexivity.
  rewrite (IS_NUM_header _ Hn), andb_false_r in *. discriminate.
Qed.

(** The digit at which a number leaves the range. *)
Lemma first_overflow ds v :
  v < length_limit <= dec_value_from v ds -> digits ds ->
  exists l1 b l2, ds = l1 ++ b :: l2 /\ digits l1 /\ IS_NUM b = true /\
    dec_value_from v l1 < length_limit <= dec_value_from v (l1 ++ [b]).
Proof.
  intros Hv Hd. revert v Hv. induction Hd as [|b ds Hb Hd IH]; intros v Hv; [cbn in Hv; lia|].
  destruct (Z.lt_ge_cases (dec_value_from v [b]) length_limit) as [Hlt|Hge].
  - destruct (IH (dec_value_from v [b])) as (l1 & b1 & l2 & -> & Hd1 & Hb1 & Hr).
    { rewrite <- dec_value_from_app. split; [exact Hlt | exact (proj2 Hv)]. }
    exists (b :: l1), b1, l2. rewrite <- !dec_value_from_app in Hr.
    split; [reflexivity|]. split; [constructor; assumption|]. auto.
  - exists [], b, ds. cbn [app]. split; [reflexivity|]. split; [constructor|].
    split; [exact Hb|]. split; [exact (proj1 Hv) | exact Hge].
Qed.

(** From the beginning of the header line to the first digit. *)
Lemma length_header_reaches q w x k d :
  at_state q s_header_field_start None w x k -> Z.land (m_flags x) F_CONTENTLENGTH = 0 ->
  next_bytes data q (bytes "Content-Length: " ++ [d]) -> IS_NUM d = true ->
  reaches k (fun k' => exists w' y,
    at_state (q + 17) s_header_value (Some (header_value, q + 16)) w' y k' /\
    m_length y = d - 48 /\ hp_header_state (prs k') = h_content_length).
Proof.
  intros Hat Hf Hnb Hd. destruct content_length_name as (Hn1 & Hn2 & Hn3).
  destruct (recognise_literals (m_flags x) (bytes "Content-Length") Hn2 ltac:(discriminate))
    as (_ & _ & _ & Hrec). destruct (Hrec Hn3 Hf) as [i Hr].
  change (bytes "Content-Length") with (67 :: bytes "ontent-Length") in *.
  apply Forall_cons_iff in Hn1 as [H67 Hn1]. cbn [recognise] in Hr.
  change (bytes "Content-Length: " ++ [d])
    with ([67] ++ (bytes "ontent-Length" ++ [58]) ++ [32; d]) in Hnb.
  apply next_bytes_app in Hnb as [Hc Hnb]. apply next_bytes_app in Hnb as [Hname Hval].
  apply next_bytes_cons in Hc as (Hc & Hq & _).
  change (zlen (bytes "ontent-Length" ++ [58])) with 14 in Hval. change (zlen [67]) with 1 in *.
  eapply reaches_trans;
    [eapply (header_first_reaches data lenient header_limit); eauto; discriminate|].
  intros k1 (Hat1 & Hh1 & Hi1).
  eapply reaches_trans;
    [eapply (header_name_reaches _ _ header_limit); eauto; [lia | rewrite Hh1, Hi1; exact Hr]|].
  cbn [fst snd]. intros k2 [Hat2 Hh2]. change (zlen (bytes "ontent-Length")) with 13 in Hat2.
  replace (q + 1 + 13 + 1) with (q + 1 + 14) in Hat2 by lia.
  eapply reaches_mono; [eapply length_first_reaches; eassumption|].
  intros k3 [Hat3 Hh3]. replace (q + 17) with (q + 1 + 14 + 2) by lia.
  replace (q + 16) with (q + 1 + 14 + 1) by lia. eauto 10.
Qed.

End Length.

(** ** The theorem *)

Definition length_message (ds : list Z) : list Z :=
  request_line HTTP_POST (bytes "/") ++ bytes "Content-Length: " ++ ds ++ crlf.

Section Message.
Context `{BuildConfig}.
Variables (d : Z) (ds : list Z).
Abbreviation data := (length_message (d :: ds)).
Hypothesis header_limit : zlen data <= HTTP_MAX_HEADER_SIZE < 2 ^ 32.
Hypothesis d_digit : IS_NUM d = true.
Hypothesis ds_digits : digits ds.

(** The offset behind the request line. *)
Definition line_end : Z := zlen (request_line HTTP_POST (bytes "/")).

Lemma message_bytes :
  next_bytes data 0 (request_line HTTP_POST (bytes "/")) /\
  next_bytes data line_end (bytes "Content-Length: " ++ [d]) /\
  next_bytes data (line_end + 17) (ds ++ [13; 10]).
Proof.
  assert (next_bytes data 0 (request_line HTTP_POST (bytes "/") ++
            (bytes "Content-Length: " ++ [d]) ++ ds ++ [13; 10])) as Hnb
    by (rewrite <- (app_assoc _ [d]); apply next_bytes_all).
  apply next_bytes_app in Hnb as [Hline Hnb]. apply next_bytes_app in Hnb as [Hhead Hrest]. auto.
Qed.

Lemma line_end_nonneg : 0 <= line_end.
Proof. apply zlen_nonneg. Qed.

Lemma message_length : zlen data = line_end + 17 + zlen ds + 2.
Proof.
  unfold length_message, line_end. rewrite !zlen_app, zlen_cons.
  change (zlen (bytes "Content-Length: ")) with 16. change (zlen crlf) with 2. lia.
Qed.

Lemma message_nonempty : zlen data <> 0.
Proof. pose proof message_length. pose proof line_end_nonneg. pose proof (zlen_nonneg ds). lia. Qed.

(** Behind the first digit. *)
Definition first_digit_read (k : ctx (list event)) : Prop :=
  exists w y, at_state (line_end + 17) s_header_value (Some (header_value, line_end + 16)) w y k /\
    m_length y = d - 48 /\ hp_header_state (prs k) = h_content_length.

Lemma first_digit_reaches :
  reaches recorder data false (entry_ctx (fresh_parser HTTP_REQUEST) []) first_digit_read.
Proof.
  destruct message_bytes as (Hline & Hhead & _).
  eapply reaches_trans;
    [eapply (request_line_reaches data false header_limit);
     [exact (entry_at HTTP_REQUEST) | exact Hline | exact slash_valid]|].
  intros k Hat. eapply (length_header_reaches data false header_limit); eauto.
Qed.

Lemma length_accepted :
  dec_value (d :: ds) < length_limit ->
  exists P w n,
    http_parser_execute recorder (fresh_parser HTTP_REQUEST) [] data = Returned P w n /\
    hp_http_errno P = HPE_OK /\ hp_content_length P = dec_value (d :: ds).
Proof.
  intros Hlt. destruct message_bytes as (_ & _ & Hrest). pose proof (IS_NUM_range _ d_digit).
  pose proof line_end_nonneg. change (dec_value (d :: ds)) with (dec_value_from (d - 48) ds) in *.
  destruct (reaches_returns recorder data false (fresh_parser HTTP_REQUEST) []
    (fun k => exists w y, at_state (zlen data) s_header_value_lws None w y k /\
       m_length y = dec_value_from (d - 48) ds)
    (fun P' w' n => hp_http_errno P' = HPE_OK /\ hp_content_length P' = dec_value_from (d - 48) ds))
    as (P & w & n & Hx & He & Hl); [reflexivity | exact message_nonempty | reflexivity | | | eauto 10].
  - eapply reaches_trans; [exact first_digit_reaches|]. intros k (w & y & Hat & Hy & Hh).
    eapply reaches_mono;
      [eapply (length_rest_reaches data false header_limit ds); eauto; rewrite ?Hy; assumption || lia|].
    intros k' Hat'. do 2 eexists. rewrite message_length, <- Hy. split; [exact Hat' | reflexivity].
  - intros k (w & y & Hat & <-). split; [exact (at_p _ _ _ _ _ _ Hat)|].
    clear - Hat. open_at k. unfold execute_end. rec_run. red_ctx. auto.
Qed.

Lemma length_rejected :
  length_limit <= dec_value (d :: ds) ->
  exists P w n,
    http_parser_execute recorder (fresh_parser HTTP_REQUEST) [] data = Returned P w n /\
    hp_http_errno P = HPE_INVALID_CONTENT_LENGTH.
Proof.
  intros Hge. destruct message_bytes as (_ & _ & Hrest). pose proof (IS_NUM_range _ d_digit).
  pose proof line_end_nonneg. change (dec_value (d :: ds)) with (dec_value_from (d - 48) ds) in *.
  destruct (first_overflow ds (d - 48)) as (l1 & b & l2 & Hds & Hd1 & Hb & Hv);
    [unfold length_limit in *; lia | exact ds_digits|].
  eapply (reaches_fails recorder data false (fresh_parser HTTP_REQUEST) [] _
    HPE_INVALID_CONTENT_LENGTH eq_refl message_nonempty eq_refl ltac:(discriminate) first_digit_reaches).
  intros k (w & y & Hat & Hy & Hh).
  replace (ds ++ [13; 10]) with (l1 ++ b :: l2 ++ [13; 10]) in Hrest by (rewrite Hds, <- app_assoc; reflexivity).
  eapply (length_overflow data false header_limit l1 b (l2 ++ [13; 10])); eauto;
    rewrite ?Hy; assumption || lia.
Qed.

End Message.

(** C7: The value of a Content-Length header.  For every non-empty sequence of
    digits the parser either records its decimal value, below 18446744073709551610,
    or reports [HPE_INVALID_CONTENT_LENGTH]: the 64-bit accumulator never wraps
    around, and the value that stands for a missing header cannot be given. *)
Theorem content_length_value `{BuildConfig} d ds :
  zlen (length_message (d :: ds)) <= HTTP_MAX_HEADER_SIZE < 2 ^ 32 -> digits (d :: ds) ->
  exists P w n,
    http_parser_execute recorder (fresh_parser HTTP_REQUEST) [] (length_message (d :: ds)) =
      Returned P w n /\
    (hp_http_errno P = HPE_OK /\ hp_content_length P = dec_value (d :: ds) /\
       dec_value (d :: ds) < length_limit \/
     hp_http_errno P = HPE_INVALID_CONTENT_LENGTH /\ length_limit <= dec_value (d :: ds)).
Proof.
  intros Hlim Hd. apply Forall_cons_iff in Hd as [Hd0 Hd].
  destruct (Z.lt_ge_cases (dec_value (d :: ds)) length_limit) as [Hlt|Hge].
  - destruct (length_accepted d ds Hlim Hd0 Hd Hlt) as (P & w & n & Hx & He & Hl). eauto 10.
  - destruct (length_rejected d ds Hlim Hd0 Hd Hge) as (P & w & n & Hx & He). eauto 10.
Qed.

Lemma content_length_value_witness :
  exists P w n,
    http_parser_execute recorder (fresh_parser HTTP_REQUEST) []
      (length_message (bytes "18446744073709551609")) = Returned P w n /\
    (hp_http_errno P = HPE_OK /\ hp_content_length P = 18446744073709551609 /\
       18446744073709551609 < length_limit \/
     hp_http_errno P = HPE_INVALID_CONTENT_LENGTH /\ length_limit <= 18446744073709551609).
Proof.
  apply (content_length_value "1"%chr (bytes "8446744073709551609")).
  - vm_compute. split; [discriminate | reflexivity].
  - repeat constructor.
Defined.
