(* ===== verification/HttpResponse.v ===== *)
(** * Responses: printing and parsing

    A response with a status line and headers the parser attaches no meaning to,
    and its body up to the end of the connection. *)

From Stdlib Require Import String ZArith List Bool Lia.
From S2P Require Import Prelude HttpDefs Decimal HttpUrl HttpExec HttpLogic HttpRecord HttpCases HttpSafety HttpRun HttpRequest HttpHeader HttpNames HttpRoundtrip HttpBody.
Import ListNotations.
Local Open Scope Z_scope.

Definition status_line (code reason : list Z) : list Z :=
  bytes "HTTP/1.1 " ++ code ++ [32] ++ reason ++ crlf.

Definition print_response (code reason : list Z) (hs : list header) : list Z :=
  status_line code reason ++ concat (map print_header hs) ++ crlf.

(** A status that has no body. *)
Definition bodyless (code : Z) : bool := (code / 100 =? 1) || (code =? 204) || (code =? 304).

Definition line_text (l : list Z) : Prop := l <> [] /\ Forall (fun b => b <> CR /\ b <> LF) l.

Definition with_status (code : Z) (x : msg) : msg :=
  mk_msg (m_type x) (m_flags x) (m_length x) (m_major x) (m_minor x) code (m_method x) (m_upgrade x).

Definition new_response (x : msg) : msg :=
  mk_msg (m_type x) 0 ULLONG_MAX 1 1 (m_status x) (m_method x) (m_upgrade x).

Section Response.
Context `{BuildConfig}.
Variable data : list Z.
Variable lenient : bool.

Abbreviation dlen := (zlen data).
Abbreviation reaches := (reaches recorder data lenient).

Hypothesis header_limit : dlen <= HTTP_MAX_HEADER_SIZE < 2 ^ 32.

Lemma response_start_reaches q w x k :
  at_state q s_start_res None w x k -> next_bytes data q (bytes "HTTP/1.1 ") ->
  reaches k (at_state (q + 9) s_res_first_status_code None (w ++ [Notify message_begin])
    (new_response x)).
Proof.
  intros Hat Hnb. change (bytes "HTTP/1.1 ") with [72; 84; 84; 80; 47; 49; 46; 49; 32] in Hnb.
  open_at k. do 9 feed Hnb. apply reaches_refl. solve_at.
Qed.

Lemma status_first_reaches d q w x k :
  at_state q s_res_first_status_code None w x k -> next_bytes data q [d] -> IS_NUM d = true ->
  reaches k (at_state (q + 1) s_res_status_code None w (with_status (d - 48) x)).
Proof.
  intros Hat Hnb Hd. open_at k. feed Hnb. apply reaches_refl. solve_at.
Qed.

Lemma status_digit_reaches d q w x k :
  at_state q s_res_status_code None w x k -> next_bytes data q [d] -> IS_NUM d = true ->
  0 <= m_status x < 100 ->
  reaches k (at_state (q + 1) s_res_status_code None w (with_status (m_status x * 10 + (d - 48)) x)).
Proof.
  intros Hat Hnb Hd Hs. pose proof (IS_NUM_range _ Hd) as Hr. open_at k. red_ctx. cbn [m_status] in *.
  feed Hnb.
  - rewrite !wrap_small in * by (rewrite ?wrap_small by lia; lia). prune.
  - apply reaches_refl. rewrite !wrap_small in * by (rewrite ?wrap_small by lia; lia). solve_at.
Qed.

Lemma reason_reaches l m q w x k :
  at_state q s_res_status (Some (status, m)) w x k -> next_bytes data q (l ++ [13; 10]) ->
  Forall (fun b => b <> CR /\ b <> LF) l -> 0 <= m <= q ->
  reaches k (at_state (q + zlen l + 2) s_header_field_start None
    (w ++ [Data status (slice data m (q + zlen l - m))]) x).
Proof.
  revert q k. induction l as [|b l IH]; intros q k Hat Hnb Hl Hm.
  - change (zlen (@nil Z)) with 0. rewrite Z.add_0_r. open_at k. do 2 feed Hnb.
    apply reaches_refl. solve_at.
  - apply Forall_cons_iff in Hl as [[Hb1 Hb2] Hl].
    assert (reaches k (at_state (q + 1) s_res_status (Some (status, m)) w x)) as Hstep.
    { clear IH. cbn [app] in Hnb. open_at k. feed Hnb. apply reaches_refl. solve_at. }
    apply next_bytes_cons in Hnb as (_ & _ & Hnb).
    eapply reaches_trans; [exact Hstep|]. intros k' Hat'.
    rewrite zlen_cons. replace (q + (1 + zlen l)) with (q + 1 + zlen l) by lia.
    apply IH; assumption || lia.
Qed.

Lemma reason_first_reaches b q w x k :
  at_state q s_res_status_code None w x k -> next_bytes data q [32; b] -> b <> CR -> b <> LF ->
  reaches k (at_state (q + 2) s_res_status (Some (status, q + 1)) w x).
Proof.
  intros Hat Hnb H1 H2. open_at k. do 2 feed Hnb. apply reaches_refl. solve_at.
Qed.

Lemma status_line_reaches d1 d2 d3 reason q w x k :
  at_state q s_start_res None w x k -> next_bytes data q (status_line [d1; d2; d3] reason) ->
  digits [d1; d2; d3] -> line_text reason ->
  reaches k (at_state (q + zlen (status_line [d1; d2; d3] reason)) s_header_field_start None
    (w ++ [Notify message_begin; Data status reason])
    (with_status (dec_value [d1; d2; d3]) (new_response x))).
Proof.
  intros Hat Hnb Hd [Hne Hreason]. pose proof (proj1 Hnb) as Hq0. destruct reason as [|b l]; [contradiction|].
  apply Forall_cons_iff in Hreason as [[Hb1 Hb2] Hl].
  inversion Hd as [|? ? Hd1 Hd']; inversion Hd' as [|? ? Hd2 Hd'']; inversion Hd'' as [|? ? Hd3 _]; subst.
  pose proof (IS_NUM_range _ Hd1). pose proof (IS_NUM_range _ Hd2). pose proof (IS_NUM_range _ Hd3).
  unfold status_line in *.
  change ([d1; d2; d3] ++ [32] ++ (b :: l) ++ crlf)
    with ([d1] ++ [d2] ++ [d3] ++ [32; b] ++ l ++ [13; 10]) in *.
  rewrite !zlen_app. change (zlen (bytes "HTTP/1.1 ")) with 9. change (zlen [_]) with 1.
  change (zlen [_; _]) with 2.
  do 5 (apply next_bytes_app in Hnb as [? Hnb]).
  change (zlen (bytes "HTTP/1.1 ")) with 9 in *. change (zlen [_]) with 1 in *.
  change (zlen [_; _]) with 2 in *.
  eapply reaches_trans; [eapply response_start_reaches; eassumption|]. intros k1 Hat1.
  eapply reaches_trans; [eapply status_first_reaches; eassumption|]. intros k2 Hat2.
  eapply reaches_trans; [eapply status_digit_reaches; try eassumption; cbn [m_status with_status new_response]; lia|]. intros k3 Hat3.
  eapply reaches_trans; [eapply status_digit_reaches; try eassumption; cbn [m_status with_status new_response]; lia|]. intros k4 Hat4.
  eapply reaches_trans; [eapply reason_first_reaches; eassumption|]. intros k5 Hat5.
  eapply reaches_mono; [eapply reason_reaches; try eassumption; lia|]. intros k6 Hat6.
  assert (slice data (q + 9 + 1 + 1 + 1 + 1) (zlen (b :: l)) = b :: l) as Hsl.
  { apply next_bytes_slice. match goal with K : next_bytes data _ [32; b] |- _ =>
      apply next_bytes_cons in K as (_ & _ & K); apply next_bytes_cons in K as (K & _ & _) end.
    apply next_bytes_intro; [assumption|]. apply next_bytes_app in Hnb as [Hnb _].
    replace (q + 9 + 1 + 1 + 1 + 1 + 1) with (q + 9 + 1 + 1 + 1 + 2) by lia. exact Hnb. }
  replace (q + 9 + 1 + 1 + 1 + 2 + zlen l - (q + 9 + 1 + 1 + 1 + 1)) with (zlen (b :: l)) in Hat6
    by (rewrite zlen_cons; lia).
  rewrite Hsl, <- app_assoc in Hat6.
  replace (q + (9 + (1 + (1 + (1 + (2 + (zlen l + 2))))))) with (q + 9 + 1 + 1 + 1 + 2 + zlen l + 2) by lia.
  exact Hat6.
Qed.

(** A response without a body leaves the connection open. *)
Lemma NEW_MESSAGE_bodyless P :
  hp_type P = HTTP_RESPONSE -> hp_flags P = 0 -> hp_http_major P = 1 -> hp_http_minor P = 1 ->
  bodyless (hp_status_code P) = true -> NEW_MESSAGE P = s_start_res.
Proof.
  intros Ht Hf Hmaj Hmin Hb.
  unfold NEW_MESSAGE, http_should_keep_alive, http_message_needs_eof, start_state, has_flag.
  unfold bodyless in Hb. rewrite Ht, Hf, Hmaj, Hmin, Hb.
  destruct HTTP_PARSER_STRICT; reflexivity.
Qed.

(** The end of the headers. *)
Lemma response_end_reaches q w code m k :
  let x := mk_msg HTTP_RESPONSE 0 ULLONG_MAX 1 1 code m in
  at_line q w (x false) k -> m <> HTTP_CONNECT -> next_bytes data q [13; 10] ->
  reaches k (fun k' => hp_nread (prs k') = 0 /\
    at_state (q + 2) (if bodyless code then s_start_res else s_body_identity_eof) None
      (w ++ [Headers_complete] ++ if bodyless code then [Notify message_complete] else [])
      (x false) k').
Proof.
  intros x Hat Hm Hnb. subst x.
  assert (http_method_eqb m HTTP_CONNECT = false) as Hc
    by (destruct (http_method_eqb_spec m HTTP_CONNECT); congruence).
  destruct Hat as [Hat|[Hat Hh]]; open_at k; red_ctx; subst; do 2 feed Hnb.
  all: unfold upgrade_requested, has_flag, has_body, http_message_needs_eof in *; red_ctx; rewrite ?Hc in *; try discriminate.
  all: match goal with E : negb (if _ then _ else _) = _ |- _ =>
         rewrite orb_false_r in E; fold (bodyless code) in E; destruct (bodyless code) eqn:Hb;
         try discriminate E end.
  all: apply reaches_refl; split; [reflexivity|].
  all: rewrite ?NEW_MESSAGE_bodyless by (reflexivity || exact Hb); rewrite <- ?app_assoc; solve_at.
Qed.

End Response.

(** ** The theorems *)

(** The events of a response up to the end of its headers. *)
Definition response_events (reason : list Z) (hs : list header) : list event :=
  [Notify message_begin; Data status reason] ++ concat (map header_events hs) ++ [Headers_complete].

(** Reading a body up to the end of the connection. *)
Record until_eof (P : http_parser) : Prop := {
  eof_errno : hp_http_errno P = HPE_OK;
  eof_state : hp_state P = s_body_identity_eof;
  eof_nread : hp_nread P = 0
}.

(** C11: Printing a response and parsing it gives the response back.  For every
    three-digit status, every reason phrase and every list of headers the
    parser attaches no meaning to, one call on the printed head of the message
    consumes all of it without an error; the reason, the headers and the end of
    the headers are reported in order and the status code recorded is the
    number.  After a status of the 1xx class, 204 or 304 the message is complete
    and the parser waits for the next one; after any other the body goes on to
    the end of the connection. *)
Theorem response_roundtrip `{BuildConfig} d1 d2 d3 reason hs :
  let head := print_response [d1; d2; d3] reason hs in
  let code := dec_value [d1; d2; d3] in
  zlen head <= HTTP_MAX_HEADER_SIZE < 2 ^ 32 ->
  digits [d1; d2; d3] -> line_text reason -> forallb plain_header hs = true ->
  exists P,
    http_parser_execute recorder (fresh_parser HTTP_RESPONSE) [] head =
      Returned P
        (response_events reason hs ++ if bodyless code then [Notify message_complete] else [])
        (zlen head) /\
    hp_status_code P = code /\
    if bodyless code then hp_http_errno P = HPE_OK /\ hp_state P = s_start_res else until_eof P.
Proof.
  intros data code Hlim Hd Hr Hhs. set (s := if bodyless code then s_start_res else s_body_identity_eof).
  set (ev := response_events reason hs ++ if bodyless code then [Notify message_complete] else []).
  destruct (reaches_returns recorder data false (fresh_parser HTTP_RESPONSE) []
    (fun k => hp_nread (prs k) = 0 /\
       at_state (zlen data) s None ev (mk_msg HTTP_RESPONSE 0 ULLONG_MAX 1 1 code HTTP_DELETE false) k)
    (fun P' w' n => n = zlen data /\ w' = ev /\ hp_http_errno P' = HPE_OK /\ hp_state P' = s /\
       hp_status_code P' = code /\ hp_nread P' = 0))
    as (P & w & n & Hx & -> & -> & He & Hs & Hc & Hn); [reflexivity | | reflexivity | | |].
  - subst data. unfold print_response, status_line. rewrite !zlen_app. change (zlen crlf) with 2.
    pose proof (zlen_nonneg reason). pose proof (zlen_nonneg (concat (map print_header hs))).
    change (zlen (bytes "HTTP/1.1 ")) with 9. pose proof (zlen_nonneg [d1; d2; d3]).
    pose proof (zlen_nonneg [32]). lia.
  - pose proof (next_bytes_all data) as Hnb. unfold data in Hnb at 2. unfold print_response in Hnb.
    apply next_bytes_app in Hnb as [Hline Hnb]. apply next_bytes_app in Hnb as [Hheads Hend].
    eapply reaches_trans;
      [eapply (status_line_reaches data false Hlim); [exact (entry_at HTTP_RESPONSE) | eassumption..]|].
    intros k1 Hat1.
    eapply reaches_trans; [eapply (headers_reaches data false Hlim); [left; exact Hat1 | eassumption..]|].
    intros k2 Hat2.
    eapply reaches_mono;
      [eapply (response_end_reaches data false Hlim _ _ code HTTP_DELETE);
       [exact Hat2 | discriminate | exact Hend]|].
    intros k3 [Hn Hat3]. split; [exact Hn|].
    replace (zlen data) with (0 + zlen (status_line [d1; d2; d3] reason) + zlen (concat (map print_header hs)) + 2)
      by (unfold data, print_response; rewrite !zlen_app; change (zlen crlf) with 2; lia).
    unfold ev, response_events. rewrite <- !app_assoc in *. exact Hat3.
  - intros k [Hn Hat]. split; [exact (at_p _ _ _ _ _ _ Hat)|]. clear - Hat Hn.
    open_at k. unfold execute_end. rec_run. red_ctx. auto 10.
  - exists P. split; [exact Hx|]. split; [exact Hc|]. subst s. destruct (bodyless code); [auto|].
    constructor; assumption.
Qed.

Lemma response_roundtrip_witness :
  let head := print_response (bytes "404") (bytes "Not Found") [(bytes "Server", bytes "x")] in
  exists P,
    http_parser_execute recorder (fresh_parser HTTP_RESPONSE) [] head =
      Returned P (response_events (bytes "Not Found") [(bytes "Server", bytes "x")] ++ []) (zlen head) /\
    hp_status_code P = 404 /\ until_eof P.
Proof.
  apply (response_roundtrip "4"%chr "0"%chr "4"%chr (bytes "Not Found") [(bytes "Server", bytes "x")]).
  - vm_compute. split; [discriminate | reflexivity].
  - repeat constructor.
  - split; [discriminate | repeat constructor; discriminate].
  - vm_compute. reflexivity.
Defined.

Section Eof.
Context `{BuildConfig}.

Lemma until_eof_part P0 w b :
  until_eof P0 -> b <> [] ->
  exists P0', http_parser_execute recorder P0 w b = Returned P0' (w ++ [Data body b]) (zlen b) /\ until_eof P0'.
Proof.
  intros [He Hs Hn] Hb.
  assert (0 < zlen b) as Hz by (destruct b; [contradiction | rewrite zlen_cons; pose proof (zlen_nonneg b); lia]).
  assert (at_state 0 s_body_identity_eof None w (msg_of P0) (entry_ctx P0 w)) as Hat0.
  { rewrite <- Hs. apply entry_at_state; try assumption. rewrite Hs. intros []; reflexivity. }
  destruct (proj1 (byte_at_Some b 0)) as [c Hc]; [lia|].
  destruct (reaches_returns recorder b (hp_lenient_http_headers P0) P0 w
    (fun k => at_state (zlen b) s_body_identity_eof (Some (body, 0)) w (msg_of P0) k /\ hp_nread (prs k) = 0)
    (fun P0' w' n => n = zlen b /\ w' = w ++ [Data body b] /\ until_eof P0'))
    as (P0' & w' & n & Hx & -> & -> & Hu); [assumption | lia | reflexivity | | | eauto].
  - assert (next_bytes b 0 [c]) as Hnb by (apply next_bytes_intro; [exact Hc | split; [lia | intros []; discriminate]]).
    assert (hp_nread (prs (entry_ctx P0 w)) = 0) as Hn0 by exact Hn.
    clear - Hat0 Hnb Hz Hn0. revert Hat0. generalize (msg_of P0) as x. revert Hn0.
    generalize (entry_ctx P0 w) as k.
    intros k Hn0 x Hat0. open_at k.
    apply next_bytes_cons in Hnb as (Hb & Hq & _). eapply reaches_byte; [exact Hb|]. rec_run.
    unfold data_len. split; [red_ctx; lia | red_ctx]. apply reaches_refl. split; [|reflexivity].
    solve_at.
  - clear. intros k [Hat Hn]. split; [exact (at_p _ _ _ _ _ _ Hat)|]. revert Hat. generalize (msg_of P0) as x.
    intros x Hat. open_at k. pose proof (zlen_nonneg b). unfold execute_end. rec_run. red_ctx.
    rewrite Z.sub_0_r, slice_all. repeat split; auto.
Qed.

Lemma until_eof_end P w :
  until_eof P ->
  exists P', http_parser_execute recorder P w [] = Returned P' (w ++ [Notify message_complete]) 0 /\
    until_eof P'.
Proof.
  intros [He Hs Hn]. destruct P. cbn in He, Hs, Hn. subst. eexists. split; [reflexivity|].
  constructor; reflexivity.
Qed.

End Eof.

(** A body without a length ends with the connection.  A parser that reads
    such a body hands every non-empty buffer to [on_body] unchanged and in
    order, and reports the end of the message when it is told of the end of the
    input, by a call with no data, and not before. *)
Theorem body_until_eof `{BuildConfig} P w bufs :
  until_eof P -> Forall (fun b => b <> []) bufs ->
  exists P1, execute_all recorder P w bufs = Some (P1, w ++ map (Data body) bufs) /\
  exists P', execute_all recorder P w (bufs ++ [[]]) =
    Some (P', w ++ map (Data body) bufs ++ [Notify message_complete]).
Proof.
  intros Hu Hb. revert P w Hu. induction Hb as [|b bufs Hb _ IH]; intros P w Hu.
  - exists P. split; [cbn; rewrite app_nil_r; reflexivity|].
    destruct (until_eof_end P w Hu) as (P' & Hx & [He _ _]). exists P'.
    cbn [app execute_all]. rewrite Hx, He. reflexivity.
  - destruct (until_eof_part P w b Hu Hb) as (P2 & Hx & Hu2). destruct (IH P2 (w ++ [Data body b]) Hu2)
      as (P1 & H1 & P' & H2). rewrite <- app_assoc in H1, H2.
    exists P1. cbn [app execute_all map]. rewrite Hx, (eof_errno _ Hu2), Z.eqb_refl.
    split; [exact H1|]. exists P'. exact H2.
Qed.

Definition response_parser : http_parser :=
  parser_after (http_parser_execute recorder (fresh_parser HTTP_RESPONSE) []
    (print_response (bytes "200") (bytes "OK") [])).

Lemma body_until_eof_witness :
  exists P1, execute_all recorder response_parser [] [bytes "ab"; bytes "c"] =
    Some (P1, [Data body (bytes "ab"); Data body (bytes "c")]) /\
  exists P', execute_all recorder response_parser [] [bytes "ab"; bytes "c"; []] =
    Some (P', [Data body (bytes "ab"); Data body (bytes "c"); Notify message_complete]).
Proof.
  apply (body_until_eof response_parser [] [bytes "ab"; bytes "c"]).
  - constructor; vm_compute; reflexivity.
  - repeat constructor; discriminate.
Defined.
