(* ===== verification/HttpUpgrade.v ===== *)
(** * Messages that hand the connection over

    After a CONNECT request the bytes behind the headers belong to another
    protocol: the parser leaves them to the application. *)

From Stdlib Require Import String ZArith List Bool Lia.
From S2P Require Import Prelude HttpDefs HttpUrl HttpExec HttpLogic HttpRecord HttpCases HttpSafety HttpRun HttpRequest HttpHeader HttpNames HttpRoundtrip.
Import ListNotations.
Local Open Scope Z_scope.

(** The events of a request. *)
Definition request_events (u : list Z) (hs : list header) : list event :=
  [Notify message_begin; Data url u] ++ concat (map header_events hs) ++
  [Headers_complete; Notify message_complete].

Section Connect.
Context `{BuildConfig}.
Variable data : list Z.
Variable lenient : bool.
Abbreviation reaches := (reaches recorder data lenient).
Hypothesis header_limit : zlen data <= HTTP_MAX_HEADER_SIZE < 2 ^ 32.

(** The carriage return of the empty line. *)
Lemma empty_line_reaches q w x k :
  at_line q w x k -> next_bytes data q [13] -> reaches k (at_state (q + 1) s_headers_almost_done None w x).
Proof.
  intros Hat Hnb. destruct Hat as [Hat|[Hat Hh]]; open_at k; red_ctx; subst; feed Hnb;
    apply reaches_refl; solve_at.
Qed.

(** The line feed of the empty line: the call returns. *)
Lemma connect_returns q w x k :
  at_state q s_headers_almost_done None w (plain_request HTTP_CONNECT x) k -> byte_at data q = Some 10 ->
  q < zlen data ->
  exists b, byte_at data (p k) = Some b /\
    wp (byte_step recorder data lenient) (fun _ _ => False) (fun _ => False)
      (fun k' n => hp_http_errno (prs k') = HPE_OK /\ hp_upgrade (prs k') = true /\
         hp_method (prs k') = HTTP_CONNECT /\ hp_state (prs k') = s_start_req /\ n = q + 1 /\
         world k' = w ++ [Headers_complete; Notify message_complete]) (with_ch b k).
Proof.
  intros Hat Hb Hq. unfold plain_request in Hat. open_at k. red_ctx. subst. exists 10. split; [exact Hb|].
  rec_run. all: unfold upgrade_requested, has_flag in *; red_ctx; try discriminate.
  all: rewrite ?NEW_MESSAGE_plain by reflexivity; rewrite <- ?app_assoc; auto 10.
Qed.

End Connect.

(** After the headers of a CONNECT request [http_parser_execute] stops.  One
    call on the printed request followed by any bytes reports the request and
    its end, sets [upgrade], and returns the length of the request: the bytes
    behind it are neither consumed nor looked at. *)
Theorem connect_stops `{BuildConfig} u hs rest :
  let request := print_request HTTP_CONNECT u hs in
  zlen (request ++ rest) <= HTTP_MAX_HEADER_SIZE < 2 ^ 32 ->
  url_valid HTTP_CONNECT u = true -> forallb plain_header hs = true ->
  exists P,
    http_parser_execute recorder (fresh_parser HTTP_REQUEST) [] (request ++ rest) =
      Returned P (request_events u hs) (zlen request) /\
    hp_http_errno P = HPE_OK /\ hp_upgrade P = true /\ hp_method P = HTTP_CONNECT /\
    hp_state P = s_start_req.
Proof.
  intros request Hlim Hu Hhs. set (data := request ++ rest) in *.
  assert (next_bytes data 0 (request_line HTTP_CONNECT u ++ concat (map print_header hs) ++ [13] ++ [10])) as Hnb.
  { pose proof (next_bytes_all data) as Hd. unfold data in Hd at 2. apply next_bytes_app in Hd as [Hd _].
    exact Hd. }
  apply next_bytes_app in Hnb as [Hline Hnb]. apply next_bytes_app in Hnb as [Hheads Hnb].
  apply next_bytes_app in Hnb as [Hcr Hlf]. change (zlen [13]) with 1 in Hlf.
  apply next_bytes_cons in Hlf as (Hlf & Hq & _).
  set (q := 0 + zlen (request_line HTTP_CONNECT u) + zlen (concat (map print_header hs))) in *.
  assert (zlen request = q + 2) as Hz.
  { unfold request, q, print_request. rewrite !zlen_app. change (zlen crlf) with 2. lia. }
  destruct (reaches_exits recorder data false (fresh_parser HTTP_REQUEST) []
    (at_state (q + 1) s_headers_almost_done None
       ([Notify message_begin; Data url u] ++ concat (map header_events hs))
       (plain_request HTTP_CONNECT (msg_of (fresh_parser HTTP_REQUEST))))
    (fun P' w' n => hp_http_errno P' = HPE_OK /\ hp_upgrade P' = true /\
         hp_method P' = HTTP_CONNECT /\ hp_state P' = s_start_req /\ n = q + 1 + 1 /\
         w' = ([Notify message_begin; Data url u] ++ concat (map header_events hs)) ++
           [Headers_complete; Notify message_complete]))
    as (P & w & n & Hx & He & Hup & Hm & Hs & -> & ->); [reflexivity | lia | reflexivity | | |].
  - eapply reaches_trans; [eapply (request_line_reaches data false Hlim);
      [exact (entry_at HTTP_REQUEST) | exact Hline | exact Hu]|]. intros k1 Hat1.
    eapply reaches_trans; [eapply (headers_reaches data false Hlim); [left; exact Hat1 | eassumption..]|].
    intros k2 Hat2. eapply (empty_line_reaches data false Hlim); eassumption.
  - intros k Hat. eapply connect_returns; eassumption || lia.
  - exists P. rewrite Hx. replace (q + 1 + 1) with (zlen request) by lia.
    unfold request_events. rewrite <- app_assoc. auto.
Qed.

Lemma connect_stops_witness :
  let request := print_request HTTP_CONNECT (bytes "example.com:443") [(bytes "Host", bytes "example.com")] in
  exists P,
    http_parser_execute recorder (fresh_parser HTTP_REQUEST) [] (request ++ [22; 3; 1; 0; 255]) =
      Returned P (request_events (bytes "example.com:443") [(bytes "Host", bytes "example.com")])
        (zlen request) /\
    hp_http_errno P = HPE_OK /\ hp_upgrade P = true /\ hp_method P = HTTP_CONNECT /\
    hp_state P = s_start_req.
Proof.
  apply (connect_stops (bytes "example.com:443") [(bytes "Host", bytes "example.com")] [22; 3; 1; 0; 255]).
  - vm_compute. split; [discriminate | reflexivity].
  - vm_compute. reflexivity.
  - vm_compute. reflexivity.
Defined.
