(* ===== verification/HttpHeaderName.v ===== *)
(** * Header names

    Which headers the parser acts on: it compares the name, letter case aside,
    with the names it knows. *)

From Stdlib Require Import String ZArith List Bool Lia.
From S2P Require Import Prelude HttpDefs HttpUrl HttpExec HttpLogic HttpRecord HttpCases HttpSafety HttpRun HttpRequest HttpHeader HttpNames HttpRoundtrip HttpLength.
Import ListNotations.
Local Open Scope Z_scope.

Section Names.
Context `{BuildConfig}.

Lemma name_scan_app l1 l2 x :
  name_scan (l1 ++ l2) x = match name_scan l1 x with Some x' => name_scan l2 x' | None => None end.
Proof.
  revert x. induction l1 as [|c l1 IH]; intros x; [reflexivity|]. cbn [app name_scan].
  destruct (name_next x c (TOKEN c)); [apply IH | reflexivity].
Qed.

Lemma recognise_app f l1 l2 :
  l1 <> [] ->
  recognise f (l1 ++ l2) = match recognise f l1 with Some x' => name_scan l2 x' | None => None end.
Proof. destruct l1; [contradiction|]. intros _. cbn [app recognise]. apply name_scan_app. Qed.

(** Behind a complete name. *)
Lemma name_scan_general l i f : name_scan l (h_general, i, f) = Some (h_general, i, f).
Proof. induction l; auto. Qed.

Lemma name_scan_content_length l i f :
  Forall (fun b => b <> 32) l ->
  exists h, name_scan l (h_content_length, i, f) = Some (h, i, f).
Proof.
  intros Hl. destruct Hl as [|c l Hc _]; [eexists; reflexivity|]. cbn [name_scan name_next].
  apply Z.eqb_neq in Hc. change (" "%chr) with 32. rewrite Hc. exists h_general. apply name_scan_general.
Qed.

Lemma is_prefix_app l l' : is_prefix l l' = true -> exists r, l' = l ++ r.
Proof.
  revert l'. induction l as [|a l IH]; intros l' Hp; [exists l'; reflexivity|].
  destruct l' as [|b l']; [discriminate|]. cbn in Hp. apply andb_prop in Hp as [Ha Hp].
  apply Z.eqb_eq in Ha as ->. destruct (IH _ Hp) as [r ->]. exists r. reflexivity.
Qed.

(** Reading a name with no Content-Length seen before. *)
Lemma recognise_first name :
  Forall (fun b => b <> 32) name -> name <> [] ->
  exists h i f, recognise 0 name = Some (h, i, f) /\
    truthy (Z.land f F_CONTENTLENGTH) = is_prefix CONTENT_LENGTH (tokens_of name).
Proof.
  intros Hb Hne. destruct (is_prefix CONTENT_LENGTH (tokens_of name)) eqn:Hp.
  - apply is_prefix_app in Hp as [r Hr]. set (n := length CONTENT_LENGTH).
    assert (tokens_of (firstn n name) = CONTENT_LENGTH) as Hn.
    { unfold tokens_of in *. rewrite <- firstn_map, Hr. unfold n. rewrite firstn_app, firstn_all, Nat.sub_diag.
      apply app_nil_r. }
    assert (firstn n name <> []) as Hne' by (intros E; rewrite E in Hn; discriminate).
    rewrite <- (firstn_skipn n name) in Hb. apply Forall_app in Hb as [Hb1 Hb2].
    destruct (recognise_literals 0 (firstn n name) Hb1 Hne') as (_ & _ & _ & Hcl).
    destruct (Hcl Hn eq_refl) as [i Hi]. change (Z.lor 0 F_CONTENTLENGTH) with 128 in Hi.
    destruct (name_scan_content_length (skipn n name) i 128 Hb2) as [h Hh].
    exists h, i, 128. split; [|reflexivity].
    rewrite <- (firstn_skipn n name), recognise_app, Hi by assumption. exact Hh.
  - destruct (recognise_total 0 name Hb Hne) as (h & i & Hr); [|exists h, i, 0; auto].
    intros k Hk. rewrite <- Hk, is_prefix_firstn in Hp. discriminate.
Qed.

(** The result by the name. *)
Lemma recognise_iff name h i f :
  Forall (fun b => b <> 32) name -> name <> [] -> recognise 0 name = Some (h, i, f) ->
  let t := tokens_of name in
  (h = h_connection <-> t = CONNECTION \/ t = PROXY_CONNECTION) /\
  (h = h_content_length <-> t = CONTENT_LENGTH) /\
  (h = h_transfer_encoding <-> t = TRANSFER_ENCODING) /\
  (h = h_upgrade <-> t = UPGRADE).
Proof.
  intros Hb Hne Hr t. pose proof (recognise_read _ _ _ _ _ Hb Hr) as Hread. fold t in Hread.
  destruct (recognise_literals 0 name Hb Hne) as (H1 & H2 & H3 & H4). fold t in H1, H2, H3, H4.
  repeat split; intros E; try (subst h; exact Hread).
  - destruct (H1 E) as [j Hj]. congruence.
  - destruct (H4 E eq_refl) as [j Hj]. congruence.
  - destruct (H2 E) as [j Hj]. congruence.
  - destruct (H3 E) as [j Hj]. congruence.
Qed.

End Names.

(** A header name: tokens without a blank. *)
Definition header_name `{BuildConfig} (name : list Z) : Prop :=
  name <> [] /\ Forall (fun b => TOKEN b <> 0) name /\ Forall (fun b => b <> 32) name.

Definition name_message (name : list Z) : list Z :=
  request_line HTTP_GET (bytes "/") ++ name ++ [58].

Lemma get_slash_valid `{BuildConfig} : url_valid HTTP_GET (bytes "/") = true.
Proof. exact slash_valid. Qed.

(** C15: The headers the parser acts on are recognised by their whole name,
    letter case aside.  After a request line, a header name and the colon, the
    parser is in the state for Connection values exactly when the name is
    Connection or Proxy-Connection, and likewise for Content-Length,
    Transfer-Encoding and Upgrade.  The mark that a Content-Length was given is
    set exactly when the name begins with Content-Length, so a longer name that
    begins with it counts as one. *)
Theorem header_name_recognised `{BuildConfig} name :
  zlen (name_message name) <= HTTP_MAX_HEADER_SIZE < 2 ^ 32 -> header_name name ->
  exists P w,
    http_parser_execute recorder (fresh_parser HTTP_REQUEST) [] (name_message name) =
      Returned P w (zlen (name_message name)) /\
    hp_http_errno P = HPE_OK /\
    let h := hp_header_state P in
    let t := tokens_of name in
    (h = h_connection <-> t = CONNECTION \/ t = PROXY_CONNECTION) /\
    (h = h_content_length <-> t = CONTENT_LENGTH) /\
    (h = h_transfer_encoding <-> t = TRANSFER_ENCODING) /\
    (h = h_upgrade <-> t = UPGRADE) /\
    has_flag P F_CONTENTLENGTH = is_prefix CONTENT_LENGTH t.
Proof.
  intros Hlim (Hne & Ht & Hb). set (data := name_message name) in *.
  destruct (recognise_first name Hb Hne) as (h & i & f & Hr & Hf).
  pose proof (recognise_iff name h i f Hb Hne Hr) as Hiff.
  destruct name as [|c l]; [contradiction|]. apply Forall_cons_iff in Ht as [Hc Ht].
  apply Forall_cons_iff in Hb as [Hcb Hb]. cbn [recognise] in Hr.
  assert (next_bytes data 0 (request_line HTTP_GET (bytes "/") ++ [c] ++ l ++ [58])) as Hnb
    by apply next_bytes_all.
  apply next_bytes_app in Hnb as [Hline Hnb]. apply next_bytes_app in Hnb as [Hfirst Hrest].
  apply next_bytes_cons in Hfirst as (Hfirst & Hq & _). change (zlen [c]) with 1 in Hrest.
  set (q := 0 + zlen (request_line HTTP_GET (bytes "/"))) in *.
  destruct (reaches_end data false (fresh_parser HTTP_REQUEST) [] s_header_value_discard_ws
    ([Notify message_begin; Data url (bytes "/")] ++ [Data header_field (slice data q (q + 1 + zlen l - q))])
    (with_flags f (with_version 1 1 (new_request HTTP_GET (msg_of (fresh_parser HTTP_REQUEST)))))
    (fun h' => h' = h)) as (P & Hx & He & Hs & Hm & Hh); [reflexivity | lia | reflexivity | |].
  - eapply reaches_trans; [eapply (request_line_reaches data false Hlim);
      [exact (entry_at HTTP_REQUEST) | exact Hline | exact get_slash_valid]|]. intros k1 Hat1.
    eapply reaches_trans; [eapply (header_first_reaches data false Hlim); eauto|].
    intros k2 (Hat2 & Hh2 & Hi2).
    eapply reaches_mono; [eapply (header_name_reaches data false Hlim l _ _ _ _ _ (h, i, f)); eauto;
      [lia | rewrite Hh2, Hi2; exact Hr]|].
    cbn [fst snd]. intros k3 [Hat3 Hh3]. split; [|exact Hh3].
    replace (zlen data) with (q + 1 + zlen l + 1); [exact Hat3|].
    unfold data, name_message, q. rewrite !zlen_app, zlen_cons. change (zlen [58]) with 1. lia.
  - do 2 eexists. split; [exact Hx|]. split; [exact He|]. cbv zeta. rewrite Hh.
    destruct Hiff as (I1 & I2 & I3 & I4). repeat (split; [assumption|]).
    unfold has_flag. injection Hm as _ -> _ _ _ _ _ _. exact Hf.
Qed.

Lemma header_name_recognised_witness :
  let name := bytes "cOnTent-LENGTH" in
  exists P w,
    http_parser_execute recorder (fresh_parser HTTP_REQUEST) [] (name_message name) =
      Returned P w (zlen (name_message name)) /\
    hp_http_errno P = HPE_OK /\ hp_header_state P = h_content_length.
Proof.
  destruct (header_name_recognised (bytes "cOnTent-LENGTH")) as (P & w & Hx & He & _ & Hcl & _).
  - vm_compute. split; [discriminate | reflexivity].
  - split; [discriminate|]. split; repeat constructor; discriminate.
  - exists P, w. split; [exact Hx|]. split; [exact He|]. apply Hcl. vm_compute. reflexivity.
Defined.
