(* ===== verification/HttpControl.v ===== *)
(** * Pausing, closed connections and the tables

    The parts of the interface around the main loop, and the routines the loop
    relies on, against plain reference definitions. *)

From Stdlib Require Import String ZArith List Bool Lia.
From S2P Require Import Prelude Cpp HttpDefs HttpUrl HttpExec HttpLogic HttpRecord HttpCases HttpSafety HttpRun.
Import ListNotations.
Local Open Scope Z_scope.

(** ** Pausing *)

Lemma execute_stopped {W} `{BuildConfig} (settings : http_parser_settings W) P w data :
  hp_http_errno P <> HPE_OK -> http_parser_execute settings P w data = Returned P w 0.
Proof.
  intros He. unfold http_parser_execute. destruct (http_errno_eqb_spec (hp_http_errno P) HPE_OK);
    [contradiction | reflexivity].
Qed.

(** [paused P P1]: [http_parser_pause(parser, 1)] takes [P] to [P1]. *)
Definition paused (P P1 : http_parser) : Prop := http_parser_pause P true = Some P1.

(** Pausing and resuming.  A parser without an error can be paused; the
    paused parser consumes nothing and calls nothing however often it is
    executed or paused again, and resuming it gives back exactly the object
    that was paused. *)
Theorem pause_resume {W} `{BuildConfig} (settings : http_parser_settings W) P w data :
  hp_http_errno P = HPE_OK ->
  exists P1, paused P P1 /\ paused P1 P1 /\
    http_parser_execute settings P1 w data = Returned P1 w 0 /\
    http_parser_pause P1 false = Some P.
Proof.
  intros He. unfold paused, http_parser_pause at 1. rewrite He. cbn [http_errno_eqb http_errno_num Z.eqb orb].
  eexists. split; [reflexivity|]. destruct P. cbn in He. subst.
  split; [reflexivity|]. split; [apply execute_stopped; discriminate | reflexivity].
Qed.

Lemma pause_resume_witness :
  exists P1, paused (fresh_parser HTTP_BOTH) P1 /\ paused P1 P1 /\
    http_parser_execute recorder P1 [] (bytes "GET ") = Returned P1 [] 0 /\
    http_parser_pause P1 false = Some (fresh_parser HTTP_BOTH).
Proof. apply (pause_resume recorder (fresh_parser HTTP_BOTH)). reflexivity. Defined.

(** ** A closed connection *)

Section Dead.
Context {W : Type} `{BuildConfig}.
Variable settings : http_parser_settings W.
Variable data : list Z.
Variable lenient : bool.

Record at_dead (q nr : Z) (w : W) (k : ctx W) : Prop := {
  dead_p : p k = q;
  dead_s : p_state k = s_dead;
  dead_marks : forall d, get_mark d k = None;
  dead_w : world k = w;
  dead_errno : hp_http_errno (prs k) = HPE_OK;
  dead_nread : hp_nread (prs k) = nr
}.

Definition line_break (b : Z) : bool := (b =? CR) || (b =? LF).

Lemma dead_breaks l q nr w k :
  at_dead q nr w k -> next_bytes data q l -> Forall (fun b => line_break b = true) l ->
  0 <= nr -> nr + zlen l <= HTTP_MAX_HEADER_SIZE < 2 ^ 32 ->
  reaches settings data lenient k (at_dead (q + zlen l) (nr + zlen l) w).
Proof.
  intros Hat Hnb Hl. revert q nr k Hat Hnb. induction Hl as [|b l Hb _ IH]; intros q nr k Hat Hnb Hnr Hmax.
  - apply reaches_refl. change (zlen (@nil Z)) with 0. rewrite !Z.add_0_r. exact Hat.
  - rewrite zlen_cons in *. pose proof (zlen_nonneg l). apply next_bytes_cons in Hnb as (Hb0 & Hq & Hnb).
    replace (q + (1 + zlen l)) with (q + 1 + zlen l) by lia.
    replace (nr + (1 + zlen l)) with (nr + 1 + zlen l) by lia.
    destruct Hat as [Hp Hs Hm Hw He Hn].
    eapply reaches_byte; [rewrite Hp; exact Hb0|]. unfold falls_through, byte_step.
    destruct k as [P p0 c0 s0 m1 m2 m3 m4 m5 w0]. destruct P. cbn in Hp, Hs, Hw, He, Hn. subst.
    apply wp_bind, wp_get, wp_bind. change (PARSING_HEADER _) with true.
    apply wp_count; [cbn; lia | lia |]. unfold reexecute_fuel. cbn [reexecute].
    apply wp_bind, wp_switch. cbn [switch_case p_state with_prs with_ch]. unfold case_s_dead.
    apply wp_bind, wp_get. cbn [ch with_prs with_ch]. fold (line_break b). rewrite Hb.
    apply wp_ret, wp_ret. cbn. split; [lia|]. apply IH; [|assumption|lia|lia].
    constructor; cbn; auto.
Qed.

Lemma dead_other b q nr w k :
  at_dead q nr w k -> byte_at data q = Some b -> line_break b = false ->
  0 <= nr < HTTP_MAX_HEADER_SIZE -> HTTP_MAX_HEADER_SIZE < 2 ^ 32 ->
  wp (byte_step settings data lenient) (fun _ _ => False)
    (fun k' => p k' = q /\ world k' = w /\ p_state k' = s_dead /\
       hp_http_errno (prs k') = HPE_CLOSED_CONNECTION) (fun _ _ => False) (with_ch b k).
Proof.
  intros [Hp Hs Hm Hw He Hn] Hb0 Hb Hnr Hmax. unfold byte_step.
  destruct k as [P p0 c0 s0 m1 m2 m3 m4 m5 w0]. destruct P. cbn in Hp, Hs, Hw, He, Hn. subst.
  apply wp_bind, wp_get, wp_bind. change (PARSING_HEADER _) with true.
  apply wp_count; [cbn; lia | lia |]. unfold reexecute_fuel. cbn [reexecute].
  apply wp_bind, wp_switch. cbn [switch_case p_state with_prs with_ch]. unfold case_s_dead.
  apply wp_bind, wp_get. cbn [ch with_prs with_ch]. fold (line_break b). rewrite Hb.
  apply wp_fail. cbn. auto.
Qed.

Lemma dead_end q nr w k :
  at_dead q nr w k ->
  wp (execute_end settings data) (fun _ _ => False) (fun _ => False)
    (fun k' n => n = zlen data /\ world k' = w /\ hp_state (prs k') = s_dead /\
       hp_http_errno (prs k') = HPE_OK /\ hp_nread (prs k') = nr) k.
Proof.
  intros [Hp Hs Hm Hw He Hn]. destruct k as [P p0 c0 s0 m1 m2 m3 m4 m5 w0].
  pose proof (Hm header_field) as M1. pose proof (Hm header_value) as M2. pose proof (Hm url) as M3.
  pose proof (Hm body) as M4. pose proof (Hm status) as M5. destruct P.
  cbn in Hp, Hs, Hw, He, Hn, M1, M2, M3, M4, M5. subst. cbn. auto.
Qed.

End Dead.

(** The end of the connection. *)
Lemma closed_empty {W} `{BuildConfig} (settings : http_parser_settings W) P w :
  hp_http_errno P = HPE_OK -> hp_state P = s_dead -> http_parser_execute settings P w [] = Returned P w 0.
Proof. destruct P. cbn. intros -> ->. reflexivity. Qed.

(** One call: line breaks are skipped, the first other byte is the error. *)
Lemma closed_step {W} `{BuildConfig} (settings : http_parser_settings W) P w l rest :
  hp_http_errno P = HPE_OK -> hp_state P = s_dead -> 0 <= hp_nread P ->
  hp_nread P + zlen (l ++ rest) <= HTTP_MAX_HEADER_SIZE < 2 ^ 32 -> l ++ rest <> [] ->
  Forall (fun b => line_break b = true) l ->
  match rest with b :: _ => line_break b = false | [] => True end ->
  exists P', http_parser_execute settings P w (l ++ rest) = Returned P' w (zlen l) /\
    hp_state P' = s_dead /\
    match rest with
    | [] => hp_http_errno P' = HPE_OK /\ hp_nread P' = hp_nread P + zlen l
    | _ => hp_http_errno P' = HPE_CLOSED_CONNECTION
    end.
Proof.
  intros He Hs Hn Hlim Hne Hl Hrest. set (data := l ++ rest) in *.
  assert (zlen data <> 0) as Hz
    by (destruct data as [|b d]; [contradiction | rewrite zlen_cons; pose proof (zlen_nonneg d); lia]).
  assert (zlen data = zlen l + zlen rest) as Hd by apply zlen_app.
  pose proof (zlen_nonneg l). pose proof (zlen_nonneg rest).
  assert (next_bytes data 0 (l ++ rest)) as Hnb by apply next_bytes_all.
  apply next_bytes_app in Hnb as [Hnb Hnr]. rewrite Z.add_0_l in Hnr.
  assert (at_dead 0 (hp_nread P) w (entry_ctx P w)) as Hat.
  { constructor; try reflexivity; try assumption. unfold entry_ctx. rewrite Hs. intros []; reflexivity. }
  assert (hp_nread P + zlen l <= HTTP_MAX_HEADER_SIZE < 2 ^ 32) as Hlim'. { lia. }
  pose proof (dead_breaks settings data (hp_lenient_http_headers P) l 0 (hp_nread P) w _ Hat Hnb Hl Hn
    Hlim') as Hr. rewrite Z.add_0_l in Hr.
  destruct rest as [|b rest].
  - destruct (reaches_returns settings data _ P w _
      (fun P' w' n => n = zlen data /\ w' = w /\ hp_state P' = s_dead /\ hp_http_errno P' = HPE_OK /\ hp_nread P' = hp_nread P + zlen l)
      He Hz eq_refl Hr) as (P' & w' & n & Hx & -> & -> & K1 & K2 & K3).
    + intros k Hk. split; [|eapply dead_end; exact Hk]. destruct Hk as [Hk _ _ _ _ _].
      change (zlen (@nil Z)) with 0 in Hd. lia.
    + exists P'. change (zlen (@nil Z)) with 0 in Hd. rewrite Hx. replace (zlen data) with (zlen l) by lia.
      auto.
  - rewrite zlen_cons in Hd. pose proof (zlen_nonneg rest).
    destruct (reaches_leaves settings data _ P w _
      (fun k' => p k' = zlen l /\ world k' = w /\ p_state k' = s_dead /\
         hp_http_errno (prs k') = HPE_CLOSED_CONNECTION) (fun _ _ => False)
      He Hz eq_refl Hr) as [(k' & (K1 & K2 & K3 & K4) & Hx)|(? & ? & [] & _)].
    + intros k Hk. apply next_bytes_cons in Hnr as (Hb & _). exists b. pose proof Hk as [Hp _ _ _ _ _].
      rewrite Hp. split; [exact Hb|]. eapply dead_other; eauto; lia.
    + destruct k' as [P' q' c' s' n1 n2 n3 n4 n5 w'], P'. cbn in K1, K2, K3, K4. subst.
      rewrite Hx. eexists. split; reflexivity || (split; reflexivity).
Qed.

(** The line breaks at the beginning. *)
Fixpoint breaks (l : list Z) : list Z :=
  match l with
  | [] => []
  | b :: l' => if line_break b then b :: breaks l' else []
  end.

Lemma breaks_split l : exists rest, l = breaks l ++ rest /\ Forall (fun b => line_break b = true) (breaks l) /\
  match rest with [] => forallb line_break l = true | b :: _ => line_break b = false /\ forallb line_break l = false end.
Proof.
  induction l as [|b l (rest & E & Hf & Hr)]; [exists []; auto|]. cbn [breaks forallb]. destruct (line_break b) eqn:Hb.
  - exists rest. cbn. rewrite <- E. auto.
  - exists (b :: l). auto.
Qed.

Lemma breaks_app l m : breaks (l ++ m) = if forallb line_break l then l ++ breaks m else breaks l.
Proof.
  induction l as [|b l IH]; [reflexivity|]. cbn. destruct (line_break b); [|reflexivity]. rewrite IH. now destruct (forallb _ _).
Qed.

Definition zsum (l : list Z) : Z := fold_right Z.add 0 l.

(** The buffers are fed in turn, whatever the calls return: the counts. *)
Fixpoint feed {W} `{BuildConfig} (settings : http_parser_settings W) (P : http_parser) (w : W) (bufs : list (list Z))
  : option (http_parser * W * list Z) :=
  match bufs with
  | [] => Some (P, w, [])
  | b :: bufs' =>
      match http_parser_execute settings P w b with
      | Returned P1 w1 n =>
          match feed settings P1 w1 bufs' with Some (P2, w2, ns) => Some (P2, w2, n :: ns) | None => None end
      | Aborted _ => None
      end
  end.

Lemma feed_stopped {W} `{BuildConfig} (settings : http_parser_settings W) P w bufs :
  hp_http_errno P <> HPE_OK -> exists ns, feed settings P w bufs = Some (P, w, ns) /\ zsum ns = 0.
Proof.
  intros He. induction bufs as [|b bufs (ns & IH & Hs)]; [exists []; auto|]. cbn [feed].
  rewrite execute_stopped, IH by exact He. exists (0 :: ns). auto.
Qed.

(** C16: A closed connection stays closed.  In the state after a message that
    closes the connection, whatever buffers are fed, empty ones too, and in
    however many calls: no callback runs and the state does not change; as long as
    there are line breaks only, within the limit of a head, they are skipped and
    there is no error; the first other byte is the error [HPE_CLOSED_CONNECTION],
    and the bytes the calls count are the line breaks before it. *)
Theorem closed_connection {W} `{BuildConfig} (settings : http_parser_settings W) P w bufs :
  hp_http_errno P = HPE_OK -> hp_state P = s_dead -> 0 <= hp_nread P ->
  hp_nread P + zlen (concat bufs) <= HTTP_MAX_HEADER_SIZE < 2 ^ 32 ->
  exists P' ns, feed settings P w bufs = Some (P', w, ns) /\ hp_state P' = s_dead /\
    hp_http_errno P' = (if forallb line_break (concat bufs) then HPE_OK else HPE_CLOSED_CONNECTION) /\
    zsum ns = zlen (breaks (concat bufs)).
Proof.
  revert P. induction bufs as [|b bufs IH]; intros P He Hs Hn Hlim; [exists P, []; auto|].
  cbn [concat] in *. rewrite zlen_app in Hlim. pose proof (zlen_nonneg (concat bufs)).
  rewrite breaks_app, forallb_app. cbn [feed].
  assert (b = [] \/ b <> []) as [->|Hb] by (destruct b; [now left | now right]).
  { change (zlen (@nil Z)) with 0 in Hlim. rewrite closed_empty by assumption.
    destruct (IH P He Hs Hn ltac:(lia)) as (P' & ns & -> & K). exists P', (0 :: ns). auto. }
  destruct (breaks_split b) as (rest & Eb & Hf & Hr).
  destruct (closed_step settings P w (breaks b) rest He Hs Hn) as (P1 & Hx & S1 & K1); [rewrite <- Eb; lia | now rewrite <- Eb | exact Hf | destruct rest; tauto |].
  rewrite <- Eb in Hx. rewrite Hx. destruct rest as [|x rest].
  - destruct K1 as [E1 N1]. rewrite Hr. rewrite app_nil_r in Eb. rewrite <- Eb in *.
    pose proof (zlen_nonneg b). destruct (IH P1 E1 S1 ltac:(lia) ltac:(lia)) as (P' & ns & -> & K2 & K3 & K4).
    exists P', (zlen b :: ns). cbn [andb zsum fold_right]. rewrite zlen_app, <- K4. auto.
  - destruct Hr as [_ ->]. destruct (feed_stopped settings P1 w bufs ltac:(rewrite K1; discriminate)) as (ns & -> & Hz).
    exists P1, (zlen (breaks b) :: ns). cbn [andb]. repeat split; auto. change (zsum (?a :: ns)) with (a + zsum ns). lia.
Qed.

(** A parser after a request that closes the connection. *)
Definition closed_parser : http_parser :=
  parser_after (http_parser_execute recorder (fresh_parser HTTP_REQUEST) []
    (message ["GET / HTTP/1.1"; "Connection: close"; ""; ""]%string)).

Lemma closed_connection_witness :
  exists P' ns, feed recorder closed_parser [] [[13]; []; [10] ++ bytes "GET / "; bytes "HTTP/1.1"] = Some (P', [], ns) /\
    hp_state P' = s_dead /\ hp_http_errno P' = HPE_CLOSED_CONNECTION /\ zsum ns = 2.
Proof.
  apply (closed_connection recorder closed_parser [] [[13]; []; [10] ++ bytes "GET / "; bytes "HTTP/1.1"]).
  1, 2: vm_compute; reflexivity.
  - vm_compute. discriminate.
  - vm_compute. split; [discriminate | reflexivity].
Defined.

(** ** Skipping a header value *)

(** The offset of the first line break of [l], which begins at offset [q]. *)
Fixpoint first_break (l : list Z) (q : Z) : option Z :=
  match l with
  | [] => None
  | b :: l' => if line_break b then Some q else first_break l' (q + 1)
  end.

Lemma memchr_list_ge l c q r : memchr_list l c q = Some r -> q <= r.
Proof. intros Hr. apply memchr_list_first in Hr. lia. Qed.

Lemma first_break_memchr l q :
  first_break l q =
  match memchr_list l CR q, memchr_list l LF q with
  | Some cr, Some lf => Some (if lf <=? cr then lf else cr)
  | Some cr, None => Some cr
  | None, Some lf => Some lf
  | None, None => None
  end.
Proof.
  revert q. induction l as [|b l IH]; intros q; [reflexivity|]. cbn [first_break memchr_list].
  unfold line_break. destruct (Z.eqb_spec b CR) as [->|].
  - change (CR =? LF) with false. cbn [orb]. destruct (memchr_list l LF (q + 1)) as [lf|] eqn:E; [|reflexivity].
    apply memchr_list_ge in E. destruct (Z.leb_spec lf q); [lia | reflexivity].
  - destruct (Z.eqb_spec b LF) as [->|]; cbn [orb]; [|apply IH].
    destruct (memchr_list l CR (q + 1)) as [cr|] eqn:E; [|reflexivity].
    apply memchr_list_ge in E. destruct (Z.leb_spec q cr); [reflexivity | lia].
Qed.

(** The two [memchr] calls that skip over a header value stop before the
    byte a single scan finds: the first carriage return or line feed among the
    bytes looked at (at most [HTTP_MAX_HEADER_SIZE]), or the end of the
    buffer. *)
Theorem header_value_skip_scan `{BuildConfig} data q :
  header_value_skip data q =
  match first_break (slice data q (Z.min (zlen data - q) HTTP_MAX_HEADER_SIZE)) q with
  | Some e => e - 1
  | None => zlen data - 1
  end.
Proof.
  rewrite first_break_memchr. unfold header_value_skip, memchr, data_len.
  destruct (memchr_list _ CR q), (memchr_list _ LF q); try destruct (_ <=? _); reflexivity.
Qed.

(** ** Bit-fields *)

(** The values of an enumeration survive being stored in [bits] bits. *)
Definition fits_in {A} (bits : Z) (num : A -> Z) : Prop :=
  (forall a, 0 <= num a < 2 ^ bits) /\ (forall a b, wrap bits (num a) = wrap bits (num b) -> a = b).

Lemma fits_in_intro {A} bits (num : A -> Z) :
  (forall a, 0 <= num a < 2 ^ bits) -> (forall a b, num a = num b -> a = b) -> fits_in bits num.
Proof.
  intros Hr Hi. split; [exact Hr|]. intros a b Hw. rewrite !wrap_small in Hw by apply Hr. auto.
Qed.

(** Every enumeration the object stores in a bit-field fits: the 7 bits of
    [state], [header_state] and [http_errno], the 8 bits of [method] and the 2
    bits of [type] lose no value; and [s_dead] is not 0. *)
Theorem enumerations_fit :
  fits_in 7 state_num /\ fits_in 7 header_states_num /\ fits_in 7 http_errno_num /\
  fits_in 8 http_method_num /\ fits_in 2 http_parser_type_num /\ forall s, 0 < state_num s.
Proof.
  repeat match goal with |- _ /\ _ => split end.
  1-5: apply fits_in_intro.
  all: intros a; try intros b; try destruct b; destruct a; cbn;
    first [reflexivity | lia | intros E; first [reflexivity | discriminate E]].
Qed.

(** ** The tables *)

(** Separators of RFC 2616, section 2.2. *)
Definition separators : list Z := bytes "()<>@,;:\/[]?={} " ++ [34; 9].

Definition token_value (c : Z) : Z :=
  if (c <? 33) || (126 <? c) || existsb (Z.eqb c) separators then 0
  else if (65 <=? c) && (c <=? 90) then c + 32 else c.

Definition hex_value_of (c : Z) : Z :=
  if (48 <=? c) && (c <=? 57) then c - 48
  else if (65 <=? c) && (c <=? 70) then c - 55
  else if (97 <=? c) && (c <=? 102) then c - 87
  else if c <? 128 then -1 else 0.

(** The tables of the parser.  [tokens] maps every byte that may occur in a
    header name by RFC 2616 to its lower case and every other byte to 0.
    [unhex] gives the value of a hexadecimal digit and -1 for the other
    characters below 128; the bytes from 128 on, which its initialiser leaves
    out, have the value 0 and count as the digit 0 of a chunk size. *)
Theorem tables_correct c :
  0 <= c < 256 -> tokens_at c = token_value c /\ unhex_at c = hex_value_of c.
Proof.
  intros Hc.
  pose proof (all_bytes_spec (fun c => (tokens_at c =? token_value c) && (unhex_at c =? hex_value_of c))
    ltac:(vm_compute; reflexivity) c Hc) as Ht.
  cbv beta in Ht. apply andb_prop in Ht as [H1 H2]. split; apply Z.eqb_eq; assumption.
Qed.

Lemma tables_correct_witness : tokens_at 65 = 97 /\ unhex_at 200 = 0.
Proof. exact (conj (proj1 (tables_correct 65 ltac:(lia))) (proj2 (tables_correct 200 ltac:(lia)))). Defined.
