(* ===== verification/HttpUrlSpec.v ===== *)
(** * What [http_parser_parse_url] promises

    Every range it reports lies inside the URL, the port is the number in the
    port range, and the parser neither fails an assertion nor reads outside
    the memory, provided the byte behind the URL is not a digit. *)

From Stdlib Require Import String ZArith List Bool Lia.
From S2P Require Import Prelude HttpDefs Decimal HttpUrl.
Import ListNotations.
Local Open Scope Z_scope.

(** ** Fields *)

Lemma uf_num_inj a b : uf_num a = uf_num b -> a = b.
Proof. destruct a, b; cbn; congruence. Qed.

Lemma uf_eqb_spec a b : reflect (a = b) (uf_eqb a b).
Proof.
  unfold uf_eqb. destruct (Z.eqb_spec (uf_num a) (uf_num b)); constructor;
    [apply uf_num_inj; assumption | congruence].
Qed.

Lemma uf_num_range f : 0 <= uf_num f <= 7.
Proof. destruct f; cbn; lia. Qed.

Lemma field_is_set_bit f u : field_is_set f u = Z.testbit (field_set u) (uf_num f).
Proof. apply truthy_bit, uf_num_range. Qed.

Lemma field_is_set_mark f g u : field_is_set f (mark_field g u) = uf_eqb f g || field_is_set f u.
Proof.
  rewrite !field_is_set_bit. cbn [mark_field field_set]. pose proof (uf_num_range f).
  pose proof (uf_num_range g).
  rewrite testbit_wrap, Z.lor_spec, Z.shiftl_1_l, Z.pow2_bits_eqb by lia.
  destruct (Z.ltb_spec (uf_num f) 16); [|lia]. cbn [andb].
  rewrite orb_comm, Z.eqb_sym. reflexivity.
Qed.

(** Reading a member after an assignment. *)
Lemma field_data_set_off f g v u :
  field_data (set_off g v u) f =
  if uf_eqb f g then mk_url_field (u16 v) (len (field_data u f)) else field_data u f.
Proof. reflexivity. Qed.

Lemma field_data_set_len f g v u :
  field_data (set_len g v u) f =
  if uf_eqb f g then mk_url_field (off (field_data u f)) (u16 v) else field_data u f.
Proof. reflexivity. Qed.

Lemma field_data_mark f g u : field_data (mark_field g u) f = field_data u f.
Proof. reflexivity. Qed.

Lemma field_is_set_off f g v u : field_is_set f (set_off g v u) = field_is_set f u.
Proof. reflexivity. Qed.

Lemma field_is_set_len f g v u : field_is_set f (set_len g v u) = field_is_set f u.
Proof. reflexivity. Qed.

Lemma field_is_set_incr f g u : field_is_set f (incr_len g u) = field_is_set f u.
Proof. reflexivity. Qed.

Lemma field_data_incr f g u :
  field_data (incr_len g u) f =
  if uf_eqb f g then mk_url_field (off (field_data u f)) (u16 (len (field_data u g) + 1))
  else field_data u f.
Proof. reflexivity. Qed.

Create Rewrite HintDb url.
#[export] Hint Rewrite field_is_set_mark field_data_set_off field_data_set_len field_data_mark
  field_is_set_off field_is_set_len field_is_set_incr field_data_incr : url.

(** ** The ranges *)

Definition range_ok (u : http_parser_url) (q : Z) (f : http_parser_url_fields) : Prop :=
  field_is_set f u = true ->
  0 <= off (field_data u f) /\ 0 < len (field_data u f) /\
  off (field_data u f) + len (field_data u f) <= q.

Section Url.
Context `{BuildConfig}.
Variable buf : list Z.
Variable buflen : Z.
Hypothesis buflen_range : 0 <= buflen <= 65535.
Hypothesis buf_readable : buflen < zlen buf.

(** The states of a URL, and what they say of the host field at offset [q]. *)
Definition host_inv (s : state) (q : Z) (u : http_parser_url) : Prop :=
  match s with
  | s_req_server | s_req_server_with_at =>
      field_is_set UF_HOST u = true /\
      off (field_data u UF_HOST) + len (field_data u UF_HOST) = q
  | s_req_path | s_req_query_string_start | s_req_query_string
  | s_req_fragment_start | s_req_fragment =>
      field_is_set UF_HOST u = true ->
      exists c, byte_at buf (off (field_data u UF_HOST) + len (field_data u UF_HOST)) = Some c /\
        IS_NUM c = false
  | s_req_spaces_before_url | s_req_schema | s_req_schema_slash | s_req_schema_slash_slash
  | s_req_server_start => field_is_set UF_HOST u = false
  | _ => False
  end.

Record url_inv (q : Z) (s : state) (old : http_parser_url_fields) (u : http_parser_url) : Prop := {
  inv_range : forall f, f <> UF_PORT -> f <> UF_USERINFO -> range_ok u q f;
  inv_host : host_inv s q u;
  inv_old : old <> UF_MAX -> field_is_set old u = true;
  inv_port : field_is_set UF_PORT u = false;
  inv_user : field_is_set UF_USERINFO u = false;
  inv_max : field_is_set UF_MAX u = false
}.

Lemma url_extend_range uf old q u :
  0 <= q < 65535 -> uf <> UF_MAX -> (old <> UF_MAX -> field_is_set old u = true) ->
  (forall f, f <> UF_PORT -> f <> UF_USERINFO -> range_ok u q f) ->
  forall f, f <> UF_PORT -> f <> UF_USERINFO -> range_ok (url_extend uf old q u) (q + 1) f.
Proof.
  intros Hq Huf Hold Hr f Hf1 Hf2. specialize (Hr f Hf1 Hf2). unfold url_extend, range_ok in *.
  destruct (uf_eqb_spec uf old) as [<-|Hne]; autorewrite with url; destruct (uf_eqb_spec f uf) as [->|];
    cbn [orb off len].
  - intros Hs. specialize (Hr Hs). rewrite wrap_small by lia. lia.
  - intros Hs. specialize (Hr Hs). lia.
  - intros _. rewrite !wrap_small by lia. lia.
  - intros Hs. specialize (Hr Hs). lia.
Qed.

(** The states inside a URL. *)
Definition url_like (s : state) : bool :=
  match s with
  | s_req_spaces_before_url | s_req_schema | s_req_schema_slash | s_req_schema_slash_slash
  | s_req_server_start | s_req_server | s_req_server_with_at | s_req_path
  | s_req_query_string_start | s_req_query_string | s_req_fragment_start | s_req_fragment => true
  | _ => false
  end.

(** What a character does to the field of a state. *)
Definition url_after (s : state) (old : http_parser_url_fields) (q : Z) (u : http_parser_url)
  : http_parser_url_fields * http_parser_url :=
  match url_field_of s with
  | Url_field uf => (uf, url_extend uf old q u)
  | _ => (old, u)
  end.

(** The phases of a URL: before the host, the host, behind it. *)
Definition before_host (s : state) : bool :=
  match s with
  | s_req_spaces_before_url | s_req_schema | s_req_schema_slash | s_req_schema_slash_slash
  | s_req_server_start => true
  | _ => false
  end.

Definition in_host (s : state) : bool :=
  match s with s_req_server | s_req_server_with_at => true | _ => false end.

Definition behind_host (s : state) : bool :=
  match s with
  | s_req_path | s_req_query_string_start | s_req_query_string | s_req_fragment_start
  | s_req_fragment => true
  | _ => false
  end.

Lemma host_inv_before s q u :
  before_host s = true -> host_inv s q u <-> field_is_set UF_HOST u = false.
Proof. destruct s; discriminate || reflexivity. Qed.

Lemma host_inv_in s q u :
  in_host s = true -> host_inv s q u <->
  field_is_set UF_HOST u = true /\
  off (field_data u UF_HOST) + len (field_data u UF_HOST) = q.
Proof. destruct s; discriminate || reflexivity. Qed.

Lemma host_inv_behind s q u :
  behind_host s = true -> host_inv s q u <->
  (field_is_set UF_HOST u = true -> exists c,
     byte_at buf (off (field_data u UF_HOST) + len (field_data u UF_HOST)) = Some c /\
     IS_NUM c = false).
Proof. destruct s; discriminate || reflexivity. Qed.

(** The transitions of [parse_url_char]. *)
Lemma url_transition s c :
  let s' := parse_url_char s c in
  url_like s = true -> s' <> s_dead ->
  before_host s = true /\ before_host s' = true /\ s' <> s_req_spaces_before_url \/
  (s = s_req_server_start \/ in_host s = true) /\ in_host s' = true \/
  behind_host s' = true /\ (in_host s = true -> IS_NUM c = false).
Proof.
  intros s' Hl. subst s'.
  destruct s; try discriminate Hl; unfold parse_url_char;
    repeat case_match_goal; intros Hd; try contradiction; cbn;
    try (left; repeat split; discriminate || reflexivity); auto;
    right; right; (split; [reflexivity|]); intros Hh; try discriminate Hh;
    bool_hyps; subst; reflexivity.
Qed.

Lemma host_inv_leave s s' q q' u :
  host_inv s q u -> url_like s = true -> behind_host s' = true ->
  (in_host s = true -> exists c, byte_at buf q = Some c /\ IS_NUM c = false) -> host_inv s' q' u.
Proof.
  intros Hh Hl Hs' Hc. apply host_inv_behind; [exact Hs'|]. intros Hset.
  destruct s; try discriminate Hl; cbn [host_inv] in Hh; try congruence; auto.
  all: destruct Hh as [_ ->]; auto.
Qed.

Lemma url_extend_other s q u uf old :
  uf <> UF_HOST -> in_host s = false ->
  host_inv s (q + 1) u -> host_inv s (q + 1) (url_extend uf old q u).
Proof.
  intros Hne Hs Hh. unfold url_extend.
  destruct s; try discriminate Hs; cbn [host_inv] in *; try contradiction;
    destruct (uf_eqb uf old); autorewrite with url;
    destruct (uf_eqb_spec UF_HOST uf) as [E|]; try congruence; exact Hh.
Qed.

Lemma url_extend_host s s' q u old :
  host_inv s q u -> (old <> UF_MAX -> field_is_set old u = true) -> 0 <= q < 65535 ->
  range_ok u q UF_HOST -> s = s_req_server_start \/ in_host s = true -> in_host s' = true ->
  host_inv s' (q + 1) (url_extend UF_HOST old q u).
Proof.
  intros Hh Hold Hq Hr Hs Hs'. apply host_inv_in; [exact Hs'|].
  unfold url_extend. destruct (uf_eqb_spec UF_HOST old) as [<-|]; autorewrite with url;
    cbn [uf_eqb uf_num Z.eqb Pos.eqb orb off len].
  - specialize (Hold ltac:(discriminate)). split; [exact Hold|]. specialize (Hr Hold).
    destruct Hs as [->|Hs]; [cbn [host_inv] in Hh; congruence|].
    apply host_inv_in in Hh as [_ Hh]; [|exact Hs]. rewrite wrap_small by lia. lia.
  - split; [reflexivity|]. rewrite !wrap_small by lia. lia.
Qed.

(** One character of the URL. *)
Lemma url_char_step q s old u c :
  url_inv q s old u -> url_like s = true -> 0 <= q < buflen -> byte_at buf q = Some c ->
  let s' := parse_url_char s c in
  s' = s_dead \/
  url_like s' = true /\ url_field_of s' <> Url_unexpected /\ url_field_of s' <> Url_return_1 /\
  url_inv (q + 1) s' (fst (url_after s' old q u)) (snd (url_after s' old q u)).
Proof.
  intros Hinv Hl Hq Hb s'. destruct (state_eqb_spec s' s_dead) as [|Hd]; [auto|right].
  pose proof (url_transition s c Hl Hd) as Htr. fold s' in Htr. clearbody s'.
  assert (url_like s' = true /\ s' <> s_req_spaces_before_url) as [Hl' Hns]
    by (destruct s'; cbn in Htr; intuition discriminate).
  destruct Hinv as [Hr Hh Hold Hp Hus Hmx].
  assert (host_inv s' (q + 1) (snd (url_after s' old q u))) as Hh'.
  { unfold url_after. destruct Htr as [(Hs & Hs' & _)|[[Hs Hs']|[Hs' Hc]]].
    - apply (host_inv_before _ _ _ Hs) in Hh.
      destruct s'; try discriminate Hs'; cbn [url_field_of snd]; try exact Hh.
      apply url_extend_other; [discriminate | reflexivity | exact Hh].
    - assert (url_field_of s' = Url_field UF_HOST) as -> by (destruct s'; try discriminate Hs'; reflexivity).
      eapply url_extend_host; eauto; [lia | apply Hr; discriminate].
    - assert (host_inv s' (q + 1) u) as Hu by (eapply host_inv_leave; eauto).
      destruct s'; try discriminate Hs'; cbn [url_field_of snd]; try exact Hu;
        apply url_extend_other; try discriminate; try reflexivity; exact Hu. }
  split; [exact Hl'|].
  split; [destruct s'; try contradiction; discriminate Hl' || (cbn; discriminate)|].
  split; [destruct s'; try contradiction; discriminate Hl' || (cbn; discriminate)|].
  unfold url_after in *. destruct (url_field_of s') as [| |uf|] eqn:Huf; cbn [fst snd] in *.
  3: assert (uf <> UF_PORT /\ uf <> UF_USERINFO /\ uf <> UF_MAX) as (H1 & H2 & H3)
       by (destruct s'; try discriminate Huf; injection Huf as <-; repeat split; discriminate).
  3: constructor; try assumption; [apply url_extend_range; auto; lia|..];
       unfold url_extend; destruct (uf_eqb_spec uf old) as [<-|]; autorewrite with url; auto;
       match goal with
       | |- context [uf_eqb ?a ?b] => destruct (uf_eqb_spec a b); congruence || assumption || reflexivity
       end.
  all: constructor; try assumption; intros f Hf1 Hf2 Hset; specialize (Hr f Hf1 Hf2 Hset); lia.
Qed.

Lemma url_loop_ok n q s old fa u :
  url_inv q s old u -> url_like s = true -> 0 <= q -> q + Z.of_nat n = buflen ->
  (exists u', url_loop n buf q s old fa u = LoopReturn (UrlReturn 1 u')) \/
  (exists fa' u' s' old', url_loop n buf q s old fa u = LoopDone fa' u' /\
     url_inv buflen s' old' u' /\ url_like s' = true).
Proof.
  revert q s old fa u. induction n as [|n IH]; intros q s old fa u Hinv Hl Hq Hn.
  - right. exists fa, u, s, old. replace buflen with q by lia. auto.
  - cbn [url_loop]. destruct (proj1 (byte_at_Some buf q)) as [c Hc]; [lia|]. rewrite Hc.
    destruct (url_char_step q s old u c Hinv Hl ltac:(lia) Hc) as [Hd|(Hl' & Hf1 & Hf2 & Hinv')].
    { rewrite Hd. left. eexists. reflexivity. }
    unfold url_after in Hinv'. destruct (url_field_of (parse_url_char s c)); try contradiction;
      apply IH; try assumption; lia.
Qed.

(** ** The host *)

(** No character of the host name itself has been read. *)
Definition host_pending (s : http_host_state) : bool :=
  match s with
  | s_http_userinfo_start | s_http_userinfo | s_http_host_start | s_http_host_v6_start => true
  | _ => false
  end.

(** The loop of [http_parse_host], started with the fields [u0], is at offset [q]. *)
Record host_loop_inv (u0 : http_parser_url) (s : http_host_state) (q : Z) (u : http_parser_url)
  : Prop := {
  hl_host_set : field_is_set UF_HOST u = true;
  hl_host : 0 <= off (field_data u UF_HOST) /\ 0 <= len (field_data u UF_HOST) /\
    off (field_data u UF_HOST) + len (field_data u UF_HOST) <= q;
  hl_host_len : if host_pending s then len (field_data u UF_HOST) = 0
                else 0 < len (field_data u UF_HOST);
  hl_user : range_ok u q UF_USERINFO;
  hl_user_set : s = s_http_userinfo -> field_is_set UF_USERINFO u = true;
  hl_port :
    match s with
    | s_http_host_port =>
        field_is_set UF_PORT u = true /\ 0 <= off (field_data u UF_PORT) /\
        0 < len (field_data u UF_PORT) /\
        off (field_data u UF_PORT) + len (field_data u UF_PORT) = q /\
        (forall i c, off (field_data u UF_PORT) <= i < q -> byte_at buf i = Some c -> IS_NUM c = true)
    | _ => field_is_set UF_PORT u = false
    end;
  hl_rest : forall f, f <> UF_HOST -> f <> UF_PORT -> f <> UF_USERINFO ->
    field_is_set f u = field_is_set f u0 /\ field_data u f = field_data u0 f
}.

Ltac url_fields :=
  autorewrite with url; cbn [uf_eqb uf_num Z.eqb Pos.eqb orb off len];
  change (u16 0) with 0; cbn [Z.add].

Ltac solve_host Hu Hr Hp :=
  lazymatch goal with
  | |- range_ok _ _ _ =>
      unfold range_ok in *; url_fields; intros Hset;
      try specialize (Hu Hset); rewrite ?wrap_small by lia; lia
  | |- forall f, f <> UF_HOST -> _ =>
      let f := fresh "f" in intros f ? ? ?; url_fields;
      repeat match goal with |- context [uf_eqb ?a ?b] => destruct (uf_eqb_spec a b) end;
      try contradiction; cbn [orb]; apply Hr; assumption
  | |- _ => idtac
  end.

Lemma host_step u0 s q u c :
  host_loop_inv u0 s q u -> 0 <= q < buflen -> byte_at buf q = Some c ->
  let s' := http_parse_host_char s c in
  s' <> s_http_host_dead -> host_loop_inv u0 s' (q + 1) (host_fields s s' q u).
Proof.
  intros Hinv Hq Hc s' Hd. subst s'. destruct Hinv as [Hs Hh Hl Hu Hus Hp Hr].
  revert Hd. destruct s; cbn [http_parse_host_char host_pending] in *;
    repeat case_match_goal; intros Hd; try contradiction.
  all: cbn [host_fields]; constructor; solve_host Hu Hr Hp.
  all: url_fields; cbn [host_pending].
  all: try exact Hs; try exact Hp; try lia; try discriminate; try reflexivity;
    try (intros _; apply Hus; reflexivity); rewrite ?wrap_small by lia; try lia.
  - repeat split; try lia. intros i c0 Hi Hi0. replace i with q in Hi0 by lia. congruence.
  - destruct Hp as (Hp1 & Hp2 & Hp3 & Hp4 & Hp5). repeat split; try lia; try assumption.
    intros i c0 Hi Hi0. destruct (Z.eq_dec i q) as [->|]; [congruence|].
    apply (Hp5 i); [lia | exact Hi0].
Qed.

(** The host is accepted in these states. *)
Definition host_end_state (s : http_host_state) : Prop :=
  s = s_http_host \/ s = s_http_host_v6_end \/ s = s_http_host_port.

Lemma host_loop_ok u0 n q s u :
  host_loop_inv u0 s q u -> s <> s_http_host_dead -> 0 <= q -> q + Z.of_nat n <= buflen ->
  (exists u', http_parse_host_loop n buf q s u = UrlReturn 1 u') \/
  (exists u' s', http_parse_host_loop n buf q s u = UrlReturn 0 u' /\
     host_loop_inv u0 s' (q + Z.of_nat n) u' /\ host_end_state s').
Proof.
  revert q s u. induction n as [|n IH]; intros q s u Hinv Hs Hq Hn.
  - cbn [http_parse_host_loop]. destruct (host_end_error s) eqn:E; [eauto|].
    right. exists u, s. rewrite Z.add_0_r. split; [reflexivity|]. split; [exact Hinv|].
    unfold host_end_state. destruct s; try discriminate E; try contradiction; auto.
  - cbn [http_parse_host_loop]. destruct (proj1 (byte_at_Some buf q)) as [c Hc]; [lia|]. rewrite Hc.
    pose proof (host_step u0 s q u c Hinv ltac:(lia) Hc) as Hstep. cbv zeta in Hstep.
    rewrite Nat2Z.inj_succ. replace (q + Z.succ (Z.of_nat n)) with (q + 1 + Z.of_nat n) by lia.
    destruct (http_parse_host_char s c); eauto;
      (apply IH; [apply Hstep | ..]; try discriminate; lia).
Qed.

Lemma http_parse_host_ok fa u :
  (forall f, f <> UF_PORT -> f <> UF_USERINFO -> range_ok u buflen f) ->
  field_is_set UF_HOST u = true -> field_is_set UF_PORT u = false ->
  field_is_set UF_USERINFO u = false ->
  let h1 := off (field_data u UF_HOST) + len (field_data u UF_HOST) in
  (exists u', http_parse_host buf u fa = UrlReturn 1 u') \/
  (exists u' s', http_parse_host buf u fa = UrlReturn 0 u' /\
     host_loop_inv u s' h1 u' /\ host_end_state s').
Proof.
  intros Hr Hh Hp Hus h1. unfold http_parse_host. rewrite Hh. cbn [negb]. fold h1.
  destruct (Hr UF_HOST ltac:(discriminate) ltac:(discriminate) Hh) as (H1 & H2 & H3).
  set (q := off (field_data u UF_HOST)) in *.
  set (s := if fa then s_http_userinfo_start else s_http_host_start).
  pose proof (host_loop_ok u (Z.to_nat (h1 - q)) q s (set_len UF_HOST 0 u)) as Hloop.
  replace (q + Z.of_nat (Z.to_nat (h1 - q))) with h1 in Hloop by lia.
  apply Hloop; [|destruct fa; discriminate | lia | lia].
  assert (host_pending s = true) as Hs by (destruct fa; reflexivity).
  constructor; url_fields; try assumption; try lia.
  - rewrite Hs. reflexivity.
  - unfold range_ok. url_fields. congruence.
  - unfold s. destruct fa; discriminate.
  - unfold s. destruct fa; exact Hp.
  - intros f Hf1 Hf2 Hf3. url_fields. destruct (uf_eqb_spec f UF_HOST); [contradiction|auto].
Qed.

(** ** The port *)

Lemma strtoul_digits_app ds c r acc :
  digits ds -> IS_NUM c = false -> 0 <= acc <= ULLONG_MAX ->
  strtoul_digits (ds ++ c :: r) acc = Some (Z.min (dec_value_from acc ds) ULLONG_MAX).
Proof.
  intros Hd Hc. revert acc. induction Hd as [|b ds Hb Hd IH]; intros acc Hacc.
  - cbn. rewrite Hc. f_equal. lia.
  - cbn [app strtoul_digits]. rewrite Hb. apply IS_NUM_range in Hb.
    rewrite IH by (unfold ULLONG_MAX in *; lia). f_equal.
    change (dec_value_from acc (b :: ds)) with (dec_value_from (acc * 10 + (b - 48)) ds).
    destruct (Z.le_gt_cases (acc * 10 + (b - 48)) ULLONG_MAX) as [Hle|Hgt].
    + rewrite (Z.min_l _ _ Hle). reflexivity.
    + rewrite (Z.min_r (acc * 10 + _)) by lia.
      pose proof (dec_value_from_ge ds ULLONG_MAX Hd ltac:(unfold ULLONG_MAX; lia)).
      pose proof (dec_value_from_ge ds (acc * 10 + (b - 48)) Hd ltac:(lia)). lia.
Qed.

Lemma strtoul_number ds c r :
  digits ds -> ds <> [] -> IS_NUM c = false ->
  strtoul (ds ++ c :: r) = Some (Z.min (dec_value ds) ULLONG_MAX).
Proof.
  intros Hd Hne Hc. unfold dec_value.
  rewrite <- (strtoul_digits_app ds c r) by (assumption || (unfold ULLONG_MAX; lia)).
  destruct ds as [|b ds]; [contradiction|]. apply Forall_cons_iff in Hd as [Hb _].
  apply IS_NUM_range in Hb. cbn [app strtoul]. unfold isspace.
  destruct (Z.eqb_spec b 32), (Z.leb_spec 9 b), (Z.leb_spec b 13), (Z.eqb_spec b "-"%chr),
    (Z.eqb_spec b "+"%chr); try lia; reflexivity.
Qed.

Lemma host_fields_port s s' q u : port (host_fields s s' q u) = port u.
Proof. destruct s, s'; reflexivity. Qed.

Lemma http_parse_host_loop_port n q s u rc u' :
  http_parse_host_loop n buf q s u = UrlReturn rc u' -> port u' = port u.
Proof.
  revert q s u. induction n as [|n IH]; intros q s u.
  - cbn. intros Hx. injection Hx as _ <-. reflexivity.
  - cbn [http_parse_host_loop]. destruct (byte_at buf q); [|discriminate].
    destruct (http_parse_host_char s z); intros Hx;
      try (apply IH in Hx; rewrite Hx; apply host_fields_port).
    injection Hx as _ <-. reflexivity.
Qed.

Lemma url_loop_port n q s old fa u fa' u' :
  url_loop n buf q s old fa u = LoopDone fa' u' -> port u' = port u.
Proof.
  revert q s old fa u. induction n as [|n IH]; intros q s old fa u.
  - cbn. intros Hx. injection Hx as _ <-. reflexivity.
  - cbn [url_loop]. destruct (byte_at buf q); [|discriminate].
    destruct (url_field_of (parse_url_char s z)); try discriminate; intros Hx; apply IH in Hx;
      rewrite Hx; [reflexivity|]. unfold url_extend. destruct (uf_eqb uf old); reflexivity.
Qed.

End Url.

(** ** The result *)

Definition field_bytes (buf : list Z) (u : http_parser_url) (f : http_parser_url_fields) : list Z :=
  slice buf (off (field_data u f)) (len (field_data u f)).

(** What a successful call promises of the fields. *)
Record url_ok (buf : list Z) (buflen : Z) (is_connect : bool) (u : http_parser_url) : Prop := {
  ok_ranges : forall f, range_ok u buflen f;
  ok_port : if field_is_set UF_PORT u
            then digits (field_bytes buf u UF_PORT) /\
                 port u = dec_value (field_bytes buf u UF_PORT) /\ 0 <= port u <= 65535
            else port u = 0;
  ok_schema : field_is_set UF_SCHEMA u = true -> field_is_set UF_HOST u = true;
  ok_port_host : field_is_set UF_PORT u || field_is_set UF_USERINFO u = true ->
                 field_is_set UF_HOST u = true;
  ok_connect : is_connect = true -> field_set u = 6
}.

Section Result.
Context `{BuildConfig}.
Variable buf : list Z.
Variable buflen : Z.
Hypothesis buflen_range : 0 <= buflen <= 65535.
Hypothesis terminated : exists t, byte_at buf buflen = Some t /\ IS_NUM t = false.

Definition good_result (is_connect : bool) (r : url_result) : Prop :=
  exists rc u, r = UrlReturn rc u /\ (rc = 1 \/ rc = 0 /\ url_ok buf buflen is_connect u).

Lemma buf_readable_end : buflen < zlen buf.
Proof. destruct terminated as (t & Ht & _). apply (proj2 (byte_at_Some buf buflen)). eauto. Qed.

(** The part behind the host, without a port. *)
Lemma finish_no_port con u :
  (forall f, range_ok u buflen f) -> field_is_set UF_PORT u = false -> port u = 0 ->
  (field_is_set UF_SCHEMA u || field_is_set UF_USERINFO u = true -> field_is_set UF_HOST u = true) ->
  good_result con (url_finish_port buf con u).
Proof.
  intros Hr Hp H0 Hs. unfold url_finish_port, good_result. rewrite Hp.
  destruct con; cbn [andb].
  1: destruct (negb _) eqn:E; [eauto|].
  all: do 2 eexists; split; [reflexivity|]; right; split; [reflexivity|];
    constructor; rewrite ?Hp; try assumption; try discriminate;
    intros Hx; cbn [orb] in Hx; try (apply Hs; rewrite Hx; reflexivity || apply orb_true_r).
  apply negb_false_iff, Z.eqb_eq in E. exact E.
Qed.

(** With a port that ends before a byte that is not a digit. *)
Lemma finish_port con u c :
  let P := field_data u UF_PORT in
  (forall f, range_ok u buflen f) -> field_is_set UF_PORT u = true ->
  field_is_set UF_HOST u = true -> digits (field_bytes buf u UF_PORT) ->
  byte_at buf (off P + len P) = Some c -> IS_NUM c = false ->
  good_result con (url_finish_port buf con u).
Proof.
  intros P Hr Hp Hh Hd Hc Hn. destruct (Hr UF_PORT Hp) as (H1 & H2 & H3). fold P in H1, H2, H3.
  unfold url_finish_port, good_result. rewrite Hp. fold P.
  destruct (skipn_slice buf (off P) (len P) c) as [r Hsk]; [lia | lia | exact Hc|].
  change (slice buf (off P) (len P)) with (field_bytes buf u UF_PORT) in Hsk. rewrite Hsk.
  assert (field_bytes buf u UF_PORT <> []) as Hne.
  { unfold field_bytes. fold P. intros Hx. pose proof (zlen_slice buf (off P) (len P)) as Hz.
    pose proof buf_readable_end. rewrite Hx in Hz. change (zlen (@nil Z)) with 0 in Hz. lia. }
  rewrite strtoul_number by assumption.
  pose proof (dec_value_from_ge _ 0 Hd ltac:(lia)) as Hge. fold (dec_value (field_bytes buf u UF_PORT)) in Hge.
  destruct (con && negb (field_set u =? _)) eqn:E; [eauto|].
  destruct (Z.ltb_spec 65535 (Z.min (dec_value (field_bytes buf u UF_PORT)) ULLONG_MAX)); [eauto|].
  do 2 eexists; split; [reflexivity|]; right; split; [reflexivity|].
  unfold ULLONG_MAX in *.
  constructor; auto.
  - change (field_is_set UF_PORT (set_port _ u)) with (field_is_set UF_PORT u). rewrite Hp.
    cbn [port set_port]. rewrite wrap_small by lia.
    change (field_bytes buf (set_port _ u) UF_PORT) with (field_bytes buf u UF_PORT).
    split; [exact Hd|]. lia.
  - intros ->. cbn [andb] in E. apply negb_false_iff, Z.eqb_eq in E. exact E.
Qed.

(** The fields of a parsed host are inside the URL. *)
Lemma host_ranges u u' s h1 :
  h1 <= buflen -> (forall f, f <> UF_PORT -> f <> UF_USERINFO -> range_ok u buflen f) ->
  host_loop_inv buf u s h1 u' -> host_end_state s -> forall f, range_ok u' buflen f.
Proof.
  intros Hh Hr [Hset Hhost Hl Hu _ Hp Hrest] Hs f.
  destruct (uf_eqb_spec f UF_HOST) as [->|H1].
  { intros _. destruct Hs as [->|[->| ->]]; cbn [host_pending] in Hl; lia. }
  destruct (uf_eqb_spec f UF_USERINFO) as [->|H2].
  { intros Hf. specialize (Hu Hf). lia. }
  destruct (uf_eqb_spec f UF_PORT) as [->|H3].
  { intros Hf. destruct Hs as [->|[->| ->]]; try congruence. destruct Hp as (_ & ? & ? & ? & _). lia. }
  destruct (Hrest f H1 H3 H2) as [Hf Hd]. unfold range_ok. rewrite Hf, Hd. apply Hr; assumption.
Qed.

(** From the schema test to the end, behind the loop. *)
Lemma url_finish_ok con fa s old u :
  url_inv buf buflen s old u -> url_like s = true -> port u = 0 ->
  good_result con (url_finish buf con fa u).
Proof.
  intros [Hr Hh _ Hp Hus Hmx] Hl H0. unfold url_finish.
  assert (forall f, field_is_set UF_HOST u = false -> range_ok u buflen f) as Hr'.
  { intros f _. destruct (uf_eqb_spec f UF_PORT) as [->|]; [intros ?; congruence|].
    destruct (uf_eqb_spec f UF_USERINFO) as [->|]; [intros ?; congruence|]. apply Hr; assumption. }
  destruct (field_is_set UF_HOST u) eqn:Hset; cbn [negb]; rewrite ?andb_true_r, ?andb_false_r.
  - destruct (http_parse_host_ok buf buflen buflen_range buf_readable_end fa u Hr Hset Hp Hus)
      as [[u' Hx]|(u' & s' & Hx & Hinv & Hend)]; rewrite Hx; cbn [Z.eqb negb].
    { do 2 eexists. split; [reflexivity | left; reflexivity]. }
    set (h1 := off (field_data u UF_HOST) + len (field_data u UF_HOST)) in *.
    destruct (Hr UF_HOST ltac:(discriminate) ltac:(discriminate) Hset) as (_ & _ & Hh1).
    pose proof (host_ranges u u' s' h1 Hh1 Hr Hinv Hend) as Hr2.
    destruct Hinv as [Hset' _ _ _ _ Hport _].
    assert (port u' = 0) as H0'.
    { unfold http_parse_host in Hx. rewrite Hset in Hx. cbn [negb] in Hx.
      apply http_parse_host_loop_port in Hx. rewrite Hx. exact H0. }
    assert (exists c, byte_at buf h1 = Some c /\ IS_NUM c = false) as (c & Hc & Hn).
    { destruct (behind_host s) eqn:Hb; [apply (host_inv_behind buf _ _ _ Hb) in Hh; auto|].
      destruct (in_host s) eqn:Hi; [|exfalso; destruct s; cbn [host_inv] in Hh; congruence || discriminate].
      apply (host_inv_in buf _ _ _ Hi) in Hh as [_ Hh]. fold h1 in Hh. rewrite Hh. exact terminated. }
    destruct Hend as [->|[->| ->]].
    1, 2: apply finish_no_port; auto.
    destruct Hport as (Hps & Ho & Hln & He & Hd).
    apply (finish_port con u' c); auto; [|rewrite He; exact Hc].
    apply slice_Forall; [exact Ho|]. intros i b Hi. apply Hd. lia.
  - destruct (field_is_set UF_SCHEMA u) eqn:Hsc.
    { do 2 eexists. split; [reflexivity | left; reflexivity]. }
    apply finish_no_port; auto. rewrite Hsc, Hus. discriminate.
Qed.

Lemma parse_url_good con u : good_result con (http_parser_parse_url buf buflen con u).
Proof.
  unfold http_parser_parse_url. set (u0 := mk_http_parser_url 0 0 (field_data u)).
  set (s := if con then s_req_server_start else s_req_spaces_before_url).
  assert (forall f, field_is_set f u0 = false) as Hf by reflexivity.
  assert (url_inv buf 0 s UF_MAX u0) as Hinv.
  { constructor; auto; try contradiction.
    - intros f _ _ Hx. rewrite Hf in Hx. discriminate.
    - destruct con; apply Hf. }
  destruct (url_loop_ok buf buflen buflen_range buf_readable_end (Z.to_nat buflen) 0 s UF_MAX false u0 Hinv)
    as [[u' Hx]|(fa & u' & s' & old & Hx & Hinv' & Hl)];
    [destruct con; reflexivity | lia | lia | rewrite Hx | rewrite Hx].
  - do 2 eexists. split; [reflexivity | left; reflexivity].
  - apply (url_finish_ok con fa s' old u' Hinv' Hl). apply url_loop_port in Hx. exact Hx.
Qed.

End Result.

(** The caller's side: a URL of at most 65535 bytes, followed in memory by a
    byte that is not a digit. *)
Definition url_readable (buf : list Z) (buflen : Z) : Prop :=
  0 <= buflen <= 65535 /\ exists t, byte_at buf buflen = Some t /\ IS_NUM t = false.

(** C8: [http_parser_parse_url] always returns 0 or 1: for a URL of at most
    65535 bytes followed by a byte that is not a digit (the terminator of a C
    string, say) no assertion fails and no byte outside the memory is read,
    whatever the URL and the previous contents of the structure. *)
Theorem parse_url_returns `{BuildConfig} buf buflen is_connect u :
  url_readable buf buflen ->
  exists rc u', http_parser_parse_url buf buflen is_connect u = UrlReturn rc u' /\
    (rc = 0 \/ rc = 1).
Proof.
  intros [Hb Ht].
  destruct (parse_url_good buf buflen Hb Ht is_connect u)
    as (rc & u' & Hx & Hrc). exists rc, u'. intuition.
Qed.

(** C9: What a successful [http_parser_parse_url] reports.  Every field that
    is set is a non-empty range inside the URL; the port, when set, is a range
    of digits and [port] is its value, at most 65535; a schema, a port or a
    userinfo comes with a host; and in CONNECT mode exactly host and port are
    set. *)
Theorem parse_url_fields `{BuildConfig} buf buflen is_connect u u' :
  url_readable buf buflen ->
  http_parser_parse_url buf buflen is_connect u = UrlReturn 0 u' ->
  url_ok buf buflen is_connect u'.
Proof.
  intros [Hb Ht] Hx.
  destruct (parse_url_good buf buflen Hb Ht is_connect u)
    as (rc & u2 & Hx2 & Hrc). rewrite Hx in Hx2. injection Hx2 as <- <-. intuition discriminate.
Qed.

Definition sample_url : list Z := bytes "http://u:p@[::1]:8080/a?b#c".

Lemma sample_readable : url_readable (sample_url ++ [0]) (zlen sample_url).
Proof. split; [vm_compute; split; discriminate | exists 0; split; reflexivity]. Qed.

Lemma parse_url_returns_witness :
  exists rc u', http_parser_parse_url (sample_url ++ [0]) (zlen sample_url) false http_parser_url_init =
    UrlReturn rc u' /\ (rc = 0 \/ rc = 1).
Proof.
  apply (parse_url_returns (sample_url ++ [0]) (zlen sample_url)). exact sample_readable.
Defined.

Definition url_after_parse (r : url_result) : http_parser_url :=
  match r with UrlReturn _ u => u | UrlAbort _ => http_parser_url_init end.

Definition url_rc (r : url_result) : option Z :=
  match r with UrlReturn rc _ => Some rc | UrlAbort _ => None end.

Lemma url_rc_spec r rc : url_rc r = Some rc -> r = UrlReturn rc (url_after_parse r).
Proof. destruct r; [intros [= <-]; reflexivity | discriminate]. Qed.

Lemma parse_url_fields_witness :
  url_ok (sample_url ++ [0]) (zlen sample_url) false
    (url_after_parse (http_parser_parse_url (sample_url ++ [0]) (zlen sample_url) false http_parser_url_init)).
Proof.
  apply (parse_url_fields (sample_url ++ [0]) (zlen sample_url) false http_parser_url_init);
    [exact sample_readable | apply url_rc_spec; vm_compute; reflexivity].
Defined.
