(* ===== verification/HttpUrlRound.v ===== *)
(** * Parsing a printed URL

    An absolute URL put together from its parts is taken apart again by
    [http_parser_parse_url]. *)

From Stdlib Require Import String ZArith List Bool Lia.
From S2P Require Import Prelude HttpDefs Decimal HttpUrl HttpExec HttpLogic HttpRun HttpUrlSpec.
Import ListNotations.
Local Open Scope Z_scope.

(** ** Absolute URLs *)

(** A registered name or IPv4 address, or an IPv6 address in brackets. *)
Inductive url_host :=
| Reg_name (name : list Z)
| Ipv6 (address : list Z).

Record url_parts := {
  part_schema : list Z;
  part_userinfo : option (list Z);
  part_host : url_host;
  part_port : option (list Z);
  part_path : list Z;
  part_query : option (list Z);
  part_fragment : option (list Z)
}.

Definition print_opt (before after : list Z) (o : option (list Z)) : list Z :=
  match o with Some l => before ++ l ++ after | None => [] end.

Definition print_host (h : url_host) : list Z :=
  match h with Reg_name l => l | Ipv6 l => ["["%chr] ++ l ++ ["]"%chr] end.

Definition host_bytes (h : url_host) : list Z :=
  match h with Reg_name l => l | Ipv6 l => l end.

Definition print_url (x : url_parts) : list Z :=
  part_schema x ++ bytes "://" ++
  (print_opt [] ["@"%chr] (part_userinfo x) ++ print_host (part_host x) ++
   print_opt [":"%chr] [] (part_port x)) ++
  part_path x ++ print_opt ["?"%chr] [] (part_query x) ++
  print_opt ["#"%chr] [] (part_fragment x).

(** The field of the structure a part is reported in. *)
Definition part (x : url_parts) (f : http_parser_url_fields) : option (list Z) :=
  match f with
  | UF_SCHEMA => Some (part_schema x)
  | UF_HOST => Some (host_bytes (part_host x))
  | UF_PORT => part_port x
  | UF_PATH => Some (part_path x)
  | UF_QUERY => part_query x
  | UF_FRAGMENT => part_fragment x
  | UF_USERINFO => part_userinfo x
  | UF_MAX => None
  end.

Definition port_value (x : url_parts) : Z :=
  match part_port x with Some ds => dec_value ds | None => 0 end.

(** A non-empty string of characters of a class. *)
Definition some_chars (cls : Z -> bool) (l : list Z) : bool :=
  negb (zlen l =? 0) && forallb cls l.

Definition opt_chars (cls : Z -> bool) (o : option (list Z)) : bool :=
  match o with Some l => some_chars cls l | None => true end.

Section UrlRound.
Context `{BuildConfig}.

Definition v6_char (c : Z) : bool := IS_HEX c || (c =? ":"%chr) || (c =? "."%chr).

Definition host_ok (h : url_host) : bool :=
  match h with Reg_name l => some_chars IS_HOST_CHAR l | Ipv6 l => some_chars v6_char l end.

Definition url_parts_ok (x : url_parts) : bool :=
  some_chars IS_ALPHA (part_schema x) &&
  opt_chars IS_USERINFO_CHAR (part_userinfo x) &&
  host_ok (part_host x) &&
  opt_chars IS_NUM (part_port x) && (port_value x <=? 65535) &&
  match part_path x with
  | c :: l => (c =? "/"%chr) && forallb IS_URL_CHAR l
  | [] => false
  end &&
  opt_chars (fun c => IS_URL_CHAR c || (c =? "?"%chr)) (part_query x) &&
  match part_fragment x with
  | Some (c :: l) =>
      (IS_URL_CHAR c || (c =? "?"%chr)) &&
      forallb (fun c => IS_URL_CHAR c || (c =? "?"%chr) || (c =? "#"%chr)) l
  | Some [] => false
  | None => true
  end.

(** ** The fields found so far *)

Definition fields := http_parser_url_fields -> option (Z * Z).

Definition no_fields : fields := fun _ => None.

Definition put (f : http_parser_url_fields) (o n : Z) (g : fields) : fields :=
  fun f' => if uf_eqb f' f then Some (o, n) else g f'.

Record fields_are (u : http_parser_url) (g : fields) : Prop := {
  are_port : port u = 0;
  are_set : forall f, field_is_set f u = match g f with Some _ => true | None => false end;
  are_data : forall f o n, g f = Some (o, n) -> field_data u f = mk_url_field o n
}.

Lemma fields_start f q u g :
  fields_are u g -> 0 <= q < 65536 ->
  fields_are (mark_field f (set_len f 1 (set_off f q u))) (put f q 1 g).
Proof.
  intros [Hp Hs Hd] Hq. constructor; [exact Hp|..]; intros f'; autorewrite with url; unfold put;
    destruct (uf_eqb f' f); try apply Hs; try reflexivity.
  - intros o n E. injection E as <- <-. cbn [off len]. rewrite !wrap_small by lia. reflexivity.
  - apply Hd.
Qed.

Lemma fields_incr f o n u g :
  fields_are u g -> g f = Some (o, n) -> 0 <= n < 65535 ->
  fields_are (incr_len f u) (put f o (n + 1) g).
Proof.
  intros [Hp Hs Hd] Hf Hn. constructor; [exact Hp|..]; intros f'; autorewrite with url; unfold put;
    destruct (uf_eqb_spec f' f) as [->|]; try apply Hs; try apply Hd.
  - rewrite Hs, Hf. reflexivity.
  - intros o' n' E. injection E as <- <-. rewrite (Hd f o n Hf). cbn [off len].
    rewrite wrap_small by lia. reflexivity.
Qed.

Lemma fields_ext u g g' : fields_are u g -> (forall f, g f = g' f) -> fields_are u g'.
Proof.
  intros [Hp Hs Hd] Hg. constructor;
    [exact Hp | intros f; rewrite <- Hg; apply Hs | intros f o n Hx; apply Hd; rewrite Hg; exact Hx].
Qed.

Lemma put_put f o n m g f' : put f o n (put f o m g) f' = put f o n g f'.
Proof. unfold put. destruct (uf_eqb f' f); reflexivity. Qed.

Lemma put_same f o n g : put f o n g f = Some (o, n).
Proof. unfold put. destruct (uf_eqb_spec f f); congruence. Qed.

(** ** Runs of the two loops over a piece of the URL *)

Variables url rest : list Z.
Abbreviation buf := (url ++ rest).
Hypothesis url_small : zlen url <= 65535.

Lemma next_byte q c l :
  next_bytes url q (c :: l) -> byte_at buf q = Some c /\ 0 <= q < zlen url /\ next_bytes url (q + 1) l.
Proof.
  intros Hb. apply next_bytes_cons in Hb as (Hb & Hq & Hl).
  rewrite byte_at_app_l by lia. auto.
Qed.

Definition runs (seg : list Z) (q : Z) (s : state) (old : http_parser_url_fields) (fa : bool)
  (g : fields) (s' : state) (old' : http_parser_url_fields) (fa' : bool) (g' : fields) : Prop :=
  forall u, fields_are u g -> exists u', fields_are u' g' /\ forall n,
    url_loop (length seg + n) buf q s old fa u =
    url_loop n buf (q + zlen seg) s' old' fa' u'.

Lemma runs_app l1 l2 q s old fa g s1 old1 fa1 g1 s2 old2 fa2 g2 :
  runs l1 q s old fa g s1 old1 fa1 g1 ->
  runs l2 (q + zlen l1) s1 old1 fa1 g1 s2 old2 fa2 g2 ->
  runs (l1 ++ l2) q s old fa g s2 old2 fa2 g2.
Proof.
  intros H1 H2 u Hu. destruct (H1 u Hu) as (u1 & Hu1 & E1). destruct (H2 u1 Hu1) as (u2 & Hu2 & E2).
  exists u2. split; [exact Hu2|]. intros n.
  rewrite length_app, <- Nat.add_assoc, E1, E2, zlen_app, Z.add_assoc. reflexivity.
Qed.

Lemma runs_nil q s old fa g g' :
  (forall f, g f = g' f) -> runs [] q s old fa g s old fa g'.
Proof.
  intros Hg u Hu. exists u. split; [eapply fields_ext; eassumption|]. intros n.
  change (zlen (@nil Z)) with 0. rewrite Z.add_0_r. reflexivity.
Qed.

(** A character that belongs to no field. *)
Lemma runs_skip c q s old fa g s' :
  next_bytes url q [c] -> parse_url_char s c = s' -> url_field_of s' = Url_continue ->
  runs [c] q s old fa g s' old fa g.
Proof.
  intros Hb Hs Hf u Hu. apply next_byte in Hb as (Hb & _ & _).
  exists u. split; [exact Hu|]. intros n. cbn [length Nat.add url_loop].
  rewrite Hb, Hs, Hf. reflexivity.
Qed.

(** The first character of a field. *)
Lemma runs_first c q s old fa g s' uf :
  next_bytes url q [c] -> parse_url_char s c = s' -> url_field_of s' = Url_field uf -> uf <> old ->
  runs [c] q s old fa g s' uf (fa || state_eqb s' s_req_server_with_at) (put uf q 1 g).
Proof.
  intros Hb Hs Hf Hne u Hu. apply next_byte in Hb as (Hb & Hq & _).
  exists (url_extend uf old q u). split.
  - unfold url_extend. destruct (uf_eqb_spec uf old); [contradiction|]. apply fields_start; [exact Hu|lia].
  - intros n. cbn [length Nat.add url_loop]. rewrite Hb, Hs, Hf. reflexivity.
Qed.

(** One more character of a field. *)
Lemma runs_next c q s fa g s' uf o n :
  next_bytes url q [c] -> parse_url_char s c = s' -> url_field_of s' = Url_field uf ->
  0 <= o -> 0 <= n -> q = o + n ->
  runs [c] q s uf fa (put uf o n g) s' uf (fa || state_eqb s' s_req_server_with_at)
    (put uf o (n + 1) g).
Proof.
  intros Hb Hs Hf Ho Hn -> u Hu. apply next_byte in Hb as (Hb & Hq & _).
  exists (url_extend uf uf (o + n) u). split.
  - unfold url_extend. destruct (uf_eqb_spec uf uf); [|contradiction].
    eapply fields_ext; [apply (fields_incr uf o n); [exact Hu | apply put_same | lia]|].
    intros f. apply put_put.
  - intros m. cbn [length Nat.add url_loop]. rewrite Hb, Hs, Hf. reflexivity.
Qed.

(** The characters of a field that stay in one state. *)
Lemma runs_many seg s uf fa g o n :
  s <> s_req_server_with_at -> url_field_of s = Url_field uf ->
  Forall (fun c => parse_url_char s c = s) seg ->
  next_bytes url (o + n) seg -> 0 <= o -> 0 <= n ->
  runs seg (o + n) s uf fa (put uf o n g) s uf fa (put uf o (n + zlen seg) g).
Proof.
  intros Hs Hf Hseg. revert n. induction Hseg as [|c seg Hc _ IH]; intros n Hb Ho Hn.
  - apply runs_nil. intros f. rewrite Z.add_0_r. reflexivity.
  - change (c :: seg) with ([c] ++ seg) in *. apply next_bytes_app in Hb as [Hb Hb'].
    change (zlen [c]) with 1 in Hb'.
    replace fa with (fa || state_eqb s s_req_server_with_at) at 2
      by (destruct (state_eqb_spec s s_req_server_with_at); [contradiction | apply orb_false_r]).
    eapply runs_app; [apply runs_next; eauto|].
    replace (fa || state_eqb s s_req_server_with_at) with fa
      by (destruct (state_eqb_spec s s_req_server_with_at); [contradiction | symmetry; apply orb_false_r]).
    rewrite zlen_app. change (zlen [c]) with 1.
    replace (n + (1 + zlen seg)) with (n + 1 + zlen seg) by lia.
    replace (o + n + 1) with (o + (n + 1)) in * by lia. apply IH; assumption || lia.
Qed.

(** A whole field. *)
Lemma runs_field c l q s old fa g s1 uf :
  s1 <> s_req_server_with_at -> url_field_of s1 = Url_field uf -> uf <> old ->
  parse_url_char s c = s1 -> Forall (fun c => parse_url_char s1 c = s1) l ->
  next_bytes url q (c :: l) ->
  runs (c :: l) q s old fa g s1 uf fa (put uf q (zlen (c :: l)) g).
Proof.
  intros Hs Hf Hne Hc Hl Hb. change (c :: l) with ([c] ++ l) in *.
  apply next_bytes_app in Hb as [Hb Hb']. change (zlen [c]) with 1 in Hb'.
  assert (fa = fa || state_eqb s1 s_req_server_with_at) as Hfa
    by (destruct (state_eqb_spec s1 s_req_server_with_at); [contradiction | symmetry; apply orb_false_r]).
  eapply runs_app; [apply runs_first; eassumption|]. rewrite <- Hfa, zlen_app.
  change (zlen [c]) with 1. destruct Hb as [Hq _]. apply runs_many; assumption || lia.
Qed.

(** *** The character classes *)

(** The characters that end every URL. *)
Definition live (c : Z) : Prop :=
  (c =? " "%chr) || (c =? CR) || (c =? LF) = false /\
  HTTP_PARSER_STRICT && ((c =? HT) || (c =? FF)) = false.

Lemma live_when (cls : Z -> bool) c :
  cls c = true ->
  cls 32 || cls 13 || cls 10 || (HTTP_PARSER_STRICT && (cls 9 || cls 12)) = false -> live c.
Proof.
  intros Hc Hcls. apply orb_false_elim in Hcls as [Hcls H4].
  apply orb_false_elim in Hcls as [Hcls H3]. apply orb_false_elim in Hcls as [H1 H2].
  unfold live. change (" "%chr) with 32. change CR with 13. change LF with 10.
  change HT with 9. change FF with 12.
  destruct (Z.eqb_spec c 32), (Z.eqb_spec c 13), (Z.eqb_spec c 10); subst; try congruence.
  split; [reflexivity|]. destruct HTTP_PARSER_STRICT; [|reflexivity]. cbn [andb] in *.
  apply orb_false_elim in H4 as [H4 H5].
  destruct (Z.eqb_spec c 9), (Z.eqb_spec c 12); subst; congruence || reflexivity.
Qed.

Lemma url_char_live c : IS_URL_CHAR c = true -> live c.
Proof.
  intros Hc. apply (live_when IS_URL_CHAR c Hc). unfold IS_URL_CHAR.
  destruct HTTP_PARSER_STRICT; reflexivity.
Qed.

Lemma userinfo_char_live c : IS_USERINFO_CHAR c = true -> live c.
Proof. intros Hc. apply (live_when _ c Hc). destruct HTTP_PARSER_STRICT; reflexivity. Qed.

Lemma alpha_live c : IS_ALPHA c = true -> live c.
Proof. intros Hc. apply (live_when _ c Hc). destruct HTTP_PARSER_STRICT; reflexivity. Qed.

Ltac live_step H :=
  unfold parse_url_char; destruct H as [-> ->]; cbn [state_eqb state_num Z.eqb Pos.eqb andb].

(** A character of a class that lacks [n] is not [n]. *)
Ltac not_chars c cls :=
  repeat match goal with
  | |- context [c =? ?n] =>
      replace (c =? n) with false
        by (destruct (Z.eqb_spec c n) as [->|]; [discriminate cls | reflexivity])
  end.

Lemma schema_first c : IS_ALPHA c = true -> parse_url_char s_req_spaces_before_url c = s_req_schema.
Proof. intros Hc. live_step (alpha_live c Hc). not_chars c Hc. rewrite Hc. reflexivity. Qed.

Lemma schema_more c : IS_ALPHA c = true -> parse_url_char s_req_schema c = s_req_schema.
Proof. intros Hc. live_step (alpha_live c Hc). rewrite Hc. reflexivity. Qed.

(** The characters of an authority other than the at sign. *)
Definition auth_char (c : Z) : bool := IS_USERINFO_CHAR c || (c =? "["%chr) || (c =? "]"%chr).

Lemma auth_step s c :
  auth_char c = true -> s = s_req_server_start \/ in_host s = true -> parse_url_char s c = s_req_server.
Proof.
  intros Hc Hs.
  assert (live c) as Hl by (apply (live_when _ c Hc); destruct HTTP_PARSER_STRICT; reflexivity).
  live_step Hl. not_chars c Hc. unfold auth_char in Hc.
  destruct Hs as [->|Hs]; [|destruct s; try discriminate Hs]; rewrite ?andb_false_r, Hc; reflexivity.
Qed.

Lemma path_more c : IS_URL_CHAR c = true -> parse_url_char s_req_path c = s_req_path.
Proof. intros Hc. live_step (url_char_live c Hc). rewrite Hc. reflexivity. Qed.

Lemma fixed_steps :
  parse_url_char s_req_schema ":"%chr = s_req_schema_slash /\
  parse_url_char s_req_schema_slash "/"%chr = s_req_schema_slash_slash /\
  parse_url_char s_req_schema_slash_slash "/"%chr = s_req_server_start /\
  parse_url_char s_req_server "@"%chr = s_req_server_with_at /\
  parse_url_char s_req_server "/"%chr = s_req_path /\
  parse_url_char s_req_path "?"%chr = s_req_query_string_start /\
  parse_url_char s_req_path "#"%chr = s_req_fragment_start /\
  parse_url_char s_req_query_string "#"%chr = s_req_fragment_start.
Proof.
  unfold parse_url_char, IS_URL_CHAR. destruct HTTP_PARSER_STRICT; repeat split; reflexivity.
Qed.

Lemma query_step s c :
  IS_URL_CHAR c || (c =? "?"%chr) = true -> s = s_req_query_string_start \/ s = s_req_query_string ->
  parse_url_char s c = s_req_query_string.
Proof.
  intros Hc Hs. destruct (IS_URL_CHAR c) eqn:E.
  - destruct Hs as [->| ->]; live_step (url_char_live c E); rewrite E; reflexivity.
  - apply Z.eqb_eq in Hc as ->.
    destruct Hs as [->| ->]; unfold parse_url_char; rewrite E; destruct HTTP_PARSER_STRICT; reflexivity.
Qed.

Lemma fragment_first c :
  IS_URL_CHAR c || (c =? "?"%chr) = true -> parse_url_char s_req_fragment_start c = s_req_fragment.
Proof.
  intros Hc. destruct (IS_URL_CHAR c) eqn:E.
  - live_step (url_char_live c E). rewrite E. reflexivity.
  - apply Z.eqb_eq in Hc as ->. unfold parse_url_char. rewrite E.
    destruct HTTP_PARSER_STRICT; reflexivity.
Qed.

Lemma fragment_more c :
  IS_URL_CHAR c || (c =? "?"%chr) || (c =? "#"%chr) = true ->
  parse_url_char s_req_fragment c = s_req_fragment.
Proof.
  intros Hc. destruct (IS_URL_CHAR c) eqn:E.
  - live_step (url_char_live c E). rewrite E. reflexivity.
  - cbn [orb] in Hc. apply orb_prop in Hc as [Hc|Hc]; apply Z.eqb_eq in Hc as ->;
      unfold parse_url_char; rewrite E; destruct HTTP_PARSER_STRICT; reflexivity.
Qed.

(** *** The parts *)

Lemma some_chars_spec cls l :
  some_chars cls l = true -> exists c l', l = c :: l' /\ cls c = true /\ Forall (fun c => cls c = true) l'.
Proof.
  unfold some_chars. destruct l as [|c l']; [discriminate|]. intros Hx. apply andb_prop in Hx as [_ Hx].
  cbn [forallb] in Hx. apply andb_prop in Hx as [Hc Hl]. exists c, l'. split; [reflexivity|].
  split; [exact Hc|]. apply Forall_forall. intros b Hb. eapply forallb_forall in Hl; eassumption.
Qed.

Lemma userinfo_auth c : IS_USERINFO_CHAR c = true -> auth_char c = true.
Proof. unfold auth_char. intros ->. reflexivity. Qed.

Lemma authority_runs o r q g :
  opt_chars IS_USERINFO_CHAR o = true -> some_chars auth_char r = true ->
  let a := print_opt [] ["@"%chr] o ++ r in
  next_bytes url q a ->
  runs a q s_req_server_start UF_SCHEMA false g s_req_server UF_HOST
    (match o with Some _ => true | None => false end) (put UF_HOST q (zlen a) g).
Proof.
  intros Ho Hr a Hb. subst a. apply some_chars_spec in Hr as (c & r' & -> & Hc & Hr).
  assert (forall l, Forall (fun c => auth_char c = true) l ->
    Forall (fun c => parse_url_char s_req_server c = s_req_server) l) as Hmore.
  { intros l. apply Forall_impl. intros b Hb0. apply auth_step; auto. }
  destruct o as [l|]; cbn [print_opt app] in *; [|apply runs_field; auto using auth_step; discriminate].
  apply some_chars_spec in Ho as (d & l' & -> & Hd & Hl).
  rewrite <- app_assoc in *. apply next_bytes_app in Hb as [Hb1 Hb2].
  destruct Hb1 as [Hq Hb1]. pose proof (zlen_nonneg (d :: l')) as Hz.
  eapply runs_app;
    [apply (runs_field d l' q _ _ _ _ s_req_server UF_HOST); try reflexivity; try discriminate|].
  { apply auth_step; auto using userinfo_auth. }
  { apply Hmore. eapply Forall_impl; [|exact Hl]. exact userinfo_auth. }
  { split; assumption. }
  apply next_bytes_app in Hb2 as [Hb2 Hb3]. change (c :: r') with ([c] ++ r') in *.
  apply next_bytes_app in Hb3 as [Hb3 Hb4]. change (zlen ["@"%chr]) with 1 in *.
  change (zlen [c]) with 1 in *.
  eapply runs_app; [apply (runs_next _ _ _ _ _ s_req_server_with_at); eauto;
    apply fixed_steps|]. cbn [orb state_eqb state_num Z.eqb Pos.eqb]. change (zlen ["@"%chr]) with 1.
  eapply runs_app; [apply (runs_next _ _ _ _ _ s_req_server); eauto; try lia; apply auth_step; auto|].
  change (zlen [c]) with 1. cbn [orb].
  replace (zlen ((d :: l') ++ ["@"%chr] ++ [c] ++ r')) with (zlen (d :: l') + 1 + 1 + zlen r')
    by (rewrite !zlen_app; change (zlen ["@"%chr]) with 1; change (zlen [c]) with 1; lia).
  replace (q + zlen (d :: l') + 1 + 1) with (q + (zlen (d :: l') + 1 + 1)) in * by lia.
  apply runs_many; auto; discriminate || lia.
Qed.

Definition put_opt (f : http_parser_url_fields) (q : Z) (o : option (list Z)) (g : fields) : fields :=
  match o with Some l => put f q (zlen l) g | None => g end.

Lemma path_runs c l q fa g :
  c = "/"%chr -> Forall (fun c => IS_URL_CHAR c = true) l -> next_bytes url q (c :: l) ->
  runs (c :: l) q s_req_server UF_HOST fa g s_req_path UF_PATH fa (put UF_PATH q (zlen (c :: l)) g).
Proof.
  intros -> Hl Hb. apply runs_field; auto; try discriminate; [apply fixed_steps|].
  eapply Forall_impl; [|exact Hl]. exact path_more.
Qed.

(** Where the query leaves the automaton. *)
Definition after_query (o : option (list Z)) : state * http_parser_url_fields :=
  match o with Some _ => (s_req_query_string, UF_QUERY) | None => (s_req_path, UF_PATH) end.

Lemma query_runs o q fa g :
  opt_chars (fun c => IS_URL_CHAR c || (c =? "?"%chr)) o = true ->
  next_bytes url q (print_opt ["?"%chr] [] o) ->
  runs (print_opt ["?"%chr] [] o) q s_req_path UF_PATH fa g
    (fst (after_query o)) (snd (after_query o)) fa (put_opt UF_QUERY (q + 1) o g).
Proof.
  intros Ho Hb. destruct o as [l|]; [|apply runs_nil; reflexivity].
  cbn [opt_chars print_opt after_query fst snd put_opt] in *. rewrite app_nil_r in *.
  apply some_chars_spec in Ho as (c & l' & -> & Hc & Hl). apply next_bytes_app in Hb as [Hb1 Hb2].
  eapply runs_app; [apply (runs_skip _ _ _ _ _ _ s_req_query_string_start); eauto; apply fixed_steps|].
  apply runs_field; auto; try discriminate; [apply query_step; auto|].
  eapply Forall_impl; [|exact Hl]. intros b Hb. apply query_step; auto.
Qed.

Lemma fragment_runs o s q fa g old :
  match o with
  | Some (c :: l) => IS_URL_CHAR c || (c =? "?"%chr) = true /\
      Forall (fun c => IS_URL_CHAR c || (c =? "?"%chr) || (c =? "#"%chr) = true) l
  | Some [] => False
  | None => True
  end -> s = s_req_path \/ s = s_req_query_string -> old <> UF_FRAGMENT ->
  next_bytes url q (print_opt ["#"%chr] [] o) ->
  exists s' old', runs (print_opt ["#"%chr] [] o) q s old fa g s' old' fa
    (put_opt UF_FRAGMENT (q + 1) o g).
Proof.
  intros Ho Hs Hold Hb. destruct o as [l|]; [|do 2 eexists; apply runs_nil; reflexivity].
  cbn [print_opt put_opt] in *. rewrite app_nil_r in *. destruct l as [|c l]; [contradiction|].
  destruct Ho as [Hc Hl]. apply next_bytes_app in Hb as [Hb1 Hb2].
  exists s_req_fragment, UF_FRAGMENT.
  eapply runs_app; [apply (runs_skip _ _ _ _ _ _ s_req_fragment_start); eauto;
    destruct Hs as [->| ->]; apply fixed_steps|].
  apply runs_field; auto; try discriminate; [apply fragment_first; auto|].
  eapply Forall_impl; [|exact Hl]. exact fragment_more.
Qed.

(** *** The loop of [http_parse_host] *)

Definition hruns (seg : list Z) (q : Z) (s : http_host_state) (g : fields)
  (s' : http_host_state) (g' : fields) : Prop :=
  forall u, fields_are u g -> exists u', fields_are u' g' /\ forall n,
    http_parse_host_loop (length seg + n) buf q s u =
    http_parse_host_loop n buf (q + zlen seg) s' u'.

Lemma hruns_app l1 l2 q s g s1 g1 s2 g2 :
  hruns l1 q s g s1 g1 -> hruns l2 (q + zlen l1) s1 g1 s2 g2 -> hruns (l1 ++ l2) q s g s2 g2.
Proof.
  intros H1 H2 u Hu. destruct (H1 u Hu) as (u1 & Hu1 & E1). destruct (H2 u1 Hu1) as (u2 & Hu2 & E2).
  exists u2. split; [exact Hu2|]. intros n.
  rewrite length_app, <- Nat.add_assoc, E1, E2, zlen_app, Z.add_assoc. reflexivity.
Qed.

Lemma hruns_nil q s g g' : (forall f, g f = g' f) -> hruns [] q s g s g'.
Proof.
  intros Hg u Hu. exists u. split; [eapply fields_ext; eassumption|]. intros n.
  change (zlen (@nil Z)) with 0. rewrite Z.add_0_r. reflexivity.
Qed.

(** One character, by what it does to the fields. *)
Lemma hruns_one c q s g s' g' :
  next_bytes url q [c] -> http_parse_host_char s c = s' -> s' <> s_http_host_dead ->
  (forall u, 0 <= q < 65535 -> fields_are u g -> fields_are (host_fields s s' q u) g') ->
  hruns [c] q s g s' g'.
Proof.
  intros Hb Hs Hd Hg u Hu. apply next_byte in Hb as (Hb & Hq & _).
  exists (host_fields s s' q u). split; [apply Hg; [lia | exact Hu]|]. intros n.
  cbn [length Nat.add http_parse_host_loop]. rewrite Hb, Hs. change (zlen [c]) with 1.
  destruct s'; contradiction || reflexivity.
Qed.

Lemma hruns_many seg s f g o n :
  s <> s_http_host_dead -> (forall q u, host_fields s s q u = incr_len f u) ->
  Forall (fun c => http_parse_host_char s c = s) seg ->
  next_bytes url (o + n) seg -> 0 <= o -> 0 <= n ->
  hruns seg (o + n) s (put f o n g) s (put f o (n + zlen seg) g).
Proof.
  intros Hs Hf Hseg. revert n. induction Hseg as [|c seg Hc _ IH]; intros n Hb Ho Hn.
  - apply hruns_nil. intros f'. rewrite Z.add_0_r. reflexivity.
  - change (c :: seg) with ([c] ++ seg) in *. apply next_bytes_app in Hb as [Hb Hb'].
    change (zlen [c]) with 1 in Hb'.
    eapply hruns_app; [apply (hruns_one _ _ _ _ s (put f o (n + 1) g)); auto|].
    + intros u Hq Hu. rewrite Hf. eapply fields_ext; [apply (fields_incr f o n); [exact Hu | apply put_same | lia]|].
      intros f'. apply put_put.
    + rewrite zlen_app. change (zlen [c]) with 1.
      replace (n + (1 + zlen seg)) with (n + 1 + zlen seg) by lia.
      replace (o + n + 1) with (o + (n + 1)) in * by lia. apply IH; assumption || lia.
Qed.

(** A field whose first character goes to [s1] and whose others stay there. *)
Lemma hruns_field c l q s s1 f g :
  s1 <> s_http_host_dead -> (forall q u, host_fields s1 s1 q u = incr_len f u) ->
  http_parse_host_char s c = s1 -> Forall (fun c => http_parse_host_char s1 c = s1) l ->
  (forall u, 0 <= q < 65535 -> fields_are u g -> fields_are (host_fields s s1 q u) (put f q 1 g)) ->
  next_bytes url q (c :: l) -> hruns (c :: l) q s g s1 (put f q (zlen (c :: l)) g).
Proof.
  intros Hs Hf Hc Hl Hg Hb. change (c :: l) with ([c] ++ l) in *.
  apply next_bytes_app in Hb as [Hb Hb']. change (zlen [c]) with 1 in Hb'.
  eapply hruns_app; [apply hruns_one; eassumption|]. rewrite zlen_app. change (zlen [c]) with 1.
  destruct Hb as [Hq _]. apply hruns_many; assumption || lia.
Qed.

(** Starting the three fields. *)
Lemma fields_host_start q u g o :
  fields_are u g -> g UF_HOST = Some (o, 0) -> 0 <= q < 65535 ->
  fields_are (incr_len UF_HOST (set_off UF_HOST q u)) (put UF_HOST q 1 g).
Proof.
  intros [Hp Hs Hd] Hg Hq. constructor; [exact Hp|..]; intros f; autorewrite with url; unfold put;
    destruct (uf_eqb_spec f UF_HOST) as [->|]; try apply Hs; try apply Hd.
  - rewrite Hs, Hg. reflexivity.
  - intros o' n' E. injection E as <- <-. cbn [uf_eqb uf_num Z.eqb Pos.eqb].
    rewrite (Hd _ _ _ Hg). cbn [off len]. rewrite !wrap_small by lia. reflexivity.
Qed.

Lemma fields_mark_start f q u g :
  fields_are u g -> 0 <= q < 65535 ->
  fields_are (incr_len f (mark_field f (set_len f 0 (set_off f q u)))) (put f q 1 g).
Proof.
  intros [Hp Hs Hd] Hq. constructor; [exact Hp|..]; intros f'; autorewrite with url; unfold put;
    destruct (uf_eqb_spec f' f) as [->|]; try apply Hs; try apply Hd; try reflexivity.
  destruct (uf_eqb_spec f f); [|contradiction].
  intros o' n' E. injection E as <- <-. cbn [off len]. rewrite !wrap_small by lia. reflexivity.
Qed.

Lemma fields_empty f o n u g :
  fields_are u g -> g f = Some (o, n) -> fields_are (set_len f 0 u) (put f o 0 g).
Proof.
  intros [Hp Hs Hd] Hg. constructor; [exact Hp|..]; intros f'; autorewrite with url; unfold put;
    destruct (uf_eqb_spec f' f) as [->|]; try apply Hs; try apply Hd.
  - rewrite Hs, Hg. reflexivity.
  - intros o' n' E. injection E as <- <-. rewrite (Hd _ _ _ Hg). reflexivity.
Qed.

Lemma userinfo_hruns o q g :
  opt_chars IS_USERINFO_CHAR o = true -> next_bytes url q (print_opt [] ["@"%chr] o) ->
  hruns (print_opt [] ["@"%chr] o) q
    (match o with Some _ => s_http_userinfo_start | None => s_http_host_start end) g
    s_http_host_start (put_opt UF_USERINFO q o g).
Proof.
  intros Ho Hb. destruct o as [l|]; [|apply hruns_nil; reflexivity].
  cbn [opt_chars print_opt put_opt app] in *. apply next_bytes_app in Hb as [Hb1 Hb2].
  apply some_chars_spec in Ho as (c & l' & -> & Hc & Hl).
  assert (forall s b, s = s_http_userinfo_start \/ s = s_http_userinfo -> IS_USERINFO_CHAR b = true ->
    http_parse_host_char s b = s_http_userinfo) as Hstep.
  { intros s b [->| ->] Hb; cbn [http_parse_host_char]; not_chars b Hb; rewrite Hb; reflexivity. }
  eapply hruns_app; [apply (hruns_field c l' q _ s_http_userinfo UF_USERINFO); auto; try discriminate|].
  - eapply Forall_impl; [|exact Hl]. auto.
  - intros u Hq Hu. apply fields_mark_start; assumption.
  - apply hruns_one; auto; try reflexivity. discriminate.
Qed.

Definition host_offset (h : url_host) : Z := match h with Reg_name _ => 0 | Ipv6 _ => 1 end.

Definition host_end (h : url_host) : http_host_state :=
  match h with Reg_name _ => s_http_host | Ipv6 _ => s_http_host_v6_end end.

Lemma host_char_auth c : IS_HOST_CHAR c = true -> auth_char c = true.
Proof.
  unfold IS_HOST_CHAR, auth_char, IS_USERINFO_CHAR, IS_MARK, IS_ALPHANUM. destruct HTTP_PARSER_STRICT; intros Hc;
    repeat (apply orb_prop in Hc as [Hc|Hc]); rewrite Hc; rewrite ?orb_true_r; reflexivity.
Qed.

Lemma host_hruns h q g o :
  host_ok h = true -> g UF_HOST = Some (o, 0) -> next_bytes url q (print_host h) ->
  hruns (print_host h) q s_http_host_start g (host_end h)
    (put UF_HOST (q + host_offset h) (zlen (host_bytes h)) g).
Proof.
  intros Hh Hg Hb. destruct h as [l|l]; cbn [print_host host_bytes host_end host_ok host_offset] in *.
  - rewrite Z.add_0_r. apply some_chars_spec in Hh as (c & l' & -> & Hc & Hl).
    apply hruns_field; auto; try discriminate.
    + cbn [http_parse_host_char]. rewrite Hc. destruct (Z.eqb_spec c "["%chr) as [->|]; [|reflexivity].
      unfold IS_HOST_CHAR in Hc. destruct HTTP_PARSER_STRICT; discriminate.
    + eapply Forall_impl; [|exact Hl]. intros b Hb0. cbn [http_parse_host_char]. rewrite Hb0. reflexivity.
    + intros u Hq Hu. eapply fields_host_start; eassumption.
  - apply some_chars_spec in Hh as (c & l' & -> & Hc & Hl).
    apply next_bytes_app in Hb as [Hb1 Hb2]. apply next_bytes_app in Hb2 as [Hb2 Hb3].
    eapply hruns_app; [apply (hruns_one _ _ _ _ s_http_host_v6_start g); auto; discriminate|].
    change (zlen ["["%chr]) with 1 in *.
    eapply hruns_app; [apply (hruns_field c l' _ _ s_http_host_v6 UF_HOST); auto; try discriminate|].
    + cbn [http_parse_host_char]. unfold v6_char in Hc. rewrite Hc. reflexivity.
    + eapply Forall_impl; [|exact Hl]. intros b Hb0. cbn [http_parse_host_char]. not_chars b Hb0.
      unfold v6_char in Hb0. not_chars b Hb0. rewrite Hb0. reflexivity.
    + intros u Hq Hu. eapply fields_host_start; eassumption.
    + apply hruns_one; auto; reflexivity || discriminate.
Qed.

Lemma port_hruns o h q g :
  opt_chars IS_NUM o = true -> next_bytes url q (print_opt [":"%chr] [] o) ->
  exists s', hruns (print_opt [":"%chr] [] o) q (host_end h) g s' (put_opt UF_PORT (q + 1) o g) /\
    host_end_error s' = false.
Proof.
  intros Ho Hb. destruct o as [l|].
  2: { exists (host_end h). split; [apply hruns_nil; reflexivity | destruct h; reflexivity]. }
  cbn [opt_chars print_opt put_opt] in *. rewrite app_nil_r in *. apply next_bytes_app in Hb as [Hb1 Hb2].
  apply some_chars_spec in Ho as (c & l' & -> & Hc & Hl). exists s_http_host_port. split; [|reflexivity].
  eapply hruns_app; [apply (hruns_one _ _ _ _ s_http_host_port_start g); auto; try discriminate|].
  - destruct h; cbn [host_end http_parse_host_char]; [|reflexivity].
    unfold IS_HOST_CHAR. destruct HTTP_PARSER_STRICT; reflexivity.
  - apply hruns_field; auto; try discriminate; cbn [http_parse_host_char].
    + rewrite Hc. reflexivity.
    + eapply Forall_impl; [|exact Hl]. intros b ->. reflexivity.
    + intros u Hq Hu. apply fields_mark_start; assumption.
Qed.

(** *** The whole URL *)

(** The fields spell these strings. *)
Definition spells (g : fields) (b : http_parser_url_fields -> option (list Z)) : Prop :=
  forall f, match g f, b f with
  | Some (o, n), Some l => next_bytes url o l /\ n = zlen l
  | None, None => True
  | _, _ => False
  end.

Lemma spells_field u g b f :
  fields_are u g -> spells g b ->
  b f = if field_is_set f u then Some (field_bytes buf u f) else None.
Proof.
  intros [_ Hs Hd] Hg. specialize (Hg f). rewrite Hs. destruct (g f) as [[o n]|] eqn:E;
    destruct (b f) as [l|]; try contradiction; [|reflexivity].
  destruct Hg as [Hl ->]. unfold field_bytes. rewrite (Hd f _ _ E). cbn [off len].
  f_equal. symmetry. apply next_bytes_slice. destruct Hl as [Hq Hl]. split; [exact Hq|].
  intros i c Hc. specialize (Hl i c Hc). rewrite byte_at_app_l; [exact Hl|].
  apply (proj2 (byte_at_Some url _)). eauto.
Qed.

Lemma next_bytes_opt q before o :
  next_bytes url q (print_opt before [] o) ->
  match o with Some l => next_bytes url (q + zlen before) l | None => True end.
Proof.
  destruct o as [l|]; [|auto]. cbn [print_opt]. rewrite app_nil_r. intros Hb.
  apply next_bytes_app in Hb. apply Hb.
Qed.

Lemma some_chars_app cls l1 l2 :
  some_chars cls l1 = true -> forallb cls l2 = true -> some_chars cls (l1 ++ l2) = true.
Proof.
  unfold some_chars. intros H1 H2. apply andb_prop in H1 as [H0 H1].
  rewrite forallb_app, H1, H2, zlen_app. pose proof (zlen_nonneg l2). pose proof (zlen_nonneg l1).
  destruct (Z.eqb_spec (zlen l1) 0), (Z.eqb_spec (zlen l1 + zlen l2) 0); auto; lia || discriminate.
Qed.

Lemma some_chars_impl (c1 c2 : Z -> bool) l :
  (forall c, c1 c = true -> c2 c = true) -> some_chars c1 l = true -> some_chars c2 l = true.
Proof.
  intros Hc. unfold some_chars. intros Hl. apply andb_prop in Hl as [-> Hl]. apply forallb_forall.
  intros c Hin. apply Hc. eapply forallb_forall in Hl; eassumption.
Qed.

Lemma hex_auth c : v6_char c = true -> auth_char c = true.
Proof.
  unfold v6_char, IS_HEX. intros Hc. apply orb_prop in Hc as [Hc|Hc].
  2: apply Z.eqb_eq in Hc as ->; reflexivity.
  apply orb_prop in Hc as [Hc|Hc]; [|apply Z.eqb_eq in Hc as ->; reflexivity].
  apply userinfo_auth. unfold IS_USERINFO_CHAR, IS_ALPHANUM, IS_ALPHA.
  apply orb_prop in Hc as [Hc|Hc]; [rewrite Hc, orb_true_r; reflexivity|].
  apply andb_prop in Hc as [Hc1 Hc2]. rewrite Hc1. apply Z.leb_le in Hc2.
  replace (LOWER c <=? "z"%chr) with true; [reflexivity|]. symmetry. apply Z.leb_le. lia.
Qed.

Lemma host_port_auth h o :
  host_ok h = true -> opt_chars IS_NUM o = true ->
  some_chars auth_char (print_host h ++ print_opt [":"%chr] [] o) = true.
Proof.
  intros Hh Ho. apply some_chars_app.
  - destruct h as [l|l]; cbn [host_ok print_host] in *.
    + eapply some_chars_impl; [exact host_char_auth | exact Hh].
    + apply some_chars_app; [reflexivity|]. apply (some_chars_impl _ _ _ hex_auth) in Hh.
      apply andb_prop in Hh as [_ Hh]. rewrite forallb_app, Hh. reflexivity.
  - destruct o as [l|]; [|reflexivity]. cbn [print_opt opt_chars] in *. rewrite app_nil_r.
    cbn [forallb app]. apply andb_prop in Ho as [_ Ho]. apply forallb_forall. intros c Hc.
    eapply forallb_forall in Ho; [|exact Hc]. apply userinfo_auth.
    unfold IS_USERINFO_CHAR, IS_ALPHANUM. rewrite Ho, orb_true_r. reflexivity.
Qed.

(** The offsets of the parts. *)
Definition authority (x : url_parts) : list Z :=
  print_opt [] ["@"%chr] (part_userinfo x) ++ print_host (part_host x) ++
  print_opt [":"%chr] [] (part_port x).

Definition at_authority (x : url_parts) : Z := zlen (part_schema x) + 3.
Definition at_host (x : url_parts) : Z :=
  at_authority x + zlen (print_opt [] ["@"%chr] (part_userinfo x)).
Definition at_port (x : url_parts) : Z := at_host x + zlen (print_host (part_host x)).
Definition at_path (x : url_parts) : Z := at_authority x + zlen (authority x).
Definition at_query (x : url_parts) : Z := at_path x + zlen (part_path x).
Definition at_fragment (x : url_parts) : Z :=
  at_query x + zlen (print_opt ["?"%chr] [] (part_query x)).

(** The conditions on the parts and where they are. *)
Record placed (x : url_parts) : Prop := {
  pl_schema : some_chars IS_ALPHA (part_schema x) = true /\ next_bytes url 0 (part_schema x);
  pl_slashes : next_bytes url (zlen (part_schema x)) (bytes "://");
  pl_userinfo : opt_chars IS_USERINFO_CHAR (part_userinfo x) = true /\
    next_bytes url (at_authority x) (print_opt [] ["@"%chr] (part_userinfo x));
  pl_host : host_ok (part_host x) = true /\ next_bytes url (at_host x) (print_host (part_host x));
  pl_port : opt_chars IS_NUM (part_port x) = true /\
    next_bytes url (at_port x) (print_opt [":"%chr] [] (part_port x));
  pl_authority : next_bytes url (at_authority x) (authority x);
  pl_path : exists l, part_path x = "/"%chr :: l /\ Forall (fun c => IS_URL_CHAR c = true) l /\
    next_bytes url (at_path x) (part_path x);
  pl_query : opt_chars (fun c => IS_URL_CHAR c || (c =? "?"%chr)) (part_query x) = true /\
    next_bytes url (at_query x) (print_opt ["?"%chr] [] (part_query x));
  pl_fragment : match part_fragment x with
    | Some (c :: l) => IS_URL_CHAR c || (c =? "?"%chr) = true /\
        Forall (fun c => IS_URL_CHAR c || (c =? "?"%chr) || (c =? "#"%chr) = true) l
    | Some [] => False
    | None => True
    end /\ next_bytes url (at_fragment x) (print_opt ["#"%chr] [] (part_fragment x));
  pl_port_value : port_value x <= 65535
}.

Lemma parts_placed x : url_parts_ok x = true -> url = print_url x -> placed x.
Proof.
  intros Hx Hu. pose proof (next_bytes_all url) as Hb. rewrite Hu in Hb at 2.
  unfold print_url in Hb. fold (authority x) in Hb.
  apply next_bytes_app in Hb as [H1 Hb]. apply next_bytes_app in Hb as [H2 Hb].
  apply next_bytes_app in Hb as [H3 Hb]. apply next_bytes_app in Hb as [H4 Hb].
  apply next_bytes_app in Hb as [H5 H6]. change (zlen (bytes "://")) with 3 in *.
  rewrite Z.add_0_l in *. fold (at_authority x) in *. fold (at_path x) in *. fold (at_query x) in *.
  pose proof H3 as Ha. unfold authority in Ha. apply next_bytes_app in Ha as [Ha1 Ha].
  apply next_bytes_app in Ha as [Ha2 Ha3]. fold (at_host x) in *. fold (at_port x) in *.
  unfold url_parts_ok in Hx. do 7 apply andb_prop in Hx as [Hx ?].
  constructor; auto.
  - destruct (part_path x) as [|c l]; [discriminate|].
    match goal with K : (c =? _) && _ = true |- _ => apply andb_prop in K as [K1 K2] end.
    apply Z.eqb_eq in K1 as ->. exists l. split; [reflexivity|]. split; [|assumption].
    apply Forall_forall. intros b Hb. eapply forallb_forall in K2; eassumption.
  - split; [|assumption]. destruct (part_fragment x) as [[|c l]|]; [discriminate| |exact I].
    match goal with K : _ && forallb _ _ = true |- _ => apply andb_prop in K as [K1 K2] end.
    split; [exact K1|]. apply Forall_forall. intros b Hb. eapply forallb_forall in K2; eassumption.
  - apply Z.leb_le. assumption.
Qed.

Definition has_userinfo (x : url_parts) : bool :=
  match part_userinfo x with Some _ => true | None => false end.

(** The fields after the first loop, the host field being the whole authority. *)
Definition loop_fields (x : url_parts) : fields :=
  put_opt UF_FRAGMENT (at_fragment x + 1) (part_fragment x)
  (put_opt UF_QUERY (at_query x + 1) (part_query x)
  (put UF_PATH (at_path x) (zlen (part_path x))
  (put UF_HOST (at_authority x) (zlen (authority x))
  (put UF_SCHEMA 0 (zlen (part_schema x)) no_fields)))).

Lemma url_runs x :
  placed x -> url = print_url x -> exists s old,
  runs url 0 s_req_spaces_before_url UF_MAX false no_fields s old (has_userinfo x) (loop_fields x).
Proof.
  intros [[Hs Hs'] Hsl [Hu _] [Hh _] [Hp _] Ha (l & Hl & Hpath & Hpath') [Hq Hq'] [Hf Hf'] _] Hx.
  edestruct (fragment_runs (part_fragment x) (fst (after_query (part_query x))) (at_fragment x)
    (has_userinfo x) (put_opt UF_QUERY (at_query x + 1) (part_query x)
      (put UF_PATH (at_path x) (zlen (part_path x))
      (put UF_HOST (at_authority x) (zlen (authority x))
      (put UF_SCHEMA 0 (zlen (part_schema x)) no_fields))))
    (snd (after_query (part_query x)))) as (s & old & Hfr); auto.
  1, 2: destruct (part_query x); cbn; auto; discriminate.
  exists s, old. rewrite Hx at 1. unfold print_url. fold (authority x).
  apply some_chars_spec in Hs as (c & sch & Hsch & Hc & Hcs).
  eapply runs_app.
  { rewrite Hsch. apply (runs_field c sch 0 _ _ _ _ s_req_schema UF_SCHEMA); try discriminate; auto.
    - apply schema_first, Hc.
    - eapply Forall_impl; [|exact Hcs]. exact schema_more.
    - rewrite <- Hsch. exact Hs'. }
  rewrite <- Hsch, Z.add_0_l. destruct fixed_steps as (E1 & E2 & E3 & _).
  change (bytes "://") with ([":"%chr] ++ ["/"%chr] ++ ["/"%chr]) in *.
  apply next_bytes_app in Hsl as [Hsl1 Hsl]. apply next_bytes_app in Hsl as [Hsl2 Hsl3].
  rewrite <- !app_assoc.
  eapply runs_app; [eapply runs_skip; [exact Hsl1 | exact E1 | reflexivity]|].
  eapply runs_app; [eapply runs_skip; [exact Hsl2 | exact E2 | reflexivity]|].
  eapply runs_app; [eapply runs_skip; [exact Hsl3 | exact E3 | reflexivity]|].
  replace (zlen (part_schema x) + zlen [":"%chr] + zlen ["/"%chr] + zlen ["/"%chr])
    with (at_authority x) by (unfold at_authority; change (zlen [_]) with 1; lia).
  eapply runs_app; [apply authority_runs; [exact Hu | apply host_port_auth; assumption | exact Ha]|].
  fold (authority x) (at_path x). rewrite Hl in Hpath' |- *.
  eapply runs_app; [apply path_runs; [reflexivity | exact Hpath | exact Hpath']|].
  rewrite <- Hl. fold (at_query x).
  eapply runs_app; [apply query_runs; assumption|]. exact Hfr.
Qed.

(** The fields after [http_parse_host]. *)
Definition final_fields (x : url_parts) : fields :=
  put_opt UF_PORT (at_port x + 1) (part_port x)
  (put UF_HOST (at_host x + host_offset (part_host x)) (zlen (host_bytes (part_host x)))
  (put_opt UF_USERINFO (at_authority x) (part_userinfo x)
  (put UF_HOST (at_authority x) 0 (loop_fields x)))).

Lemma host_placed h q :
  next_bytes url q (print_host h) -> next_bytes url (q + host_offset h) (host_bytes h).
Proof.
  destruct h as [l|l]; cbn [print_host host_offset host_bytes]; intros Hb.
  - rewrite Z.add_0_r. exact Hb.
  - apply next_bytes_app in Hb as [_ Hb]. apply next_bytes_app in Hb as [Hb _]. exact Hb.
Qed.

Lemma final_fields_spell x : placed x -> spells (final_fields x) (part x).
Proof.
  intros [[_ Hs] _ [_ Hu] [_ Hh] [_ Hp] Ha (l & _ & _ & Hpath) [_ Hq] [_ Hf] _].
  apply host_placed in Hh. apply next_bytes_opt in Hp, Hq, Hf.
  assert (match part_userinfo x with Some l => next_bytes url (at_authority x) l | None => True end) as Hu'.
  { destruct (part_userinfo x); [|exact I]. cbn [print_opt app] in Hu.
    apply next_bytes_app in Hu as [Hu _]. exact Hu. }
  intros f. unfold final_fields, loop_fields, put_opt, part.
  destruct f, (part_port x), (part_userinfo x), (part_query x), (part_fragment x); split || exact I;
    (assumption || reflexivity).
Qed.

Lemma has_host x : loop_fields x UF_HOST = Some (at_authority x, zlen (authority x)).
Proof. unfold loop_fields, put_opt. destruct (part_fragment x), (part_query x); reflexivity. Qed.

Lemma http_parse_host_placed x u :
  placed x -> fields_are u (loop_fields x) ->
  exists u', http_parse_host buf u (has_userinfo x) = UrlReturn 0 u' /\ fields_are u' (final_fields x).
Proof.
  intros [_ _ [Hu Hu'] [Hh Hh'] [Hp Hp'] Ha _ _ _ _] Hf. pose proof (has_host x) as Hhost.
  unfold http_parse_host. rewrite (are_set _ _ Hf), Hhost, (are_data _ _ Hf _ _ _ Hhost).
  cbn [negb off len]. replace (at_authority x + zlen (authority x) - at_authority x)
    with (zlen (authority x)) by lia.
  destruct (port_hruns (part_port x) (part_host x) (at_port x)
    (put UF_HOST (at_host x + host_offset (part_host x)) (zlen (host_bytes (part_host x)))
      (put_opt UF_USERINFO (at_authority x) (part_userinfo x)
      (put UF_HOST (at_authority x) 0 (loop_fields x))))) as (s & Hport & Hend); auto.
  assert (hruns (authority x) (at_authority x)
    (if has_userinfo x then s_http_userinfo_start else s_http_host_start)
    (put UF_HOST (at_authority x) 0 (loop_fields x)) s (final_fields x)) as Hrun.
  { replace (if has_userinfo x then s_http_userinfo_start else s_http_host_start) with
      (match part_userinfo x with Some _ => s_http_userinfo_start | None => s_http_host_start end)
      by (unfold has_userinfo; destruct (part_userinfo x); reflexivity).
    eapply hruns_app; [apply userinfo_hruns; assumption|]. fold (at_host x).
    eapply hruns_app; [eapply host_hruns; eauto|exact Hport].
    destruct (part_userinfo x); reflexivity. }
  destruct (Hrun _ (fields_empty _ _ _ _ _ Hf Hhost)) as (u' & Hu2 & Hloop).
  exists u'. split; [|exact Hu2]. specialize (Hloop O). rewrite Nat.add_0_r in Hloop.
  unfold zlen at 1. rewrite Nat2Z.id, Hloop. cbn [http_parse_host_loop]. rewrite Hend. reflexivity.
Qed.

Lemma url_finish_placed x u :
  placed x -> fields_are u (loop_fields x) ->
  exists u', url_finish buf false (has_userinfo x) u = UrlReturn 0 u' /\ port u' = port_value x /\
    (forall f, part x f = if field_is_set f u' then Some (field_bytes buf u' f) else None) /\
    forall f o n, final_fields x f = Some (o, n) -> field_data u' f = mk_url_field o n.
Proof.
  intros Hpl Hu. destruct (http_parse_host_placed x u Hpl Hu) as (u' & Hx & Hu').
  pose proof (final_fields_spell x Hpl) as Hsp.
  unfold url_finish. rewrite (are_set _ _ Hu UF_HOST), has_host. cbn [negb]. rewrite andb_false_r, Hx.
  cbn [Z.eqb negb]. unfold url_finish_port, port_value. cbn [andb].
  pose proof (spells_field u' _ _ UF_PORT Hu' Hsp) as Hport. cbn [part] in Hport.
  destruct (field_is_set UF_PORT u') eqn:Hset; rewrite Hport.
  2: { exists u'. split; [reflexivity|]. split; [apply Hu'|]. split; [|apply Hu'].
       intros f. exact (spells_field u' _ _ f Hu' Hsp). }
  destruct Hpl as [_ _ _ _ [Hd Hp] _ (l & Hl & _ & Hpath) _ _ Hval].
  unfold port_value in Hval. rewrite Hport in Hd, Hval. cbn [opt_chars] in Hd.
  apply some_chars_spec in Hd as (d & ds & Hds & Hd & Hdd).
  assert (digits (field_bytes buf u' UF_PORT)) as Hdig by (rewrite Hds; constructor; assumption).
  assert (field_data u' UF_PORT = mk_url_field (at_port x + 1) (zlen (field_bytes buf u' UF_PORT))) as Hdata.
  { apply (are_data _ _ Hu'). unfold final_fields. rewrite Hport at 1. apply put_same. }
  destruct (skipn_slice buf (at_port x + 1) (zlen (field_bytes buf u' UF_PORT)) "/"%chr) as [r Hsk].
  { destruct Hp as [Hq _]. lia. }
  { apply zlen_nonneg. }
  { rewrite Hl in Hpath. apply next_byte in Hpath as (Hpath & _). rewrite <- Hpath. f_equal.
    unfold at_path, at_port, at_host, authority. rewrite !zlen_app. rewrite Hport at 1.
    cbn [print_opt]. rewrite !zlen_app. change (zlen [_]) with 1. change (zlen []) with 0. lia. }
  rewrite Hdata. cbn [off]. rewrite Hsk.
  replace (slice buf _ _) with (field_bytes buf u' UF_PORT)
    by (unfold field_bytes at 1; rewrite Hdata; reflexivity).
  rewrite strtoul_number by (assumption || reflexivity || (rewrite Hds; discriminate)).
  pose proof (dec_value_from_ge _ 0 Hdig ltac:(lia)) as Hge.
  fold (dec_value (field_bytes buf u' UF_PORT)) in Hge.
  rewrite Z.min_l by (unfold ULLONG_MAX; lia). destruct (Z.ltb_spec 65535 (dec_value (field_bytes buf u' UF_PORT))); [lia|].
  eexists. split; [reflexivity|]. split; [cbn [port set_port]; apply wrap_small; lia|].
  split; [|exact (are_data _ _ Hu')]. intros f. exact (spells_field u' _ _ f Hu' Hsp).
Qed.

End UrlRound.

(** The whole parse, with the places of the fields. *)
Lemma parse_url_placed `{BuildConfig} x rest u :
  url_parts_ok x = true -> zlen (print_url x) <= 65535 ->
  exists u',
    http_parser_parse_url (print_url x ++ rest) (zlen (print_url x)) false u = UrlReturn 0 u' /\
    port u' = port_value x /\
    (forall f, part x f =
      if field_is_set f u' then Some (field_bytes (print_url x ++ rest) u' f) else None) /\
    forall f o n, final_fields x f = Some (o, n) -> field_data u' f = mk_url_field o n.
Proof.
  intros Hx Hlen. pose proof (parts_placed (print_url x) x Hx eq_refl) as Hpl.
  unfold http_parser_parse_url.
  destruct (url_runs (print_url x) rest Hlen x Hpl eq_refl) as (s & old & Hrun).
  destruct (Hrun (mk_http_parser_url 0 0 (field_data u))) as (u1 & Hu1 & Hloop).
  { constructor; [reflexivity|reflexivity|discriminate]. }
  specialize (Hloop O). rewrite Nat.add_0_r in Hloop. unfold zlen at 1. rewrite Nat2Z.id, Hloop.
  cbn [url_loop]. apply url_finish_placed; assumption.
Qed.

(** C10: The URL round trip.  An absolute URL
    [schema://userinfo@host:port/path?query#fragment] printed from its parts
    (the host a name or an IPv6 address in brackets; userinfo, port, query and
    fragment optional) is accepted by [http_parser_parse_url], whatever follows
    it in memory: the fields that are set are exactly the parts that are
    present, each with the bytes of its part, and [port] is the number. *)
Theorem url_roundtrip `{BuildConfig} x rest u :
  url_parts_ok x = true -> zlen (print_url x) <= 65535 ->
  exists u',
    http_parser_parse_url (print_url x ++ rest) (zlen (print_url x)) false u = UrlReturn 0 u' /\
    port u' = port_value x /\
    forall f, part x f =
      if field_is_set f u' then Some (field_bytes (print_url x ++ rest) u' f) else None.
Proof.
  intros Hx Hlen. destruct (parse_url_placed x rest u Hx Hlen) as (u' & H1 & H2 & H3 & _). eauto.
Qed.

Definition sample_parts : url_parts := {|
  part_schema := bytes "http"; part_userinfo := Some (bytes "u:p"); part_host := Ipv6 (bytes "::1");
  part_port := Some (bytes "8080"); part_path := bytes "/a"; part_query := Some (bytes "b");
  part_fragment := Some (bytes "c") |}.

Lemma url_roundtrip_witness :
  exists u',
    http_parser_parse_url (bytes "http://u:p@[::1]:8080/a?b#c") 27 false http_parser_url_init =
      UrlReturn 0 u' /\
    port u' = 8080 /\
    forall f, part sample_parts f =
      if field_is_set f u' then Some (field_bytes (bytes "http://u:p@[::1]:8080/a?b#c") u' f) else None.
Proof.
  apply (url_roundtrip sample_parts [] http_parser_url_init);
    [vm_compute; reflexivity | vm_compute; discriminate].
Defined.
