(* ===== verification/NetClient.v ===== *)
(** * [CreateHttpClient]

    How src/base/net/net.cc turns the URL of a request into the parameters of a
    connection, by way of [http_parser_parse_url].  The objects it then creates
    ([HttpClientImpl], [HttpsClientImpl]) are classes of Boost.Beast clients and
    stand for themselves as the constructors of [http_client]. *)

From Stdlib Require Import String ZArith List Bool Lia.
From S2P Require Import Prelude HttpDefs Decimal HttpUrl HttpRun HttpUrlSpec HttpUrlRound.
Import ListNotations.
Local Open Scope Z_scope.

(** ** Data *)

Inductive NetType :=
| kNetTypeTcp | kNetTypeTcpTls | kNetTypeWebsocket | kNetTypeWebsocketTls
| kNetTypeHttp | kNetTypeHttps.

(** [port] has no initialiser: [None] until it is assigned. *)
Record NetConnectionRequest := mk_net_request {
  nr_host : list Z;
  nr_port : option Z;
  nr_net_type : NetType;
  nr_path : list Z;
  nr_proxy_host : list Z;
  nr_proxy_port : Z;
  nr_proxy_username : list Z;
  nr_proxy_passwd : list Z
}.

Record HttpClientRequest := mk_client_request {
  cr_url : list Z;
  cr_proxy_host : list Z;
  cr_proxy_port : Z;
  cr_proxy_username : list Z;
  cr_proxy_passwd : list Z
}.

Inductive http_client :=
| HttpClientImpl (r : NetConnectionRequest)
| HttpsClientImpl (r : NetConnectionRequest).

Inductive create_result :=
| Created (c : http_client)
| Verify_failed               (* BOOST_VERIFY(false) stops the program *)
| Out_of_range                (* std::string::substr throws *)
| Parser_stuck (w : url_stuck).

(** [std::string::substr]: [None] when it throws. *)
Definition substr (s : list Z) (pos n : Z) : option (list Z) :=
  if zlen s <? pos then None else Some (slice s pos n).

Definition substr_from (s : list Z) (pos : Z) : option (list Z) :=
  if zlen s <? pos then None else Some (skipn (Z.to_nat pos) s).

Definition bytes_eqb (a b : list Z) : bool := if list_eq_dec Z.eq_dec a b then true else false.

Definition is_nil {A} (l : list A) : bool := match l with [] => true | _ => false end.

(** ** The function *)

(** The part under [if (0 == code)]: port, type, host and path. *)
Definition url_parameters (url : list Z) (u : http_parser_url)
  : option (Z * NetType * list Z * list Z) :=
  match substr url (off (field_data u UF_QUERY)) (len (field_data u UF_QUERY)),
        substr url (off (field_data u UF_SCHEMA)) (len (field_data u UF_SCHEMA)),
        substr url (off (field_data u UF_HOST)) (len (field_data u UF_HOST)),
        substr_from url (off (field_data u UF_PATH)) with
  | Some query, Some scheme, Some host, Some path =>
      let https := bytes_eqb scheme (bytes "https") in
      let p := if port u =? 0 then (if https then 443 else 80) else port u in
      Some (p, if https then kNetTypeHttps else kNetTypeHttp, host,
            if is_nil path then bytes "/" else path)
  | _, _, _, _ => None
  end.

(** The end of the function. *)
Definition make_client (r : HttpClientRequest) (host : list Z) (p : option Z) (t : NetType)
  (path : list Z) : create_result :=
  let q := mk_net_request host p t path (cr_proxy_host r) (cr_proxy_port r)
             (cr_proxy_username r) (cr_proxy_passwd r) in
  match t with
  | kNetTypeHttp => Created (HttpClientImpl q)
  | _ => Created (HttpsClientImpl q)
  end.

Definition CreateHttpClient `{BuildConfig} (r : HttpClientRequest) : create_result :=
  match http_parser_parse_url (cr_url r ++ [0]) (zlen (cr_url r)) false http_parser_url_init with
  | UrlReturn code u =>
      if code =? 0 then
        match url_parameters (cr_url r) u with
        | Some (p, t, host, path) => make_client r host (Some p) t path
        | None => Out_of_range
        end
      else Verify_failed
  | UrlAbort w => Parser_stuck w
  end.

(** ** Fields that are not set keep their value *)

Definition unset_kept (u u' : http_parser_url) : Prop :=
  forall f, field_is_set f u' = false -> field_is_set f u = false /\ field_data u' f = field_data u f.

Lemma unset_kept_trans u1 u2 u3 : unset_kept u1 u2 -> unset_kept u2 u3 -> unset_kept u1 u3.
Proof.
  intros H1 H2 f Hf. destruct (H2 f Hf) as [Hf2 ->]. apply H1, Hf2.
Qed.

Ltac unset_fields :=
  let f := fresh "f" in intros f; autorewrite with url in *;
  repeat match goal with |- context [uf_eqb ?a ?b] => destruct (uf_eqb_spec a b); subst end;
  cbn [orb]; intros Hf; try discriminate; try congruence; auto.

Section Unset.
Context `{BuildConfig}.

Lemma url_loop_unset n buf q s old fa u fa' u' :
  (old <> UF_MAX -> field_is_set old u = true) ->
  url_loop n buf q s old fa u = LoopDone fa' u' -> unset_kept u u'.
Proof.
  revert q s old fa u. induction n as [|n IH]; intros q s old fa u Hold.
  - intros [= _ <-]. intros f Hf. auto.
  - cbn [url_loop]. destruct (byte_at buf q) as [c|]; [|discriminate].
    destruct (url_field_of (parse_url_char s c)) as [| |uf|] eqn:Hs; try discriminate; [apply IH, Hold|].
    intros Hx.
    assert (uf <> UF_MAX) as Hmx
      by (destruct (parse_url_char s c); try discriminate Hs; injection Hs as <-; discriminate).
    assert (field_is_set uf (url_extend uf old q u) = true) as Hset.
    { unfold url_extend. destruct (uf_eqb_spec uf old) as [<-|]; autorewrite with url; [auto|].
      destruct (uf_eqb_spec uf uf); [reflexivity | contradiction]. }
    apply IH in Hx; [|intros _; exact Hset]. eapply unset_kept_trans; [|exact Hx].
    unfold url_extend in *. destruct (uf_eqb_spec uf old) as [<-|]; unset_fields.
Qed.

Lemma host_fields_unset s s' q u :
  field_is_set UF_HOST u = true -> (s = s_http_userinfo -> field_is_set UF_USERINFO u = true) ->
  (s = s_http_host_port -> field_is_set UF_PORT u = true) ->
  unset_kept u (host_fields s s' q u).
Proof.
  intros Hh Hu Hp. destruct s, s'; cbn [host_fields];
    try specialize (Hu eq_refl); try specialize (Hp eq_refl); unset_fields.
Qed.

Lemma host_loop_unset n buf q s u rc u' :
  field_is_set UF_HOST u = true -> (s = s_http_userinfo -> field_is_set UF_USERINFO u = true) ->
  (s = s_http_host_port -> field_is_set UF_PORT u = true) ->
  http_parse_host_loop n buf q s u = UrlReturn rc u' -> unset_kept u u'.
Proof.
  revert q s u. induction n as [|n IH]; intros q s u Hh Hu Hp.
  - intros [= _ <-] f Hf. auto.
  - cbn [http_parse_host_loop]. destruct (byte_at buf q) as [c|]; [|discriminate].
    set (s' := http_parse_host_char s c).
    assert (field_is_set UF_HOST (host_fields s s' q u) = true /\
      (s' = s_http_userinfo -> field_is_set UF_USERINFO (host_fields s s' q u) = true) /\
      (s' = s_http_host_port -> field_is_set UF_PORT (host_fields s s' q u) = true)) as (H1 & H2 & H3).
    { clearbody s'. destruct s, s'; cbn [host_fields]; autorewrite with url;
        rewrite ?Hh; repeat split; auto; discriminate. }
    pose proof (host_fields_unset s s' q u Hh Hu Hp) as Hk.
    destruct s'; intros Hx; try (eapply unset_kept_trans; [exact Hk | eapply IH; eassumption]).
    injection Hx as _ <-. intros f Hf. auto.
Qed.

Lemma url_loop_no_success n buf q s old fa u u' :
  url_loop n buf q s old fa u <> LoopReturn (UrlReturn 0 u').
Proof.
  revert q s old fa u. induction n as [|n IH]; intros q s old fa u; cbn [url_loop]; [discriminate|].
  destruct (byte_at buf q) as [c|]; [|discriminate].
  destruct (url_field_of (parse_url_char s c)); try discriminate; apply IH.
Qed.

Lemma parse_url_unset buf n con u u' :
  http_parser_parse_url buf n con u = UrlReturn 0 u' ->
  forall f, field_is_set f u' = false -> field_data u' f = field_data u f.
Proof.
  unfold http_parser_parse_url. set (u0 := mk_http_parser_url 0 0 (field_data u)).
  intros Hx f Hf.
  destruct (url_loop (Z.to_nat n) buf 0 _ UF_MAX false u0) as [r|fa u1] eqn:Hl.
  { subst r. apply url_loop_no_success in Hl. contradiction. }
  apply url_loop_unset in Hl; [|contradiction]. 
  assert (unset_kept u1 u') as Hk.
  { revert Hx. unfold url_finish. destruct (_ && negb _); [discriminate|].
    assert (forall v v', url_finish_port buf con v = UrlReturn 0 v' -> unset_kept v v') as Hport.
    { intros v v'. unfold url_finish_port. destruct (_ && _); [discriminate|].
      destruct (field_is_set UF_PORT v).
      - destruct (strtoul _) as [z|]; [|discriminate]. destruct (_ <? _); [discriminate|].
        intros [= <-] g Hg. auto.
      - intros [= <-] g Hg. auto. }
    destruct (field_is_set UF_HOST u1) eqn:Hh; [|apply Hport].
    unfold http_parse_host. rewrite Hh. cbn [negb].
    destruct (http_parse_host_loop _ _ _ _ _) as [rc u2|] eqn:E; [|discriminate].
    destruct (negb _); [discriminate|]. intros Hx.
    eapply unset_kept_trans; [|apply Hport, Hx].
    eapply unset_kept_trans; [|eapply host_loop_unset; [| | |exact E]].
    - intros g. autorewrite with url. destruct (uf_eqb_spec g UF_HOST); [congruence|auto].
    - autorewrite with url. exact Hh.
    - destruct fa; discriminate.
    - destruct fa; discriminate. }
  destruct (Hk f Hf) as [Hf1 ->]. destruct (Hl f Hf1) as [_ ->]. reflexivity.
Qed.

End Unset.

(** ** Theorems *)

Lemma substr_some s pos n : pos <= zlen s -> exists l, substr s pos n = Some l.
Proof. intros Hp. unfold substr. destruct (Z.ltb_spec (zlen s) pos); [lia | eauto]. Qed.

Lemma field_offset `{BuildConfig} url con u f :
  http_parser_parse_url (url ++ [0]) (zlen url) con http_parser_url_init = UrlReturn 0 u ->
  range_ok u (zlen url) f -> off (field_data u f) <= zlen url.
Proof.
  intros Hx Hr. destruct (field_is_set f u) eqn:Hf; [specialize (Hr Hf); lia|].
  rewrite (parse_url_unset _ _ _ _ _ Hx f Hf). apply zlen_nonneg.
Qed.

Lemma url_parameters_total url u :
  (forall f, off (field_data u f) <= zlen url) -> exists r, url_parameters url u = Some r.
Proof.
  intros Hoff. unfold url_parameters.
  destruct (substr_some url _ (len (field_data u UF_QUERY)) (Hoff UF_QUERY)) as [? ->].
  destruct (substr_some url _ (len (field_data u UF_SCHEMA)) (Hoff UF_SCHEMA)) as [? ->].
  destruct (substr_some url _ (len (field_data u UF_HOST)) (Hoff UF_HOST)) as [? ->].
  unfold substr_from. destruct (Z.ltb_spec (zlen url) (off (field_data u UF_PATH))); [|eauto].
  specialize (Hoff UF_PATH). lia.
Qed.

Lemma make_client_total r host p t path : exists c, make_client r host p t path = Created c.
Proof. destruct t; eexists; reflexivity. Qed.

(** What the connection of a client is given. *)
Definition client_request (c : http_client) : NetConnectionRequest :=
  match c with HttpClientImpl r | HttpsClientImpl r => r end.

(** Host and path are taken from the URL, and port and type have a value. *)
Definition sound_request (url : list Z) (r : NetConnectionRequest) : Prop :=
  (exists p, nr_port r = Some p /\ 0 < p <= 65535) /\ (nr_net_type r = kNetTypeHttp \/ nr_net_type r = kNetTypeHttps) /\
  (exists before after, url = before ++ nr_host r ++ after) /\
  (nr_path r = bytes "/" \/ exists before, url = before ++ nr_path r).

Lemma substr_within s pos n l : substr s pos n = Some l -> exists before after, s = before ++ l ++ after.
Proof.
  unfold substr. destruct (_ <? _); [discriminate|]. intros Hs. injection Hs as <-. unfold slice.
  exists (firstn (Z.to_nat pos) s), (skipn (Z.to_nat n) (skipn (Z.to_nat pos) s)). now rewrite !firstn_skipn.
Qed.

Lemma url_parameters_sound url u r p t host path :
  0 <= port u <= 65535 -> url_parameters url u = Some (p, t, host, path) ->
  exists c, make_client r host (Some p) t path = Created c /\ sound_request url (client_request c).
Proof.
  intros Hp. unfold url_parameters.
  destruct (substr url (off (field_data u UF_QUERY)) (len (field_data u UF_QUERY))),
    (substr url (off (field_data u UF_SCHEMA)) (len (field_data u UF_SCHEMA))) as [scheme|],
    (substr url (off (field_data u UF_HOST)) (len (field_data u UF_HOST))) as [h|] eqn:Eh,
    (substr_from url (off (field_data u UF_PATH))) as [pa|] eqn:Ea; try discriminate.
  apply substr_within in Eh.
  assert (exists before, url = before ++ pa) as Hpa.
  { unfold substr_from in Ea. destruct (_ <? _); [discriminate|]. injection Ea as <-.
    exists (firstn (Z.to_nat (off (field_data u UF_PATH))) url). now rewrite firstn_skipn. }
  destruct (bytes_eqb scheme (bytes "https")); intros Hx; injection Hx as <- <- <- <-;
    (eexists; split; [reflexivity|]); unfold sound_request; cbn [client_request nr_port nr_net_type nr_host nr_path];
    (split; [eexists; split; [reflexivity|]; destruct (Z.eqb_spec (port u) 0); lia|]); (split; [auto|]); (split; [exact Eh|]);
    destruct (is_nil pa); auto.
Qed.

(** C22: What [CreateHttpClient] makes of any URL of at most 65535 bytes.  The URL
    parser neither fails an assertion nor reads outside the string, and no
    [substr] of the URL throws, whatever fields the parser has left unset.  A URL
    that parses gives a client, whose port and type have been set, whose host is
    part of the URL, and whose path is the rest of the URL from some point on or
    the slash; one that does not parse stops the program at [BOOST_VERIFY(false)]. *)
Theorem create_http_client_total `{BuildConfig} r :
  zlen (cr_url r) <= 65535 ->
  exists code u, http_parser_parse_url (cr_url r ++ [0]) (zlen (cr_url r)) false http_parser_url_init = UrlReturn code u /\
    if code =? 0 then exists c, CreateHttpClient r = Created c /\ sound_request (cr_url r) (client_request c)
    else CreateHttpClient r = Verify_failed.
Proof.
  intros Hlen. set (url := cr_url r) in *. pose proof (zlen_nonneg url).
  assert (byte_at (url ++ [0]) (zlen url) = Some 0) as Ht by apply byte_at_middle.
  destruct (parse_url_good (url ++ [0]) (zlen url) ltac:(lia) (ex_intro _ 0 (conj Ht eq_refl))
    false http_parser_url_init) as (rc & u & Hx & Hrc).
  exists rc, u. split; [exact Hx|].
  unfold CreateHttpClient. fold url. rewrite Hx. destruct Hrc as [->|[-> Hok]]; [reflexivity|].
  cbn [Z.eqb]. destruct (url_parameters_total url u) as [[[[p t] host] path] Ep].
  - intros f. eapply field_offset; [exact Hx | apply Hok].
  - rewrite Ep. eapply url_parameters_sound, Ep. pose proof (ok_port _ _ _ _ Hok). destruct (field_is_set UF_PORT u); lia.
Qed.

Definition sample_request (url : list Z) : HttpClientRequest := mk_client_request url [] 0 [] [].

Definition parse_code `{BuildConfig} (url : list Z) : Z :=
  match http_parser_parse_url (url ++ [0]) (zlen url) false http_parser_url_init with UrlReturn code _ => code | _ => -1 end.

(** A URL of a host alone, and no URL at all. *)
Lemma create_http_client_total_witness :
  (exists c, CreateHttpClient (sample_request (bytes "https://example.com")) = Created c /\
     sound_request (bytes "https://example.com") (client_request c)) /\
  CreateHttpClient (sample_request (bytes "?? not a URL")) = Verify_failed.
Proof.
  split.
  - assert (parse_code (bytes "https://example.com") = 0) as Hz by (vm_compute; reflexivity).
    destruct (create_http_client_total (sample_request (bytes "https://example.com"))) as (code & u & Hp & Hc);
      [vm_compute; discriminate|].
    unfold parse_code in Hz. cbn [cr_url sample_request] in Hp. rewrite Hp in Hz. subst code. exact Hc.
  - assert (parse_code (bytes "?? not a URL") = 1) as Hz by (vm_compute; reflexivity).
    destruct (create_http_client_total (sample_request (bytes "?? not a URL"))) as (code & u & Hp & Hc);
      [vm_compute; discriminate|].
    unfold parse_code in Hz. cbn [cr_url sample_request] in Hp. rewrite Hp in Hz. subst code. exact Hc.
Defined.

(** What is sent as the target: path, query and fragment. *)
Definition target (x : url_parts) : list Z :=
  part_path x ++ print_opt ["?"%chr] [] (part_query x) ++ print_opt ["#"%chr] [] (part_fragment x).

Definition is_https (x : url_parts) : bool := bytes_eqb (part_schema x) (bytes "https").

Definition connection_port (x : url_parts) : Z :=
  if port_value x =? 0 then (if is_https x then 443 else 80) else port_value x.

Lemma print_url_target x : exists before, print_url x = before ++ target x /\ zlen before = at_path x.
Proof.
  exists (part_schema x ++ bytes "://" ++ authority x). split.
  - unfold print_url, target, authority. rewrite <- !app_assoc. reflexivity.
  - rewrite !zlen_app. unfold at_path, at_authority. change (zlen (bytes "://")) with 3. lia.
Qed.

Lemma substr_field `{BuildConfig} x u f l :
  part x f = (if field_is_set f u then Some (field_bytes (print_url x ++ [0]) u f) else None) ->
  part x f = Some l -> range_ok u (zlen (print_url x)) f ->
  substr (print_url x) (off (field_data u f)) (len (field_data u f)) = Some l.
Proof.
  intros Hp Hl Hr. rewrite Hl in Hp. destruct (field_is_set f u) eqn:Hf; [|discriminate].
  injection Hp as ->. destruct (Hr Hf) as (H1 & H2 & H3). unfold substr, field_bytes, slice.
  destruct (Z.ltb_spec (zlen (print_url x)) (off (field_data u f))); [lia|]. f_equal.
  rewrite skipn_app, firstn_app, length_skipn. unfold zlen in H3.
  replace (Z.to_nat (len (field_data u f)) - (length (print_url x) - Z.to_nat (off (field_data u f))))%nat
    with 0%nat by lia. cbn [firstn]. rewrite app_nil_r. reflexivity.
Qed.

(** C23: The connection of an absolute URL.  For a URL printed from its parts
    [CreateHttpClient] connects to the host of the URL, on its port or, without
    one, on 443 for the schema https and 80 for any other, through a TLS client
    exactly for https, and asks for path, query and fragment. *)
Theorem create_http_client_url `{BuildConfig} x r :
  url_parts_ok x = true -> zlen (print_url x) <= 65535 -> cr_url r = print_url x ->
  CreateHttpClient r =
  Created ((if is_https x then HttpsClientImpl else HttpClientImpl)
    (mk_net_request (host_bytes (part_host x)) (Some (connection_port x))
       (if is_https x then kNetTypeHttps else kNetTypeHttp) (target x)
       (cr_proxy_host r) (cr_proxy_port r) (cr_proxy_username r) (cr_proxy_passwd r))).
Proof.
  intros Hx Hlen Hurl. destruct (parse_url_placed x [0] http_parser_url_init Hx Hlen) as (u & Hp & Hport & Hf & Hd).
  pose proof (zlen_nonneg (print_url x)) as Hz.
  assert (byte_at (print_url x ++ [0]) (zlen (print_url x)) = Some 0) as Ht by apply byte_at_middle.
  destruct (parse_url_good (print_url x ++ [0]) (zlen (print_url x)) ltac:(lia)
    (ex_intro _ 0 (conj Ht eq_refl)) false http_parser_url_init) as (rc & u2 & Hp2 & Hrc).
  rewrite Hp in Hp2. injection Hp2 as <- <-. destruct Hrc as [|[_ Hok]]; [discriminate|].
  unfold CreateHttpClient. rewrite Hurl, Hp. cbn [Z.eqb]. unfold url_parameters.
  destruct (substr_some (print_url x) (off (field_data u UF_QUERY)) (len (field_data u UF_QUERY))) as [qs ->].
  { eapply field_offset; [exact Hp | apply Hok]. }
  rewrite (substr_field x u UF_SCHEMA _ (Hf _) eq_refl (ok_ranges _ _ _ _ Hok _)).
  rewrite (substr_field x u UF_HOST _ (Hf _) eq_refl (ok_ranges _ _ _ _ Hok _)).
  destruct (print_url_target x) as (before & Hb & Hbz).
  assert (field_data u UF_PATH = mk_url_field (at_path x) (zlen (part_path x))) as ->.
  { apply Hd. unfold final_fields, loop_fields, put_opt.
    destruct (part_port x), (part_userinfo x), (part_query x), (part_fragment x); reflexivity. }
  unfold substr_from. cbn [off]. rewrite <- Hbz. replace (zlen (print_url x) <? zlen before) with false.
  2: { symmetry. apply Z.ltb_ge. rewrite Hb, zlen_app. pose proof (zlen_nonneg (target x)). lia. }
  assert (skipn (Z.to_nat (zlen before)) (print_url x) = target x) as ->.
  { unfold zlen. rewrite Hb, Nat2Z.id, skipn_app, skipn_all, Nat.sub_diag. reflexivity. }
  assert (is_nil (target x) = false) as ->.
  { destruct (parts_placed (print_url x) x Hx eq_refl) as [_ _ _ _ _ _ (l & Hl & _) _ _ _].
    unfold target. rewrite Hl. reflexivity. }
  rewrite Hport. unfold connection_port. fold (is_https x).
  destruct (is_https x), (port_value x =? 0); reflexivity.
Qed.

Lemma create_http_client_url_witness :
  CreateHttpClient (sample_request (bytes "https://example.com/a?b")) =
  Created (HttpsClientImpl (mk_net_request (bytes "example.com") (Some 443) kNetTypeHttps (bytes "/a?b") [] 0 [] [])).
Proof.
  apply (create_http_client_url
    {| part_schema := bytes "https"; part_userinfo := None; part_host := Reg_name (bytes "example.com");
       part_port := None; part_path := bytes "/a"; part_query := Some (bytes "b"); part_fragment := None |}
    (sample_request (bytes "https://example.com/a?b"))).
  - vm_compute. reflexivity.
  - vm_compute. discriminate.
  - reflexivity.
Defined.
