(* ===== verification/StringUtil.v ===== *)
(** * String utilities

    src/base/string_util.cc: hexadecimal text, URL encoding and splitting.  A
    [std::string] is the list of its characters as unsigned codes. *)

From Stdlib Require Import String ZArith List Bool Lia.
From S2P Require Import Prelude Cpp.
Import ListNotations.
Local Open Scope Z_scope.
Local Open Scope cpp_scope.

(** ** Binary to hexadecimal *)

Definition s_hex_data_map : list Z := Eval cbv in bytes "0123456789ABCDEF".

(** [byte_to_hex]: the two characters are stored at [off] and [off + 1]; the
    pointer is never null here and [len] has its default 2. *)
Definition byte_to_hex (data : Z) (buf : list Z) (off : Z) : list Z :=
  let h1 := Z.shiftr (Z.land data 240) 4 in
  let h2 := Z.land data 15 in
  buf_set (buf_set buf off (nth (Z.to_nat h1) s_hex_data_map 0)) (off + 1)
    (nth (Z.to_nat h2) s_hex_data_map 0).

(** The loop of [BinToHex], [k] rounds before its end; [i] counts up. *)
Fixpoint bin_to_hex_loop (k : nat) (i : Z) (bin buf : list Z) : outcome (list Z) :=
  match k with
  | O => Ok buf
  | S k' =>
      match byte_at bin i with
      | Some c => bin_to_hex_loop k' (i + 1) bin (byte_to_hex c buf (i * 2))
      | None => Undefined
      end
  end.

(** [BinToHex(const char *bin, int32_t len)]; [bin] is the memory from the
    pointer on. *)
Definition BinToHex_ptr (bin : list Z) (len : Z) : outcome (list Z) :=
  let? n := int_result (len * 2) in
  if n <? 0 then Throws
  else bin_to_hex_loop (Z.to_nat len) 0 bin (repeat "*"%chr (Z.to_nat n)).

Definition BinToHex (bin : list Z) : outcome (list Z) := BinToHex_ptr bin (i32 (zlen bin)).

(** ** Hexadecimal to binary *)

Definition hex_to_int (ch : Z) : Z :=
  if ("0"%chr <=? ch) && (ch <=? "9"%chr) then ch - "0"%chr
  else if ("A"%chr <=? ch) && (ch <=? "F"%chr) then ch - "A"%chr + 10
  else if ("a"%chr <=? ch) && (ch <=? "f"%chr) then ch - "a"%chr + 10
  else -1.

(** The loop of [hex_string_to_bytes], [k] rounds before its end: the value
    returned and the buffer. *)
Fixpoint hex_loop (k : nat) (i nbytes : Z) (hex buffer : list Z) : Z * list Z :=
  match k with
  | O => (i32 nbytes, buffer)
  | S k' =>
      let h1 := hex_to_int (nth (Z.to_nat (i * 2)) hex 0) in
      if h1 <? 0 then (-1, buffer)
      else
        let h2 := hex_to_int (nth (Z.to_nat (i * 2 + 1)) hex 0) in
        if h2 <? 0 then (-1, buffer)
        else
          let b := u8 (Z.lor (Z.shiftl h1 4) h2) in
          hex_loop k' (i + 1) nbytes hex (buf_set buffer i b)
  end.

(** [hex_string_to_bytes]; neither pointer is null where it is called. *)
Definition hex_string_to_bytes (hex : list Z) (hex_len : Z) (buffer : list Z) (buffer_len : Z)
  : Z * list Z :=
  if negb (hex_len mod 2 =? 0) then (-1, buffer)
  else
    let nbytes := hex_len / 2 in
    if buffer_len <? nbytes then (-1, buffer)
    else hex_loop (Z.to_nat nbytes) 0 nbytes hex buffer.

(** [std::string::resize]. *)
Definition resize (s : list Z) (n : Z) : list Z :=
  firstn (Z.to_nat n) s ++ repeat 0 (Z.to_nat n - length s).

Definition HexToBin (hex : list Z) : list Z :=
  let ret := resize [] (zlen hex / 2) in
  let (len, ret) := hex_string_to_bytes hex (u32 (zlen hex)) ret (u32 (zlen ret)) in
  if len =? -1 then [] else resize ret len.

(** ** URL encoding *)

Definition s_hex_data_map3 : list Z := Eval cbv in bytes "0123456789abcdef".

(** [isalnum] of the C locale. *)
Definition isalnum (c : Z) : bool :=
  (("0"%chr <=? c) && (c <=? "9"%chr)) || (("A"%chr <=? c) && (c <=? "Z"%chr))
  || (("a"%chr <=? c) && (c <=? "z"%chr)).

Definition url_encode_char (result : list Z) (c : Z) : list Z :=
  if isalnum c || (c =? "."%chr) || (c =? "~"%chr) then result ++ [c]
  else if c =? " "%chr then result ++ ["+"%chr]
  else
    result ++ ["%"%chr] ++ [nth (Z.to_nat (Z.land (Z.shiftr c 4) 15)) s_hex_data_map3 0]
           ++ [nth (Z.to_nat (Z.land c 15)) s_hex_data_map3 0].

Definition URLEncode (str : list Z) : list Z := fold_left url_encode_char str [].

(** ** Splitting *)

(** The loop of [Split] that erases the empty parts. *)
Fixpoint erase_empty (l : list (list Z)) : list (list Z) :=
  match l with
  | [] => []
  | s :: l' => match s with [] => erase_empty l' | _ => s :: erase_empty l' end
  end.

(** [Split(src, token, allow_empty)]; [split_any_of src token] stands for
    [boost::split] at any character of [token]. *)
Definition Split (split_any_of : list Z -> list Z -> list (list Z))
  (src token : list Z) (allow_empty : bool) : list (list Z) :=
  let split_strings := split_any_of src token in
  if allow_empty then split_strings else erase_empty split_strings.

(** [Split(input, first_length, second_length, third_length)]: an [int] becomes
    a [size_t] when it is passed to [substr]. *)
Definition Split_lengths (input : list Z) (first_length second_length third_length : Z)
  : outcome (list (list Z)) :=
  let? a := string_substr input 0 (u64 first_length) in
  let? b := string_substr input (u64 first_length) (u64 second_length) in
  if -1 <? third_length then
    let? from := int_result (first_length + second_length) in
    let? c := string_substr input (u64 from) (u64 third_length) in
    Ok [a; b; c]
  else Ok [a; b].
