(* ===== verification/StringSpec.v ===== *)
(** * What the string utilities compute

    Reference definitions of hexadecimal text and of form-url-encoded text, and
    the routines of [StringUtil] against them. *)

From Stdlib Require Import String ZArith List Bool Lia.
From S2P Require Import Prelude Cpp StringUtil.
Import ListNotations.
Local Open Scope Z_scope.

(** ** Reference definitions *)

Definition upper_digit (v : Z) : Z := if v <? 10 then v + 48 else v + 55.

Definition hex_text (l : list Z) : list Z :=
  flat_map (fun c => [upper_digit (c / 16); upper_digit (c mod 16)]) l.

Fixpoint hex_decode (l : list Z) : option (list Z) :=
  match l with
  | [] => Some []
  | a :: b :: r =>
      if (hex_to_int a <? 0) || (hex_to_int b <? 0) then None
      else option_map (cons (hex_to_int a * 16 + hex_to_int b)) (hex_decode r)
  | [_] => None
  end.

(** Upper case of the letters a to f. *)
Definition to_upper (c : Z) : Z := if (97 <=? c) && (c <=? 102) then c - 32 else c.

(** Decoding of form-url-encoded text. *)
Fixpoint url_decode (l : list Z) : option (list Z) :=
  match l with
  | [] => Some []
  | c :: r =>
      if c =? "%"%chr then
        match r with
        | a :: b :: r' =>
            if (hex_to_int a <? 0) || (hex_to_int b <? 0) then None
            else option_map (cons (hex_to_int a * 16 + hex_to_int b)) (url_decode r')
        | _ => None
        end
      else option_map (cons (if c =? "+"%chr then " "%chr else c)) (url_decode r)
  end.

(** ** Binary to hexadecimal *)

Definition hex_chars (c : Z) : Z * Z :=
  (nth (Z.to_nat (Z.shiftr (Z.land c 240) 4)) s_hex_data_map 0,
   nth (Z.to_nat (Z.land c 15)) s_hex_data_map 0).

Lemma hex_chars_spec c : is_byte c -> hex_chars c = (upper_digit (c / 16), upper_digit (c mod 16)).
Proof.
  intros Hc.
  assert ((fst (hex_chars c) =? upper_digit (c / 16)) && (snd (hex_chars c) =? upper_digit (c mod 16)) = true)
    as He.
  { revert c Hc. apply (all_bytes_spec (fun c => (fst (hex_chars c) =? upper_digit (c / 16))
      && (snd (hex_chars c) =? upper_digit (c mod 16)))). vm_compute. reflexivity. }
  bool_hyps. destruct (hex_chars c). cbn in *. subst. reflexivity.
Qed.

Lemma byte_to_hex_at c l1 x y l2 :
  is_byte c ->
  byte_to_hex c (l1 ++ x :: y :: l2) (zlen l1) =
  l1 ++ upper_digit (c / 16) :: upper_digit (c mod 16) :: l2.
Proof.
  intros Hc. unfold byte_to_hex.
  apply hex_chars_spec, pair_equal_spec in Hc as [-> ->].
  rewrite buf_set_middle by reflexivity.
  change (l1 ++ upper_digit (c / 16) :: y :: l2) with (l1 ++ [upper_digit (c / 16)] ++ y :: l2).
  rewrite app_assoc, buf_set_middle; [|rewrite zlen_app; reflexivity].
  rewrite <- app_assoc. reflexivity.
Qed.

Lemma zlen_hex_text l : zlen (hex_text l) = 2 * zlen l.
Proof.
  induction l as [|c l IH]; [reflexivity|].
  cbn [hex_text flat_map app]. fold (hex_text l). rewrite !zlen_cons. lia.
Qed.

Lemma bin_to_hex_loop_spec rest done tail :
  Forall is_byte rest ->
  bin_to_hex_loop (length rest) (zlen done) (done ++ rest ++ tail)
    (hex_text done ++ repeat "*"%chr (2 * length rest)) = Ok (hex_text (done ++ rest)).
Proof.
  intros Hb. revert done. induction Hb as [|c rest Hc _ IH]; intros done.
  - cbn. rewrite !app_nil_r. reflexivity.
  - cbn [length bin_to_hex_loop app]. rewrite byte_at_middle.
    replace (2 * S (length rest))%nat with (S (S (2 * length rest))) by lia. cbn [repeat].
    replace (zlen done * 2) with (zlen (hex_text done)) by (rewrite zlen_hex_text; lia).
    rewrite byte_to_hex_at by assumption.
    specialize (IH (done ++ [c])). unfold hex_text in IH |- *.
    rewrite !flat_map_app, zlen_app in IH. cbn [flat_map] in IH |- *.
    rewrite flat_map_app in *. cbn [flat_map app] in *. rewrite <- !app_assoc in IH. exact IH.
Qed.

Lemma bin_to_hex_spec l : Forall is_byte l -> zlen l < 2 ^ 30 -> BinToHex l = Ok (hex_text l).
Proof.
  intros Hb Hl. pose proof (zlen_nonneg l). unfold BinToHex, BinToHex_ptr.
  rewrite i32_small, int_result_ok by lia. cbn [outcome_bind].
  destruct (Z.ltb_spec (zlen l * 2) 0); [lia|].
  pose proof (bin_to_hex_loop_spec l [] [] Hb) as He. rewrite app_nil_r in He. cbn [app zlen length] in He.
  unfold zlen at 1 2. rewrite Nat2Z.id.
  replace (Z.to_nat (Z.of_nat (length l) * 2)) with (2 * length l)%nat by lia. exact He.
Qed.

(** ** Hexadecimal to binary *)

Lemma hex_to_int_range a : hex_to_int a < 16.
Proof.
  unfold hex_to_int. repeat case_match_goal; bool_hyps; lia.
Qed.

Lemma hex_byte h1 h2 : 0 <= h1 < 16 -> 0 <= h2 < 16 -> u8 (Z.lor (Z.shiftl h1 4) h2) = h1 * 16 + h2.
Proof.
  intros H1 H2. rewrite lor_field by lia. apply wrap_small. lia.
Qed.

Lemma hex_loop_spec k rest pre done nbytes :
  length rest = (2 * k)%nat -> length pre = (2 * length done)%nat ->
  hex_loop k (zlen done) nbytes (pre ++ rest) (done ++ repeat 0 k) =
  match hex_decode rest with
  | Some l => (i32 nbytes, done ++ l)
  | None => (-1, snd (hex_loop k (zlen done) nbytes (pre ++ rest) (done ++ repeat 0 k)))
  end.
Proof.
  revert rest pre done. induction k as [|k IH]; intros rest pre done Hr Hp.
  - destruct rest; [reflexivity | discriminate].
  - destruct rest as [|a [|b rest]]; try (cbn in Hr; lia). cbn [hex_loop hex_decode].
    replace (nth (Z.to_nat (zlen done * 2)) (pre ++ a :: b :: rest) 0) with a.
    2:{ symmetry. replace (Z.to_nat (zlen done * 2)) with (length pre + 0)%nat by (unfold zlen; lia).
        rewrite app_nth2_plus. reflexivity. }
    replace (nth (Z.to_nat (zlen done * 2 + 1)) (pre ++ a :: b :: rest) 0) with b.
    2:{ symmetry. replace (Z.to_nat (zlen done * 2 + 1)) with (length pre + 1)%nat by (unfold zlen; lia).
        rewrite app_nth2_plus. reflexivity. }
    destruct (Z.ltb_spec (hex_to_int a) 0); [reflexivity|].
    destruct (Z.ltb_spec (hex_to_int b) 0); [reflexivity|]. cbn [orb repeat].
    pose proof (hex_to_int_range a). pose proof (hex_to_int_range b).
    rewrite hex_byte, buf_set_middle by (reflexivity || lia).
    specialize (IH rest (pre ++ [a; b]) (done ++ [hex_to_int a * 16 + hex_to_int b])).
    rewrite !zlen_app, !length_app, <- !app_assoc in IH. cbn [app length] in IH, Hr.
    change (zlen [_]) with 1 in IH.
    rewrite IH by lia. destruct (hex_decode rest); cbn [option_map]; [rewrite <- app_assoc|]; reflexivity.
Qed.

Lemma hex_decode_length n l b : (length l <= n)%nat -> hex_decode l = Some b -> length l = (2 * length b)%nat.
Proof.
  revert l b. induction n as [|n IH]; intros [|x [|y l]] b Hn He; cbn in He, Hn |- *;
    try discriminate; try lia; try (injection He as <-; reflexivity).
  destruct (_ || _); [discriminate|]. destruct (hex_decode l) as [b'|] eqn:E; [|discriminate].
  injection He as <-. apply IH in E; [cbn; lia | lia].
Qed.

Lemma hex_decode_odd n l : (length l <= n)%nat -> Z.odd (zlen l) = true -> hex_decode l = None.
Proof.
  revert l. induction n as [|n IH]; intros [|x [|y l]] Hn Ho; cbn in Hn |- *;
    try discriminate; try lia; try reflexivity.
  rewrite !zlen_cons, Z.add_assoc, Z.odd_add in Ho. cbn in Ho.
  rewrite IH by (try lia; destruct (Z.odd (zlen l)); cbn in *; congruence).
  destruct (_ || _); reflexivity.
Qed.

Lemma resize_firstn s n : (n <= length s)%nat -> resize s (Z.of_nat n) = firstn n s.
Proof.
  intros Hn. unfold resize. rewrite Nat2Z.id. replace (n - length s)%nat with O by lia. apply app_nil_r.
Qed.

Lemma hex_to_bin_decode hex :
  zlen hex < 2 ^ 32 ->
  HexToBin hex = match hex_decode hex with Some l => l | None => [] end.
Proof.
  intros Hl. pose proof (zlen_nonneg hex). unfold HexToBin.
  assert (resize [] (zlen hex / 2) = repeat 0 (Z.to_nat (zlen hex / 2))) as ->.
  { unfold resize. rewrite firstn_nil, Nat.sub_0_r. reflexivity. }
  unfold zlen at 3. rewrite repeat_length, Z2Nat.id by (apply Z.div_pos; lia).
  assert (0 <= zlen hex / 2 <= zlen hex) by (split; [apply Z.div_pos | apply Z.div_le_upper_bound]; lia).
  rewrite !wrap_small by lia. unfold hex_string_to_bytes.
  destruct (Z.eqb_spec (zlen hex mod 2) 0) as [He|He].
  2:{ rewrite (hex_decode_odd (length hex)); [reflexivity | lia |].
      rewrite Zmod_odd in He. destruct (Z.odd (zlen hex)); congruence. }
  cbn [negb]. destruct (Z.ltb_spec (zlen hex / 2) (zlen hex / 2)); [lia|].
  set (k := Z.to_nat (zlen hex / 2)).
  assert (length hex = (2 * k)%nat) as Hk.
  { unfold k. pose proof (Z.div_mod (zlen hex) 2). unfold zlen in *. lia. }
  pose proof (hex_loop_spec k hex [] [] (zlen hex / 2) Hk eq_refl) as Hs.
  cbn [app] in Hs. change (zlen []) with 0 in Hs. rewrite Hs.
  destruct (hex_decode hex) as [l|] eqn:E; [|reflexivity].
  pose proof (hex_decode_length _ _ _ (le_n _) E).
  assert (zlen hex / 2 = Z.of_nat (length l)) as Hn by lia.
  unfold zlen in Hl at 1. rewrite i32_small, Hn by lia.
  destruct (Z.eqb_spec (Z.of_nat (length l)) (-1)); [lia|].
  rewrite resize_firstn by reflexivity. apply firstn_all.
Qed.

(** ** The round trips *)

Lemma digit_value v : 0 <= v < 16 -> hex_to_int (upper_digit v) = v.
Proof.
  intros H. assert (In v (map Z.of_nat (seq 0 16))) as Hi.
  { apply in_map_iff. exists (Z.to_nat v). split; [lia | apply in_seq; lia]. }
  cbn in Hi. repeat (destruct Hi as [<-|Hi]; [reflexivity|]). destruct Hi.
Qed.

Lemma byte_digits c : is_byte c -> 0 <= c / 16 < 16 /\ 0 <= c mod 16 < 16 /\ c / 16 * 16 + c mod 16 = c.
Proof.
  intros [H1 H2]. pose proof (Z.div_mod c 16). pose proof (Z.mod_pos_bound c 16).
  lia.
Qed.

Lemma hex_decode_text l : Forall is_byte l -> hex_decode (hex_text l) = Some l.
Proof.
  induction 1 as [|c l Hc _ IH]; [reflexivity|].
  destruct (byte_digits c Hc) as (H1 & H2 & H3).
  cbn [hex_text flat_map app hex_decode]. fold (hex_text l). rewrite !digit_value, IH by assumption.
  destruct (Z.ltb_spec (c / 16) 0); [lia|]. destruct (Z.ltb_spec (c mod 16) 0); [lia|].
  cbn [orb option_map]. rewrite H3. reflexivity.
Qed.

Lemma digit_upper a : 0 <= hex_to_int a -> upper_digit (hex_to_int a) = to_upper a.
Proof.
  unfold hex_to_int, upper_digit, to_upper. intros H.
  repeat (case_match_hyp H; bool_hyps); try lia;
    repeat (case_match_goal; bool_hyps); try lia; try discriminate.
  all: apply andb_false_iff in E2 as [|]; bool_hyps; lia.
Qed.

Lemma hex_text_decode n h l :
  (length h <= n)%nat -> hex_decode h = Some l -> hex_text l = map to_upper h /\ Forall is_byte l.
Proof.
  revert h l. induction n as [|n IH]; intros [|a [|b h]] l Hn He; cbn in He, Hn; try discriminate; try lia;
    try (injection He as <-; split; constructor).
  destruct (Z.ltb_spec (hex_to_int a) 0); [discriminate|].
  destruct (Z.ltb_spec (hex_to_int b) 0); [discriminate|].
  destruct (hex_decode h) as [l'|] eqn:E; [|discriminate]. injection He as <-.
  apply IH in E as [E Hf]; [|lia]. pose proof (hex_to_int_range a). pose proof (hex_to_int_range b).
  split; [|constructor; [unfold is_byte; lia | exact Hf]].
  cbn [hex_text flat_map app map]. fold (hex_text l'). rewrite E.
  rewrite Z.div_add_l, Z.div_small, Z.add_0_r by lia.
  rewrite Z.add_comm, Z.mod_add, Z.mod_small by lia. rewrite !digit_upper by assumption. reflexivity.
Qed.

(** Hexadecimal text.  [BinToHex] succeeds on every byte string below a
    gigabyte and gives its text of two capital digits for each byte, and
    [HexToBin] gives the string back. *)
Theorem hex_roundtrip l :
  Forall is_byte l -> zlen l < 2 ^ 30 -> BinToHex l = Ok (hex_text l) /\ HexToBin (hex_text l) = l.
Proof.
  intros Hb Hl. split; [apply bin_to_hex_spec; assumption|].
  rewrite hex_to_bin_decode by (rewrite zlen_hex_text; lia).
  rewrite hex_decode_text by assumption. reflexivity.
Qed.

Lemma hex_roundtrip_witness :
  BinToHex [0; 127; 171; 255] = Ok (bytes "007FABFF") /\ HexToBin (bytes "007FABFF") = [0; 127; 171; 255].
Proof.
  apply (hex_roundtrip [0; 127; 171; 255]); [repeat constructor; unfold is_byte; lia | reflexivity].
Defined.

(** Decoding of hexadecimal text.  A string of hexadecimal digits of even
    length is decoded to the bytes whose text, in capitals, it is; any other
    string gives the empty string. *)
Theorem hex_to_bin_correct h :
  zlen h < 2 ^ 31 ->
  match hex_decode h with
  | Some l => HexToBin h = l /\ BinToHex (HexToBin h) = Ok (map to_upper h)
  | None => HexToBin h = []
  end.
Proof.
  intros Hl. rewrite hex_to_bin_decode by lia. destruct (hex_decode h) as [l|] eqn:E; [|reflexivity].
  pose proof (hex_decode_length _ _ _ (le_n _) E). apply (hex_text_decode _ _ _ (le_n _)) in E as [<- Hf].
  split; [reflexivity|]. apply bin_to_hex_spec; [exact Hf|]. unfold zlen in *. lia.
Qed.

Lemma hex_to_bin_correct_witness :
  hex_decode (bytes "0aFf") = Some [10; 255] /\
  HexToBin (bytes "0aFf") = [10; 255] /\ BinToHex (HexToBin (bytes "0aFf")) = Ok (bytes "0AFF") /\
  HexToBin (bytes "0aF") = [] /\ HexToBin (bytes "0g") = [].
Proof.
  split; [reflexivity|]. split; [exact (proj1 (hex_to_bin_correct (bytes "0aFf") eq_refl))|].
  split; [exact (proj2 (hex_to_bin_correct (bytes "0aFf") eq_refl))|].
  split; [exact (hex_to_bin_correct (bytes "0aF") eq_refl) | exact (hex_to_bin_correct (bytes "0g") eq_refl)].
Defined.

(** ** URL encoding *)

Definition url_char (c : Z) : list Z := url_encode_char [] c.

Lemma url_encode_char_app r c : url_encode_char r c = r ++ url_char c.
Proof.
  unfold url_char, url_encode_char. destruct (_ || _); [reflexivity|]. destruct (_ =? _); reflexivity.
Qed.

Lemma url_encode_flat l : URLEncode l = flat_map url_char l.
Proof.
  unfold URLEncode. change (flat_map url_char l) with ([] ++ flat_map url_char l). generalize (@nil Z).
  induction l as [|c l IH]; intros r; cbn [fold_left flat_map]; [symmetry; apply app_nil_r|].
  rewrite IH, url_encode_char_app, app_assoc. reflexivity.
Qed.

(** The characters that occur in encoded text. *)
Definition url_safe (c : Z) : bool := isalnum c || existsb (Z.eqb c) (bytes ".~+%").

Lemma url_decode_char c l l' :
  is_byte c -> url_decode l = Some l' -> url_decode (url_char c ++ l) = Some (c :: l').
Proof.
  intros Hc Hl. unfold url_char, url_encode_char.
  destruct (isalnum c || _ || _) eqn:E1.
  - cbn [app url_decode]. rewrite Hl.
    assert ((c =? 37) = false /\ (c =? 43) = false) as [-> ->]; [|reflexivity].
    unfold isalnum in E1. split; apply Z.eqb_neq; intros ->; discriminate E1.
  - destruct (Z.eqb_spec c 32) as [->|]; cbn [app url_decode]; [rewrite Hl; reflexivity|].
    set (hi := nth _ _ _). set (lo := nth _ _ _).
    assert ((hex_to_int hi =? c / 16) && (hex_to_int lo =? c mod 16) = true) as He.
    { subst hi lo. generalize c Hc. apply (all_bytes_spec (fun c =>
        (hex_to_int (nth (Z.to_nat (Z.land (Z.shiftr c 4) 15)) s_hex_data_map3 0) =? c / 16) &&
        (hex_to_int (nth (Z.to_nat (Z.land c 15)) s_hex_data_map3 0) =? c mod 16))).
      vm_compute. reflexivity. }
    destruct (byte_digits c Hc) as (H1 & H2 & H3). bool_hyps. cbn [Z.eqb Pos.eqb].
    destruct (Z.ltb_spec (hex_to_int hi) 0); [lia|]. destruct (Z.ltb_spec (hex_to_int lo) 0); [lia|].
    cbn [orb]. rewrite Hl. cbn [option_map]. do 2 f_equal. lia.
Qed.

(** C26: URL encoding.  The encoded text has only letters, digits and the four
    characters . ~ + %, and decoding it as form data gives every byte string
    back. *)
Theorem url_encode_roundtrip l :
  Forall is_byte l ->
  url_decode (URLEncode l) = Some l /\ forallb url_safe (URLEncode l) = true.
Proof.
  intros Hb. rewrite url_encode_flat. induction Hb as [|c l Hc _ [IH1 IH2]]; [split; reflexivity|].
  cbn [flat_map]. split; [apply url_decode_char; assumption|].
  rewrite forallb_app, IH2, andb_true_r. revert c Hc.
  apply (all_bytes_spec (fun c => forallb url_safe (url_char c))). vm_compute. reflexivity.
Qed.

Lemma url_encode_roundtrip_witness :
  URLEncode (bytes "a b/c_d") = bytes "a+b%2fc%5fd" /\
  url_decode (URLEncode (bytes "a b/c_d")) = Some (bytes "a b/c_d") /\
  forallb url_safe (URLEncode (bytes "a b/c_d")) = true.
Proof.
  split; [reflexivity|]. apply (url_encode_roundtrip (bytes "a b/c_d")).
  repeat constructor; unfold is_byte; cbn; lia.
Defined.

(** ** Splitting *)

Lemma erase_empty_filter l : erase_empty l = filter (fun s => negb (match s with [] => true | _ => false end)) l.
Proof. induction l as [|[|c s] l IH]; cbn; [reflexivity | exact IH | f_equal; exact IH]. Qed.

Lemma erase_empty_concat l : concat (erase_empty l) = concat l.
Proof. induction l as [|[|c s] l IH]; cbn; [reflexivity | exact IH |]. rewrite IH. reflexivity. Qed.

(** Splitting by three lengths inside the string cuts a prefix into its parts. *)
Lemma split_lengths_parts a b c d :
  zlen a + zlen b + zlen c + zlen d < 2 ^ 31 ->
  Split_lengths (a ++ b ++ c ++ d) (zlen a) (zlen b) (zlen c) = Ok [a; b; c].
Proof.
  intros Hl. pose proof (zlen_nonneg a). pose proof (zlen_nonneg b).
  pose proof (zlen_nonneg c). pose proof (zlen_nonneg d).
  unfold Split_lengths, string_substr. rewrite !wrap_small by lia. rewrite !zlen_app.
  repeat match goal with |- context [?x <? ?y] => destruct (Z.ltb_spec x y); try lia end.
  cbn [outcome_bind].
  rewrite int_result_ok by lia. cbn [outcome_bind]. rewrite wrap_small by lia.
  destruct (Z.ltb_spec (zlen a + (zlen b + (zlen c + zlen d))) (zlen a + zlen b)); [lia|].
  cbn [outcome_bind]. rewrite !Z.min_l by lia.
  pose proof (slice_app_middle [] a (b ++ c ++ d)) as Ha. cbn [app] in Ha. change (zlen []) with 0 in Ha.
  pose proof (slice_app_middle a b (c ++ d)) as Hb.
  pose proof (slice_app_middle (a ++ b) c d) as Hc. rewrite <- app_assoc, zlen_app in Hc.
  rewrite Ha, Hb, Hc. reflexivity.
Qed.
