(* ===== verification/MessagePump.v ===== *)
(** * The message pump

    src/base/message_loop/message_pump_impl.{h,cc}: the set of posted closures
    ordered by due time; src/base/message_loop/message_pump_default.{h,cc}: the
    pump that runs them on the threads of a Boost.Asio [io_service].  The
    operations are functions on the members; the threads, the timer and the
    queue of the [io_service] are a step relation, one step for each section of
    code that runs under the mutex or touches only its own thread. *)

From Stdlib Require Import ZArith List Bool Lia.
From S2P Require Import Prelude Cpp.
Import ListNotations.
Local Open Scope Z_scope.

(** ** Data *)

(** A [std::function<void()>] is a closure of the users of the pump or the one
    [Stop] posts. *)
Inductive Runnable (A : Type) : Type :=
| Closure (a : A)
| StopClosure.
Arguments Closure {A} a.
Arguments StopClosure {A}.

Record RunnableInfo (A : Type) : Type := mk_info {
  expired_time : Z;
  runnable : Runnable A;
  id : Z
}.
Arguments mk_info {A}.
Arguments expired_time {A}.
Arguments runnable {A}.
Arguments id {A}.

Record MessagePumpImpl (A : Type) : Type := mk_pump {
  runable_set_ : list (RunnableInfo A);   (* in the order of the std::set *)
  id_ : Z;
  stoped_ : bool
}.
Arguments mk_pump {A}.
Arguments runable_set_ {A}.
Arguments id_ {A}.
Arguments stoped_ {A}.

Section Pump.
Context {A : Type}.
Implicit Types (x y : RunnableInfo A) (l : list (RunnableInfo A)) (p : MessagePumpImpl A).

(** [RunnableInfo::operator<]. *)
Definition info_lt x y : bool :=
  if expired_time x =? expired_time y then id x <? id y else expired_time x <? expired_time y.

(** [std::set::insert]: nothing happens when an equivalent element is there. *)
Fixpoint set_insert x l : list (RunnableInfo A) :=
  match l with
  | [] => [x]
  | y :: l' =>
      if info_lt x y then x :: l
      else if info_lt y x then y :: set_insert x l' else l
  end.

Definition set_runables l p : MessagePumpImpl A := mk_pump l (id_ p) (stoped_ p).

Definition new_pump : MessagePumpImpl A := mk_pump [] 0 false.

(** ** Operations *)

(** The part of [PostRunable] under the mutex and, if [Wakeup] is to be called,
    its argument. *)
Definition post_insert (expired : Z) (r : Runnable A) p : MessagePumpImpl A * Z * option Z :=
  let i := u64 (id_ p + 1) in
  let wakeup :=
    match runable_set_ p with
    | [] => true
    | y :: _ => expired <? expired_time y
    end in
  (mk_pump (set_insert (mk_info expired r i) (runable_set_ p)) i (stoped_ p), i,
   if wakeup then Some expired else None).

(** [PostRunable(runnable, delay)] at [tick]: the pump, the id returned and the
    argument of [Wakeup]. *)
Definition PostRunable (tick delay : Z) (r : Runnable A) p : MessagePumpImpl A * Z * option Z :=
  if stoped_ p then (p, 0, None) else post_insert (u64 (tick + delay)) r p.

Fixpoint erase_id (i : Z) l : bool * list (RunnableInfo A) :=
  match l with
  | [] => (false, [])
  | y :: l' =>
      if id y =? i then (true, l')
      else let (found, l'') := erase_id i l' in (found, y :: l'')
  end.

Definition Cancel (i : Z) p : bool * MessagePumpImpl A :=
  let (found, l) := erase_id i (runable_set_ p) in (found, set_runables l p).

(** The loop of [DoWork] that takes what is due; it stops at the first element
    that is not. *)
Fixpoint take_due (now : Z) l : list (RunnableInfo A) * list (RunnableInfo A) :=
  match l with
  | [] => ([], [])
  | y :: l' =>
      if expired_time y <=? now then let (due, rest) := take_due now l' in (y :: due, rest)
      else ([], l)
  end.

(** The argument of [Wakeup] at the end of [DoWork] and inside [DoOneWork]. *)
Definition next_wakeup p : option Z :=
  match runable_set_ p with
  | [] => None
  | y :: _ => Some (expired_time y)
  end.

(** [DoOneWork]: the closure to run last, if any, and the argument of [Wakeup]
    before it. *)
Definition DoOneWork (now : Z) p : MessagePumpImpl A * option (RunnableInfo A) * option Z :=
  match runable_set_ p with
  | y :: l' =>
      if expired_time y <=? now then
        let p' := set_runables l' p in (p', Some y, next_wakeup p')
      else (p, None, next_wakeup p)
  | [] => (p, None, None)
  end.

(** The end of [Run], after [DoRun] has returned. *)
Definition run_end p : MessagePumpImpl A := mk_pump [] (id_ p) true.

Definition set_stoped p : MessagePumpImpl A := mk_pump (runable_set_ p) (id_ p) true.

(** ** The pump on an [io_service]

    [posting] and [waking] are the threads inside [PostRunable], before the
    mutex and between the mutex and [Wakeup]; [workers] are the threads inside
    [DoWork], each with the closures it has still to run. *)
Record world : Type := mk_world {
  pump : MessagePumpImpl A;
  clock : Z;
  timer : option Z;               (* timer_, when it is waiting *)
  posted : nat;                   (* DoWork closures posted to io_service_ *)
  work_ : bool;                   (* the io_service::work object *)
  posting : list (Z * Runnable A);
  waking : list Z;
  workers : list (list (RunnableInfo A));
  ran : list (RunnableInfo A)     (* the closures run, in order *)
}.

Definition new_world (t : Z) : world := mk_world new_pump t None 0 true [] [] [] [].

(** [MessagePumpDefatlt::Wakeup]: a new wait of the timer cancels the old one. *)
Definition Wakeup (t : Z) (w : world) : world :=
  if clock w <? t then
    mk_world (pump w) (clock w) (Some t) (posted w) (work_ w) (posting w) (waking w) (workers w) (ran w)
  else
    mk_world (pump w) (clock w) (timer w) (S (posted w)) (work_ w) (posting w) (waking w) (workers w) (ran w).

Definition wake_if (t : option Z) (w : world) : world :=
  match t with
  | Some t => Wakeup t w
  | None => w
  end.

(** [MessagePumpDefatlt::DoStop]. *)
Definition DoStop (w : world) : world :=
  mk_world (pump w) (clock w) None (posted w) false (posting w) (waking w) (workers w) (ran w).

(** A closure runs on a worker whose closures are [rest] afterwards; what a
    user's closure does to the pump are steps of their own. *)
Definition run_info x (others : list (list (RunnableInfo A))) (w : world) : world :=
  let w := mk_world (pump w) (clock w) (timer w) (posted w) (work_ w) (posting w) (waking w)
             others (ran w ++ [x]) in
  match runnable x with
  | StopClosure => DoStop w
  | Closure _ => w
  end.

(** A thread enters [DoWork]. *)
Definition start_work (w : world) : world :=
  let (due, rest) := take_due (clock w) (runable_set_ (pump w)) in
  mk_world (set_runables rest (pump w)) (clock w) (timer w) (posted w) (work_ w) (posting w) (waking w)
    (workers w ++ [due]) (ran w).

(** A thread leaves [DoWork]. *)
Definition finish_work (others : list (list (RunnableInfo A))) (w : world) : world :=
  wake_if (next_wakeup (pump w))
    (mk_world (pump w) (clock w) (timer w) (posted w) (work_ w) (posting w) (waking w) others (ran w)).

Definition set_pump p (w : world) : world :=
  mk_world p (clock w) (timer w) (posted w) (work_ w) (posting w) (waking w) (workers w) (ran w).

(** One step of the pump with [threads] threads, or of a thread that uses it. *)
Inductive step (threads : nat) : world -> world -> Prop :=
| step_tick t w :
    clock w <= t ->
    step threads w (mk_world (pump w) t (timer w) (posted w) (work_ w) (posting w) (waking w) (workers w) (ran w))
| step_post delay a w :           (* PostRunable, up to the mutex *)
    stoped_ (pump w) = false ->
    step threads w
      (mk_world (pump w) (clock w) (timer w) (posted w) (work_ w)
         (posting w ++ [(u64 (clock w + delay), Closure a)]) (waking w) (workers w) (ran w))
| step_stop w :                   (* Stop calls PostRunable *)
    stoped_ (pump w) = false ->
    step threads w
      (mk_world (pump w) (clock w) (timer w) (posted w) (work_ w)
         (posting w ++ [(u64 (clock w), StopClosure)]) (waking w) (workers w) (ran w))
| step_stoped w :                 (* Stop sets stoped_ *)
    step threads w (set_pump (set_stoped (pump w)) w)
| step_insert e r pre suf p i t w :
    posting w = pre ++ (e, r) :: suf ->
    post_insert e r (pump w) = (p, i, t) ->
    step threads w
      (mk_world p (clock w) (timer w) (posted w) (work_ w) (pre ++ suf)
         (waking w ++ match t with Some t => [t] | None => [] end) (workers w) (ran w))
| step_wakeup t pre suf w :
    waking w = pre ++ t :: suf ->
    step threads w
      (Wakeup t (mk_world (pump w) (clock w) (timer w) (posted w) (work_ w) (posting w) (pre ++ suf)
                   (workers w) (ran w)))
| step_cancel i found p w :
    Cancel i (pump w) = (found, p) -> step threads w (set_pump p w)
| step_posted n w :               (* a thread of io_service_ runs a posted DoWork *)
    posted w = S n -> (length (workers w) < threads)%nat ->
    step threads w
      (start_work (mk_world (pump w) (clock w) (timer w) n (work_ w) (posting w) (waking w) (workers w) (ran w)))
| step_timer d w :                (* the timer has expired *)
    timer w = Some d -> d <= clock w -> (length (workers w) < threads)%nat ->
    step threads w
      (start_work (mk_world (pump w) (clock w) None (posted w) (work_ w) (posting w) (waking w) (workers w) (ran w)))
| step_run x due pre suf w :
    workers w = pre ++ (x :: due) :: suf ->
    step threads w (run_info x (pre ++ due :: suf) w)
| step_finish pre suf w :
    workers w = pre ++ [] :: suf ->
    step threads w (finish_work (pre ++ suf) w)
| step_exit w :                   (* io_service_.run() returns *)
    work_ w = false -> posted w = O -> timer w = None -> workers w = [] ->
    step threads w (set_pump (run_end (pump w)) w).

(** Sequences of steps, as long as the 64-bit counter of ids does not wrap
    around. *)
Inductive runs (threads : nat) (w : world) : world -> Prop :=
| runs_refl : runs threads w w
| runs_step w1 w2 :
    runs threads w w1 -> id_ (pump w1) + 1 < 2 ^ 64 -> step threads w1 w2 -> runs threads w w2.

(** The worlds a new pump gets to. *)
Definition reachable (threads : nat) (w : world) : Prop := exists t, runs threads (new_world t) w.

(** ** One thread alone

    What the thread of a pump with one thread does when no other thread uses
    the pump: [io_service_.run()] as a function. *)

Fixpoint run_all (due : list (RunnableInfo A)) (w : world) : world :=
  match due with
  | [] => finish_work [] w
  | x :: due' => run_all due' (run_info x [due'] w)
  end.

Definition work_round (w : world) : world :=
  run_all (fst (take_due (clock w) (runable_set_ (pump w)))) (start_work w).

(** A posted [DoWork], else the timer, which the thread waits for; [None] when
    there is nothing to wait for. *)
Definition io_round (w : world) : option world :=
  match posted w, timer w with
  | S n, _ =>
      Some (work_round (mk_world (pump w) (clock w) (timer w) n (work_ w) (posting w) (waking w) (workers w) (ran w)))
  | O, Some d =>
      Some (work_round (mk_world (pump w) (Z.max (clock w) d) None O (work_ w) (posting w) (waking w) (workers w) (ran w)))
  | O, None => None
  end.

Fixpoint io_run (fuel : nat) (w : world) : world :=
  match fuel with
  | O => w
  | S f =>
      match io_round w with
      | Some w' => io_run f w'
      | None => w
      end
  end.
End Pump.

Arguments world : clear implicits.
