(* ===== verification/MessagePumpSpec.v ===== *)
(** * The message pump as a queue

    The order of the set, the abstract queue the pump implements, and what keeps
    a posted closure from being forgotten. *)

From Stdlib Require Import ZArith List Bool Lia Permutation Sorted Morphisms.
From S2P Require Import Prelude Cpp MessagePump.
Import ListNotations.
Local Open Scope Z_scope.

Section Order.
Context {A : Type}.
Implicit Types (x y : RunnableInfo A) (l : list (RunnableInfo A)) (p : MessagePumpImpl A).

(** ** The order of the set *)

Definition before x y : Prop := info_lt x y = true.

Definition sorted l : Prop := StronglySorted before l.

Lemma before_iff x y :
  before x y <-> expired_time x < expired_time y \/ (expired_time x = expired_time y /\ id x < id y).
Proof.
  unfold before, info_lt. destruct (Z.eqb_spec (expired_time x) (expired_time y)) as [He|He];
    rewrite Z.ltb_lt; lia.
Qed.

Lemma before_trans x y z : before x y -> before y z -> before x z.
Proof. rewrite !before_iff. lia. Qed.

Lemma not_before x y : info_lt x y = false -> id x <> id y -> before y x.
Proof.
  intros Hf Hi. apply before_iff. unfold info_lt in Hf.
  destruct (Z.eqb_spec (expired_time x) (expired_time y)); bool_hyps; lia.
Qed.

Definition fresh x l : Prop := Forall (fun y => id y < id x) l.

Lemma set_insert_perm x l : fresh x l -> Permutation (set_insert x l) (x :: l).
Proof.
  induction 1 as [|y l Hy _ IH]; cbn [set_insert]; [reflexivity|].
  destruct (info_lt x y) eqn:E1; [reflexivity|]. apply not_before in E1; [|lia]. rewrite E1.
  rewrite IH. apply perm_swap.
Qed.

Lemma set_insert_sorted x l : fresh x l -> sorted l -> sorted (set_insert x l).
Proof.
  intros Hf Hs. revert Hf. induction Hs as [|y l Hs IH Hy]; intros Hf; cbn [set_insert];
    [repeat constructor|].
  inversion_clear Hf as [|? ? Hxy Hf']. destruct (info_lt x y) eqn:E1.
  - constructor; [constructor; assumption|]. constructor; [exact E1|].
    eapply Forall_impl; [|exact Hy]. intros z. apply before_trans, E1.
  - apply not_before in E1; [|lia]. rewrite E1. constructor; [apply IH, Hf'|].
    rewrite (set_insert_perm x l Hf'). constructor; assumption.
Qed.

(** The loop that stops at the first closure that is not due takes all that
    are. *)
Lemma take_due_filter now l :
  sorted l ->
  take_due now l = (filter (fun y => expired_time y <=? now) l, filter (fun y => negb (expired_time y <=? now)) l).
Proof.
  induction 1 as [|y l Hs IH Hy]; cbn [take_due filter]; [reflexivity|].
  destruct (Z.leb_spec (expired_time y) now) as [Hle|Hgt]; [rewrite IH; reflexivity|]. cbn [negb].
  assert (forall z, In z l -> (expired_time z <=? now) = false) as Hno.
  { intros z Hz. apply Z.leb_gt. rewrite Forall_forall in Hy. apply Hy, before_iff in Hz. lia. }
  f_equal; [|f_equal]; clear -Hno; induction l as [|z l IH]; cbn; try reflexivity;
    rewrite (Hno z) by (left; reflexivity); cbn; rewrite <- ?IH; auto using in_cons.
Qed.

Lemma take_due_app now l due rest : take_due now l = (due, rest) -> l = due ++ rest.
Proof.
  revert due. induction l as [|y l IH]; cbn [take_due]; intros due H; [injection H as <- <-; reflexivity|].
  destruct (_ <=? _); [|injection H as <- <-; reflexivity].
  destruct (take_due now l) as [d r]. injection H as <- <-. cbn. f_equal. apply IH. reflexivity.
Qed.

Lemma take_due_due now l due rest :
  take_due now l = (due, rest) -> Forall (fun y => expired_time y <= now) due.
Proof.
  revert due. induction l as [|y l IH]; cbn [take_due]; intros due H; [injection H as <- <-; constructor|].
  destruct (Z.leb_spec (expired_time y) now); [|injection H as <- <-; constructor].
  destruct (take_due now l) as [d r]. injection H as <- <-. constructor; [assumption | eapply IH; reflexivity].
Qed.

Lemma erase_id_spec i l found l' :
  erase_id i l = (found, l') ->
  if found then exists x l1 l2, l = l1 ++ x :: l2 /\ l' = l1 ++ l2 /\ id x = i
  else l' = l /\ Forall (fun y => id y <> i) l.
Proof.
  revert l'. induction l as [|y l IH]; cbn [erase_id]; intros l' H; [injection H as <- <-; auto|].
  destruct (Z.eqb_spec (id y) i) as [Hi|Hi].
  - injection H as <- <-. exists y, [], l. auto.
  - destruct (erase_id i l) as [f r]. injection H as <- <-. specialize (IH r eq_refl). destruct f.
    + destruct IH as (x & l1 & l2 & -> & -> & Hx). exists x, (y :: l1), l2. auto.
    + destruct IH as [-> Hf]. split; [reflexivity | constructor; assumption].
Qed.

(** ** Who runs before whom *)

(** [x] was posted before [y] and is due no later. *)
Definition precedes x y : Prop := id x < id y /\ expired_time x <= expired_time y.

(** No closure stands in front of one that precedes it. *)
Inductive in_turn : list (RunnableInfo A) -> Prop :=
| in_turn_nil : in_turn []
| in_turn_cons x l : Forall (fun y => ~ precedes y x) l -> in_turn l -> in_turn (x :: l).

Lemma in_turn_app l1 l2 :
  in_turn (l1 ++ l2) <-> in_turn l1 /\ in_turn l2 /\ Forall (fun x => Forall (fun y => ~ precedes y x) l2) l1.
Proof.
  induction l1 as [|x l1 IH]; cbn [app].
  - split; [intros H; repeat split; [constructor | exact H | constructor] | intros (_ & H & _); exact H].
  - split.
    + inversion_clear 1 as [|? ? Hx Ht]. apply Forall_app in Hx as [Hx1 Hx2].
      apply IH in Ht as (H1 & H2 & H3). repeat constructor; assumption.
    + intros (H1 & H2 & H3). inversion_clear H1. inversion_clear H3.
      constructor; [apply Forall_app; auto | apply IH; auto].
Qed.

Lemma in_turn_sub l1 x l2 : in_turn (l1 ++ x :: l2) -> in_turn (l1 ++ l2).
Proof.
  rewrite !in_turn_app. intros (H1 & H2 & H3). inversion_clear H2. split; [assumption|]. split; [assumption|].
  eapply Forall_impl; [|exact H3]. intros y Hy. inversion_clear Hy. assumption.
Qed.

Lemma sorted_in_turn l : sorted l -> in_turn l.
Proof.
  induction 1 as [|x l Hs IH Hx]; constructor; [|exact IH].
  eapply Forall_impl; [|exact Hx]. intros y Hy. apply before_iff in Hy. unfold precedes. lia.
Qed.

Lemma in_turn_insert x l1 l2 :
  in_turn (l1 ++ l2) -> sorted l2 -> fresh x (l1 ++ l2) -> in_turn (l1 ++ set_insert x l2).
Proof.
  intros Ht Hs Hf. apply Forall_app in Hf as [Hf1 Hf2]. apply in_turn_app in Ht as (H1 & H2 & H3).
  apply in_turn_app. split; [exact H1|].
  split; [apply sorted_in_turn, set_insert_sorted; assumption|].
  rewrite Forall_forall in *. intros y Hy. rewrite (set_insert_perm x l2) by (apply Forall_forall; exact Hf2).
  constructor; [|apply H3, Hy]. specialize (Hf1 y Hy). cbn in Hf1. unfold precedes. lia.
Qed.
End Order.


(** ** The worlds of a pump *)

Section Worlds.
Context {A : Type}.
Implicit Types (x y : RunnableInfo A) (w : world A).

(** The closures that wait: those a thread has taken, then those in the set. *)
Definition waiting w : list (RunnableInfo A) := concat (workers w) ++ runable_set_ (pump w).

(** All closures ever posted that were not cancelled, in the order in which one
    thread runs them. *)
Definition line w : list (RunnableInfo A) := ran w ++ waiting w.

(** Something will call [DoWork], or a thread is still in it. *)
Definition wakeup_pending w : Prop :=
  waking w <> [] \/ (0 < posted w)%nat \/ timer w <> None \/ workers w <> [].

(** Ids come from the counter, and the set is in order. *)
Record order_inv w : Prop := {
  wi_sorted : sorted (runable_set_ (pump w));
  wi_counter : 0 <= id_ (pump w);
  wi_ids : Forall (fun y => 0 < id y <= id_ (pump w)) (line w);
  wi_once : NoDup (map id (line w))
}.

Record world_inv w : Prop := {
  wi_order : order_inv w;
  wi_due : Forall (fun y => expired_time y <= clock w) (concat (workers w));
  wi_awake : runable_set_ (pump w) <> [] -> wakeup_pending w
}.

(** What a step does to the line of closures, on every kind of pump. *)
Inductive line_step w w' : Prop :=
| line_same : ran w' = ran w -> waiting w' = waiting w -> line_step w w'
| line_post e r l :
    waiting w = concat (workers w) ++ l -> id_ (pump w') = u64 (id_ (pump w) + 1) ->
    ran w' = ran w ->
    waiting w' = concat (workers w) ++ set_insert (mk_info e r (id_ (pump w'))) l -> line_step w w'
| line_cancel x l1 l2 :
    ran w' = ran w -> waiting w = l1 ++ x :: l2 -> waiting w' = l1 ++ l2 -> line_step w w'
| line_run x l1 l2 :
    expired_time x <= clock w' -> (length (workers w) <= 1 -> l1 = [])%nat ->
    waiting w = l1 ++ x :: l2 -> waiting w' = l1 ++ l2 -> ran w' = ran w ++ [x] -> line_step w w'
| line_clear : ran w' = ran w -> waiting w' = [] -> line_step w w'.

Lemma Wakeup_waiting t w : waiting (Wakeup t w) = waiting w /\ ran (Wakeup t w) = ran w /\ pump (Wakeup t w) = pump w
  /\ clock (Wakeup t w) = clock w /\ workers (Wakeup t w) = workers w.
Proof. unfold Wakeup. destruct (_ <? _); repeat split. Qed.

Lemma Wakeup_pending t w : wakeup_pending (Wakeup t w).
Proof.
  unfold wakeup_pending, Wakeup. destruct (_ <? _); cbn; [right; right; left; discriminate|].
  right; left. lia.
Qed.

Lemma start_work_waiting w :
  waiting (start_work w) = waiting w /\ ran (start_work w) = ran w /\ id_ (pump (start_work w)) = id_ (pump w).
Proof.
  unfold start_work, waiting. destruct (take_due _ _) as [due rest] eqn:E. cbn.
  apply take_due_app in E. rewrite E, concat_app. cbn. rewrite app_nil_r, <- app_assoc. auto.
Qed.

Lemma finish_work_waiting others w :
  concat others = concat (workers w) ->
  waiting (finish_work others w) = waiting w /\ ran (finish_work others w) = ran w /\
  pump (finish_work others w) = pump w /\ clock (finish_work others w) = clock w /\
  workers (finish_work others w) = others.
Proof.
  intros Hc. unfold finish_work, wake_if. destruct (next_wakeup (pump w)) as [t|].
  - match goal with |- context [Wakeup t ?v] => destruct (Wakeup_waiting t v) as (-> & -> & -> & -> & ->) end.
    unfold waiting. cbn. rewrite Hc. auto.
  - unfold waiting. cbn. rewrite Hc. auto.
Qed.

Lemma finish_concat pre suf w : workers w = pre ++ [] :: suf -> concat (pre ++ suf) = concat (workers w).
Proof. intros ->. rewrite !concat_app. reflexivity. Qed.

(** The operations all pumps share. *)
Lemma cancel_line i found p w : Cancel i (pump w) = (found, p) -> line_step w (set_pump p w).
Proof.
  unfold Cancel. destruct (erase_id i _) as [g l] eqn:E. intros Hc. injection Hc as <- <-.
  apply erase_id_spec in E. destruct g.
  - destruct E as (x & l1 & l2 & E & -> & _).
    apply (line_cancel _ _ x (concat (workers w) ++ l1) l2); unfold waiting; cbn; rewrite ?E, <- ?app_assoc; reflexivity.
  - destruct E as [-> _]. apply line_same; reflexivity.
Qed.

Lemma post_line e r p i t w w' :
  post_insert e r (pump w) = (p, i, t) -> pump w' = p -> ran w' = ran w -> workers w' = workers w -> line_step w w'.
Proof.
  intros Hi Hp Hr Hw. injection Hi as <- <- <-.
  eapply line_post; unfold waiting; rewrite ?Hw, ?Hp; cbn; auto.
Qed.

Lemma cancel_id i found p w : Cancel i (pump w) = (found, p) -> id_ p = id_ (pump w).
Proof. unfold Cancel. destruct (erase_id i _). intros Hc. injection Hc as <- <-. reflexivity. Qed.

Lemma post_id e r p i t w : post_insert e r (pump w) = (p, i, t) -> id_ p = u64 (id_ (pump w) + 1).
Proof. intros Hi. injection Hi as <- <- <-. reflexivity. Qed.

Lemma step_line threads w w' : world_inv w -> step threads w w' -> line_step w w'.
Proof.
  intros Hinv H. destruct H as [t w Ht|delay a w Hs|w Hs|w|e r pre suf p i t w Hp Hi|t pre suf w Hw|i f p w Hc
    |n w Hn Hl|d w Hd Hc Hl|x due pre suf w Hw|pre suf w Hw|w H1 H2 H3 H4].
  - apply line_same; reflexivity.
  - apply line_same; reflexivity.
  - apply line_same; reflexivity.
  - apply line_same; reflexivity.
  - eapply post_line; [exact Hi | reflexivity..].
  - match goal with |- line_step _ (Wakeup t ?v) => destruct (Wakeup_waiting t v) as (E1 & E2 & _) end.
    apply line_same; [exact E2 | exact E1].
  - eapply cancel_line, Hc.
  - match goal with |- line_step _ (start_work ?v) => destruct (start_work_waiting v) as (E1 & E2 & _) end.
    apply line_same; [exact E2 | exact E1].
  - match goal with |- line_step _ (start_work ?v) => destruct (start_work_waiting v) as (E1 & E2 & _) end.
    apply line_same; [exact E2 | exact E1].
  - apply (line_run _ _ x (concat pre) (due ++ concat suf ++ runable_set_ (pump w))).
    + pose proof (wi_due w Hinv) as Hd. rewrite Forall_forall in Hd.
      replace (clock (run_info x (pre ++ due :: suf) w)) with (clock w) by (unfold run_info; destruct (runnable x); reflexivity).
      apply Hd. rewrite Hw, concat_app. apply in_app_iff. right. left. reflexivity.
    + rewrite Hw. destruct pre; [reflexivity|]. rewrite length_app. cbn. lia.
    + unfold waiting. rewrite Hw, concat_app, <- app_assoc. cbn. rewrite <- app_assoc. reflexivity.
    + unfold waiting, run_info. destruct (runnable x); cbn; rewrite concat_app; cbn; rewrite <- !app_assoc;
        reflexivity.
    + unfold run_info. destruct (runnable x); reflexivity.
  - apply finish_concat in Hw. destruct (finish_work_waiting _ _ Hw) as (E1 & E2 & _).
    apply line_same; assumption.
  - apply line_clear; [reflexivity|]. unfold waiting. cbn. rewrite H4. reflexivity.
Qed.

Lemma step_id threads w w' :
  step threads w w' -> id_ (pump w') = id_ (pump w) \/ id_ (pump w') = u64 (id_ (pump w) + 1).
Proof.
  intros H. destruct H as [| | | |e r pre suf p i t w Hp Hi|t pre suf w Hw|i f p w Hc
    |n w Hn Hl|d w Hd Hc Hl|x due pre suf w Hw|pre suf w Hw|]; cbn; auto.
  - right. eapply post_id, Hi.
  - unfold Wakeup. destruct (_ <? _); auto.
  - left. eapply cancel_id, Hc.
  - unfold start_work. destruct (take_due _ _). auto.
  - unfold start_work. destruct (take_due _ _). auto.
  - unfold run_info. destruct (runnable x); auto.
  - apply finish_concat in Hw. destruct (finish_work_waiting _ _ Hw) as (_ & _ & -> & _). auto.
Qed.

(** ** The invariant *)

Lemma sorted_sub l1 x (l2 : list (RunnableInfo A)) : sorted (l1 ++ x :: l2) -> sorted (l1 ++ l2).
Proof.
  unfold sorted. induction l1 as [|y l1 IH]; cbn [app]; intros H.
  - apply StronglySorted_inv in H as [H _]. exact H.
  - apply StronglySorted_inv in H as [H1 H2]. constructor; [apply IH, H1|].
    apply Forall_app in H2 as [H2 H3]. inversion_clear H3. apply Forall_app. auto.
Qed.

Lemma sorted_app_r l1 (l2 : list (RunnableInfo A)) : sorted (l1 ++ l2) -> sorted l2.
Proof. induction l1; [auto|]. intros H. apply StronglySorted_inv in H as [H _]. auto. Qed.

Lemma line_fresh w e r :
  order_inv w -> id_ (pump w) + 1 < 2 ^ 64 -> fresh (mk_info e r (u64 (id_ (pump w) + 1))) (line w).
Proof.
  intros Hi Hb. unfold fresh. rewrite wrap_small by (pose proof (wi_counter w Hi); lia).
  eapply Forall_impl; [|exact (wi_ids w Hi)]. cbn. lia.
Qed.

Lemma fresh_set w x : fresh x (line w) -> fresh x (runable_set_ (pump w)).
Proof. intros H. apply Forall_app in H as [_ H]. apply Forall_app in H as [_ H]. exact H. Qed.

Lemma line_step_inv w w' :
  order_inv w -> id_ (pump w) + 1 < 2 ^ 64 -> line_step w w' ->
  id_ (pump w') = id_ (pump w) \/ id_ (pump w') = u64 (id_ (pump w) + 1) ->
  sorted (runable_set_ (pump w')) -> order_inv w'.
Proof.
  intros Hi Hb Hl Hid Hso. pose proof (wi_counter w Hi) as Hc. rewrite wrap_small in Hid by lia.
  assert (Forall (fun y => 0 < id y <= id_ (pump w')) (line w)) as Hids.
  { eapply Forall_impl; [|exact (wi_ids w Hi)]. cbn. lia. }
  pose proof (wi_once w Hi) as Ho.
  enough (Forall (fun y => 0 < id y <= id_ (pump w')) (line w') /\ NoDup (map id (line w'))) as [H1 H2]
    by (constructor; [exact Hso | lia | exact H1 | exact H2]).
  unfold line in *.
  destruct Hl as [Hr Hw|e r l Hw Hn Hr Hw'|x l1 l2 Hr Hw Hw'|x l1 l2 _ _ Hw Hw' Hr|Hr Hw].
  - rewrite Hr, Hw. auto.
  - rewrite wrap_small in Hn by lia. pose proof (line_fresh w e r Hi Hb) as Hf.
    unfold line in Hf. rewrite wrap_small in Hf by lia. rewrite Hw in Hf, Hids, Ho.
    rewrite Hn in *. rewrite Hr, Hw'.
    assert (fresh (mk_info e r (id_ (pump w) + 1)) l) as Hfl.
    { apply Forall_app in Hf as [_ Hf]. apply Forall_app in Hf as [_ Hf]. exact Hf. }
    rewrite (set_insert_perm _ _ Hfl), <- Permutation_middle, <- Permutation_middle.
    split; [constructor; [cbn; lia | exact Hids]|]. cbn [map id]. constructor; [|exact Ho].
    rewrite in_map_iff. intros (y & Hy & Hin). unfold fresh in Hf. rewrite Forall_forall in Hf.
    apply Hf in Hin. cbn in Hin. lia.
  - rewrite Hr, Hw' in *. rewrite Hw in Hids, Ho. rewrite app_assoc in *.
    split; [|rewrite map_app in *; eapply NoDup_remove_1; exact Ho].
    apply Forall_app in Hids as [H1 H2]. inversion_clear H2. apply Forall_app. auto.
  - rewrite Hr, Hw', <- app_assoc. rewrite Hw in Hids, Ho.
    assert (Permutation (ran w ++ [x] ++ l1 ++ l2) (ran w ++ l1 ++ x :: l2)) as Hp.
    { apply Permutation_app_head. exact (Permutation_middle l1 l2 x). }
    rewrite Hp. auto.
  - rewrite Hr, Hw, app_nil_r. apply Forall_app in Hids as [Hids _].
    rewrite map_app in Ho. apply NoDup_app_remove_r in Ho. auto.
Qed.

(** [Cancel] finds what is in the set; what it has taken out is gone for good. *)
Lemma cancel_found i found p w :
  Cancel i (pump w) = (found, p) -> (found = true <-> In i (map id (runable_set_ (pump w)))).
Proof.
  unfold Cancel. destruct (erase_id i _) as [g l] eqn:E. intros Hc. injection Hc as <- <-.
  apply erase_id_spec in E. destruct g; (split; [intros Hf; try discriminate Hf | intros Hin; try reflexivity]).
  - destruct E as (x & l1 & l2 & -> & _ & <-). apply in_map, in_elt.
  - destruct E as [_ Hn]. apply in_map_iff in Hin as (y & Hy & Hin). rewrite Forall_forall in Hn.
    now contradiction (Hn y Hin).
Qed.

Definition absent i w : Prop := i <= id_ (pump w) /\ ~ In i (map id (line w)).

Lemma cancel_absent i p w : order_inv w -> Cancel i (pump w) = (true, p) -> absent i (set_pump p w).
Proof.
  intros Hi. unfold Cancel. destruct (erase_id i _) as [g l] eqn:E. intros Hc. injection Hc as -> <-.
  apply erase_id_spec in E as (x & l1 & l2 & E & -> & <-).
  pose proof (wi_once w Hi) as Ho. pose proof (wi_ids w Hi) as Hx. unfold absent, line, waiting in *. cbn.
  rewrite E, !app_assoc in Ho, Hx. rewrite map_app in Ho. apply NoDup_remove_2 in Ho. rewrite <- map_app in Ho.
  apply Forall_app in Hx as [_ Hx]. inversion_clear Hx. rewrite !app_assoc. split; [lia | exact Ho].
Qed.

Lemma line_step_absent i w w' :
  order_inv w -> id_ (pump w) + 1 < 2 ^ 64 -> line_step w w' ->
  id_ (pump w') = id_ (pump w) \/ id_ (pump w') = u64 (id_ (pump w) + 1) -> absent i w -> absent i w'.
Proof.
  intros Hi Hb Hl Hid [Ha Hn]. pose proof (wi_counter w Hi) as Hc. rewrite wrap_small in Hid by lia.
  split; [lia|]. unfold line in *. rewrite map_app in *.
  destruct Hl as [Hr Hw|e r l Hw Hp Hr Hw'|x l1 l2 Hr Hw Hw'|x l1 l2 _ _ Hw Hw' Hr|Hr Hw].
  - rewrite Hr, Hw. exact Hn.
  - rewrite wrap_small in Hp by lia. pose proof (line_fresh w e r Hi Hb) as Hf. rewrite wrap_small in Hf by lia.
    unfold line in Hf. rewrite Hw in Hf, Hn. apply Forall_app in Hf as [_ [_ Hf]%Forall_app].
    rewrite Hr, Hw', Hp, map_app, !in_app_iff, (set_insert_perm _ _ Hf). rewrite map_app, !in_app_iff in Hn.
    cbn. intuition lia.
  - rewrite Hr, Hw'. rewrite Hw in Hn. rewrite map_app, !in_app_iff in *. cbn in Hn. tauto.
  - rewrite Hr, Hw'. rewrite Hw in Hn. rewrite !map_app, !in_app_iff in *. cbn in *. tauto.
  - rewrite Hr, Hw. cbn. rewrite app_nil_r. rewrite in_app_iff in Hn. tauto.
Qed.

Lemma absent_ran i w : absent i w -> ~ In i (map id (ran w)).
Proof. intros [_ Hn] Hi. apply Hn. unfold line. rewrite map_app, in_app_iff. auto. Qed.

Lemma cancel_sorted i found p w :
  Cancel i (pump w) = (found, p) -> sorted (runable_set_ (pump w)) -> sorted (runable_set_ p).
Proof.
  unfold Cancel. destruct (erase_id i _) as [g l] eqn:E. intros Hc Hs. injection Hc as <- <-.
  apply erase_id_spec in E. destruct g; [|destruct E as [-> _]; exact Hs].
  destruct E as (x & l1 & l2 & E & -> & _). rewrite E in Hs. eapply sorted_sub, Hs.
Qed.

Lemma post_sorted e r p i t w :
  post_insert e r (pump w) = (p, i, t) -> order_inv w -> id_ (pump w) + 1 < 2 ^ 64 -> sorted (runable_set_ p).
Proof.
  intros Hx Hi Hb. injection Hx as <- <- <-.
  apply set_insert_sorted; [apply fresh_set, line_fresh; assumption | exact (wi_sorted w Hi)].
Qed.

(** A set that is not empty was not empty before [Cancel]; before [PostRunable]
    it was, or there is a call of [Wakeup]. *)
Lemma cancel_nonempty i found p w :
  Cancel i (pump w) = (found, p) -> runable_set_ p <> [] -> runable_set_ (pump w) <> [].
Proof.
  unfold Cancel. destruct (erase_id i _) as [g l] eqn:E. intros Hc. injection Hc as <- <-. cbn.
  intros Hl He. rewrite He in E. injection E as <- <-. contradiction.
Qed.

Lemma post_wakes e r p i t w l :
  post_insert e r (pump w) = (p, i, t) ->
  runable_set_ (pump w) <> [] \/ l ++ match t with Some t => [t] | None => [] end <> [].
Proof.
  intros Hx. injection Hx as <- <- <-. destruct (runable_set_ (pump w)); [right; destruct l; discriminate | left; discriminate].
Qed.

Lemma step_sorted threads w w' :
  order_inv w -> id_ (pump w) + 1 < 2 ^ 64 -> step threads w w' -> sorted (runable_set_ (pump w')).
Proof.
  intros Hi Hb H. pose proof (wi_sorted w Hi) as Hs. destruct H as [| | | |e r pre suf p i t w Hp Hx|t pre suf w Hw|i f p w Hc
    |n w Hn Hl|d w Hd Hc Hl|x due pre suf w Hw|pre suf w Hw|]; try exact Hs.
  - eapply post_sorted; eassumption.
  - match goal with |- context [Wakeup t ?v] => destruct (Wakeup_waiting t v) as (_ & _ & -> & _) end. exact Hs.
  - eapply cancel_sorted; eassumption.
  - unfold start_work. destruct (take_due _ _) as [due rest] eqn:E. apply take_due_app in E.
    cbn in E |- *. rewrite E in Hs. eapply sorted_app_r, Hs.
  - unfold start_work. destruct (take_due _ _) as [due rest] eqn:E. apply take_due_app in E.
    cbn in E |- *. rewrite E in Hs. eapply sorted_app_r, Hs.
  - unfold run_info. destruct (runnable x); exact Hs.
  - apply finish_concat in Hw. destruct (finish_work_waiting _ _ Hw) as (_ & _ & -> & _). exact Hs.
  - constructor.
Qed.

Lemma step_due threads w w' :
  world_inv w -> step threads w w' -> Forall (fun y => expired_time y <= clock w') (concat (workers w')).
Proof.
  intros Hi H. pose proof (wi_due w Hi) as Hd. destruct H as [t w Ht| | | |e r pre suf p i t w Hp Hx|t pre suf w Hw|i f p w Hc
    |n w Hn Hl|d w Ht Hc Hl|x due pre suf w Hw|pre suf w Hw|]; try exact Hd.
  - eapply Forall_impl; [|exact Hd]. cbn. lia.
  - match goal with |- context [Wakeup t ?v] => destruct (Wakeup_waiting t v) as (_ & _ & _ & -> & ->) end. exact Hd.
  - unfold start_work. destruct (take_due _ _) as [due rest] eqn:E. apply take_due_due in E.
    cbn in *. rewrite concat_app. apply Forall_app. cbn. rewrite app_nil_r. auto.
  - unfold start_work. destruct (take_due _ _) as [due rest] eqn:E. apply take_due_due in E.
    cbn in *. rewrite concat_app. apply Forall_app. cbn. rewrite app_nil_r. auto.
  - rewrite Hw, concat_app in Hd. unfold run_info. destruct (runnable x); cbn; rewrite concat_app;
      apply Forall_app in Hd as [H1 H2]; inversion_clear H2; apply Forall_app; auto.
  - apply finish_concat in Hw. destruct (finish_work_waiting _ _ Hw) as (_ & _ & _ & -> & ->).
    rewrite Hw. exact Hd.
Qed.

Lemma step_awake threads w w' :
  world_inv w -> step threads w w' -> runable_set_ (pump w') <> [] -> wakeup_pending w'.
Proof.
  intros Hi H. pose proof (wi_awake w Hi) as Ha. unfold wakeup_pending in *.
  destruct H as [t w Ht| | | |e r pre suf p i t w Hp Hx|t pre suf w Hw|i f p w Hc
    |n w Hn Hl|d w Ht Hc Hl|x due pre suf w Hw|pre suf w Hw|]; try exact Ha.
  - cbn. intros _. destruct (post_wakes _ _ _ _ _ _ (waking w) Hx) as [He|He]; [|auto].
    destruct (Ha He) as [H|H]; [|auto]. left. intros [H' _]%app_eq_nil. contradiction.
  - intros _. apply Wakeup_pending.
  - intros Hl. apply Ha. exact (cancel_nonempty _ _ _ _ Hc Hl).
  - unfold start_work. destruct (take_due _ _). cbn. intros _. do 3 right. destruct (workers w); discriminate.
  - unfold start_work. destruct (take_due _ _). cbn. intros _. do 3 right. destruct (workers w); discriminate.
  - intros _. do 3 right. unfold run_info. destruct (runnable x), pre; discriminate.
  - unfold finish_work, next_wakeup. destruct (runable_set_ (pump w)) as [|y l] eqn:E.
    + cbn. rewrite E. contradiction.
    + intros _. apply Wakeup_pending.
  - cbn. contradiction.
Qed.

Lemma new_world_inv t : world_inv (new_world t).
Proof. repeat (constructor; cbn; try lia; try contradiction). Qed.

Lemma runs_inv threads w w' : world_inv w -> runs threads w w' -> world_inv w'.
Proof.
  intros Hw. induction 1 as [|w1 w2 _ IH Hb Hs]; [exact Hw|].
  constructor.
  - eapply line_step_inv; [exact (wi_order w1 IH) | exact Hb | | | ].
    + eapply step_line; eassumption.
    + eapply step_id, Hs.
    + eapply step_sorted; [exact (wi_order w1 IH) | exact Hb | exact Hs].
  - eapply step_due; eassumption.
  - eapply step_awake; eassumption.
Qed.

Lemma runs_absent i threads w w' : world_inv w -> runs threads w w' -> absent i w -> absent i w'.
Proof.
  intros Hi. induction 1 as [|w1 w2 Hr IH Hb Hs]; [auto|]. intros Ha. pose proof (runs_inv _ _ _ Hi Hr) as Hi1.
  eapply line_step_absent; [exact (wi_order _ Hi1) | exact Hb | eapply step_line; eassumption | eapply step_id, Hs | exact (IH Ha)].
Qed.

Lemma cancel_runs i found p w :
  id_ (pump w) + 1 < 2 ^ 64 -> Cancel i (pump w) = (found, p) -> forall threads, runs threads w (set_pump p w).
Proof. intros Hb Hc threads. eapply runs_step; [apply runs_refl | exact Hb | eapply step_cancel, Hc]. Qed.

Lemma reachable_inv threads w : reachable threads w -> world_inv w.
Proof. intros [t H]. exact (runs_inv _ _ _ (new_world_inv t) H). Qed.

Lemma runs_trans threads w1 w2 w3 : runs threads w1 w2 -> runs threads w2 w3 -> runs threads w1 w3.
Proof. intros H. induction 1; [exact H | econstructor; eassumption]. Qed.

(** Time does not go back. *)
Lemma step_clock threads w w' : step threads w w' -> clock w <= clock w'.
Proof.
  intros H. destruct H as [t w Ht| | | | |t pre suf w Hw| |n w Hn Hl|d w Ht Hc Hl|x due pre suf w Hw|pre suf w Hw|];
    cbn; try lia.
  - unfold Wakeup. destruct (_ <? _); cbn; lia.
  - unfold start_work. destruct (take_due _ _). cbn. lia.
  - unfold start_work. destruct (take_due _ _). cbn. lia.
  - unfold run_info. destruct (runnable x); cbn; lia.
  - apply finish_concat in Hw. destruct (finish_work_waiting _ _ Hw) as (_ & _ & _ & -> & _). lia.
Qed.
End Worlds.
