(* ===== verification/MessagePumpQueue.v ===== *)
(** * What the message pump promises

    A pump with one thread (the IO and the file pump) implements a queue that
    runs closures in their turn; no pump forgets to wake up; a stopped pump runs
    what it holds and then ends. *)

From Stdlib Require Import ZArith List Bool Lia Permutation Sorted Morphisms.
From S2P Require Import Prelude Cpp MessagePump MessagePumpSpec.
Import ListNotations.
Local Open Scope Z_scope.

(** ** The abstract queue *)

Section Queue.
Context {A : Type}.
Implicit Types (x y : RunnableInfo A) (w : world A).

(** The closures that wait, in no particular order, those that have run, and
    the time. *)
Record queue : Type := mk_queue {
  q_pending : list (RunnableInfo A);
  q_done : list (RunnableInfo A);
  q_now : Z
}.

(** A closure runs when it is due and no waiting closure precedes it. *)
Inductive spec_step (q : queue) : queue -> Prop :=
| spec_time t : q_now q <= t -> spec_step q (mk_queue (q_pending q) (q_done q) t)
| spec_post x l :
    fresh x (q_pending q ++ q_done q) -> Permutation l (x :: q_pending q) ->
    spec_step q (mk_queue l (q_done q) (q_now q))
| spec_cancel x l :
    Permutation (q_pending q) (x :: l) -> spec_step q (mk_queue l (q_done q) (q_now q))
| spec_run x l :
    Permutation (q_pending q) (x :: l) -> expired_time x <= q_now q ->
    Forall (fun y => ~ precedes y x) (q_pending q) ->
    spec_step q (mk_queue l (q_done q ++ [x]) (q_now q))
| spec_close : spec_step q (mk_queue [] (q_done q) (q_now q)).

Inductive spec_steps (q : queue) : queue -> Prop :=
| spec_refl : spec_steps q q
| spec_more q1 q2 : spec_steps q q1 -> spec_step q1 q2 -> spec_steps q q2.

Definition abstract w : queue := mk_queue (waiting w) (ran w) (clock w).

Lemma precedes_irrefl x : ~ precedes x x.
Proof. unfold precedes. lia. Qed.

(** With one thread the line never changes order. *)
Record turn_inv w : Prop := {
  ti_one : (length (workers w) <= 1)%nat;
  ti_line : in_turn (line w)
}.

Lemma step_one w w' : turn_inv w -> step 1 w w' -> (length (workers w') <= 1)%nat.
Proof.
  intros [H1 _] H. destruct H as [| | | | |t pre suf w Hw| |n w Hn Hl|d w Ht Hc Hl|x due pre suf w Hw|pre suf w Hw|];
    try exact H1.
  - match goal with |- context [Wakeup t ?v] => destruct (Wakeup_waiting t v) as (_ & _ & _ & _ & ->) end. exact H1.
  - unfold start_work. destruct (take_due _ _). cbn. rewrite length_app. cbn. lia.
  - unfold start_work. destruct (take_due _ _). cbn. rewrite length_app. cbn. lia.
  - rewrite Hw, length_app in H1. unfold run_info. destruct (runnable x); cbn in *; rewrite length_app; cbn; lia.
  - pose proof (finish_concat _ _ _ Hw) as Hf. rewrite Hw, length_app in H1.
    destruct (finish_work_waiting _ _ Hf) as (_ & _ & _ & _ & ->). rewrite length_app. cbn in H1. lia.
Qed.

(** A step of the line keeps the turn. *)
Lemma line_turn w w' :
  order_inv w -> turn_inv w -> id_ (pump w) + 1 < 2 ^ 64 -> line_step w w' -> in_turn (line w').
Proof.
  intros Hi [H1 Hl] Hb Hs. pose proof (wi_sorted w Hi) as Hso0. unfold line in *.
  destruct Hs as [Hr Hw|e r l Hw Hn Hr Hw'|x l1 l2 Hr Hw Hw'|x l1 l2 _ H0 Hw Hw' Hr|Hr Hw].
  - rewrite Hr, Hw. exact Hl.
  - rewrite Hr, Hw'. pose proof (line_fresh w e r Hi Hb) as Hf. unfold line in Hf. rewrite Hw in Hf, Hl.
    rewrite Hn. rewrite app_assoc in *. apply in_turn_insert; [exact Hl| |exact Hf].
    unfold waiting in Hw. apply app_inv_head in Hw. rewrite <- Hw. exact Hso0.
  - rewrite Hr, Hw'. rewrite Hw, app_assoc in Hl. rewrite app_assoc. eapply in_turn_sub, Hl.
  - rewrite H0 in * by exact H1. rewrite Hr, Hw', <- app_assoc. rewrite Hw in Hl. exact Hl.
  - rewrite Hr, Hw, app_nil_r. apply in_turn_app in Hl as [Hl _]. exact Hl.
Qed.

Lemma step_turn w w' :
  world_inv w -> turn_inv w -> id_ (pump w) + 1 < 2 ^ 64 -> step 1 w w' -> turn_inv w'.
Proof.
  intros Hi Ht Hb Hs. split; [eapply step_one; eassumption|].
  eapply line_turn; [exact (wi_order w Hi) | exact Ht | exact Hb | eapply step_line; eassumption].
Qed.

Lemma runs_turn w w' : world_inv w -> turn_inv w -> runs 1 w w' -> turn_inv w'.
Proof.
  intros Hi Ht. induction 1 as [|w1 w2 Hr IH Hb Hs]; [exact Ht|].
  eapply step_turn; [exact (runs_inv _ _ _ Hi Hr) | exact IH | exact Hb | exact Hs].
Qed.

Lemma new_turn t : turn_inv (new_world t).
Proof. split; cbn; [lia | constructor]. Qed.

(** One step of a line is time passing, then at most one step of the queue. *)
Lemma line_simulation w w' :
  order_inv w -> turn_inv w -> id_ (pump w) + 1 < 2 ^ 64 -> line_step w w' -> clock w <= clock w' ->
  let q := mk_queue (waiting w) (ran w) (clock w') in
  spec_step (abstract w) q /\ (q = abstract w' \/ spec_step q (abstract w')).
Proof.
  intros Hi Ht Hb Hs Hc q.
  split; [apply (spec_time (abstract w) (clock w')); exact Hc|].
  unfold abstract.
  destruct Hs as [Hr Hw|e r l Hw Hn Hr Hw'|x l1 l2 Hr Hw Hw'|x l1 l2 Hx H0 Hw Hw' Hr|Hr Hw];
    rewrite Hr.
  - left. unfold q. rewrite Hw. reflexivity.
  - right. pose proof (line_fresh w e r Hi Hb) as Hf. rewrite Hw'.
    apply (spec_post q (mk_info e r (id_ (pump w')))); cbn; rewrite Hn.
    + unfold fresh, line in *. rewrite Permutation_app_comm. exact Hf.
    + unfold fresh, line in Hf. apply Forall_app in Hf as [_ Hf]. rewrite Hw in *.
      apply Forall_app in Hf as [_ Hf]. rewrite (set_insert_perm _ _ Hf).
      symmetry. apply Permutation_middle.
  - right. rewrite Hw'. apply (spec_cancel q x). cbn. rewrite Hw. symmetry. apply Permutation_middle.
  - right. specialize (H0 (ti_one _ Ht)). subst l1. cbn in Hw, Hw'. rewrite Hw'.
    apply (spec_run q x); cbn; rewrite ?Hw; [reflexivity| exact Hx |].
    pose proof (ti_line _ Ht) as Hl. unfold line in Hl. rewrite Hw in Hl.
    apply in_turn_app in Hl as (_ & Hl & _). inversion_clear Hl.
    constructor; [apply precedes_irrefl | assumption].
  - right. rewrite Hw. apply (spec_close q).
Qed.

(** Runs of a pump whose steps are steps of the line, from an empty one. *)
Lemma spec_steps_line w w' q :
  order_inv w -> turn_inv w -> id_ (pump w) + 1 < 2 ^ 64 -> line_step w w' -> clock w <= clock w' ->
  spec_steps q (abstract w) -> spec_steps q (abstract w').
Proof.
  intros Hi Ht Hb Hl Hc Hq. destruct (line_simulation w w' Hi Ht Hb Hl Hc) as [H1 H2].
  pose proof (spec_more _ _ _ Hq H1) as H3. destruct H2 as [<-|H2]; [exact H3|]. eapply spec_more; eassumption.
Qed.

Lemma turn_once w : order_inv w -> turn_inv w -> in_turn (ran w) /\ NoDup (map id (ran w)).
Proof.
  intros Hi [_ Hl]. pose proof (wi_once w Hi) as Ho. unfold line in *. apply in_turn_app in Hl as [Hl _].
  rewrite map_app in Ho. apply NoDup_app_remove_r in Ho. auto.
Qed.
End Queue.

Arguments queue : clear implicits.

(** C27: The pump is a queue.  Whatever the threads that use a pump with one
    thread do, the closures it runs are those the abstract queue runs: each at
    most once, not before its time, and in their turn, so that closures posted
    without delay run in the order in which they were posted.  [Cancel] succeeds
    exactly for the ids of closures in the set, and a closure for which it has
    succeeded never runs, neither before nor after. *)
Theorem pump_refines_queue {A} (w : world A) :
  reachable 1 w ->
  (exists t, spec_steps (mk_queue [] [] t) (abstract w)) /\ in_turn (ran w) /\ NoDup (map id (ran w)) /\
  (forall i found p, Cancel i (pump w) = (found, p) ->
     (found = true <-> In i (map id (runable_set_ (pump w)))) /\
     (found = true -> id_ (pump w) + 1 < 2 ^ 64 ->
      forall w', runs 1 (set_pump p w) w' -> ~ In i (map id (ran w')))).
Proof.
  intros [t Hr]. pose proof (runs_inv _ _ _ (new_world_inv t) Hr) as Hw.
  pose proof (runs_turn _ _ (new_world_inv t) (new_turn t) Hr) as Htu.
  destruct (turn_once w (wi_order _ Hw) Htu) as [T1 T2]. split; [|split; [exact T1|split; [exact T2|]]].
  - exists t. clear Hw Htu T1 T2. induction Hr as [|w1 w2 Hr IH Hb Hs]; [constructor|].
    pose proof (runs_inv _ _ _ (new_world_inv t) Hr) as Hi.
    eapply spec_steps_line; [exact (wi_order _ Hi) | exact (runs_turn _ _ (new_world_inv t) (new_turn t) Hr) | exact Hb
      | eapply step_line; eassumption | eapply step_clock; exact Hs | exact IH].
  - intros i found p Hc. split; [eapply cancel_found, Hc|]. intros -> Hb w' Hr'.
    eapply absent_ran, runs_absent; [|exact Hr' | exact (cancel_absent _ _ _ (wi_order _ Hw) Hc)].
    exact (runs_inv _ _ _ Hw (cancel_runs _ _ _ _ Hb Hc 1)).
Qed.

(** ** A run of a pump *)

(** Closure 1 is posted without, closure 2 with a delay of 5, at time 0; the
    thread has run the first and waits for the second. *)
Definition example_world : world nat :=
  mk_world (mk_pump [mk_info 5 (Closure 2%nat) 2] 2 false) 0 (Some 5) 0 true [] [] []
    [mk_info 0 (Closure 1%nat) 1].

Lemma runs_prefix {A} threads (w w1 w2 : world A) :
  id_ (pump w) + 1 < 2 ^ 64 -> step threads w w1 -> runs threads w1 w2 -> runs threads w w2.
Proof.
  intros Hb Hs Hr. eapply runs_trans; [|exact Hr]. eapply runs_step; [apply runs_refl | exact Hb | exact Hs].
Qed.

Ltac one_more s := eapply runs_prefix; [reflexivity | s | cbn].

Lemma example_run : runs 1 (new_world 0) example_world.
Proof.
  one_more ltac:(apply (step_post 1 0 1%nat); reflexivity).
  one_more ltac:(eapply (step_insert 1 _ _ [] []); reflexivity).
  one_more ltac:(eapply (step_post 1 5 2%nat); reflexivity).
  one_more ltac:(eapply (step_insert 1 _ _ [] []); reflexivity).
  one_more ltac:(eapply (step_wakeup 1 _ [] []); reflexivity).
  one_more ltac:(eapply (step_posted 1 0); [reflexivity | cbn; lia]).
  one_more ltac:(eapply (step_run 1 _ _ [] []); reflexivity).
  one_more ltac:(eapply (step_finish 1 [] []); reflexivity).
  apply runs_refl.
Qed.

(** The second closure is cancelled, and does not run although its time comes. *)
Lemma pump_refines_queue_witness :
  (exists t, spec_steps (mk_queue [] [] t) (abstract example_world)) /\
  exists p, Cancel 2 (pump example_world) = (true, p) /\
    forall w', runs 1 (set_pump p example_world) w' -> ~ In 2 (map id (ran w')).
Proof.
  destruct (pump_refines_queue example_world (ex_intro _ 0 example_run)) as (H1 & _ & _ & H2). split; [exact H1|].
  eexists. split; [reflexivity|]. exact (proj2 (H2 2 true _ eq_refl) eq_refl eq_refl).
Defined.

(** ** Waking up *)

(** [Wakeup] is called outside the mutex: two threads that post closures due at
    100 and at 50 can leave the timer set to 100. *)
Definition overtaken_world : world nat :=
  mk_world (mk_pump [mk_info 50 (Closure 2%nat) 2; mk_info 100 (Closure 1%nat) 1] 2 false) 0 (Some 100) 0 true
    [] [] [] [].

Lemma wakeup_overtaken : runs 1 (new_world 0) overtaken_world.
Proof.
  one_more ltac:(eapply (step_post 1 100 1%nat); reflexivity).
  one_more ltac:(eapply (step_insert 1 _ _ [] []); reflexivity).
  one_more ltac:(eapply (step_post 1 50 2%nat); reflexivity).
  one_more ltac:(eapply (step_insert 1 _ _ [] []); reflexivity).
  one_more ltac:(eapply (step_wakeup 1 50 [100] []); reflexivity).
  one_more ltac:(eapply (step_wakeup 1 100 [] []); reflexivity).
  apply runs_refl.
Qed.

(** ** Stopping *)

Section Drain.
Context {A : Type}.
Implicit Types (x : RunnableInfo A) (w : world A).

(** Once the closure of [Stop] has run, the [io_service] is allowed to end. *)
Definition stop_seen w : Prop := Exists (fun x => runnable x = StopClosure) (ran w) -> work_ w = false.

Lemma finish_work_work others w : work_ (finish_work others w) = work_ w.
Proof.
  unfold finish_work, wake_if. destruct (next_wakeup _); [|reflexivity].
  unfold Wakeup. destruct (_ <? _); reflexivity.
Qed.

Lemma step_stop_seen threads w w' : step threads w w' -> stop_seen w -> stop_seen w'.
Proof.
  unfold stop_seen. intros H Hs. destruct H as [| | | | |t pre suf w Hw| |n w Hn Hl|d w Ht Hc Hl|x due pre suf w Hw|pre suf w Hw|];
    try exact Hs.
  - unfold Wakeup. destruct (_ <? _); exact Hs.
  - unfold start_work. destruct (take_due _ _). exact Hs.
  - unfold start_work. destruct (take_due _ _). exact Hs.
  - unfold run_info. destruct (runnable x) eqn:E; cbn; [|reflexivity]. intros He. apply Hs.
    apply Exists_app in He as [He|He]; [exact He|]. inversion_clear He; [congruence | inversion H].
  - rewrite finish_work_work. apply finish_concat in Hw. destruct (finish_work_waiting _ _ Hw) as (_ & -> & _).
    exact Hs.
Qed.

Lemma runs_stop_seen threads w w' : runs threads w w' -> stop_seen w -> stop_seen w'.
Proof. induction 1; intros Hs; [exact Hs|]. eapply step_stop_seen; eauto. Qed.

(** A round of the thread is a sequence of steps. *)
Lemma run_all_runs due w :
  workers w = [due] -> id_ (pump w) + 1 < 2 ^ 64 -> runs 1 w (run_all due w).
Proof.
  revert w. induction due as [|x due IH]; intros w Hw Hb; cbn [run_all].
  - eapply runs_step; [apply runs_refl | exact Hb | apply (step_finish 1 [] []), Hw].
  - eapply runs_trans; [|apply IH].
    + eapply runs_step; [apply runs_refl | exact Hb | apply (step_run 1 x due [] []), Hw].
    + unfold run_info. destruct (runnable x); reflexivity.
    + unfold run_info. destruct (runnable x); exact Hb.
Qed.

Lemma run_all_after due w :
  workers (run_all due w) = [] /\ pump (run_all due w) = pump w /\ clock (run_all due w) = clock w /\
  waking (run_all due w) = waking w.
Proof.
  revert w. induction due as [|x due IH]; intros w; cbn [run_all].
  - unfold finish_work, wake_if. destruct (next_wakeup _); [|auto]. unfold Wakeup. destruct (_ <? _); auto.
  - destruct (IH (run_info x [due] w)) as (-> & -> & -> & ->). unfold run_info. destruct (runnable x); auto.
Qed.

(** The timer and the posted calls after the closures of a round have run. *)
Lemma run_all_awake due w :
  (timer (run_all due w) = timer w \/ timer (run_all due w) = None \/
   exists y l, runable_set_ (pump w) = y :: l /\ timer (run_all due w) = Some (expired_time y)) /\
  match runable_set_ (pump w) with
  | [] => posted (run_all due w) = posted w
  | y :: _ =>
      (clock w < expired_time y /\ posted (run_all due w) = posted w /\
       timer (run_all due w) = Some (expired_time y)) \/
      (expired_time y <= clock w /\ posted (run_all due w) = S (posted w))
  end.
Proof.
  revert w. induction due as [|x due IH]; intros w; cbn [run_all].
  - unfold finish_work, wake_if, next_wakeup. destruct (runable_set_ (pump w)) as [|y l]; [auto|].
    unfold Wakeup. cbn. destruct (Z.ltb_spec (clock w) (expired_time y)); cbn; [|auto].
    split; [right; right; eauto | auto].
  - specialize (IH (run_info x [due] w)). revert IH. generalize (run_all due (run_info x [due] w)).
    unfold run_info. destruct (runnable x); cbn; [auto|].
    intros w' [[H|H] H']; split; auto.
Qed.

(** What the thread has still to do at most: a spurious wake-up costs a round
    but none of the closures. *)
Definition timer_cost w : nat :=
  match timer w, runable_set_ (pump w) with
  | None, _ => 0
  | Some d, y :: _ => if d <? expired_time y then 2 else 1
  | Some _, [] => 1
  end.

Definition cost w : nat := 5 * length (runable_set_ (pump w)) + 3 * posted w + timer_cost w.

Lemma take_due_nil now (l rest : list (RunnableInfo A)) :
  take_due now l = ([], rest) -> rest = l /\ match l with [] => True | y :: _ => now < expired_time y end.
Proof.
  destruct l as [|y l]; cbn; [intros H; injection H as <-; auto|].
  destruct (Z.leb_spec (expired_time y) now); [destruct (take_due now l); discriminate|].
  intros H'. injection H' as <-. auto.
Qed.

Lemma timer_cost_le w : (timer_cost w <= 2)%nat.
Proof. unfold timer_cost. repeat case_match_goal; lia. Qed.

Lemma work_round_cost w :
  (cost (work_round w) <= 5 * length (runable_set_ (pump w)) + 3 * posted w +
    match runable_set_ (pump w) with
    | [] => timer_cost w
    | y :: _ => if (clock w <? expired_time y)%Z then 1 else 0
    end)%nat.
Proof.
  unfold work_round, start_work. destruct (take_due _ _) as [due rest] eqn:E. cbn [fst].
  match goal with |- context [run_all due ?v] => set (v0 := v) end.
  destruct (run_all_after due v0) as (_ & Hp & _). destruct (run_all_awake due v0) as [Ht Hk].
  pose proof (timer_cost_le (run_all due v0)) as Hle.
  unfold cost, timer_cost in *. rewrite Hp in *. subst v0. cbn in Ht, Hk, Hle |- *.
  destruct due as [|x due].
  - apply take_due_nil in E as [-> E]. destruct (runable_set_ (pump w)) as [|y l] eqn:El.
    + rewrite Hk. destruct Ht as [->|[->|(y & l & Hl & _)]]; [lia | lia | discriminate].
    + destruct Hk as [(_ & -> & ->)|[Hk _]]; [|lia]. rewrite Z.ltb_irrefl.
      destruct (Z.ltb_spec (clock w) (expired_time y)); lia.
  - pose proof (take_due_due _ _ _ _ E) as Hd. apply take_due_app in E. rewrite E. cbn [app length].
    rewrite length_app. inversion_clear Hd as [|? ? Hx _].
    destruct (Z.ltb_spec (clock w) (expired_time x)); [lia|].
    assert (posted (run_all (x :: due) {| pump := set_runables rest (pump w); clock := clock w; timer := timer w;
      posted := posted w; work_ := work_ w; posting := posting w; waking := waking w;
      workers := workers w ++ [x :: due]; ran := ran w |}) <= S (posted w))%nat; [|cbn in *; lia].
    cbn in *. destruct rest; [|destruct Hk as [(_ & -> & _)|[_ ->]]]; lia.
Qed.

Lemma io_round_cost w w' : io_round w = Some w' -> (cost w' < cost w)%nat.
Proof.
  unfold io_round. destruct (posted w) as [|n] eqn:Ep; [destruct (timer w) as [d|] eqn:Et; [|discriminate]|];
    intros H; injection H as <-;
    match goal with |- (cost (work_round ?v) < _)%nat => pose proof (work_round_cost v) as Hc end;
    cbn [pump clock timer posted] in Hc; unfold cost at 2, timer_cost at 1; rewrite Ep.
  - unfold timer_cost in Hc. cbn [timer pump] in Hc. rewrite Et. destruct (runable_set_ (pump w)) as [|y l]; [lia|].
    destruct (Z.ltb_spec d (expired_time y)), (Z.ltb_spec (Z.max (clock w) d) (expired_time y)); lia.
  - unfold timer_cost in Hc. cbn [timer pump] in Hc. destruct (runable_set_ (pump w)) as [|y l]; [lia|].
    destruct (clock w <? expired_time y); lia.
Qed.

(** A round moves closures to [ran] and leaves the line as it is. *)
Lemma run_all_line due w : workers w = [due] -> line (run_all due w) = line w.
Proof.
  revert w. induction due as [|x due IH]; intros w Hw; cbn [run_all].
  - unfold line. destruct (finish_work_waiting [] w) as (-> & -> & _); [rewrite Hw|]; reflexivity.
  - rewrite IH by (unfold run_info; destruct (runnable x); reflexivity).
    unfold line, waiting, run_info. rewrite Hw. destruct (runnable x); cbn; rewrite <- app_assoc; reflexivity.
Qed.

Lemma work_round_line w : workers w = [] -> line (work_round w) = line w.
Proof.
  intros Hw. unfold work_round. destruct (start_work_waiting w) as (H1 & H2 & _). unfold line at 2.
  rewrite <- H1, <- H2. apply run_all_line. unfold start_work. destruct (take_due _ _). cbn. rewrite Hw. reflexivity.
Qed.

Lemma io_round_line w w' : workers w = [] -> io_round w = Some w' -> line w' = line w.
Proof.
  intros Hw. unfold io_round. destruct (posted w), (timer w); intros H; try discriminate; injection H as <-;
    rewrite work_round_line by exact Hw; reflexivity.
Qed.

Definition alone w : Prop := workers w = [] /\ waking w = [].

Lemma work_round_runs w :
  workers w = [] -> id_ (pump w) + 1 < 2 ^ 64 ->
  runs 1 (start_work w) (work_round w) /\ workers (work_round w) = [] /\ waking (work_round w) = waking w /\
  id_ (pump (work_round w)) = id_ (pump w).
Proof.
  intros Hw Hb. unfold work_round, start_work. destruct (take_due _ _) as [due rest]. cbn [fst].
  rewrite Hw. cbn [app]. match goal with |- context [run_all due ?v] => set (v0 := v) end.
  destruct (run_all_after due v0) as (E1 & E2 & _ & E3). rewrite E2, E3.
  split; [apply run_all_runs; [reflexivity | exact Hb] | auto].
Qed.

Lemma io_round_runs w w' :
  alone w -> id_ (pump w) + 1 < 2 ^ 64 -> io_round w = Some w' ->
  runs 1 w w' /\ alone w' /\ id_ (pump w') = id_ (pump w).
Proof.
  destruct w as [p c tm po wk pg wa ws rn]. unfold io_round, alone. cbn [workers waking pump posted timer].
  intros [-> ->] Hb. destruct po as [|n]; [destruct tm as [d|]; [|discriminate]|];
    intros H; injection H as <-; cbn [clock work_ posting ran];
    match goal with |- context [work_round ?v] => destruct (work_round_runs v eq_refl Hb) as (H1 & H2 & H3 & H4) end;
    rewrite H2, H3, H4; (split; [|auto]).
  - eapply runs_prefix; [exact Hb | apply (step_tick 1 (Z.max c d)); cbn; lia|].
    eapply runs_prefix; [exact Hb | apply (step_timer 1 d); cbn; [reflexivity | lia | lia] | exact H1].
  - eapply runs_prefix; [exact Hb | apply (step_posted 1 n); cbn; [reflexivity | lia] | exact H1].
Qed.

Lemma io_run_ends n w :
  (cost w <= n)%nat -> alone w -> id_ (pump w) + 1 < 2 ^ 64 ->
  runs 1 w (io_run n w) /\ alone (io_run n w) /\ line (io_run n w) = line w /\ io_round (io_run n w) = None.
Proof.
  revert w. induction n as [|n IH]; intros w Hn Ha Hb; cbn [io_run];
    (destruct (io_round w) as [w'|] eqn:E; [|split; [apply runs_refl | auto]]).
  - apply io_round_cost in E. lia.
  - pose proof (io_round_cost _ _ E). destruct (io_round_runs _ _ Ha Hb E) as (H1 & H2 & H3).
    destruct (IH w') as (H4 & H5 & H6); [lia | exact H2 | lia|].
    rewrite <- (io_round_line _ _ (proj1 Ha) E). split; [eapply runs_trans; eassumption | auto].
Qed.

Lemma io_round_keeps w w' : io_round w = Some w' -> posting w' = posting w /\ id_ (pump w') = id_ (pump w).
Proof.
  assert (forall due (v : world A), posting (run_all due v) = posting v) as Hp.
  { induction due as [|x due IH]; intros v; cbn [run_all].
    - unfold finish_work, wake_if. destruct (next_wakeup _); [unfold Wakeup; destruct (_ <? _)|]; reflexivity.
    - rewrite IH. unfold run_info. destruct (runnable x); reflexivity. }
  assert (forall v : world A, posting (work_round v) = posting v /\ id_ (pump (work_round v)) = id_ (pump v)) as Hk.
  { intros v. unfold work_round. rewrite Hp. destruct (run_all_after (fst (take_due (clock v) (runable_set_ (pump v)))) (start_work v))
      as (_ & -> & _). unfold start_work. destruct (take_due _ _). auto. }
  unfold io_round. destruct (posted w), (timer w); intros H; try discriminate; injection H as <-;
    match goal with |- context [work_round ?v] => destruct (Hk v) as [-> ->] end; auto.
Qed.

Lemma io_run_posting n w : posting (io_run n w) = posting w.
Proof.
  revert w. induction n as [|n IH]; intros w; cbn [io_run]; [reflexivity|].
  destruct (io_round w) as [w'|] eqn:E; [|reflexivity]. rewrite IH. apply (io_round_keeps _ _ E).
Qed.

Lemma io_run_id n w : id_ (pump (io_run n w)) = id_ (pump w).
Proof.
  revert w. induction n as [|n IH]; intros w; cbn [io_run]; [reflexivity|].
  destruct (io_round w) as [w'|] eqn:E; [|reflexivity]. rewrite IH. apply (io_round_keeps _ _ E).
Qed.
End Drain.

(** ** Nothing is forgotten *)

Section Settle.
Context {A : Type}.
Implicit Types (x : RunnableInfo A) (w : world A).

(** What one thread can do can be done with more threads. *)
Lemma step_threads threads w w' : (1 <= threads)%nat -> step 1 w w' -> step threads w w'.
Proof. intros Hn H. destruct H; econstructor; eauto; lia. Qed.

Lemma runs_threads threads w w' : (1 <= threads)%nat -> runs 1 w w' -> runs threads w w'.
Proof. intros Hn. induction 1; [constructor | econstructor; eauto using step_threads]. Qed.

(** The threads go on without anybody posting. *)
Record settles threads w w' : Prop := {
  st_runs : runs threads w w';
  st_line : incl (line w) (line w');
  st_posting : posting w' = posting w;
  st_id : id_ (pump w') = id_ (pump w)
}.

Lemma settles_step threads w w1 w2 :
  id_ (pump w) + 1 < 2 ^ 64 -> step threads w w1 -> incl (line w) (line w1) -> posting w1 = posting w ->
  id_ (pump w1) = id_ (pump w) -> settles threads w1 w2 -> settles threads w w2.
Proof.
  intros Hb Hs Hl Hp Hi [R1 R2 R3 R4]. split; [eapply runs_prefix; eassumption | eapply incl_tran; eassumption | congruence..].
Qed.

Lemma settle_waking threads w :
  id_ (pump w) + 1 < 2 ^ 64 -> exists w', settles threads w w' /\ waking w' = [] /\ workers w' = workers w.
Proof.
  remember (waking w) as l eqn:E. revert w E. induction l as [|t l IH]; intros w E Hb.
  - exists w. split; [|auto]. split; [constructor | apply incl_refl | reflexivity..].
  - set (v := mk_world (pump w) (clock w) (timer w) (posted w) (work_ w) (posting w) l (workers w) (ran w)).
    destruct (Wakeup_waiting t v) as (E1 & E2 & E3 & _ & E5).
    assert (waking (Wakeup t v) = l /\ posting (Wakeup t v) = posting w) as [E6 E7] by (unfold Wakeup; destruct (_ <? _); auto).
    destruct (IH (Wakeup t v)) as (w' & Hs & H1 & H2); [auto | rewrite E3; exact Hb|].
    exists w'. rewrite H2, E5. split; [|auto]. eapply settles_step; [exact Hb | | | | | exact Hs]; rewrite ?E3; auto.
    + apply (step_wakeup threads t [] l). auto.
    + unfold line. rewrite E1, E2. apply incl_refl.
Qed.

Lemma settle_workers threads w :
  id_ (pump w) + 1 < 2 ^ 64 -> waking w = [] -> exists w', settles threads w w' /\ alone w'.
Proof.
  remember (length (workers w) + length (concat (workers w)))%nat as n eqn:En. revert w En.
  induction n as [n IH] using lt_wf_ind. intros w -> Hb Hk. destruct (workers w) as [|[|x due] ws] eqn:E.
  - exists w. split; [|split; assumption]. split; [constructor | apply incl_refl | reflexivity..].
  - destruct (finish_work_waiting ws w) as (E1 & E2 & E3 & _ & E5); [rewrite E; reflexivity|].
    assert (waking (finish_work ws w) = [] /\ posting (finish_work ws w) = posting w) as [E6 E7].
    { unfold finish_work, wake_if. destruct (next_wakeup _); [unfold Wakeup; destruct (_ <? _)|]; auto. }
    destruct (IH (length ws + length (concat ws))%nat ltac:(cbn; lia) (finish_work ws w)) as (w' & Hs & Ha);
      [now rewrite E5 | now rewrite E3 | exact E6|].
    exists w'. split; [|exact Ha]. eapply settles_step; [exact Hb | | | | | exact Hs]; rewrite ?E3; auto.
    + apply (step_finish threads [] ws), E.
    + unfold line. rewrite E1, E2. apply incl_refl.
  - destruct (IH (length (due :: ws) + length (concat (due :: ws)))%nat ltac:(cbn; lia) (run_info x (due :: ws) w))
      as (w' & Hs & Ha); try (unfold run_info; destruct (runnable x); auto; fail).
    exists w'. split; [|exact Ha]. eapply settles_step; [exact Hb | | | | | exact Hs];
      try (unfold run_info; destruct (runnable x); reflexivity).
    + apply (step_run threads x due [] ws), E.
    + unfold line, waiting. rewrite E. intros y Hy. unfold run_info. destruct (runnable x);
        repeat (progress (cbn in Hy |- *; rewrite ?in_app_iff in Hy; rewrite ?in_app_iff)); tauto.
Qed.

Lemma settled threads w :
  (1 <= threads)%nat -> reachable threads w -> id_ (pump w) + 1 < 2 ^ 64 ->
  exists w', settles threads w w' /\ waiting w' = [].
Proof.
  intros Hn [t Hr] Hb. destruct (settle_waking threads w Hb) as (w1 & [R1 L1 P1 I1] & K1 & _).
  destruct (settle_workers threads w1) as (w2 & [R2 L2 P2 I2] & A2); [now rewrite I1 | exact K1|].
  destruct (io_run_ends (cost w2) w2 (le_n _) A2) as (R3 & [A3 A3'] & L3 & E3); [now rewrite I2, I1|].
  set (w3 := io_run (cost w2) w2) in *. pose proof (runs_threads threads _ _ Hn R3) as R3'.
  pose proof (runs_trans _ _ _ _ Hr (runs_trans _ _ _ _ R1 (runs_trans _ _ _ _ R2 R3'))) as Hr3.
  assert (posted w3 = O /\ timer w3 = None) as [Hp Ht].
  { unfold io_round in E3. destruct (posted w3), (timer w3); try discriminate; auto. }
  exists w3. split; [split|].
  - exact (runs_trans _ _ _ _ R1 (runs_trans _ _ _ _ R2 R3')).
  - rewrite L3. exact (incl_tran L1 L2).
  - rewrite <- P1, <- P2. apply io_run_posting.
  - rewrite <- I1, <- I2. apply io_run_id.
  - unfold waiting. rewrite A3. pose proof (wi_awake w3 (runs_inv _ _ _ (new_world_inv t) Hr3)) as Hk.
    destruct (runable_set_ (pump w3)); [reflexivity|].
    destruct Hk as [H|[H|[H|H]]]; [discriminate | congruence | lia | congruence | congruence].
Qed.
End Settle.

(** C28: No closure is forgotten.  With any number of threads: while closures are
    in the set, a call of [DoWork] is posted, or the timer waits, or a thread is
    in [DoWork] or about to call [Wakeup]; and the threads, on their own and with
    nothing more posted, can get to the point where every closure that waits now
    has run.  When [Run] ends and no thread is between the mutex and [Wakeup] of
    [PostRunable], the set it clears is empty: all [run_end] does is to set
    [stoped_]. *)
Theorem no_lost_wakeup {A} threads (w : world A) :
  reachable threads w -> (1 <= threads)%nat -> id_ (pump w) + 1 < 2 ^ 64 ->
  (runable_set_ (pump w) <> [] -> wakeup_pending w) /\
  (exists w', runs threads w w' /\ q_pending (abstract w') = [] /\ incl (q_pending (abstract w)) (q_done (abstract w')) /\
     posting w' = posting w /\ id_ (pump w') = id_ (pump w)) /\
  (work_ w = false -> posted w = O -> timer w = None -> workers w = [] -> waking w = [] ->
     step threads w (set_pump (run_end (pump w)) w) /\ run_end (pump w) = set_stoped (pump w)).
Proof.
  intros Hr Hn Hb. pose proof (wi_awake w (reachable_inv _ _ Hr)) as Ha. split; [exact Ha|]. split.
  - destruct (settled threads w Hn Hr Hb) as (w' & [R L P I] & Hw). exists w'. repeat split; auto.
    intros x Hx. unfold line in L. rewrite Hw, app_nil_r in L. apply L, in_app_iff. auto.
  - intros Ho Hp Ht Hw Hk. split; [now apply step_exit|]. unfold run_end, set_stoped.
    destruct (runable_set_ (pump w)) as [|y l]; [reflexivity|]. destruct Ha as [H|[H|[H|H]]]; [discriminate | congruence | lia | congruence | congruence].
Qed.

Lemma no_lost_wakeup_witness :
  wakeup_pending example_world /\
  exists w', runs 1 example_world w' /\ waiting w' = [] /\ In (mk_info 5 (Closure 2%nat) 2) (ran w').
Proof.
  destruct (no_lost_wakeup 1 example_world (ex_intro _ 0 example_run) (le_n 1) eq_refl) as (H1 & (w' & R & W & L & _) & _).
  split; [apply H1; discriminate|]. exists w'. repeat split; auto. apply L. left. reflexivity.
Defined.

(** A closure can be cleared without having run: the thread that posts it has left
    the mutex but not called [Wakeup] when the last thread of the pump ends. *)
Definition cleared_world : world nat :=
  mk_world (mk_pump [mk_info 0 (Closure 1%nat) 2] 2 true) 0 None 0 false [] [0] [] [mk_info 0 StopClosure 1].

Example closure_cleared :
  runs 1 (new_world 0) cleared_world /\ step 1 cleared_world (set_pump (mk_pump [] 2 true) cleared_world).
Proof.
  split; [|apply (step_exit 1 cleared_world); reflexivity].
  one_more ltac:(apply (step_post 1 0 1%nat); reflexivity).
  one_more ltac:(apply step_stop; reflexivity).
  one_more ltac:(apply step_stoped).
  one_more ltac:(eapply (step_insert 1 _ _ [_] []); reflexivity).
  one_more ltac:(eapply (step_wakeup 1 _ [] []); reflexivity).
  one_more ltac:(eapply (step_posted 1 0); [reflexivity | cbn; lia]).
  one_more ltac:(eapply (step_run 1 _ _ [] []); reflexivity).
  one_more ltac:(eapply (step_finish 1 [] []); reflexivity).
  one_more ltac:(eapply (step_insert 1 _ _ [] []); reflexivity).
  apply runs_refl.
Qed.

(** ** Ending *)

(** C29: A stopped pump ends.  When the closure of [Stop] waits in a pump with
    one thread and no other thread uses the pump any more, the thread runs every
    closure that is left, delayed ones included, in their order, each once, and
    then leaves [io_service_.run()] after at most [cost w] rounds with nothing
    left to clear. *)
Theorem stop_drains {A} (w : world A) :
  reachable 1 w -> alone w -> id_ (pump w) + 1 < 2 ^ 64 ->
  Exists (fun x => runnable x = StopClosure) (line w) ->
  let w' := io_run (cost w) w in
  runs 1 w w' /\ runable_set_ (pump w') = [] /\ ran w' = ran w ++ runable_set_ (pump w) /\
  step 1 w' (set_pump (run_end (pump w')) w').
Proof.
  intros [t Hr] Ha Hb Hs w'.
  destruct (io_run_ends (cost w) w (le_n _) Ha Hb) as (H1 & [H2 H2'] & H3 & H4). fold w' in H1, H2, H2', H3, H4.
  assert (posted w' = O /\ timer w' = None) as [Hp Ht].
  { unfold io_round in H4. destruct (posted w'), (timer w'); try discriminate; auto. }
  pose proof (runs_trans _ _ _ _ Hr H1) as Hr'.
  assert (runable_set_ (pump w') = []) as Hnil.
  { pose proof (wi_awake w' (runs_inv _ _ _ (new_world_inv t) Hr')) as Hk.
    destruct (runable_set_ (pump w')); [reflexivity|].
    destruct Hk as [H|[H|[H|H]]]; [discriminate | congruence | lia | congruence | congruence]. }
  unfold line, waiting in H3. rewrite Hnil, H2, (proj1 Ha) in H3. cbn [concat app] in H3. rewrite app_nil_r in H3.
  split; [exact H1|]. split; [exact Hnil|]. split; [exact H3|]. apply step_exit; try assumption.
  apply (runs_stop_seen _ _ _ Hr'); [intros He; inversion He|].
  rewrite H3. unfold line, waiting in Hs. rewrite (proj1 Ha) in Hs. exact Hs.
Qed.

(** The pump of the example, stopped at time 2. *)
Definition stopping_world : world nat :=
  mk_world (mk_pump [mk_info 2 StopClosure 3; mk_info 5 (Closure 2%nat) 2] 3 true) 2 (Some 5) 1 true [] [] []
    [mk_info 0 (Closure 1%nat) 1].

Lemma stopping_run : runs 1 (new_world 0) stopping_world.
Proof.
  eapply runs_trans; [exact example_run|]. unfold example_world.
  one_more ltac:(apply (step_tick 1 2); cbn; lia).
  one_more ltac:(apply step_stop; reflexivity).
  one_more ltac:(eapply (step_insert 1 _ _ [] []); reflexivity).
  one_more ltac:(eapply (step_wakeup 1 _ [] []); reflexivity).
  one_more ltac:(apply step_stoped).
  apply runs_refl.
Qed.

Lemma stop_drains_witness :
  let w' := io_run (cost stopping_world) stopping_world in
  (runs 1 stopping_world w' /\ runable_set_ (pump w') = [] /\
   ran w' = ran stopping_world ++ runable_set_ (pump stopping_world) /\
   step 1 w' (set_pump (run_end (pump w')) w')) /\
  map runnable (ran w') = [Closure 1%nat; StopClosure; Closure 2%nat] /\ clock w' = 5.
Proof.
  split; [|split; reflexivity]. apply (stop_drains stopping_world).
  - exists 0. exact stopping_run.
  - split; reflexivity.
  - reflexivity.
  - right. left. reflexivity.
Defined.
