(* ===== verification/Socks5.v ===== *)
(** * The SOCKS5 client

    src/base/net/socks5_client.{h,cc}: the handshake with a proxy as a state
    machine.  A method is a handler over the members; the calls it makes are the
    asynchronous operations of the stream and the delegate.  Completions of
    those operations are calls of [read_complete] and [write_complete]. *)

From Stdlib Require Import String ZArith List Bool Lia.
From S2P Require Import Prelude Cpp.
Import ListNotations.
Local Open Scope Z_scope.
Local Open Scope handler_scope.

(** ** Data *)

Inductive Socks5CheckStatus :=
| kProxySocks5Init | kProxySocks5Hello | kProxySocks5NeedAuth | kProxySocks5AuthSuccess
| kProxySocks5AuthReq | kProxySocks5ConSvr | kProxySocks5ConSvrSuccess.

Definition kSocks5Version : Z := 5.
Definition kSocks5AuthVersion : Z := 1.
Definition kSockstNAuthMethos : Z := 1.
Definition kSocks5NoAuth : Z := 0.
Definition kSocks5UsrNamePwdAuth : Z := 2.
Definition kSocks5RespStatus : Z := 0.
Definition kSocks5ConnectCmd : Z := 1.
Definition kSocks5RsvVal : Z := 0.
Definition kSocksATYPIPv4 : Z := 1.
Definition kSocksATYPHost : Z := 3.
Definition kSocksATYPIPv6 : Z := 4.

Record Socks5ProxyProperty := mk_proxy {
  server : list Z;
  port : Z;                        (* uint16_t *)
  username : list Z;
  password : list Z
}.

Record Socks5ClientImpl := mk_socks5 {
  write_data_ : list Z;
  socks5_status_ : Socks5CheckStatus;
  received_data_ : list Z;
  proxy_info_ : Socks5ProxyProperty
}.

(** The calls of the client: [stream_.async_read_some] into a buffer of ten
    bytes, [boost::asio::async_write], and the delegate. *)
Inductive socks5_call :=
| AsyncRead
| AsyncWrite (data : list Z)
| OnSocks5Handshake (state : Z).

Definition method : Type := handler Socks5ClientImpl socks5_call.

Definition set_write_data (d : list Z) (s : Socks5ClientImpl) : Socks5ClientImpl :=
  mk_socks5 d (socks5_status_ s) (received_data_ s) (proxy_info_ s).
Definition set_status (st : Socks5CheckStatus) (s : Socks5ClientImpl) : Socks5ClientImpl :=
  mk_socks5 (write_data_ s) st (received_data_ s) (proxy_info_ s).
Definition set_received (d : list Z) (s : Socks5ClientImpl) : Socks5ClientImpl :=
  mk_socks5 (write_data_ s) (socks5_status_ s) d (proxy_info_ s).

Definition CreateSocks5Client (proxy_info : Socks5ProxyProperty) : Socks5ClientImpl :=
  mk_socks5 [] kProxySocks5Init [] proxy_info.

Definition is_empty (s : list Z) : bool := match s with [] => true | _ => false end.

(** The bytes of [htons(port)] in memory. *)
Definition net_port (p : Z) : list Z := [p / 256; p mod 256].

(** What [to_bytes] gives for an address that was default-constructed. *)
Definition any_address_v4 : list Z := repeat 0 4.
Definition any_address_v6 : list Z := repeat 0 16.

Section Client.
(** [address_v4::from_string(s, ec)] and [address_v6::from_string(s, ec)] give
    no error; whether [char] is signed. *)
Variables (is_v4 is_v6 : list Z -> bool).
Variable char_signed : bool.

(** ** Methods *)

Definition DoReceiveData : method := emit AsyncRead.

Definition DoSendData (buffer : list Z) : method :=
  modify (set_write_data buffer) ;; members s => emit (AsyncWrite (write_data_ s)).

Definition DoSendHello : method :=
  members s =>
    let m := if is_empty (username (proxy_info_ s)) || is_empty (password (proxy_info_ s))
             then kSocks5NoAuth else kSocks5UsrNamePwdAuth in
    DoSendData [kSocks5Version; kSockstNAuthMethos; m] ;;
    modify (set_status kProxySocks5Hello) ;;
    DoReceiveData.

(** The length of a field is converted to [uint8_t], and as many characters are
    sent. *)
Definition counted (s : list Z) : list Z :=
  let len := u8 (zlen s) in len :: slice s 0 len.

Definition DoSocks5Auth : method :=
  members s =>
    DoSendData ([kSocks5AuthVersion] ++ counted (username (proxy_info_ s)) ++ counted (password (proxy_info_ s))) ;;
    modify (set_status kProxySocks5AuthReq) ;;
    DoReceiveData.

(** The address type; [from_string] is a static function, so [v4] and [v6] stay
    as they were constructed. *)
Definition address_type (host : list Z) : Z :=
  if is_v4 host then kSocksATYPIPv4
  else if is_v6 host then kSocksATYPIPv6
  else kSocksATYPHost.

Definition connect_request (p : Socks5ProxyProperty) : list Z :=
  let socks_type := address_type (server p) in
  [kSocks5Version; kSocks5ConnectCmd; kSocks5RsvVal; socks_type] ++
  (if socks_type =? kSocksATYPIPv4 then any_address_v4 ++ net_port (port p)
   else if socks_type =? kSocksATYPIPv6 then any_address_v6 ++ net_port (port p)
   else counted (server p) ++ net_port (port p)).

Definition DoConnectMyServer : method :=
  members s =>
    DoSendData (connect_request (proxy_info_ s)) ;;
    modify (set_status kProxySocks5ConSvr) ;;
    DoReceiveData.

Definition append_received (data : list Z) : method :=
  modify (fun s => set_received (received_data_ s ++ data) s).

(** [received_data_[i]]; at the size of the string it is the terminating NUL. *)
Definition received (s : Socks5ClientImpl) (i : nat) : Z := nth i (received_data_ s) 0.

(** [loop] is the call of [LoopSocks5Handshake(nullptr, 0)] at the end. *)
Definition HandleHello (loop : method) (data : list Z) : method :=
  append_received data ;;
  members s =>
    if zlen (received_data_ s) <? 2 then DoReceiveData
    else
      let ver := received s 0 in
      let meth := received s 1 in
      if negb (kSocks5Version =? ver) then emit (OnSocks5Handshake (-1))
      else if kSocks5NoAuth =? meth then
        modify (set_status kProxySocks5AuthSuccess) ;; modify (set_received []) ;; loop
      else if kSocks5UsrNamePwdAuth =? meth then
        modify (set_status kProxySocks5NeedAuth) ;; modify (set_received []) ;; loop
      else emit (OnSocks5Handshake (-1)).

Definition HandleSocks5Auth (loop : method) (data : list Z) : method :=
  append_received data ;;
  members s =>
    if zlen (received_data_ s) <? 2 then DoReceiveData
    else
      let ver := received s 0 in
      let status := received s 1 in
      if negb (kSocks5AuthVersion =? ver) || negb (kSocks5RespStatus =? status)
      then emit (OnSocks5Handshake (-1))
      else modify (set_received []) ;; modify (set_status kProxySocks5AuthSuccess) ;; loop.

(** [4 + 1 + received_data_[4] + 2], an [int] with the value of a [char], as a
    [size_t]. *)
Definition host_reply_length (s : Socks5ClientImpl) : Z :=
  u64 (4 + 1 + char_value char_signed (received s 4) + 2).

Definition HandleConnectBussinessServer (data : list Z) : method :=
  append_received data ;;
  members s =>
    let n := zlen (received_data_ s) in
    if n <? 4 then DoReceiveData
    else
      let atyp := received s 3 in
      if (kSocksATYPIPv4 =? atyp) && (n <? 4 + 4 + 2) then skip
      else if (kSocksATYPHost =? atyp) && (n <? host_reply_length s) then skip
      else if (kSocksATYPIPv6 =? atyp) && (n <? 4 + 16 + 2) then skip
      else
        let ver := received s 0 in
        let status := received s 1 in
        if negb (kSocks5Version =? ver) || negb (kSocks5RespStatus =? status)
        then emit (OnSocks5Handshake (-1))
        else modify (set_status kProxySocks5ConSvrSuccess) ;; emit (OnSocks5Handshake 0).

(** [LoopSocks5Handshake(data, len)]: it calls itself through the handlers of
    the replies, [fuel] deep at most. *)
Fixpoint loop_handshake (fuel : nat) (data : list Z) : method :=
  match fuel with
  | O => skip
  | S n =>
      members s =>
        match socks5_status_ s with
        | kProxySocks5Init => DoSendHello
        | kProxySocks5Hello => HandleHello (loop_handshake n []) data
        | kProxySocks5NeedAuth => DoSocks5Auth
        | kProxySocks5AuthSuccess => DoConnectMyServer
        | kProxySocks5AuthReq => HandleSocks5Auth (loop_handshake n []) data
        | kProxySocks5ConSvr => HandleConnectBussinessServer data
        | kProxySocks5ConSvrSuccess => skip
        end
  end.

Definition LoopSocks5Handshake : list Z -> method := loop_handshake 2.

Definition Connect : method :=
  members s =>
    match socks5_status_ s with
    | kProxySocks5Init => LoopSocks5Handshake []
    | _ => skip
    end.

(** The completion handler of [DoReceiveData]. *)
Definition read_complete (ec : bool) (data : list Z) : method :=
  if ec then emit (OnSocks5Handshake (-1)) else LoopSocks5Handshake data.

(** The completion handler of [DoSendData]. *)
Definition write_complete (ec : bool) : method :=
  if ec then emit (OnSocks5Handshake (-1)) else skip.
End Client.
