(* ===== verification/Socks5Spec.v ===== *)
(** * The SOCKS5 handshake

    The client against the replies of a proxy, cut into reads in any way. *)

From Stdlib Require Import String ZArith List Bool Lia.
From S2P Require Import Prelude Cpp Socks5.
Import ListNotations.
Local Open Scope Z_scope.

(** ** Driving the client *)

Definition is_read (c : socks5_call) : bool := match c with AsyncRead => true | _ => false end.

Definition writes (o : list socks5_call) : list (list Z) :=
  flat_map (fun c => match c with AsyncWrite d => [d] | _ => [] end) o.

Definition results (o : list socks5_call) : list Z :=
  flat_map (fun c => match c with OnSocks5Handshake n => [n] | _ => [] end) o.

Lemma writes_app o1 o2 : writes (o1 ++ o2) = writes o1 ++ writes o2.
Proof. apply flat_map_app. Qed.

Lemma results_app o1 o2 : results (o1 ++ o2) = results o1 ++ results o2.
Proof. apply flat_map_app. Qed.

Section Drive.
Variables (is_v4 is_v6 : list Z -> bool) (char_signed : bool).

Abbreviation read := (read_complete is_v4 is_v6 char_signed false).
Abbreviation connect := (Connect is_v4 is_v6 char_signed).

(** The bytes of the proxy arrive in the reads [chunks]; without a read in
    progress they stay in the stream.  The result says whether a read is in
    progress. *)
Fixpoint deliver (chunks : list (list Z)) (armed : bool) (s : Socks5ClientImpl)
  : bool * Socks5ClientImpl * list socks5_call :=
  match chunks with
  | [] => (armed, s, [])
  | c :: cs =>
      if armed then
        let (s1, o1) := read c s in
        let '(armed', s2, o2) := deliver cs (existsb is_read o1) s1 in
        (armed', s2, o1 ++ o2)
      else (false, s, [])
  end.

(** A whole handshake. *)
Definition handshake (p : Socks5ProxyProperty) (chunks : list (list Z))
  : bool * Socks5ClientImpl * list socks5_call :=
  let (s0, o0) := connect (CreateSocks5Client p) in
  let '(armed, s, o) := deliver chunks (existsb is_read o0) s0 in (armed, s, o0 ++ o).

Lemma deliver_app c1 c2 armed s armed1 s1 o1 :
  deliver c1 armed s = (armed1, s1, o1) ->
  deliver (c1 ++ c2) armed s = let '(armed2, s2, o2) := deliver c2 armed1 s1 in (armed2, s2, o1 ++ o2).
Proof.
  revert armed s o1. induction c1 as [|c c1 IH]; intros armed s o1; cbn [deliver app].
  - intros H. injection H as <- <- <-. destruct (deliver c2 armed s) as [[? ?] ?]. reflexivity.
  - destruct armed.
    2:{ intros H. injection H as <- <- <-. destruct c2; reflexivity. }
    destruct (read c s) as [s' o']. destruct (deliver c1 _ s') as [[a t] q] eqn:E.
    intros H. injection H as <- <- <-. rewrite (IH _ _ _ E).
    destruct (deliver c2 a t) as [[? ?] ?]. rewrite app_assoc. reflexivity.
Qed.

(** [reply] arrives in one or more reads. *)
Definition fragments (chunks : list (list Z)) (reply : list Z) : Prop :=
  concat chunks = reply /\ Forall (fun c => c <> []) chunks.

Lemma fragments_two chunks a b :
  fragments chunks [a; b] -> chunks = [[a; b]] \/ chunks = [[a]; [b]].
Proof.
  intros [Hc Hf]. destruct chunks as [|c1 chunks]; [discriminate|]. inversion_clear Hf as [|? ? H1 Hf'].
  destruct c1 as [|x [|y [|z c1]]]; cbn in Hc; try congruence.
  - injection Hc as -> Hc. destruct chunks as [|c2 chunks]; [discriminate|]. inversion_clear Hf' as [|? ? H2 Hf].
    destruct c2 as [|y [|z c2]]; cbn in Hc; try congruence. injection Hc as -> Hc.
    destruct chunks as [|c3 chunks]; [auto|]. inversion_clear Hf. destruct c3; [congruence | discriminate].
  - injection Hc as -> -> Hc. destruct chunks as [|c2 chunks]; [auto|]. inversion_clear Hf'.
    destruct c2; [congruence | discriminate].
Qed.

(** The members after a request has been sent. *)
Definition asked (st : Socks5CheckStatus) (d : list Z) (p : Socks5ProxyProperty) : Socks5ClientImpl :=
  mk_socks5 d st [] p.

Definition hello (p : Socks5ProxyProperty) : list Z :=
  [5; 1; if is_empty (username p) || is_empty (password p) then 0 else 2].

Definition auth_request (p : Socks5ProxyProperty) : list Z :=
  [1] ++ counted (username p) ++ counted (password p).

Lemma connect_sends p :
  connect (CreateSocks5Client p) = (asked kProxySocks5Hello (hello p) p, [AsyncWrite (hello p); AsyncRead]).
Proof. reflexivity. Qed.

Ltac two_byte_reply H :=
  apply fragments_two in H as [-> | ->]; eexists; (split; [reflexivity | split; reflexivity]).

(** The proxy accepts the connection without authentication. *)
Lemma deliver_no_auth chunks d p :
  fragments chunks [5; 0] ->
  exists o, deliver chunks true (asked kProxySocks5Hello d p) =
            (true, asked kProxySocks5ConSvr (connect_request is_v4 is_v6 p) p, o) /\
            writes o = [connect_request is_v4 is_v6 p] /\ results o = [].
Proof. intros H. two_byte_reply H. Qed.

(** The proxy asks for a user name and accepts it. *)
Lemma deliver_need_auth chunks d p :
  fragments chunks [5; 2] ->
  exists o, deliver chunks true (asked kProxySocks5Hello d p) =
            (true, asked kProxySocks5AuthReq (auth_request p) p, o) /\
            writes o = [auth_request p] /\ results o = [].
Proof. intros H. two_byte_reply H. Qed.

Lemma deliver_authenticated chunks d p :
  fragments chunks [1; 0] ->
  exists o, deliver chunks true (asked kProxySocks5AuthReq d p) =
            (true, asked kProxySocks5ConSvr (connect_request is_v4 is_v6 p) p, o) /\
            writes o = [connect_request is_v4 is_v6 p] /\ results o = [].
Proof. intros H. two_byte_reply H. Qed.

Definition awaiting (d r : list Z) (p : Socks5ProxyProperty) : Socks5ClientImpl :=
  mk_socks5 d kProxySocks5ConSvr r p.

Lemma read_connect_reply c d r p :
  read c (awaiting d r p) =
  HandleConnectBussinessServer char_signed c (awaiting d r p).
Proof. reflexivity. Qed.

Lemma read_short c d r p :
  zlen (r ++ c) < 4 -> read c (awaiting d r p) = (awaiting d (r ++ c) p, [AsyncRead]).
Proof.
  intros Hc. rewrite read_connect_reply. unfold HandleConnectBussinessServer, append_received, modify, andthen, reading.
  cbn -[Z.ltb]. apply Z.ltb_lt in Hc. rewrite Hc. reflexivity.
Qed.

(** As long as fewer than four bytes are there the client asks for more. *)
Lemma deliver_head cs d r p :
  zlen (r ++ concat cs) < 4 ->
  exists o, deliver cs true (awaiting d r p) = (true, awaiting d (r ++ concat cs) p, o) /\
            writes o = [] /\ results o = [].
Proof.
  revert r. induction cs as [|c cs IH]; intros r Hl; cbn [deliver concat].
  - exists []. rewrite app_nil_r. auto.
  - cbn [concat] in Hl. rewrite app_assoc in Hl |- *.
    assert (zlen (r ++ c) < 4) as Hc.
    { rewrite zlen_app in Hl. pose proof (zlen_nonneg (concat cs)). lia. }
    rewrite read_short by exact Hc. destruct (IH (r ++ c) Hl) as (o & E & Hw & Hr).
    cbn [existsb is_read orb]. rewrite E. exists (AsyncRead :: o). auto.
Qed.

(** The recursion of [LoopSocks5Handshake] is at most two deep. *)
Lemma loop_fuel_enough n data s :
  (2 <= n)%nat ->
  loop_handshake is_v4 is_v6 char_signed n data s = LoopSocks5Handshake is_v4 is_v6 char_signed data s.
Proof.
  intros Hn. destruct n as [|[|n]]; [lia | lia|]. unfold LoopSocks5Handshake. cbn [loop_handshake]. unfold reading.
  destruct s as [d st r p]. destruct st; reflexivity.
Qed.

(** ** Every outcome *)

(** The client waits for the reply to what it has sent. *)
Inductive ready : Socks5ClientImpl -> Prop :=
| ready_hello d r p : zlen r < 2 -> ready (mk_socks5 d kProxySocks5Hello r p)
| ready_auth d r p : zlen r < 2 -> ready (mk_socks5 d kProxySocks5AuthReq r p)
| ready_connect d r p : zlen r < 4 -> ready (mk_socks5 d kProxySocks5ConSvr r p).

(** The client has the head of the last reply and will not read the rest. *)
Definition stalled (s : Socks5ClientImpl) : Prop :=
  socks5_status_ s = kProxySocks5ConSvr /\ 4 <= zlen (received_data_ s) /\
  (received s 3 = 1 /\ zlen (received_data_ s) < 10 \/
   received s 3 = 3 /\ zlen (received_data_ s) < host_reply_length char_signed s \/
   received s 3 = 4 /\ zlen (received_data_ s) < 22).

Inductive read_result : Socks5ClientImpl -> list socks5_call -> Prop :=
| goes_on s o : existsb is_read o = true -> results o = [] -> ready s -> read_result s o
| refused s o : existsb is_read o = false -> results o = [-1] -> read_result s o
| completed s o :
    existsb is_read o = false -> results o = [0] -> socks5_status_ s = kProxySocks5ConSvrSuccess -> read_result s o
| stalls s o : existsb is_read o = false -> results o = [] -> stalled s -> read_result s o.

Lemma read_cases c s : ready s -> forall s' o, read c s = (s', o) -> read_result s' o.
Proof.
  intros Hr s' o H. cbn [read_complete] in H. unfold LoopSocks5Handshake in H. cbn [loop_handshake] in H.
  destruct Hr as [d r p _|d r p _|d r p _]; unfold reading in H; cbn [socks5_status_] in H.
  - unfold HandleHello, append_received, andthen, modify, reading in H. cbn -[Z.ltb Z.eqb zlen nth app] in H.
    destruct (Z.ltb_spec (zlen (r ++ c)) 2); [injection H as <- <-; apply goes_on; [reflexivity.. | constructor; assumption]|].
    destruct (negb _); [injection H as <- <-; apply refused; reflexivity|].
    destruct (kSocks5NoAuth =? _); [injection H as <- <-; apply goes_on; [reflexivity.. | constructor; reflexivity]|].
    destruct (kSocks5UsrNamePwdAuth =? _);
      [injection H as <- <-; apply goes_on; [reflexivity.. | constructor; reflexivity]|].
    injection H as <- <-. apply refused; reflexivity.
  - unfold HandleSocks5Auth, append_received, andthen, modify, reading in H. cbn -[Z.ltb Z.eqb zlen nth app] in H.
    destruct (Z.ltb_spec (zlen (r ++ c)) 2); [injection H as <- <-; apply goes_on; [reflexivity.. | constructor; assumption]|].
    destruct (_ || _); injection H as <- <-; [apply refused; reflexivity|].
    apply goes_on; [reflexivity.. | constructor; reflexivity].
  - unfold HandleConnectBussinessServer, append_received, andthen, modify, reading in H.
    cbn -[Z.ltb Z.eqb zlen nth app host_reply_length received] in H.
    destruct (Z.ltb_spec (zlen (r ++ c)) 4); [injection H as <- <-; apply goes_on; [reflexivity.. | constructor; assumption]|].
    repeat match type of H with context [if ?b then _ else _] => destruct b eqn:?; bool_hyps end;
      injection H as <- <-;
      solve [apply refused; reflexivity | apply completed; reflexivity
            | apply stalls; [reflexivity.. | unfold stalled; cbn [socks5_status_ received_data_]; intuition auto]].
Qed.

Lemma deliver_outcome chunks s armed s' o :
  ready s -> deliver chunks true s = (armed, s', o) ->
  if armed then results o = [] /\ ready s'
  else results o = [-1] \/ (results o = [0] /\ socks5_status_ s' = kProxySocks5ConSvrSuccess) \/
       (results o = [] /\ stalled s').
Proof.
  revert s armed s' o. induction chunks as [|c cs IH]; intros s armed s' o Hs H; cbn [deliver] in H.
  - injection H as <- <- <-. auto.
  - destruct (read c s) as [s1 o1] eqn:E. destruct (deliver cs (existsb is_read o1) s1) as [[a2 s2] o2] eqn:E2.
    injection H as <- <- <-. rewrite results_app.
    assert (existsb is_read o1 = false -> a2 = false /\ s2 = s1 /\ o2 = []) as Hstop.
    { intros Ha. rewrite Ha in E2. destruct cs; cbn in E2; injection E2 as <- <- <-; auto. }
    destruct (read_cases c s Hs _ _ E) as [s1 o1 Ha Hr Hs1|s1 o1 Ha Hr|s1 o1 Ha Hr Hs1|s1 o1 Ha Hr Hs1].
    + rewrite Ha in E2. rewrite Hr. exact (IH _ _ _ _ Hs1 E2).
    + destruct (Hstop Ha) as (-> & -> & ->). rewrite Hr. auto.
    + destruct (Hstop Ha) as (-> & -> & ->). rewrite Hr. auto.
    + destruct (Hstop Ha) as (-> & -> & ->). rewrite Hr. auto.
Qed.

(** ** A proxy that accepts *)

(** The address in the last reply: where the proxy is connected from. *)
Inductive bound_address :=
| BoundIPv4 (a : list Z)
| BoundHost (h : list Z)
| BoundIPv6 (a : list Z).

Definition bound_reply (b : bound_address) (port : list Z) : list Z :=
  [5; 0; 0] ++
  match b with
  | BoundIPv4 a => 1 :: a
  | BoundHost h => 3 :: zlen h :: h
  | BoundIPv6 a => 4 :: a
  end ++ port.

(** The length of a host name fits a signed [char]. *)
Definition bound_ok (b : bound_address) (port : list Z) : Prop :=
  zlen port = 2 /\
  match b with
  | BoundIPv4 a => zlen a = 4
  | BoundHost h => zlen h < 128
  | BoundIPv6 a => zlen a = 16
  end.

Lemma bound_reply_length b port :
  bound_ok b port ->
  zlen (bound_reply b port) = match b with BoundIPv4 _ => 10 | BoundHost h => 7 + zlen h | BoundIPv6 _ => 22 end.
Proof.
  intros [Hp Hb]. unfold bound_reply. destruct b; rewrite !zlen_app, ?zlen_cons, Hp; change (zlen (@nil Z)) with 0; lia.
Qed.

Lemma prefix_nth i (r rest reply : list Z) : reply = r ++ rest -> (i < length r)%nat -> nth i r 0 = nth i reply 0.
Proof. intros -> Hi. now rewrite app_nth1. Qed.

(** The read after which the head is there: the reply is complete or never will
    be. *)
Lemma read_bound c d r p b port rest :
  bound_ok b port -> 4 <= zlen (r ++ c) -> bound_reply b port = (r ++ c) ++ rest ->
  exists s o, read c (awaiting d r p) = (s, o) /\ existsb is_read o = false /\ writes o = [] /\
    match rest with
    | [] => socks5_status_ s = kProxySocks5ConSvrSuccess /\ results o = [0]
    | _ => stalled s /\ results o = []
    end.
Proof.
  intros Hb Hl Hc. pose proof (bound_reply_length b port Hb) as Hn. rewrite Hc, zlen_app in Hn.
  set (q := r ++ c) in *. rewrite read_connect_reply. unfold HandleConnectBussinessServer, append_received, modify, andthen, reading.
  cbn [received_data_ set_received awaiting write_data_ socks5_status_ proxy_info_]. fold q.
  change (set_received q (awaiting d r p)) with (awaiting d q p). set (s1 := awaiting d q p).
  assert (forall i, (i < length q)%nat -> received s1 i = nth i (bound_reply b port) 0) as Hr.
  { intros i Hi. exact (prefix_nth i q rest _ Hc Hi). }
  assert (length q >= 4)%nat as Hq by (unfold zlen in Hl; lia).
  assert (received s1 4 = 0 \/ received s1 4 = nth 4 (bound_reply b port) 0) as H4.
  { destruct (Nat.ltb_spec 4 (length q)) as [H|H]; [right; now apply Hr | left; apply nth_overflow; exact H]. }
  pose proof (zlen_nonneg rest) as Hre. rewrite !(Hr 0%nat), !(Hr 1%nat), !(Hr 3%nat) by lia.
  assert (rest = [] /\ zlen rest = 0 \/ (exists x l, rest = x :: l) /\ 0 < zlen rest) as Hcase.
  { destruct rest as [|x l]; [auto|]. right. rewrite zlen_cons. pose proof (zlen_nonneg l). split; [eauto | lia]. }
  destruct (Z.ltb_spec (zlen q) 4); [lia|].
  destruct b as [a|h|a]; destruct Hb as [Hp Hb]; cbn [bound_reply app nth] in *; cbn -[Z.ltb zlen host_reply_length].
  - destruct Hcase as [[-> Hz]|[(x & l & ->) Hz]]; destruct (Z.ltb_spec (zlen q) 10); try lia.
    + eexists; eexists; repeat split.
    + eexists; eexists; repeat split; auto.
      left. fold s1. rewrite Hr by lia. auto.
  - pose proof (zlen_nonneg h) as Hh. assert (host_reply_length char_signed s1 = 7 + received s1 4) as Hlen.
    { unfold host_reply_length, char_value. destruct (Z.leb_spec 128 (received s1 4)); [lia|]. rewrite andb_false_r.
      rewrite wrap_small; lia. }
    destruct Hcase as [[-> Hz]|[(x & l & ->) Hz]].
    + assert (received s1 4 = zlen h) as E4 by (apply Hr; unfold zlen in *; lia).
      rewrite Hlen, E4. destruct (Z.ltb_spec (zlen q) (7 + zlen h)); [lia|]. eexists; eexists; repeat split.
    + assert (zlen q < host_reply_length char_signed s1) as Hlt.
      { rewrite Hlen. destruct (Nat.ltb_spec 4 (length q)) as [H'|H'].
        - assert (received s1 4 = zlen h) as E4 by exact (Hr 4%nat H'). lia.
        - assert (zlen q <= 4) by (unfold zlen; lia). lia. }
      pose proof Hlt as ->%Z.ltb_lt. eexists; eexists; repeat split; auto.
      right; left. rewrite Hr by lia. auto.
  - destruct Hcase as [[-> Hz]|[(x & l & ->) Hz]]; destruct (Z.ltb_spec (zlen q) 22); try lia.
    + eexists; eexists; repeat split.
    + eexists; eexists; repeat split; auto.
      right; right. fold s1. rewrite Hr by lia. auto.
Qed.

Lemma deliver_stopped cs s : deliver cs false s = (false, s, []).
Proof. destruct cs; reflexivity. Qed.

Lemma deliver_bound cs next more d p b port :
  bound_ok b port -> zlen (concat cs) < 4 <= zlen (concat (cs ++ [next])) -> Forall (fun c => c <> []) more ->
  concat (cs ++ next :: more) = bound_reply b port ->
  exists s o, deliver (cs ++ next :: more) true (awaiting d [] p) = (false, s, o) /\ writes o = [] /\
    match more with
    | [] => socks5_status_ s = kProxySocks5ConSvrSuccess /\ results o = [0]
    | _ => stalled s /\ results o = []
    end.
Proof.
  intros Hb [Hl Hn] Hm Hc. destruct (deliver_head cs d [] p Hl) as (o & E & Hw & Hr). cbn [app] in E.
  rewrite (deliver_app _ _ _ _ _ _ _ E). rewrite !concat_app in *. cbn [concat] in *. rewrite app_nil_r in Hn. rewrite app_assoc in Hc.
  destruct (read_bound next d (concat cs) p b port (concat more) Hb Hn (eq_sym Hc)) as (s1 & o1 & E1 & R1 & W1 & K1).
  cbn [deliver]. rewrite E1, R1, deliver_stopped. exists s1, (o ++ o1 ++ []).
  rewrite !writes_app, !results_app, Hw, W1, Hr. split; [reflexivity|]. split; [reflexivity|]. cbn [results flat_map app]. rewrite app_nil_r.
  destruct more as [|c0 more]; [exact K1|]. inversion_clear Hm. destruct c0 as [|x c0]; [contradiction|]. exact K1.
Qed.

(** A reply that does not fit the reads up to its head. *)
Lemma bound_cut cs next more b port :
  bound_ok b port -> zlen (concat cs) < 4 -> zlen next <= 10 -> concat (cs ++ next :: more) = bound_reply b port ->
  13 < zlen (bound_reply b port) -> more <> [].
Proof.
  intros Hb Hl Hn Hc Hlong ->. rewrite <- Hc, concat_app, zlen_app in Hlong. cbn in Hlong. rewrite app_nil_r in Hlong. lia.
Qed.

(** C30: The handshake with a proxy that accepts.  The proxy chooses no
    authentication, or asks for a user name and accepts it, and then reports
    success with an IPv4 address, a host name of less than 128 bytes or an IPv6
    address.  The client has sent the greeting, the user name and password if they
    were asked for, and one request, which names its server, or 0.0.0.0 or :: if
    the server is given as an address, see [connect_request].  The first replies
    may arrive in any number of reads.  If the last one is complete with the read
    that brings its fourth byte, the client reports 0, once; if it is not, the
    client reports nothing and does not read on.  A read brings ten bytes at most,
    so it never is for an IPv6 address, nor for a host name of more than six
    bytes. *)
Theorem handshake_completes p m h a cs next more b port :
  fragments h [5; m] -> (m = 0 /\ a = []) \/ (m = 2 /\ fragments a [1; 0]) ->
  bound_ok b port -> concat (cs ++ next :: more) = bound_reply b port ->
  zlen (concat cs) < 4 <= zlen (concat (cs ++ [next])) -> zlen next <= 10 -> Forall (fun c => c <> []) more ->
  exists s o, handshake p (h ++ a ++ cs ++ next :: more) = (false, s, o) /\
    writes o = [hello p] ++ (if m =? 0 then [] else [auth_request p]) ++ [connect_request is_v4 is_v6 p] /\
    match more with
    | [] => socks5_status_ s = kProxySocks5ConSvrSuccess /\ results o = [0]
    | _ => stalled s /\ results o = []
    end /\
    match b with BoundIPv4 _ => True | BoundHost n => 6 < zlen n -> more <> [] | BoundIPv6 _ => more <> [] end.
Proof.
  intros Hh Ha Hb Hc Hl Hn Hm.
  destruct (deliver_bound cs next more (connect_request is_v4 is_v6 p) p b port Hb Hl Hm Hc) as (s & o2 & E2 & W2 & R2).
  assert (match b with BoundIPv4 _ => True | BoundHost n => 6 < zlen n -> more <> [] | BoundIPv6 _ => more <> [] end) as Hcut.
  { pose proof (bound_reply_length b port Hb) as Hz.
    pose proof (bound_cut cs next more b port Hb (proj1 Hl) Hn Hc) as Hx. destruct b; auto; [intros|]; apply Hx; lia. }
  unfold handshake. rewrite connect_sends. cbn [existsb is_read orb].
  destruct Ha as [[-> ->]|[-> Ha]]; cbn [app].
  - destruct (deliver_no_auth h (hello p) p Hh) as (o1 & E1 & W1 & R1). rewrite (deliver_app _ _ _ _ _ _ _ E1).
    unfold asked, awaiting in *. rewrite E2. do 2 eexists. split; [reflexivity|].
    cbn [writes results flat_map app]. fold (results (o1 ++ o2)). fold (writes (o1 ++ o2)).
    rewrite results_app, writes_app, R1, W1, W2. auto.
  - destruct (deliver_need_auth h (hello p) p Hh) as (o0 & E0 & W0 & R0). rewrite (deliver_app _ _ _ _ _ _ _ E0).
    destruct (deliver_authenticated a (auth_request p) p Ha) as (o1 & E1 & W1 & R1).
    rewrite (deliver_app _ _ _ _ _ _ _ E1).
    unfold asked, awaiting in *. rewrite E2. do 2 eexists. split; [reflexivity|].
    cbn [writes results flat_map app]. fold (results (o0 ++ o1 ++ o2)). fold (writes (o0 ++ o1 ++ o2)).
    rewrite !results_app, !writes_app, R0, R1, W0, W1, W2. auto.
Qed.

(** C31: Every outcome of the handshake.  Whatever bytes the proxy sends, in
    whatever reads, the client reports at most one result; while it has reported
    none it is reading, except in one case: the head of the last reply has
    arrived without the rest, and the client does not read on. *)
Theorem handshake_outcome p chunks :
  let '(armed, s, o) := handshake p chunks in
  if armed then results o = [] /\ ready s
  else results o = [-1] \/ (results o = [0] /\ socks5_status_ s = kProxySocks5ConSvrSuccess) \/
       (results o = [] /\ stalled s).
Proof.
  unfold handshake. rewrite connect_sends. cbn [existsb is_read orb].
  destruct (deliver chunks true _) as [[armed s] o] eqn:E.
  apply deliver_outcome in E; [|constructor; reflexivity]. destruct armed; exact E.
Qed.

End Drive.

(** ** Witnesses *)

Definition sample_proxy : Socks5ProxyProperty := mk_proxy (bytes "example.org") 443 (bytes "user") (bytes "pw").

Definition no_address (s : list Z) : bool := false.

(** The greeting arrives byte by byte, the last reply in two reads; and a reply
    with an IPv6 address, of which the client reads the first ten bytes. *)
Lemma handshake_completes_witness :
  (exists s o, handshake no_address no_address true sample_proxy
      ([[5]; [2]] ++ [[1; 0]] ++ [[5; 0]] ++ [[0; 1; 127; 0; 0; 1; 4; 56]]) = (false, s, o) /\
    writes o = [[5; 1; 2]] ++ [[1; 4] ++ bytes "user" ++ [2] ++ bytes "pw"] ++
               [[5; 1; 0; 3; 11] ++ bytes "example.org" ++ [1; 187]] /\
    (socks5_status_ s = kProxySocks5ConSvrSuccess /\ results o = [0])) /\
  (exists s o, handshake no_address no_address true sample_proxy
      ([[5; 0]] ++ [] ++ [] ++ [[5; 0; 0; 4; 0; 0; 0; 0; 0; 0]; [0; 0; 0; 0; 0; 0; 0; 0; 0; 1]; [4; 56]]) = (false, s, o) /\
    stalled true s /\ results o = []).
Proof.
  split.
  - destruct (handshake_completes no_address no_address true sample_proxy 2 [[5]; [2]] [[1; 0]] [[5; 0]]
             [0; 1; 127; 0; 0; 1; 4; 56] [] (BoundIPv4 [127; 0; 0; 1]) [4; 56]) as (s & o & E & W & R & _).
    + split; [reflexivity | repeat constructor; discriminate].
    + right. split; [reflexivity|]. split; [reflexivity | repeat constructor; discriminate].
    + split; reflexivity.
    + reflexivity.
    + vm_compute. split; congruence.
    + vm_compute. congruence.
    + constructor.
    + exists s, o. exact (conj E (conj W R)).
  - destruct (handshake_completes no_address no_address true sample_proxy 0 [[5; 0]] [] []
             [5; 0; 0; 4; 0; 0; 0; 0; 0; 0] [[0; 0; 0; 0; 0; 0; 0; 0; 0; 1]; [4; 56]]
             (BoundIPv6 [0; 0; 0; 0; 0; 0; 0; 0; 0; 0; 0; 0; 0; 0; 0; 1]) [4; 56]) as (s & o & E & W & R & _).
    + split; [reflexivity | repeat constructor; discriminate].
    + left. split; reflexivity.
    + split; reflexivity.
    + reflexivity.
    + vm_compute. split; congruence.
    + vm_compute. congruence.
    + repeat constructor; discriminate.
    + exists s, o. exact (conj E R).
Defined.

(** The client reports success for the literal address of its server, but asks
    for 0.0.0.0: the result of [from_string] is not used. *)
Example literal_address_lost :
  connect_request (fun _ => true) no_address (mk_proxy (bytes "192.0.2.7") 80 [] []) = [5; 1; 0; 1; 0; 0; 0; 0; 0; 80].
Proof. reflexivity. Qed.
