(* ===== verification/NetConnection.v ===== *)
(** * Connections

    src/base/net/net_connection_impl.{h,cc} with its subclasses under
    src/base/net/tcp_client, src/base/net/websocket and src/base/net/http, and
    src/base/net/dns_resolver_impl.{h,cc}: a connection is resolved, connected,
    taken through the handshakes of its type, and then sends and receives.  A
    method is a handler over the members; the asynchronous operations it starts,
    the closures it posts to the pump and the calls of the delegate are its
    calls.  Error codes are their values, 0 for success. *)

From Stdlib Require Import String ZArith List Bool Lia.
From S2P Require Import Prelude Cpp NetClient Socks5.
Import ListNotations.
Local Open Scope Z_scope.
Local Open Scope handler_scope.

(** ** Data *)

(** The concrete classes. *)
Inductive conn_class :=
| TcpConnectionImpl | TcpTlsConnectionImpl | WebsocketConnectionImpl | WebsocketTlsConnectionImpl
| HttpConnection | HttpsConnection.

Definition is_http (c : conn_class) : bool :=
  match c with HttpConnection | HttpsConnection => true | _ => false end.

Record DnsResolverImpl := mk_resolver {
  dr_host : list Z;
  dr_schem : option Z;            (* the port, in decimal *)
  dr_delegate : bool;             (* delegate_ is not null *)
  dr_stoped : bool
}.

(** Resolvers live as long as something refers to them; [resolvers] holds all
    that were created, and an index is a [shared_ptr] to one.  The number beside
    a SOCKS5 client tells it from earlier ones. *)
Record NetConnectionImpl := mk_conn {
  cls : conn_class;
  request_ : NetConnectionRequest;
  delegate_ : bool;               (* delegate_ is not null *)
  stoped_ : bool;
  already_clean_up : bool;
  send_buffers : list (list Z);
  dns_resolver_ : option nat;
  resolvers : list DnsResolverImpl;
  socks5_client_ : option (nat * Socks5ClientImpl);
  clients : nat
}.

(** Closures posted to the pump. *)
Inductive task :=
| TaskDoDnsResolve
| TaskDoSendFromQueue (b : list Z)
| TaskHandleCleanUp
| TaskDoResolver (i : nat)
| TaskDoCancel (i : nat).

(** Asynchronous operations. *)
Inductive async_op :=
| OpResolve (i : nat)
| OpConnect
| OpTlsHandshake
| OpWebsocketHandshake
| OpRecv
| OpSend (b : list Z)
| OpSocks5Read (n : nat)
| OpSocks5Write (n : nat) (d : list Z).

Inductive net_call :=
| PostRunable (t : task)
| Start (op : async_op)
| ExpiresAfter (seconds : Z)
| ExpiresNever
| ResolverCancel (i : nat)
| SetVerifyPeer                   (* the certificate of the peer is to be verified *)
| ShutdownSocket
| CloseSocket
| CloseWebsocket
| OnConnect (code : Z)
| OnRecvData (len : Z)
| OnDisconnect (code : Z)
| LogFatal.

Definition net_method : Type := handler NetConnectionImpl net_call.

Definition set_delegate b s := mk_conn (cls s) (request_ s) b (stoped_ s) (already_clean_up s) (send_buffers s)
  (dns_resolver_ s) (resolvers s) (socks5_client_ s) (clients s).
Definition set_stoped b s := mk_conn (cls s) (request_ s) (delegate_ s) b (already_clean_up s) (send_buffers s)
  (dns_resolver_ s) (resolvers s) (socks5_client_ s) (clients s).
Definition set_clean_up b s := mk_conn (cls s) (request_ s) (delegate_ s) (stoped_ s) b (send_buffers s)
  (dns_resolver_ s) (resolvers s) (socks5_client_ s) (clients s).
Definition set_send_buffers l s := mk_conn (cls s) (request_ s) (delegate_ s) (stoped_ s) (already_clean_up s) l
  (dns_resolver_ s) (resolvers s) (socks5_client_ s) (clients s).
Definition set_dns i s := mk_conn (cls s) (request_ s) (delegate_ s) (stoped_ s) (already_clean_up s) (send_buffers s)
  i (resolvers s) (socks5_client_ s) (clients s).
Definition set_resolvers l s := mk_conn (cls s) (request_ s) (delegate_ s) (stoped_ s) (already_clean_up s)
  (send_buffers s) (dns_resolver_ s) l (socks5_client_ s) (clients s).
Definition set_socks5 c s := mk_conn (cls s) (request_ s) (delegate_ s) (stoped_ s) (already_clean_up s) (send_buffers s)
  (dns_resolver_ s) (resolvers s) c (clients s).
Definition set_clients n s := mk_conn (cls s) (request_ s) (delegate_ s) (stoped_ s) (already_clean_up s)
  (send_buffers s) (dns_resolver_ s) (resolvers s) (socks5_client_ s) n.

(** A new connection, with a delegate. *)
Definition new_connection (c : conn_class) (r : NetConnectionRequest) : NetConnectionImpl :=
  mk_conn c r true false false [] None [] None 0.

(** [LogFatal] in [~NetConnectionImpl]. *)
Definition destroy_connection : net_method :=
  members s => if negb (stoped_ s) then emit LogFatal else skip.

(** ** DNS resolvers *)

Definition DnsResolver_Resolver (i : nat) : net_method :=
  members s =>
    match nth_error (resolvers s) i with
    | Some r => if dr_stoped r then skip else emit (PostRunable (TaskDoResolver i))
    | None => skip
    end.

Definition DnsResolver_Cancel (i : nat) : net_method :=
  members s =>
    match nth_error (resolvers s) i with
    | Some r =>
        if dr_stoped r then skip
        else
          modify (set_resolvers (upd_nth i (mk_resolver (dr_host r) (dr_schem r) false true) (resolvers s))) ;;
          emit (PostRunable (TaskDoCancel i))
    | None => skip
    end.

(** ** Methods without a call of another method of the class *)

(** The methods of the base class and the overrides, then the virtual method. *)
Definition Net_DoTlsHandshake : net_method := emit LogFatal.

Definition Net_DoWebsocketHandshake : net_method := emit LogFatal.

Definition TcpTls_DoTlsHandshake : net_method := emit SetVerifyPeer ;; emit (Start OpTlsHandshake).

Definition WebsocketTls_DoTlsHandshake : net_method := emit (Start OpTlsHandshake).

Definition Https_DoTlsHandshake : net_method := emit (Start OpTlsHandshake).

Definition DoTlsHandshake : net_method :=
  members s =>
    match cls s with
    | TcpTlsConnectionImpl => TcpTls_DoTlsHandshake
    | WebsocketTlsConnectionImpl => WebsocketTls_DoTlsHandshake
    | HttpsConnection => Https_DoTlsHandshake
    | _ => Net_DoTlsHandshake
    end.

Definition Websocket_DoWebsocketHandshake : net_method := emit ExpiresNever ;; emit (Start OpWebsocketHandshake).

Definition DoWebsocketHandshake : net_method :=
  members s =>
    match cls s with
    | WebsocketConnectionImpl | WebsocketTlsConnectionImpl => Websocket_DoWebsocketHandshake
    | _ => Net_DoWebsocketHandshake
    end.

Definition DoRecvData : net_method := emit (Start OpRecv).

Definition DoSendData (b : list Z) : net_method := emit (Start (OpSend b)).

Definition Tcp_DoCleanUp : net_method := emit ShutdownSocket ;; emit CloseSocket.

Definition TcpTls_DoCleanUp : net_method := emit ShutdownSocket ;; emit CloseSocket.

Definition Websocket_DoCleanUp : net_method := emit CloseWebsocket.

Definition WebsocketTls_DoCleanUp : net_method := emit CloseSocket ;; emit CloseWebsocket.

Definition Http_DoCleanUp : net_method := emit ShutdownSocket.

Definition Https_DoCleanUp : net_method := emit ShutdownSocket.

Definition DoCleanUp : net_method :=
  members s =>
    match cls s with
    | TcpConnectionImpl => Tcp_DoCleanUp
    | TcpTlsConnectionImpl => TcpTls_DoCleanUp
    | WebsocketConnectionImpl => Websocket_DoCleanUp
    | WebsocketTlsConnectionImpl => WebsocketTls_DoCleanUp
    | HttpConnection => Http_DoCleanUp
    | HttpsConnection => Https_DoCleanUp
    end.

(** ** [NetConnectionImpl] *)

Definition HandleCleanUp : net_method :=
  members s =>
    if already_clean_up s then skip
    else
      modify (set_clean_up true) ;;
      modify (set_socks5 None) ;;
      (match dns_resolver_ s with
       | Some i => DnsResolver_Cancel i ;; modify (set_dns None)
       | None => skip
       end) ;;
      DoCleanUp.

Definition HandleConnectStatus (code : Z) : net_method :=
  members s => if delegate_ s then emit (OnConnect code) else skip.

Definition NotifyDisconnect (code : Z) : net_method :=
  members s => if delegate_ s then emit (OnDisconnect code) else skip.

Definition HandleRecvData (len : Z) : net_method :=
  (members s => if delegate_ s then emit (OnRecvData len) else skip) ;;
  DoRecvData.

Definition StartRecvDate : net_method := emit ExpiresNever ;; DoRecvData.

Definition DoOtherHandshake (code : Z) : net_method :=
  members s =>
    match nr_net_type (request_ s) with
    | kNetTypeWebsocketTls | kNetTypeTcpTls | kNetTypeHttps => DoTlsHandshake
    | kNetTypeWebsocket => DoWebsocketHandshake
    | _ => HandleConnectStatus code ;; StartRecvDate
    end.

(** [OnSocks5Handshake] of the delegate interface of the SOCKS5 client. *)
Definition OnSocks5Handshake_ (state : Z) : net_method :=
  (if negb (state =? 0) then HandleCleanUp ;; HandleConnectStatus state
   else DoOtherHandshake state) ;;
  modify (set_socks5 None).

Section Methods.
Variables (is_v4 is_v6 : list Z -> bool) (char_signed : bool).
(** The error of [SSL_set_tlsext_host_name], if it fails. *)
Variable set_sni_error : option Z.

(** The calls of client [n], in order. *)
Fixpoint socks5_calls (n : nat) (o : list socks5_call) : net_method :=
  match o with
  | [] => skip
  | AsyncRead :: o' => emit (Start (OpSocks5Read n)) ;; socks5_calls n o'
  | AsyncWrite d :: o' => emit (Start (OpSocks5Write n d)) ;; socks5_calls n o'
  | OnSocks5Handshake st :: o' => OnSocks5Handshake_ st ;; socks5_calls n o'
  end.

(** A method of client [n], if it still exists. *)
Definition with_client (n : nat) (m : Socks5.method) : net_method :=
  members s =>
    match socks5_client_ s with
    | Some (k, c) =>
        if Nat.eqb k n then
          let (c', o) := m c in modify (set_socks5 (Some (k, c'))) ;; socks5_calls n o
        else skip
    | None => skip
    end.

Definition NotifyConnectComplete (ec : Z) : net_method :=
  if ec =? 0 then
    members s =>
      let r := request_ s in
      if negb (is_nil (nr_proxy_host r)) then
        let n := clients s in
        let proxy_property :=
          mk_proxy (nr_host r) (match nr_port r with Some p => p | None => 0 end)
            (nr_proxy_username r) (nr_proxy_passwd r) in
        modify (set_clients (S n)) ;;
        modify (set_socks5 (Some (n, CreateSocks5Client proxy_property))) ;;
        with_client n (Socks5.Connect is_v4 is_v6 char_signed)
      else DoOtherHandshake ec
  else HandleCleanUp ;; HandleConnectStatus ec.

Definition Tcp_DoConnect : net_method := emit (Start OpConnect).

Definition TcpTls_DoConnect : net_method := emit (Start OpConnect).

Definition Websocket_DoConnect : net_method := emit (Start OpConnect).

Definition Http_DoConnect : net_method := emit (Start OpConnect).

Definition Https_DoConnect : net_method :=
  match set_sni_error with
  | Some ec => NotifyConnectComplete ec
  | None => emit (Start OpConnect)
  end.

Definition DoConnect : net_method :=
  members s =>
    match cls s with
    | TcpConnectionImpl => Tcp_DoConnect
    | TcpTlsConnectionImpl => TcpTls_DoConnect
    | WebsocketConnectionImpl | WebsocketTlsConnectionImpl => Websocket_DoConnect
    | HttpConnection => Http_DoConnect
    | HttpsConnection => Https_DoConnect
    end.

Definition NotifyTlsHandshakeComplete (ec : Z) : net_method :=
  if ec =? 0 then
    members s =>
      match nr_net_type (request_ s) with
      | kNetTypeWebsocketTls => DoWebsocketHandshake
      | _ => HandleConnectStatus ec ;; StartRecvDate
      end
  else HandleConnectStatus ec ;; HandleCleanUp.

Definition NotifyWebsocketHandshakeComplte (ec : Z) : net_method :=
  HandleConnectStatus ec ;;
  if ec =? 0 then StartRecvDate else HandleCleanUp.

(** The buffer is sent at once only if none is being sent. *)
Definition DoSendFromQueue (b : list Z) : net_method :=
  members s =>
    let write_in_progress := negb (match send_buffers s with [] => true | _ => false end) in
    modify (set_send_buffers (send_buffers s ++ [b])) ;;
    members s' =>
      if negb write_in_progress && negb (already_clean_up s') then
        match send_buffers s' with
        | front :: _ => DoSendData front
        | [] => skip
        end
      else skip.

(** [send_buffers.pop_front()] of an empty queue has undefined behaviour; here
    it leaves the queue empty (see [send_queue_order]). *)
Definition NotifySendComplete (ec : Z) : net_method :=
  if negb (ec =? 0) then NotifyDisconnect ec ;; HandleCleanUp
  else
    modify (fun s => set_send_buffers (tl (send_buffers s)) s) ;;
    members s =>
      match send_buffers s with
      | front :: _ => if negb (already_clean_up s) then DoSendData front else skip
      | [] => skip
      end.

Definition NotifyRecvData (ec len : Z) : net_method :=
  if negb (ec =? 0) then NotifyDisconnect ec ;; HandleCleanUp
  else HandleRecvData len.

Definition OnDnsResolvered (code : Z) : net_method :=
  (members s =>
     match dns_resolver_ s with
     | Some i => DnsResolver_Cancel i ;; modify (set_dns None)
     | None => skip
     end) ;;
  if negb (code =? 0) then HandleConnectStatus code ;; HandleCleanUp
  else emit (ExpiresAfter 30) ;; DoConnect.

(** [DnsResolverImpl::NotifyResult]. *)
Definition DnsResolver_NotifyResult (i : nat) (code : Z) : net_method :=
  (members s =>
     match nth_error (resolvers s) i with
     | Some r => if dr_delegate r then OnDnsResolvered code else skip
     | None => skip
     end) ;;
  emit (ResolverCancel i).

Definition DoDnsResolve : net_method :=
  members s =>
    let r := request_ s in
    let d :=
      if negb (is_nil (nr_proxy_host r)) then mk_resolver (nr_proxy_host r) (Some (nr_proxy_port r)) true false
      else mk_resolver (nr_host r) (nr_port r) true false in
    let i := length (resolvers s) in
    modify (set_resolvers (resolvers s ++ [d])) ;;
    modify (set_dns (Some i)) ;;
    DnsResolver_Resolver i.

(** The interface of [NetConnection], callable from any thread. *)
Definition Connect : net_method := emit (PostRunable TaskDoDnsResolve).

Definition DisConnect : net_method :=
  members s =>
    if stoped_ s then skip
    else
      modify (set_stoped true) ;; modify (set_delegate false) ;;
      emit (PostRunable TaskHandleCleanUp).

Definition Send (buffer : list Z) : net_method :=
  members s => if stoped_ s then skip else emit (PostRunable (TaskDoSendFromQueue buffer)).

(** ** The pump and the completion of operations *)

Definition run_task (t : task) : net_method :=
  match t with
  | TaskDoDnsResolve => DoDnsResolve
  | TaskDoSendFromQueue b => DoSendFromQueue b
  | TaskHandleCleanUp => HandleCleanUp
  | TaskDoResolver i => emit (Start (OpResolve i))
  | TaskDoCancel i => emit (ResolverCancel i)
  end.

(** Operation [op] ends with [ec], having read [data]. *)
Definition complete (op : async_op) (ec : Z) (data : list Z) : net_method :=
  match op with
  | OpResolve i => DnsResolver_NotifyResult i ec
  | OpConnect => NotifyConnectComplete ec
  | OpTlsHandshake => NotifyTlsHandshakeComplete ec
  | OpWebsocketHandshake => NotifyWebsocketHandshakeComplte ec
  | OpRecv => NotifyRecvData ec (zlen data)
  | OpSend _ => NotifySendComplete ec
  | OpSocks5Read n => with_client n (read_complete is_v4 is_v6 char_signed (negb (ec =? 0)) data)
  | OpSocks5Write n _ => with_client n (write_complete (negb (ec =? 0)))
  end.

(** The connection with the closures posted for it, the operations in progress
    and all calls so far; [requested] and [confirmed] are the buffers given to
    [Send] and those written. *)
Record net_world := mk_net_world {
  conn : NetConnectionImpl;
  tasks : list task;
  pending : list async_op;
  trace : list net_call;
  requested : list (list Z);
  confirmed : list (list Z)
}.

Definition posted_tasks (o : list net_call) : list task :=
  flat_map (fun c => match c with PostRunable t => [t] | _ => [] end) o.

Definition started_ops (o : list net_call) : list async_op :=
  flat_map (fun c => match c with Start op => [op] | _ => [] end) o.

Definition exec (m : net_method) (w : net_world) : net_world :=
  let (s, o) := m (conn w) in
  mk_net_world s (tasks w ++ posted_tasks o) (pending w ++ started_ops o) (trace w ++ o) (requested w) (confirmed w).

Definition request_send (b : list Z) (w : net_world) : net_world :=
  mk_net_world (conn w) (tasks w) (pending w) (trace w)
    (requested w ++ if stoped_ (conn w) then [] else [b]) (confirmed w).

Definition confirm (op : async_op) (ec : Z) (w : net_world) : net_world :=
  mk_net_world (conn w) (tasks w) (pending w) (trace w) (requested w)
    (confirmed w ++ match op with OpSend b => if ec =? 0 then [b] else [] | _ => [] end).

Definition new_net_world (c : conn_class) (r : NetConnectionRequest) : net_world :=
  mk_net_world (new_connection c r) [] [] [] [] [].

(** Users call the interface; the pump runs the posted closures in order, as
    [pump_refines_queue] shows; operations end in any order and with any
    result. *)
Inductive net_step (w : net_world) : net_world -> Prop :=
| net_connect : net_step w (exec Connect w)
| net_disconnect : net_step w (exec DisConnect w)
| net_send b : net_step w (exec (Send b) (request_send b w))
| net_task t ts :
    tasks w = t :: ts ->
    net_step w (exec (run_task t) (mk_net_world (conn w) ts (pending w) (trace w) (requested w) (confirmed w)))
| net_complete op pre suf ec data :
    pending w = pre ++ op :: suf ->
    net_step w (exec (complete op ec data)
      (confirm op ec (mk_net_world (conn w) (tasks w) (pre ++ suf) (trace w) (requested w) (confirmed w))))
| net_recv_over pre suf :             (* an HTTP client whose message is complete: recv_done of HttpClient *)
    is_http (cls (conn w)) = true -> pending w = pre ++ OpRecv :: suf ->
    net_step w (exec skip (mk_net_world (conn w) (tasks w) (pre ++ suf) (trace w) (requested w) (confirmed w))).

Inductive net_runs (w : net_world) : net_world -> Prop :=
| net_refl : net_runs w w
| net_more w1 w2 : net_runs w w1 -> net_step w1 w2 -> net_runs w w2.

Definition net_reachable (c : conn_class) (r : NetConnectionRequest) (w : net_world) : Prop :=
  net_runs (new_net_world c r) w.
End Methods.

(** The overrides, for proofs that run a method. *)
Create HintDb overrides.
#[export] Hint Unfold Net_DoTlsHandshake TcpTls_DoTlsHandshake WebsocketTls_DoTlsHandshake Https_DoTlsHandshake
  Net_DoWebsocketHandshake Websocket_DoWebsocketHandshake Tcp_DoCleanUp TcpTls_DoCleanUp Websocket_DoCleanUp
  WebsocketTls_DoCleanUp Http_DoCleanUp Https_DoCleanUp Tcp_DoConnect TcpTls_DoConnect Websocket_DoConnect Http_DoConnect
  Https_DoConnect : overrides.
