(* ===== verification/NetConnectionSpec.v ===== *)
(** * What a connection promises

    Facts that hold of every method, composed from its parts, and the
    invariants of a connection under any order of calls, closures and
    completions. *)

From Stdlib Require Import String ZArith List Bool Lia.
From S2P Require Import Prelude Cpp NetClient Socks5 NetConnection.
Import ListNotations.
Local Open Scope Z_scope.
Local Open Scope handler_scope.

(** ** Composing facts about methods *)

(** Calls that are not callbacks, sends or reads of data. *)
Definition plain_op (op : async_op) : bool :=
  match op with OpSend _ | OpRecv => false | _ => true end.

Definition plain_task (t : task) : bool :=
  match t with TaskDoSendFromQueue _ => false | _ => true end.

(** The closures methods on the pump post themselves. *)
Definition resolver_task (t : task) : bool :=
  match t with TaskDoResolver _ | TaskDoCancel _ => true | _ => false end.

Definition plain_call (c : net_call) : bool :=
  match c with
  | PostRunable t => resolver_task t
  | Start (OpTlsHandshake | OpWebsocketHandshake) => false
  | Start op => plain_op op
  | ExpiresAfter _ | ExpiresNever | ResolverCancel _ => true
  | _ => false
  end.

Section Compose.
Variables (is_v4 is_v6 : list Z -> bool) (char_signed : bool) (set_sni_error : option Z).
Context (R : NetConnectionImpl -> list net_call -> NetConnectionImpl -> Prop) `{!Transition R}.

(** What is to be shown of a fact: it holds of the plain calls, of the changes
    to members no property is about, and of the blocks that report. *)
Record block_facts : Prop := {
  bf_call s c : plain_call c = true -> R s [c] s;
  bf_socks5 s c : R s [] (set_socks5 c s);
  bf_clients s n : R s [] (set_clients n s);
  bf_dns s i : R s [] (set_dns i s);
  bf_resolvers s l : R s [] (set_resolvers l s);
  bf_clean : respects R HandleCleanUp;
  bf_status c : c <> 0 -> respects R (HandleConnectStatus c);
  bf_other : respects R (DoOtherHandshake 0);
  bf_tls : respects R (NotifyTlsHandshakeComplete 0);
  bf_websocket : respects R (NotifyWebsocketHandshakeComplte 0)
}.

Context (B : block_facts).

Lemma respects_call c : plain_call c = true -> respects R (emit c).
Proof. intros Hc. apply respects_emit. intros s. apply (bf_call B), Hc. Qed.

Lemma respects_set_socks5 c : respects R (modify (set_socks5 c)).
Proof. apply respects_modify. intros s. apply (bf_socks5 B). Qed.

Lemma respects_cancel i : respects R (DnsResolver_Cancel i).
Proof.
  apply respects_reading. intros s. destruct (nth_error _ _) as [r|]; [|apply respects_skip; assumption].
  apply respects_if; [apply respects_skip; assumption|]. apply respects_andthen; [assumption| |apply respects_call; reflexivity].
  apply respects_modify. intros s'. apply (bf_resolvers B).
Qed.

Create HintDb block.
#[local] Hint Resolve respects_call respects_set_socks5 respects_cancel bf_clean bf_status bf_other bf_tls bf_websocket : block.

Ltac compose := compose_with ltac:(solve [auto with block]).

Lemma respects_socks5_handshake st : respects R (OnSocks5Handshake_ st).
Proof.
  unfold OnSocks5Handshake_. destruct (Z.eqb_spec st 0) as [->|Hst]; cbn [negb]; compose.
Qed.

Lemma respects_socks5_calls n o : respects R (socks5_calls n o).
Proof.
  induction o as [|[|d|st] o IH]; cbn [socks5_calls]; compose. apply respects_socks5_handshake.
Qed.

Lemma respects_with_client n m : respects R (with_client n m).
Proof.
  unfold with_client. compose. destruct (m _) as [c' o]. compose. apply respects_socks5_calls.
Qed.

Lemma respects_connect_complete ec : respects R (NotifyConnectComplete is_v4 is_v6 char_signed ec).
Proof.
  unfold NotifyConnectComplete. destruct (Z.eqb_spec ec 0) as [->|Hec]; [|compose].
  apply respects_reading. intros s. apply respects_if; [|compose].
  apply respects_andthen; [assumption| |apply respects_andthen; [assumption| |apply respects_with_client]].
  - apply respects_modify. intros s'. apply (bf_clients B).
  - apply respects_set_socks5.
Qed.

Lemma respects_resolved code : respects R (OnDnsResolvered is_v4 is_v6 char_signed set_sni_error code).
Proof.
  unfold OnDnsResolvered. apply respects_andthen; [assumption| |].
  - compose. apply respects_modify. intros s'. apply (bf_dns B).
  - destruct (Z.eqb_spec code 0) as [->|Hc]; cbn [negb]; unfold DoConnect; autounfold with overrides; compose.
    all: apply respects_connect_complete.
Qed.

Lemma respects_resolve : respects R DoDnsResolve.
Proof.
  unfold DoDnsResolve, DnsResolver_Resolver. apply respects_reading. intros s.
  apply respects_andthen; [assumption|..]; [apply respects_modify; intros s'; apply (bf_resolvers B)|].
  apply respects_andthen; [assumption|..]; [apply respects_modify; intros s'; apply (bf_dns B)|]. compose.
Qed.

(** A fact with its blocks holds of every completion and every closure but those
    about data. *)
Lemma respects_complete op ec data :
  plain_op op = true -> respects R (complete is_v4 is_v6 char_signed set_sni_error op ec data).
Proof.
  intros Hp. destruct op; try discriminate; cbn [complete].
  - unfold DnsResolver_NotifyResult. compose. apply respects_resolved.
  - apply respects_connect_complete.
  - destruct (Z.eqb_spec ec 0) as [->|He]; [compose|]. unfold NotifyTlsHandshakeComplete.
    apply Z.eqb_neq in He as E. rewrite E. compose.
  - destruct (Z.eqb_spec ec 0) as [->|He]; [compose|]. unfold NotifyWebsocketHandshakeComplte.
    apply Z.eqb_neq in He as E. rewrite E. compose.
  - apply respects_with_client.
  - apply respects_with_client.
Qed.

Lemma respects_task t : plain_task t = true -> respects R (run_task t).
Proof.
  intros Hp. destruct t; try discriminate; cbn [run_task]; compose. apply respects_resolve.
Qed.
End Compose.

(** ** Facts about every method *)

(** The connection is shut down, or its WebSocket closed, exactly when
    [already_clean_up] becomes true. *)
Definition is_close (c : net_call) : bool := match c with ShutdownSocket | CloseWebsocket => true | _ => false end.

Definition closes (o : list net_call) : nat := length (filter is_close o).

Definition close_fact (s : NetConnectionImpl) (o : list net_call) (s' : NetConnectionImpl) : Prop :=
  (closes o + Nat.b2n (already_clean_up s) = Nat.b2n (already_clean_up s'))%nat.

(** The queue is left alone. *)
Definition send_ops (ops : list async_op) : list (list Z) :=
  flat_map (fun op => match op with OpSend b => [b] | _ => [] end) ops.

Definition send_tasks (ts : list task) : list (list Z) :=
  flat_map (fun t => match t with TaskDoSendFromQueue b => [b] | _ => [] end) ts.

Record queue_fact (s : NetConnectionImpl) (o : list net_call) (s' : NetConnectionImpl) : Prop := {
  qf_buffers : send_buffers s' = send_buffers s;
  qf_clean : already_clean_up s' = false -> already_clean_up s = false;
  qf_ops : send_ops (started_ops o) = [];
  qf_tasks : send_tasks (posted_tasks o) = []
}.

(** Without a delegate there are no callbacks, and none comes back. *)
Definition is_callback (c : net_call) : bool :=
  match c with OnConnect _ | OnRecvData _ | OnDisconnect _ => true | _ => false end.

Definition silent_fact (s : NetConnectionImpl) (o : list net_call) (s' : NetConnectionImpl) : Prop :=
  delegate_ s' = delegate_ s /\ stoped_ s' = stoped_ s /\
  (delegate_ s = false -> existsb is_callback o = false).

(** Class and request stay, and with the class that belongs to the type of the
    request no handshake is unexpected. *)
Definition class_fits (s : NetConnectionImpl) : bool :=
  match nr_net_type (request_ s), cls s with
  | kNetTypeWebsocketTls, WebsocketTlsConnectionImpl => true
  | kNetTypeWebsocketTls, _ => false
  | (kNetTypeTcpTls | kNetTypeHttps), (TcpTlsConnectionImpl | WebsocketTlsConnectionImpl | HttpsConnection) => true
  | (kNetTypeTcpTls | kNetTypeHttps), _ => false
  | kNetTypeWebsocket, (WebsocketConnectionImpl | WebsocketTlsConnectionImpl) => true
  | kNetTypeWebsocket, _ => false
  | _, _ => true
  end.

Definition fatal_fact (s : NetConnectionImpl) (o : list net_call) (s' : NetConnectionImpl) : Prop :=
  cls s' = cls s /\ request_ s' = request_ s /\ (class_fits s = true -> ~ In LogFatal o).

(** Only the TLS connections over TCP ask for a certificate of the peer that can be
    verified, and they do before their handshake. *)
Definition verify_fact (s : NetConnectionImpl) (o : list net_call) (s' : NetConnectionImpl) : Prop :=
  cls s' = cls s /\ (In SetVerifyPeer o -> cls s = TcpTlsConnectionImpl) /\
  (cls s = TcpTlsConnectionImpl -> In (Start OpTlsHandshake) o -> In SetVerifyPeer o).

(** Data is read only once the success of the connection has been reported. *)
Definition recv_fact (s : NetConnectionImpl) (o : list net_call) (s' : NetConnectionImpl) : Prop :=
  delegate_ s' = delegate_ s /\
  (delegate_ s = true -> In (Start OpRecv) o -> In (OnConnect 0) o) /\ (forall n, ~ In (OnRecvData n) o).

#[export] Instance close_transition : Transition close_fact.
Proof.
  split; unfold close_fact, closes; [reflexivity|]. intros s o1 s1 o2 s2 H1 H2.
  rewrite filter_app, length_app. lia.
Qed.

Lemma started_ops_app o1 o2 : started_ops (o1 ++ o2) = started_ops o1 ++ started_ops o2.
Proof. apply flat_map_app. Qed.

Lemma posted_tasks_app o1 o2 : posted_tasks (o1 ++ o2) = posted_tasks o1 ++ posted_tasks o2.
Proof. apply flat_map_app. Qed.

Lemma send_ops_app o1 o2 : send_ops (o1 ++ o2) = send_ops o1 ++ send_ops o2.
Proof. apply flat_map_app. Qed.

Lemma send_tasks_app o1 o2 : send_tasks (o1 ++ o2) = send_tasks o1 ++ send_tasks o2.
Proof. apply flat_map_app. Qed.

Create Rewrite HintDb net.
#[export] Hint Rewrite started_ops_app posted_tasks_app send_ops_app send_tasks_app existsb_app : net.

#[export] Instance queue_transition : Transition queue_fact.
Proof.
  split; [repeat split; auto|]. intros s o1 s1 o2 s2 [] []. split; autorewrite with net; try congruence; auto.
  - rewrite qf_ops0, qf_ops1. reflexivity.
  - rewrite qf_tasks0, qf_tasks1. reflexivity.
Qed.

#[export] Instance silent_transition : Transition silent_fact.
Proof.
  split; [repeat split; auto|]. intros s o1 s1 o2 s2 (H1 & H2 & H3) (H4 & H5 & H6).
  repeat split; try congruence. intros Hd. rewrite existsb_app, H3, H6 by congruence. reflexivity.
Qed.

#[export] Instance fatal_transition : Transition fatal_fact.
Proof.
  split; [repeat split; auto|]. intros s o1 s1 o2 s2 (H1 & H2 & H3) (H4 & H5 & H6).
  repeat split; try congruence. intros Hc Hi. apply in_app_iff in Hi as [Hi|Hi]; [exact (H3 Hc Hi)|].
  apply H6; [|exact Hi]. unfold class_fits in *. rewrite H1, H2. exact Hc.
Qed.

#[export] Instance recv_transition : Transition recv_fact.
Proof.
  split; [repeat split; auto; contradiction|]. intros s o1 s1 o2 s2 (H1 & H2 & H3) (H4 & H5 & H6).
  repeat split; try congruence.
  - intros Hd Hi. apply in_app_iff. apply in_app_iff in Hi as [Hi|Hi]; [auto|]. right. apply H5; congruence.
  - intros n Hi. apply in_app_iff in Hi as [Hi|Hi]; [exact (H3 n Hi) | exact (H6 n Hi)].
Qed.

#[export] Instance verify_transition : Transition verify_fact.
Proof.
  split; [repeat split; auto; contradiction|]. intros s o1 s1 o2 s2 (H1 & H2 & H3) (H4 & H5 & H6).
  rewrite H1 in *. split; [exact H4|]. rewrite !in_app_iff. tauto.
Qed.

(** A block is run on members given one by one. *)
Ltac run_block :=
  let s := fresh "s" in let s' := fresh "s" in let o := fresh "o" in let H := fresh "H" in
  intros s s' o H;
  destruct s as [?cl ?rq ?de ?sp ?cu ?sb ?dr ?rs ?sc ?nc];
  unfold NotifyTlsHandshakeComplete, NotifyWebsocketHandshakeComplte, DoOtherHandshake, HandleCleanUp,
    HandleConnectStatus, NotifyDisconnect, DoTlsHandshake, DoWebsocketHandshake, StartRecvDate, DoRecvData, DoCleanUp,
    DnsResolver_Cancel in H;
  autounfold with overrides in H; unfold andthen, reading, emit, modify, skip in H;
  cbn in H;
  repeat (case_match_hyp H; cbn in H);
  injection H as <- <-.

Ltac run_facts :=
  split;
  [ let c := fresh "c" in intros s c Hc; destruct c as [[]|[]| | | | | | | | | | |]; try discriminate Hc
  | intros s c | intros s n | intros s i | intros s l | run_block
  | let c := fresh "c" in let Hc := fresh "Hc" in intros c Hc; run_block | run_block | run_block | run_block ].

Lemma close_facts : block_facts close_fact.
Proof. run_facts; reflexivity. Qed.

Lemma queue_facts : block_facts queue_fact.
Proof. run_facts; split; cbn; auto; discriminate. Qed.

Lemma silent_facts : block_facts silent_fact.
Proof. run_facts; repeat split; cbn; auto; discriminate. Qed.

Lemma fatal_facts : block_facts fatal_fact.
Proof.
  run_facts; (split; [reflexivity|]); (split; [reflexivity|]); intros Hf Hi;
    cbn in Hi; repeat (destruct Hi as [Hi|Hi]; try discriminate Hi); try contradiction Hi;
    unfold class_fits in Hf; cbn in Hf;
    match goal with E : nr_net_type _ = _ |- _ => rewrite E in Hf end; subst; discriminate Hf.
Qed.

Lemma recv_facts : block_facts recv_fact.
Proof.
  run_facts; (split; [reflexivity|]); (split; [intros Hd Hi | intros k Hi]); cbn in *;
    repeat match goal with H : _ \/ _ |- _ => destruct H as [H|H]; try discriminate H end;
    try contradiction; try discriminate; try congruence; auto.
Qed.

Lemma verify_facts : block_facts verify_fact.
Proof.
  run_facts; (split; [reflexivity|]); (split; [intros Hi | intros Ht Hi]); cbn in *;
    repeat (destruct Hi as [Hi|Hi]; try discriminate Hi); try contradiction Hi; try discriminate Ht; auto.
Qed.

(** ** Steps *)

(** The remaining handlers: those about data and the interface. *)
Record data_facts (R : NetConnectionImpl -> list net_call -> NetConnectionImpl -> Prop) : Prop := {
  df_recv ec n : respects R (NotifyRecvData ec n);
  df_sent ec : respects R (NotifySendComplete ec);
  df_queue b : respects R (DoSendFromQueue b);
  df_connect : respects R Connect;
  df_disconnect : respects R DisConnect;
  df_send b : respects R (Send b)
}.

Ltac run_data :=
  match goal with
  | |- respects _ (NotifyRecvData ?ec _) => unfold NotifyRecvData, HandleRecvData; destruct (ec =? 0); cbn [negb]
  | |- respects _ (NotifySendComplete ?ec) => unfold NotifySendComplete, DoSendData; destruct (ec =? 0); cbn [negb]
  | |- respects _ (DoSendFromQueue _) => unfold DoSendFromQueue, DoSendData
  | |- respects _ ?h => unfold h
  | |- respects _ (Send _) => unfold Send
  end; run_block.

Lemma close_data : data_facts close_fact.
Proof. split; intros; run_data; reflexivity. Qed.

Lemma fatal_data : data_facts fatal_fact.
Proof.
  split; intros; run_data; (split; [reflexivity|]); (split; [reflexivity|]); intros _ Hi;
    cbn in Hi; repeat (destruct Hi as [Hi|Hi]; try discriminate Hi); contradiction Hi.
Qed.

Lemma verify_data : data_facts verify_fact.
Proof.
  split; intros; run_data; (split; [reflexivity|]); (split; [intros Hi | intros Ht Hi]); cbn in *;
    repeat (destruct Hi as [Hi|Hi]; try discriminate Hi); contradiction Hi.
Qed.

Section Steps.
Variables (is_v4 is_v6 : list Z -> bool) (char_signed : bool) (set_sni_error : option Z).

Abbreviation step := (net_step is_v4 is_v6 char_signed set_sni_error).
Abbreviation reached := (net_reachable is_v4 is_v6 char_signed set_sni_error).

Lemma exec_eq m w s o :
  m (conn w) = (s, o) ->
  exec m w = mk_net_world s (tasks w ++ posted_tasks o) (pending w ++ started_ops o) (trace w ++ o)
               (requested w) (confirmed w).
Proof. intros H. unfold exec. rewrite H. reflexivity. Qed.

(** A fact with its blocks and data handlers holds of every step. *)
Lemma step_fact R `{!Transition R} w w' :
  block_facts R -> data_facts R -> step w w' ->
  exists o, R (conn w) o (conn w') /\ trace w' = trace w ++ o.
Proof.
  intros B D H.
  assert (forall m v, conn v = conn w -> trace v = trace w -> respects R m ->
            exists o, R (conn w) o (conn (exec m v)) /\ trace (exec m v) = trace w ++ o) as Hm.
  { intros m v Hc Ht Hr. destruct (m (conn v)) as [s o] eqn:E. rewrite (exec_eq _ _ _ _ E). cbn.
    exists o. rewrite Ht, <- Hc. split; [exact (Hr _ _ _ E) | reflexivity]. }
  destruct H as [| |b|t ts Ht|op pre suf ec data Hp|pre suf _ Hp]; apply Hm; try reflexivity.
  - apply (df_connect _ D).
  - apply (df_disconnect _ D).
  - apply (df_send _ D).
  - destruct t; try (eapply respects_task; eauto; reflexivity). apply (df_queue _ D).
  - destruct op; try (eapply respects_complete; eauto; reflexivity); [apply (df_recv _ D) | apply (df_sent _ D)].
  - apply (respects_skip R).
Qed.

(** The connection is shut down at most once, when [already_clean_up] is set. *)
Lemma closed_once c r w : reached c r w -> closes (trace w) = Nat.b2n (already_clean_up (conn w)).
Proof.
  induction 1 as [|w w' _ IH Hs]; [reflexivity|].
  destruct (step_fact close_fact _ _ close_facts close_data Hs) as (o & Ho & ->). unfold close_fact, closes in *.
  rewrite filter_app, length_app. lia.
Qed.

(** Class and request do not change; with a class that fits no handshake is
    unexpected. *)
Lemma no_fatal c r w :
  reached c r w ->
  cls (conn w) = c /\ request_ (conn w) = r /\ (class_fits (new_connection c r) = true -> ~ In LogFatal (trace w)).
Proof.
  induction 1 as [|w w' _ (H1 & H2 & H3) Hs]; [repeat split; auto|].
  destruct (step_fact fatal_fact _ _ fatal_facts fatal_data Hs) as (o & (Hc & Hr & Hf) & ->).
  split; [congruence|]. split; [congruence|]. intros Hc' Hi. apply in_app_iff in Hi as [Hi|Hi]; [exact (H3 Hc' Hi)|].
  apply Hf; [|exact Hi]. unfold class_fits in *. cbn in Hc'. rewrite H1, H2. exact Hc'.
Qed.

(** Cleaning up a secure WebSocket closes the stream below it first, so that the
    closing frame of [CloseWebsocket] cannot be sent. *)
Theorem stream_closed_first s s' o :
  HandleCleanUp s = (s', o) -> cls s = WebsocketTlsConnectionImpl ->
  o = [] \/ exists o', o = o' ++ [CloseSocket; CloseWebsocket].
Proof.
  intros H. revert s s' o H. change (respects (fun s o s' => cls s = WebsocketTlsConnectionImpl ->
    o = [] \/ exists o', o = o' ++ [CloseSocket; CloseWebsocket]) HandleCleanUp).
  run_block; intros Hc; try discriminate Hc; [now left|..]; right; cbn.
  all: (now exists []) || (now eexists [_]).
Qed.

(** Only a TLS connection over TCP has the certificate of its peer verified: such
    a connection asks for it before each handshake, an HTTPS client and a secure
    WebSocket never do, although both load certificates to verify with. *)
Theorem peer_verified c r w :
  reached c r w ->
  (In SetVerifyPeer (trace w) -> c = TcpTlsConnectionImpl) /\
  (c = TcpTlsConnectionImpl -> In (Start OpTlsHandshake) (trace w) -> In SetVerifyPeer (trace w)).
Proof.
  induction 1 as [|w w' Hw (H1 & H2) Hs]; [split; contradiction|]. destruct (no_fatal c r w Hw) as (Hc & _).
  destruct (step_fact verify_fact _ _ verify_facts verify_data Hs) as (o & (_ & Hv & Ht) & ->).
  rewrite Hc in *. rewrite !in_app_iff. tauto.
Qed.
End Steps.
