(* ===== verification/NetConnectionOrder.v ===== *)
(** * Order and progress of a connection

    Buffers are written in the order in which they were sent; the callbacks
    follow the protocol of the delegate; a connection that was asked for is
    reported. *)

From Stdlib Require Import String ZArith List Bool Lia.
From S2P Require Import Prelude Cpp NetClient Socks5 NetConnection NetConnectionSpec.
Import ListNotations.
Local Open Scope Z_scope.
Local Open Scope handler_scope.

Section Order.
Variables (is_v4 is_v6 : list Z -> bool) (char_signed : bool) (set_sni_error : option Z).

Abbreviation step := (net_step is_v4 is_v6 char_signed set_sni_error).
Abbreviation reached := (net_reachable is_v4 is_v6 char_signed set_sni_error).
Abbreviation leads := (net_runs is_v4 is_v6 char_signed set_sni_error).

(** ** The queue of buffers *)

(** The buffers whose write was started, in order. *)
Definition started_writes (w : net_world) : list (list Z) := send_ops (started_ops (trace w)).

Definition in_flight (w : net_world) : list (list Z) := send_ops (pending w).

Inductive queue_state (w : net_world) : Prop :=
| queue_idle rest :
    in_flight w = [] ->
    (already_clean_up (conn w) = false -> send_buffers (conn w) = [] /\ started_writes w = confirmed w) ->
    started_writes w ++ rest = confirmed w ++ send_buffers (conn w) -> queue_state w
| queue_busy b rest :
    in_flight w = [b] -> send_buffers (conn w) = b :: rest ->
    started_writes w = confirmed w ++ [b] -> queue_state w.

Record send_inv (w : net_world) : Prop := {
  si_requested : requested w = confirmed w ++ send_buffers (conn w) ++ send_tasks (tasks w);
  si_state : queue_state w
}.

Ltac queue_run := split; cbn; auto; discriminate.

Lemma queue_recv ec n : respects queue_fact (NotifyRecvData ec n).
Proof. run_data; queue_run. Qed.

Lemma queue_connect : respects queue_fact Connect.
Proof. run_data; queue_run. Qed.

Lemma queue_disconnect : respects queue_fact DisConnect.
Proof. run_data; queue_run. Qed.

Lemma queue_failure ec : ec <> 0 -> respects queue_fact (NotifySendComplete ec).
Proof. intros H. apply Z.eqb_neq in H. unfold NotifySendComplete. rewrite H. cbn [negb]. run_block; queue_run. Qed.

(** A handler that leaves the queue alone keeps the invariant. *)
Lemma exec_queue_fact m v w :
  respects queue_fact m -> conn v = conn w -> requested v = requested w -> confirmed v = confirmed w ->
  trace v = trace w -> send_tasks (tasks v) = send_tasks (tasks w) -> in_flight v = in_flight w ->
  send_inv w -> send_inv (exec m v).
Proof.
  intros Hm Hc Hr Hk Ht Hs Hf [Hreq Hst]. destruct (m (conn v)) as [s o] eqn:E. rewrite (exec_eq _ _ _ _ E).
  apply Hm in E as []. rewrite Hc in *. unfold in_flight, started_writes in *.
  split; cbn; autorewrite with net.
  - rewrite qf_tasks, qf_buffers, app_nil_r, Hs, Hr, Hk. exact Hreq.
  - destruct Hst as [rest H1 H2 H3|b rest H1 H2 H3]; unfold in_flight, started_writes in *.
    + apply (queue_idle _ rest); unfold in_flight, started_writes; cbn; autorewrite with net;
        rewrite ?qf_ops, ?app_nil_r, ?Hf, ?Ht, ?Hk, ?qf_buffers; auto.
    + apply (queue_busy _ b rest); unfold in_flight, started_writes; cbn; autorewrite with net;
        rewrite ?qf_ops, ?app_nil_r, ?Hf, ?Ht, ?Hk, ?qf_buffers; auto.
Qed.

Definition is_empty_queue (l : list (list Z)) : bool := match l with [] => true | _ => false end.

Lemma DoSendFromQueue_eq b s :
  DoSendFromQueue b s =
  (set_send_buffers (send_buffers s ++ [b]) s,
   if is_empty_queue (send_buffers s) && negb (already_clean_up s) then [Start (OpSend b)] else []).
Proof.
  destruct s as [cl r de st [|] [|b0 l] dr rs sc nc]; reflexivity.
Qed.

Lemma NotifySendComplete_ok s :
  NotifySendComplete 0 s =
  (set_send_buffers (tl (send_buffers s)) s,
   match tl (send_buffers s) with
   | front :: _ => if negb (already_clean_up s) then [Start (OpSend front)] else []
   | [] => []
   end).
Proof. destruct s as [cl r de st [|] [|b0 [|b1 l]] dr rs sc nc]; reflexivity. Qed.

Lemma failure_cleans_up ec s s' o :
  ec <> 0 -> NotifySendComplete ec s = (s', o) -> already_clean_up s' = true.
Proof.
  intros Hec. apply Z.eqb_neq in Hec. unfold NotifySendComplete. rewrite Hec. cbn [negb]. revert s s' o.
  change (respects (fun _ _ s' => already_clean_up s' = true) (NotifyDisconnect ec;; HandleCleanUp)).
  run_block; reflexivity.
Qed.

Ltac queue_state_tac := unfold in_flight, started_writes; cbn [conn tasks pending trace confirmed requested
  set_send_buffers send_buffers already_clean_up posted_tasks started_ops flat_map app]; autorewrite with net;
  rewrite ?app_nil_r.

(** The first buffer is sent at once, the others wait. *)
Lemma queue_task b ts w :
  tasks w = TaskDoSendFromQueue b :: ts -> send_inv w ->
  send_inv (exec (DoSendFromQueue b) (mk_net_world (conn w) ts (pending w) (trace w) (requested w) (confirmed w))).
Proof.
  intros Ht [Hreq Hst]. rewrite Ht in Hreq. cbn [send_tasks flat_map app] in Hreq. fold (send_tasks ts) in Hreq.
  erewrite exec_eq by apply DoSendFromQueue_eq. cbn [conn tasks pending trace requested confirmed].
  assert (forall o, posted_tasks o = [] -> requested w = confirmed w ++ (send_buffers (conn w) ++ [b]) ++
            send_tasks (ts ++ posted_tasks o)) as Hreq'.
  { intros o ->. rewrite app_nil_r, <- app_assoc. exact Hreq. }
  split; [apply Hreq'; destruct (_ && _); reflexivity|].
  destruct Hst as [rest H1 H2 H3|b0 rest H1 H2 H3].
  - destruct (already_clean_up (conn w)) eqn:Ec.
    + rewrite andb_false_r. apply (queue_idle _ (rest ++ [b])); queue_state_tac; rewrite ?Ec; auto; [discriminate|].
      rewrite !app_assoc, <- H3. reflexivity.
    + destruct (H2 eq_refl) as [Hb Hs]. rewrite Hb. cbn [is_empty_queue negb andb].
      apply (queue_busy _ b []); queue_state_tac; unfold in_flight, started_writes in *; rewrite ?H1, ?Hs; reflexivity.
  - rewrite H2. cbn [is_empty_queue andb]. apply (queue_busy _ b0 (rest ++ [b])); queue_state_tac; auto.
Qed.

Lemma send_ops_middle pre b suf ops :
  send_ops (pre ++ OpSend b :: suf) = ops -> (length ops <= 1)%nat -> ops = [b] /\ send_ops (pre ++ suf) = [].
Proof.
  rewrite !send_ops_app. change (send_ops (OpSend b :: suf)) with (b :: send_ops suf). intros <-.
  rewrite length_app. destruct (send_ops pre), (send_ops suf); cbn; intros Hl; [auto | lia | lia | lia].
Qed.

(** A write ends: the next one starts, or the connection is given up. *)
Lemma queue_complete b pre suf ec w :
  pending w = pre ++ OpSend b :: suf -> send_inv w ->
  send_inv (exec (NotifySendComplete ec)
    (confirm (OpSend b) ec (mk_net_world (conn w) (tasks w) (pre ++ suf) (trace w) (requested w) (confirmed w)))).
Proof.
  intros Hp [Hreq Hst].
  destruct Hst as [rest H1 _ _|b0 rest H1 H2 H3]; unfold in_flight, started_writes in *; rewrite Hp in H1;
    apply send_ops_middle in H1 as [H1 H1']; cbn; try lia; try discriminate.
  injection H1 as ->. rewrite send_ops_app in H1'. destruct (Z.eqb_spec ec 0) as [->|Hec].
  - erewrite exec_eq by apply NotifySendComplete_ok. unfold confirm. cbn [conn tasks pending trace requested confirmed Z.eqb].
    rewrite H2 in *. cbn [tl]. split.
    + cbn [requested confirmed conn send_buffers set_send_buffers tasks]. rewrite Hreq, <- !app_assoc. cbn [app].
      do 3 f_equal. destruct rest; [|destruct (already_clean_up _)]; cbn; rewrite app_nil_r; reflexivity.
    + destruct rest as [|b1 rest]; [|destruct (already_clean_up (conn w)) eqn:Ec]; cbn [negb].
      * apply (queue_idle _ []); queue_state_tac; auto.
      * apply (queue_idle _ (b1 :: rest)); queue_state_tac; rewrite ?H3, ?Ec, <- ?app_assoc; auto. discriminate.
      * apply (queue_busy _ b1 rest); queue_state_tac; rewrite ?H1', ?H3; reflexivity.
  - match goal with |- send_inv (exec ?m ?v) => destruct (m (conn v)) as [s o] eqn:E; rewrite (exec_eq _ _ _ _ E) end.
    pose proof (failure_cleans_up _ _ _ _ Hec E) as Hcl. apply (queue_failure ec Hec) in E as []. cbn in qf_buffers.
    unfold confirm. apply Z.eqb_neq in Hec. rewrite Hec. cbn [conn tasks pending trace requested confirmed]. rewrite app_nil_r. split.
    + cbn [requested confirmed conn tasks]. autorewrite with net. rewrite qf_tasks, app_nil_r, qf_buffers. exact Hreq.
    + apply (queue_idle _ rest); queue_state_tac; rewrite ?qf_ops, ?app_nil_r, ?qf_buffers, ?Hcl, ?H2, ?H3, <- ?app_assoc;
        auto. discriminate.
Qed.

Lemma step_send_inv w w' : step w w' -> send_inv w -> send_inv w'.
Proof.
  intros H Hi. destruct H as [| |b|t ts Ht|op pre suf ec data Hp|pre suf _ Hp].
  - apply (exec_queue_fact _ w w); auto using queue_connect.
  - apply (exec_queue_fact _ w w); auto using queue_disconnect.
  - destruct Hi as [Hreq Hst]. unfold exec, request_send, Send, reading. cbn [conn].
    destruct (stoped_ (conn w)); cbn; rewrite ?app_nil_r.
    + destruct w. split; [exact Hreq | exact Hst].
    + split; [cbn; autorewrite with net; rewrite Hreq, <- !app_assoc; reflexivity|].
      destruct Hst as [rest H1 H2 H3|b0 rest H1 H2 H3].
      * apply (queue_idle _ rest); queue_state_tac; auto.
      * apply (queue_busy _ b0 rest); queue_state_tac; auto.
  - destruct t; try (apply (exec_queue_fact _ _ w); auto; [eapply respects_task; [apply queue_transition | apply queue_facts | reflexivity] | rewrite Ht; reflexivity]).
    apply queue_task; assumption.
  - destruct op as [ | | | | |b| |].
    6:{ apply queue_complete; assumption. }
    all: apply (exec_queue_fact _ _ w);
      [ first [apply queue_recv | apply respects_complete; [apply queue_transition | apply queue_facts | reflexivity]]
      | reflexivity | reflexivity | apply app_nil_r | reflexivity | reflexivity
      | unfold in_flight; rewrite Hp; cbn [pending confirm]; rewrite !send_ops_app; reflexivity
      | exact Hi ].
  - apply (exec_queue_fact _ _ w); auto; [apply (respects_skip queue_fact)|].
    unfold in_flight. rewrite Hp. cbn [pending]. rewrite !send_ops_app. reflexivity.
Qed.

Lemma reached_send_inv c r w : reached c r w -> send_inv w.
Proof.
  induction 1 as [|w w' _ IH Hs]; [|exact (step_send_inv _ _ Hs IH)].
  split; [reflexivity|]. apply (queue_idle _ []); cbn; auto.
Qed.

(** ** Callbacks *)

Lemma silent_data m :
  (exists ec n, m = NotifyRecvData ec n) \/ (exists ec, m = NotifySendComplete ec) \/
  (exists b, m = DoSendFromQueue b) \/ m = Connect \/ (exists b, m = Send b) -> respects silent_fact m.
Proof.
  intros [(ec & n & ->)|[(ec & ->)|[(b & ->)|[->|(b & ->)]]]]; run_data; repeat split; cbn; auto; discriminate.
Qed.

Lemma recv_data m :
  (exists ec, m = NotifySendComplete ec) \/ (exists ec n, ec <> 0 /\ m = NotifyRecvData ec n) \/
  (exists b, m = DoSendFromQueue b) \/ m = Connect \/ (exists b, m = Send b) -> respects recv_fact m.
Proof.
  intros [(ec & ->)|[(ec & n & Hec & ->)|[(b & ->)|[->|(b & ->)]]]];
    try (apply Z.eqb_neq in Hec; unfold NotifyRecvData; rewrite Hec; cbn [negb]; run_block); try run_data;
    (split; [reflexivity|]); (split; [intros Hd Hi | intros k Hi]); cbn in *;
    repeat match goal with H : _ \/ _ |- _ => destruct H as [H|H]; try discriminate H end;
    try contradiction; discriminate.
Qed.

(** Every step but [DisConnect] leaves the delegate as it is and is silent
    without one. *)
Lemma step_silent w w' :
  step w w' -> w' = exec DisConnect w \/ exists o, silent_fact (conn w) o (conn w') /\ trace w' = trace w ++ o.
Proof.
  intros H.
  assert (forall m v, conn v = conn w -> trace v = trace w -> respects silent_fact m ->
            exists o, silent_fact (conn w) o (conn (exec m v)) /\ trace (exec m v) = trace w ++ o) as Hm.
  { intros m v Hc Ht Hr. destruct (m (conn v)) as [s o] eqn:E. rewrite (exec_eq _ _ _ _ E). cbn.
    exists o. rewrite Ht, <- Hc. split; [exact (Hr _ _ _ E) | reflexivity]. }
  destruct H as [| |b|t ts Ht|op pre suf ec data Hp|pre suf _ Hp]; auto; right; apply Hm; try reflexivity.
  - apply silent_data. eauto 10.
  - apply silent_data. eauto 10.
  - destruct t; try (apply respects_task; [apply silent_transition | apply silent_facts | reflexivity]).
    cbn [run_task]. apply silent_data. eauto 10.
  - destruct op; try (apply respects_complete; [apply silent_transition | apply silent_facts | reflexivity]);
      cbn [complete]; apply silent_data; eauto 10.
  - apply (respects_skip silent_fact).
Qed.

Lemma disconnect_eq s :
  DisConnect s = if stoped_ s then (s, []) else (set_delegate false (set_stoped true s), [PostRunable TaskHandleCleanUp]).
Proof. destruct s as [cl r de [|] cu sb dr rs sc nc]; reflexivity. Qed.

(** The delegate is there until [DisConnect]. *)
Lemma reached_delegate c r w : reached c r w -> delegate_ (conn w) = negb (stoped_ (conn w)).
Proof.
  induction 1 as [|w w' _ IH Hs]; [reflexivity|]. destruct (step_silent _ _ Hs) as [->|(o & (-> & -> & _) & _)]; [|exact IH].
  erewrite exec_eq by apply surjective_pairing. rewrite disconnect_eq. destruct (stoped_ (conn w)) eqn:E; cbn; [|reflexivity].
  rewrite E. exact IH.
Qed.

(** After [DisConnect] the delegate is not called any more. *)
Lemma stopped_silent w w' :
  leads w w' -> stoped_ (conn w) = true -> delegate_ (conn w) = false ->
  filter is_callback (trace w') = filter is_callback (trace w).
Proof.
  intros H Hs Hd.
  assert (stoped_ (conn w') = true /\ delegate_ (conn w') = false /\
          filter is_callback (trace w') = filter is_callback (trace w)) as (_ & _ & He); [|exact He].
  induction H as [|w1 w2 _ (H1 & H2 & H3) Hst]; [auto|].
  destruct (step_silent _ _ Hst) as [->|(o & (Hd2 & Hs2 & Hc) & Ht)].
  - erewrite exec_eq by apply surjective_pairing. rewrite disconnect_eq, H1. cbn. rewrite app_nil_r. auto.
  - rewrite Hd2, Hs2, Ht, filter_app, H3. specialize (Hc H2). repeat split; auto.
    replace (filter is_callback o) with (@nil net_call); [apply app_nil_r|]. symmetry.
    clear -Hc. induction o as [|x o IH]; [reflexivity|]. cbn in *. apply orb_false_iff in Hc as [-> Hc]. auto.
Qed.

(** ** Data comes after the connection *)

Record recv_inv (w : net_world) : Prop := {
  rv_pending : In OpRecv (pending w) -> delegate_ (conn w) = true -> In (OnConnect 0) (trace w);
  rv_trace t1 n t2 : trace w = t1 ++ OnRecvData n :: t2 -> In (OnConnect 0) t1
}.

Lemma in_started op o : In op (started_ops o) <-> In (Start op) o.
Proof.
  unfold started_ops. rewrite in_flat_map. split.
  - intros ([] & Hi & Ho); cbn in Ho; try contradiction. destruct Ho as [<-|[]]. exact Hi.
  - intros H. exists (Start op). cbn. auto.
Qed.

Lemma recv_trace_app t o :
  (forall n, ~ In (OnRecvData n) o) ->
  (forall t1 n t2, t = t1 ++ OnRecvData n :: t2 -> In (OnConnect 0) t1) ->
  forall t1 n t2, t ++ o = t1 ++ OnRecvData n :: t2 -> In (OnConnect 0) t1.
Proof.
  intros Ho Ht t1 n t2 He. apply app_eq_app in He as (l & [[-> Hl]|[-> ->]]).
  - destruct l as [|c l].
    + cbn in Hl. destruct (Ho n). rewrite <- Hl. left. reflexivity.
    + injection Hl as <- ->. eapply Ht. reflexivity.
  - destruct (Ho n). apply in_app_iff. right. left. reflexivity.
Qed.

Lemma exec_recv_fact m v w :
  respects recv_fact m -> conn v = conn w -> trace v = trace w -> incl (pending v) (pending w) ->
  recv_inv w -> recv_inv (exec m v).
Proof.
  intros Hm Hc Ht Hp [Hi Htr]. destruct (m (conn v)) as [s o] eqn:E. rewrite (exec_eq _ _ _ _ E).
  apply Hm in E as (Hd & Hr & Hn). rewrite Hc, Ht in *. split; cbn.
  - rewrite Hd. intros Hin Hde. apply in_app_iff. apply in_app_iff in Hin as [Hin|Hin]; [auto|].
    right. apply Hr; [exact Hde | apply in_started, Hin].
  - apply recv_trace_app; assumption.
Qed.

Lemma pending_incl {A} (pre suf : list A) op l : l = pre ++ op :: suf -> incl (pre ++ suf) l.
Proof. intros -> x Hx. apply in_app_iff in Hx. apply in_app_iff. cbn. tauto. Qed.

Lemma recv_ok_eq n s :
  NotifyRecvData 0 n s = (s, (if delegate_ s then [OnRecvData n] else []) ++ [Start OpRecv]).
Proof. destruct s as [cl r [|] st cu sb dr rs sc nc]; reflexivity. Qed.

Lemma step_recv_inv w w' : step w w' -> recv_inv w -> recv_inv w'.
Proof.
  intros H Hi. destruct H as [| |b|t ts Ht|op pre suf ec data Hp|pre suf _ Hp].
  - apply (exec_recv_fact _ w w); auto using incl_refl. apply recv_data. eauto 10.
  - erewrite exec_eq by apply surjective_pairing. rewrite disconnect_eq. destruct Hi as [H1 H2].
    destruct (stoped_ (conn w)); cbn; split; cbn; rewrite ?app_nil_r; auto; [discriminate|].
    apply recv_trace_app; [|exact H2]. intros n [Hn|[]]. discriminate.
  - apply (exec_recv_fact _ _ w); cbn; auto using incl_refl. apply recv_data. eauto 10.
  - apply (exec_recv_fact _ _ w); cbn; auto using incl_refl.
    destruct t; try (apply respects_task; [apply recv_transition | apply recv_facts | reflexivity]).
    cbn [run_task]. apply recv_data. eauto 10.
  - apply pending_incl in Hp as Hsub. destruct op; try (apply (exec_recv_fact _ _ w); auto;
      [apply respects_complete; [apply recv_transition | apply recv_facts | reflexivity]]).
    + destruct (Z.eqb_spec ec 0) as [->|Hec].
      2:{ cbn [complete]. apply (exec_recv_fact _ _ w); auto. apply recv_data. right. left. eauto. }
      cbn [complete]. erewrite exec_eq by apply recv_ok_eq. cbn. destruct Hi as [H1 H2].
      assert (In OpRecv (pending w)) as Hin by (rewrite Hp; apply in_elt).
      split; cbn.
      * intros _ Hd. apply in_app_iff. auto.
      * intros t1 n t2 He. destruct (delegate_ (conn w)) eqn:Hd; cbn in He.
        -- specialize (H1 Hin eq_refl). change [OnRecvData (zlen data); Start OpRecv] with
             ([OnRecvData (zlen data)] ++ [Start OpRecv]) in He. rewrite app_assoc in He.
           revert t1 n t2 He. apply recv_trace_app; [intros n [Hn|[]]; discriminate|].
           intros t1 n t2 He. apply app_eq_app in He as (l & [[Hl1 Hl2]|[-> _]]); [|apply in_app_iff; auto].
           destruct l as [|c l]; [rewrite app_nil_r in Hl1; rewrite <- Hl1; exact H1|].
           injection Hl2 as <- _. eapply H2, Hl1.
        -- revert t1 n t2 He. apply recv_trace_app; [intros n [Hn|[]]; discriminate | exact H2].
    + cbn [complete]. apply (exec_recv_fact _ _ w); auto. apply recv_data. eauto.
  - apply pending_incl in Hp. apply (exec_recv_fact _ _ w); auto. apply (respects_skip recv_fact).
Qed.

Lemma reached_recv_inv c r w : reached c r w -> recv_inv w.
Proof.
  induction 1 as [|w w' _ IH Hs]; [|exact (step_recv_inv _ _ Hs IH)].
  split; cbn; [contradiction|]. intros [|] ? ? H; discriminate.
Qed.
End Order.

(** ** Properties *)

(** The writes are those asked for, up to the end of the queue. *)
Lemma writes_prefix w : send_inv w -> exists rest, started_writes w ++ rest = requested w.
Proof.
  intros [Hreq [rest H1 H2 H3|b rest H1 H2 H3]].
  - exists (rest ++ send_tasks (tasks w)). rewrite Hreq, !app_assoc, H3. reflexivity.
  - exists (rest ++ send_tasks (tasks w)). rewrite Hreq, H2, H3, <- app_assoc. reflexivity.
Qed.

(** All is written when nothing is under way. *)
Lemma writes_done w :
  send_inv w -> already_clean_up (conn w) = false -> in_flight w = [] -> tasks w = [] ->
  started_writes w = requested w /\ confirmed w = requested w.
Proof.
  intros [Hreq [rest H1 H2 H3|b rest H1 H2 H3]] Hc Hf Ht; [|rewrite H1 in Hf; discriminate].
  destruct (H2 Hc) as [Hb Hs]. rewrite Hreq, Hb, Hs, Ht. cbn. rewrite app_nil_r. auto.
Qed.

(** C32: Sending.  Whatever the users of a connection and the network do: the
    writes started are, in order, the buffers given to [Send], with none left
    out; at most one write is in progress, of the buffer at the head of the
    queue, so that [pop_front] never meets an empty queue; and when nothing is
    in progress or posted, every buffer has been written, unless the connection
    was given up. *)
Theorem send_queue_order is_v4 is_v6 char_signed sni c r w :
  net_reachable is_v4 is_v6 char_signed sni c r w ->
  (exists rest, started_writes w ++ rest = requested w) /\
  (length (in_flight w) <= 1)%nat /\
  (forall b, In b (in_flight w) -> exists rest, send_buffers (conn w) = b :: rest) /\
  (already_clean_up (conn w) = false -> in_flight w = [] -> tasks w = [] ->
   started_writes w = requested w /\ confirmed w = requested w).
Proof.
  intros Hr. pose proof (reached_send_inv _ _ _ _ _ _ _ Hr) as Hi.
  split; [exact (writes_prefix w Hi)|]. pose proof (writes_done w Hi) as Hd. destruct Hi as [_ Hq].
  repeat split; [| |apply Hd; assumption..]; destruct Hq as [rest H1 H2 H3|b rest H1 H2 H3]; rewrite H1; cbn; try lia.
  intros b' [<-|[]]. eauto.
Qed.

(** A call of [OnRecvData] comes after one of [OnConnect] with success. *)
Definition data_after_success (t : list net_call) : Prop :=
  forall t1 n t2, t = t1 ++ OnRecvData n :: t2 -> In (OnConnect 0) t1.

(** C33: Callbacks.  A connection is shut down at most once.  Data is
    handed on only after the success of the connection has been reported.  With
    the class that fits the request no handshake the class lacks is called.
    After [DisConnect] there are no callbacks, whatever happens then. *)
Theorem callback_protocol is_v4 is_v6 char_signed sni c r w :
  net_reachable is_v4 is_v6 char_signed sni c r w ->
  (closes (trace w) <= 1)%nat /\
  data_after_success (trace w) /\
  (class_fits (new_connection c r) = true -> ~ In LogFatal (trace w)) /\
  (stoped_ (conn w) = true -> forall w', net_runs is_v4 is_v6 char_signed sni w w' ->
     filter is_callback (trace w') = filter is_callback (trace w)).
Proof.
  intros Hr. split; [rewrite (closed_once _ _ _ _ _ _ _ Hr); destruct (already_clean_up _); cbn; lia|].
  split; [exact (rv_trace _ (reached_recv_inv _ _ _ _ _ _ _ Hr))|].
  split; [apply (no_fatal _ _ _ _ _ _ _ Hr)|]. intros Hs w' Hw.
  eapply stopped_silent; [exact Hw | exact Hs|]. rewrite (reached_delegate _ _ _ _ _ _ _ Hr), Hs. reflexivity.
Qed.

(** ** A run *)

Definition plain_request : NetConnectionRequest :=
  mk_net_request (bytes "example.org") (Some 80) kNetTypeTcp (bytes "/") [] 0 [] [].

Definition no_literal (s : list Z) : bool := false.

(** One step of a run given as a list of events. *)
Inductive net_event :=
| UserConnect | UserDisConnect | UserSend (b : list Z) | PumpTask | Completion (i : nat) (ec : Z) (data : list Z).

Definition net_do (e : net_event) (w : net_world) : net_world :=
  match e with
  | UserConnect => exec Connect w
  | UserDisConnect => exec DisConnect w
  | UserSend b => exec (Send b) (request_send b w)
  | PumpTask =>
      match tasks w with
      | t :: ts => exec (run_task t) (mk_net_world (conn w) ts (pending w) (trace w) (requested w) (confirmed w))
      | [] => w
      end
  | Completion i ec data =>
      match nth_error (pending w) i with
      | Some op =>
          exec (complete no_literal no_literal true None op ec data)
            (confirm op ec (mk_net_world (conn w) (tasks w) (firstn i (pending w) ++ skipn (S i) (pending w))
               (trace w) (requested w) (confirmed w)))
      | None => w
      end
  end.

Definition net_play (es : list net_event) (w : net_world) : net_world := fold_left (fun w e => net_do e w) es w.

Lemma net_play_runs es w : net_runs no_literal no_literal true None w (net_play es w).
Proof.
  unfold net_play. rewrite <- fold_left_rev_right. induction (rev es) as [|e l IH]; cbn; [constructor|].
  set (v := fold_right (fun y x => net_do y x) w l) in *. destruct e as [| |b| |i ec data]; cbn [net_do].
  - eapply net_more; [exact IH | constructor].
  - eapply net_more; [exact IH | constructor].
  - eapply net_more; [exact IH | constructor].
  - destruct (tasks v) as [|t ts] eqn:E; [exact IH|]. eapply net_more; [exact IH | apply (net_task _ _ _ _ _ t ts E)].
  - destruct (nth_error (pending v) i) as [op|] eqn:E; [|exact IH].
    eapply net_more; [exact IH|]. apply net_complete. apply nth_error_split in E as (l1 & l2 & E & <-).
    rewrite E, firstn_app, firstn_all, Nat.sub_diag, skipn_app, skipn_all2 by lia.
    replace (S (length l1) - length l1)%nat with 1%nat by lia. cbn. rewrite app_nil_r. reflexivity.
Qed.

(** Connected, two buffers sent, one of them confirmed, ten bytes received, and
    then disconnected. *)
Definition sample_run : list net_event :=
  [UserConnect; PumpTask; PumpTask; Completion 0 0 []; Completion 0 0 [];
   UserSend [1]; UserSend [2]; PumpTask; PumpTask; PumpTask; Completion 1 0 []; Completion 0 0 (repeat 0 10); UserDisConnect].

Definition sample_world : net_world := net_play sample_run (new_net_world TcpConnectionImpl plain_request).

Lemma sample_reached : net_reachable no_literal no_literal true None TcpConnectionImpl plain_request sample_world.
Proof. apply net_play_runs. Qed.

Lemma send_queue_order_witness :
  (started_writes sample_world = [[1]; [2]] /\ confirmed sample_world = [[1]]) /\
  (exists rest, started_writes sample_world ++ rest = requested sample_world) /\
  (length (in_flight sample_world) <= 1)%nat /\
  (forall b, In b (in_flight sample_world) -> exists rest, send_buffers (conn sample_world) = b :: rest) /\
  (already_clean_up (conn sample_world) = false -> in_flight sample_world = [] -> tasks sample_world = [] ->
   started_writes sample_world = requested sample_world /\ confirmed sample_world = requested sample_world).
Proof.
  split; [split; reflexivity|]. exact (send_queue_order _ _ _ _ _ _ sample_world sample_reached).
Defined.

Lemma callback_protocol_witness :
  (filter is_callback (trace sample_world) = [OnConnect 0; OnRecvData 10] /\ stoped_ (conn sample_world) = true) /\
  (closes (trace sample_world) <= 1)%nat /\
  data_after_success (trace sample_world) /\
  (class_fits (new_connection TcpConnectionImpl plain_request) = true -> ~ In LogFatal (trace sample_world)) /\
  (stoped_ (conn sample_world) = true -> forall w', net_runs no_literal no_literal true None sample_world w' ->
     filter is_callback (trace w') = filter is_callback (trace sample_world)).
Proof.
  split; [split; reflexivity|]. exact (callback_protocol _ _ _ _ _ _ sample_world sample_reached).
Defined.
