(* ===== verification/NetConnectionProgress.v ===== *)
(** * A connection is reported

    Without a proxy, a connection that was asked for is on its way until its
    success or failure has been reported. *)

From Stdlib Require Import String ZArith List Bool Lia.
From S2P Require Import Prelude Cpp NetClient Socks5 NetConnection NetConnectionSpec NetConnectionOrder.
Import ListNotations.
Local Open Scope Z_scope.
Local Open Scope handler_scope.

(** ** Definitions *)

Definition is_report (c : net_call) : bool :=
  match c with OnConnect _ | OnDisconnect _ => true | _ => false end.

Definition reports (o : list net_call) : Prop := existsb is_report o = true.

(** Resolver [i] will give its result to the connection. *)
Definition live (s : NetConnectionImpl) (i : nat) : Prop :=
  exists d, nth_error (resolvers s) i = Some d /\ dr_delegate d = true.

Inductive way (s : NetConnectionImpl) (ts : list task) (ps : list async_op) : Prop :=
| way_asked : In TaskDoDnsResolve ts -> way s ts ps
| way_posted i : live s i -> In (TaskDoResolver i) ts -> way s ts ps
| way_resolving i : live s i -> In (OpResolve i) ps -> way s ts ps
| way_connecting : In OpConnect ps -> way s ts ps
| way_tls : In OpTlsHandshake ps -> way s ts ps
| way_websocket : In OpWebsocketHandshake ps -> way s ts ps.

Definition on_the_way (w : net_world) : Prop := way (conn w) (tasks w) (pending w).

(** [Connect] was called. *)
Definition asked (w : net_world) : Prop := In TaskDoDnsResolve (posted_tasks (trace w)).

(** A method either reports or leaves the live resolvers alive. *)
Definition way_fact (s : NetConnectionImpl) (o : list net_call) (s' : NetConnectionImpl) : Prop :=
  delegate_ s' = delegate_ s /\
  (delegate_ s = true -> reports o \/ forall i, live s i -> live s' i) /\
  ~ In TaskDoDnsResolve (posted_tasks o) /\ ~ In TaskHandleCleanUp (posted_tasks o).

(** A method takes the connection to its next stage. *)
Definition advances (o : list net_call) : Prop :=
  reports o \/ In (Start OpConnect) o \/ In (Start OpTlsHandshake) o \/ In (Start OpWebsocketHandshake) o.

Lemma reports_app o1 o2 : reports (o1 ++ o2) <-> reports o1 \/ reports o2.
Proof. unfold reports. rewrite existsb_app. apply orb_true_iff. Qed.

#[export] Instance way_transition : Transition way_fact.
Proof.
  split; [repeat split; auto|]. intros s o1 s1 o2 s2 (H1 & H2 & H3 & H4) (H5 & H6 & H7 & H8).
  split; [congruence|]. split; [|rewrite posted_tasks_app, !in_app_iff; tauto].
  intros Hd. rewrite reports_app. destruct (H2 Hd) as [H|Hl]; [auto|]. rewrite H1 in H6.
  destruct (H6 Hd) as [H|Hl']; auto.
Qed.

(** ** Methods *)

Lemma live_app s l i : live s i -> live (set_resolvers (resolvers s ++ l) s) i.
Proof.
  intros (d & Hd & Hl). exists d. cbn. split; [|exact Hl]. rewrite nth_error_app1; [exact Hd|].
  apply nth_error_Some. congruence.
Qed.

Definition quiet_fact (s : NetConnectionImpl) (o : list net_call) (s' : NetConnectionImpl) : Prop :=
  delegate_ s' = delegate_ s /\ ~ In TaskDoDnsResolve (posted_tasks o) /\ ~ In TaskHandleCleanUp (posted_tasks o).

#[export] Instance quiet_transition : Transition quiet_fact.
Proof.
  split; [repeat split; auto|]. intros s o1 s1 o2 s2 (H1 & H2 & H3) (H4 & H5 & H6).
  split; [congruence|]. rewrite posted_tasks_app, !in_app_iff. tauto.
Qed.

Ltac no_posts :=
  cbn; split; let h := fresh "Hpost" in intros h; repeat (destruct h as [h|h]; try discriminate h); contradiction h.

Lemma quiet_clean : respects quiet_fact HandleCleanUp.
Proof. run_block; (split; [reflexivity | no_posts]). Qed.

Definition must_report (m : net_method) : Prop :=
  forall s s' o, m s = (s', o) -> delegate_ s = true -> reports o.

Lemma status_reports c : must_report (HandleConnectStatus c).
Proof. intros s s' o H Hd. unfold HandleConnectStatus, reading, emit in H. rewrite Hd in H. injection H as <- <-. reflexivity. Qed.

Lemma disconnect_reports c : must_report (NotifyDisconnect c).
Proof. intros s s' o H Hd. unfold NotifyDisconnect, reading, emit in H. rewrite Hd in H. injection H as <- <-. reflexivity. Qed.

Lemma quiet_status c : respects quiet_fact (HandleConnectStatus c).
Proof. run_block; (split; [reflexivity | no_posts]). Qed.

Lemma quiet_notify c : respects quiet_fact (NotifyDisconnect c).
Proof. run_block; (split; [reflexivity | no_posts]). Qed.

Lemma must_report_l m1 m2 : must_report m1 -> must_report (m1 ;; m2).
Proof.
  intros H1 s s' o H Hd. unfold andthen in H. destruct (m1 s) as [s1 o1] eqn:E1. destruct (m2 s1) as [s2 o2].
  injection H as <- <-. apply reports_app. left. exact (H1 _ _ _ E1 Hd).
Qed.

Lemma must_report_r m1 m2 : respects quiet_fact m1 -> must_report m2 -> must_report (m1 ;; m2).
Proof.
  intros Hq H2 s s' o H Hd. unfold andthen in H. destruct (m1 s) as [s1 o1] eqn:E1. destruct (m2 s1) as [s2 o2] eqn:E2.
  injection H as <- <-. apply reports_app. right. apply (H2 _ _ _ E2). apply Hq in E1 as [-> _]. exact Hd.
Qed.

(** A quiet method that reports, or keeps the resolvers. *)
Lemma way_of_report m : respects quiet_fact m -> must_report m -> respects way_fact m.
Proof. intros Hq Hr s s' o H. destruct (Hq _ _ _ H) as (H1 & H2 & H3). split; [exact H1|]. split; [|auto]. eauto. Qed.

Lemma way_of_keep m :
  respects (fun s o s' => quiet_fact s o s' /\ resolvers s' = resolvers s) m -> respects way_fact m.
Proof.
  intros Hm s s' o H. destruct (Hm _ _ _ H) as [(H1 & H2 & H3) H4]. split; [exact H1|]. split; [|auto].
  intros _. right. unfold live. rewrite H4. auto.
Qed.

Create HintDb way.
#[local] Hint Resolve way_transition quiet_transition quiet_clean quiet_status quiet_notify status_reports disconnect_reports
  must_report_l must_report_r respects_andthen : way.

Lemma way_fail_connect c : respects way_fact (HandleCleanUp ;; HandleConnectStatus c).
Proof. apply way_of_report; auto with way. Qed.

Lemma way_fail_handshake c : respects way_fact (HandleConnectStatus c ;; HandleCleanUp).
Proof. apply way_of_report; auto with way. Qed.

Lemma way_fail_transfer c : respects way_fact (NotifyDisconnect c ;; HandleCleanUp).
Proof. apply way_of_report; auto with way. Qed.

Ltac keep_run := apply way_of_keep; run_block; (split; [split; [reflexivity | no_posts] | reflexivity]).

Lemma way_other : respects way_fact (DoOtherHandshake 0).
Proof. keep_run. Qed.

Lemma way_socks5_handshake st : respects way_fact (OnSocks5Handshake_ st).
Proof.
  unfold OnSocks5Handshake_. apply respects_andthen; [apply way_transition| |].
  - destruct (Z.eqb_spec st 0) as [->|_]; cbn [negb]; [apply way_other | apply way_fail_connect].
  - keep_run.
Qed.

Lemma way_socks5_calls n o : respects way_fact (socks5_calls n o).
Proof.
  induction o as [|[|d|st] o IH]; cbn [socks5_calls].
  - apply respects_skip, way_transition.
  - apply respects_andthen; [apply way_transition | keep_run | exact IH].
  - apply respects_andthen; [apply way_transition | keep_run | exact IH].
  - apply respects_andthen; [apply way_transition | apply way_socks5_handshake | exact IH].
Qed.

Lemma way_with_client n m : respects way_fact (with_client n m).
Proof.
  apply respects_reading. intros s. destruct (socks5_client_ s) as [[k c]|]; [|apply respects_skip, way_transition].
  apply respects_if; [|apply respects_skip, way_transition]. destruct (m c) as [c' o].
  apply respects_andthen; [apply way_transition | keep_run | apply way_socks5_calls].
Qed.

Section Way.
Variables (is_v4 is_v6 : list Z -> bool) (char_signed : bool) (set_sni_error : option Z).

Lemma way_recv ec n : respects way_fact (NotifyRecvData ec n).
Proof.
  unfold NotifyRecvData, HandleRecvData. destruct (ec =? 0); cbn [negb]; [keep_run | apply way_fail_transfer].
Qed.

Lemma way_sent ec : respects way_fact (NotifySendComplete ec).
Proof.
  unfold NotifySendComplete, DoSendData. destruct (ec =? 0); cbn [negb]; [keep_run | apply way_fail_transfer].
Qed.

Lemma way_queue b : respects way_fact (DoSendFromQueue b).
Proof. unfold DoSendFromQueue, DoSendData. keep_run. Qed.

Lemma way_send b : respects way_fact (Send b).
Proof. unfold Send. keep_run. Qed.

(** ** Stages *)

Lemma advance_other s s' o :
  class_fits s = true -> delegate_ s = true -> DoOtherHandshake 0 s = (s', o) -> advances o.
Proof.
  intros Hc Hd. revert Hc Hd. destruct s as [cl r de st cu sb dr rs sc nc]. unfold class_fits. cbn. intros Hc ->.
  unfold DoOtherHandshake, DoTlsHandshake, DoWebsocketHandshake, HandleConnectStatus, StartRecvDate, DoRecvData,
    andthen, reading, emit. autounfold with overrides. cbn.
  destruct (nr_net_type r), cl; try discriminate Hc; intros H; injection H as <- <-; unfold advances, reports; cbn; auto 10.
Qed.

Lemma advance_connect ec s s' o :
  class_fits s = true -> delegate_ s = true -> nr_proxy_host (request_ s) = [] ->
  NotifyConnectComplete is_v4 is_v6 char_signed ec s = (s', o) -> advances o.
Proof.
  intros Hc Hd Hp. unfold NotifyConnectComplete. destruct (Z.eqb_spec ec 0) as [->|_].
  - unfold reading. rewrite Hp. apply advance_other; assumption.
  - intros H. left. eapply must_report_r; [apply quiet_clean | apply status_reports | exact H | exact Hd].
Qed.

Lemma advance_tls ec s s' o :
  class_fits s = true -> delegate_ s = true -> NotifyTlsHandshakeComplete ec s = (s', o) -> advances o.
Proof.
  intros Hc Hd. unfold NotifyTlsHandshakeComplete. destruct (Z.eqb_spec ec 0) as [->|_].
  - revert Hc Hd. destruct s as [cl r de st cu sb dr rs sc nc]. unfold class_fits. cbn. intros Hc ->.
    unfold DoWebsocketHandshake, HandleConnectStatus, StartRecvDate, DoRecvData, andthen, reading, emit.
    autounfold with overrides. cbn.
    destruct (nr_net_type r), cl; try discriminate Hc; intros H; injection H as <- <-; unfold advances, reports; cbn; auto 10.
  - intros H. left. eapply must_report_l; [apply status_reports | exact H | exact Hd].
Qed.

Lemma advance_websocket ec s s' o :
  delegate_ s = true -> NotifyWebsocketHandshakeComplte ec s = (s', o) -> advances o.
Proof. intros Hd H. left. eapply must_report_l; [apply status_reports | exact H | exact Hd]. Qed.

Lemma quiet_facts : block_facts quiet_fact.
Proof. run_facts; (split; [reflexivity | no_posts]). Qed.

Lemma advances_l o1 o2 : advances o1 -> advances (o1 ++ o2).
Proof. unfold advances. rewrite reports_app, !in_app_iff. tauto. Qed.

Lemma advances_r o1 o2 : advances o2 -> advances (o1 ++ o2).
Proof. unfold advances. rewrite reports_app, !in_app_iff. tauto. Qed.

Definition must_advance (m : net_method) : Prop :=
  forall s s' o, m s = (s', o) -> class_fits s = true -> delegate_ s = true -> nr_proxy_host (request_ s) = [] -> advances o.

Lemma must_advance_l m1 m2 : must_advance m1 -> must_advance (m1 ;; m2).
Proof.
  intros H1 s s' o H Hc Hd Hp. unfold andthen in H. destruct (m1 s) as [s1 o1] eqn:E1. destruct (m2 s1) as [s2 o2].
  injection H as <- <-. apply advances_l. exact (H1 _ _ _ E1 Hc Hd Hp).
Qed.

Lemma must_advance_r m1 m2 :
  respects quiet_fact m1 -> respects fatal_fact m1 -> must_advance m2 -> must_advance (m1 ;; m2).
Proof.
  intros Hq Hf H2 s s' o H Hc Hd Hp. unfold andthen in H. destruct (m1 s) as [s1 o1] eqn:E1.
  destruct (m2 s1) as [s2 o2] eqn:E2. injection H as <- <-. apply advances_r.
  apply Hq in E1 as Eq. destruct Eq as [Ed _]. apply Hf in E1 as (Ec & Er & _).
  apply (H2 _ _ _ E2); [unfold class_fits in *; rewrite Ec, Er; exact Hc | congruence | congruence].
Qed.

(** The cancelling of the resolver at the head of [OnDnsResolvered]. *)
Lemma cancel_current R `{!Transition R} :
  block_facts R ->
  respects R (members s => match dns_resolver_ s with
                           | Some i => DnsResolver_Cancel i ;; modify (set_dns None)
                           | None => skip
                           end).
Proof.
  intros B. apply respects_reading. intros s. destruct (dns_resolver_ s); [|apply respects_skip; assumption].
  apply respects_andthen; [assumption | apply respects_cancel; assumption|].
  apply respects_modify. intros s'. apply (bf_dns _ B).
Qed.

Lemma advance_resolved code : must_advance (OnDnsResolvered is_v4 is_v6 char_signed set_sni_error code).
Proof.
  unfold OnDnsResolvered. apply must_advance_r.
  - apply cancel_current; [apply quiet_transition | apply quiet_facts].
  - apply cancel_current; [apply fatal_transition | apply fatal_facts].
  - intros s s' o H Hc Hd Hp. destruct (Z.eqb_spec code 0) as [->|Hcode]; cbn [negb] in H.
    + unfold andthen, DoConnect in H. autounfold with overrides in H. unfold reading, emit in H. cbn in H.
      destruct (cls s) eqn:Ec; try (injection H as <- <-; unfold advances; cbn; tauto).
      destruct set_sni_error as [ec|]; [|injection H as <- <-; unfold advances; cbn; tauto].
      destruct (NotifyConnectComplete _ _ _ ec s) as [s2 o2] eqn:E. injection H as <- <-.
      apply (advances_r [ExpiresAfter 30]). exact (advance_connect _ _ _ _ Hc Hd Hp E).
    + left. eapply must_report_l; [apply status_reports | exact H | exact Hd].
Qed.

Lemma resolve_result i code s s' o :
  DnsResolver_NotifyResult is_v4 is_v6 char_signed set_sni_error i code s = (s', o) ->
  class_fits s = true -> delegate_ s = true -> nr_proxy_host (request_ s) = [] ->
  advances o \/ (~ live s i /\ s' = s).
Proof.
  intros H Hc Hd Hp. unfold DnsResolver_NotifyResult in H.
  destruct (nth_error (resolvers s) i) as [d|] eqn:En; [destruct (dr_delegate d) eqn:Ed|].
  - left. revert H Hc Hd Hp. revert s' o.
    enough (forall s' o, (OnDnsResolvered is_v4 is_v6 char_signed set_sni_error code;; emit (ResolverCancel i)) s = (s', o) ->
      class_fits s = true -> delegate_ s = true -> nr_proxy_host (request_ s) = [] -> advances o) as Hx.
    { intros s' o H. apply (Hx s' o). rewrite <- H. unfold andthen, reading. rewrite En, Ed. reflexivity. }
    intros s' o H. exact (must_advance_l _ _ (advance_resolved code) s s' o H).
  - right. unfold andthen, reading in H. rewrite En, Ed in H. injection H as <- <-.
    split; [|reflexivity]. intros (d' & Hn & Hl). congruence.
  - right. unfold andthen, reading in H. rewrite En in H. injection H as <- <-.
    split; [|reflexivity]. intros (d' & Hn & Hl). congruence.
Qed.

Lemma resolve_starts s s' o :
  DoDnsResolve s = (s', o) ->
  o = [PostRunable (TaskDoResolver (length (resolvers s)))] /\ live s' (length (resolvers s)) /\
  delegate_ s' = delegate_ s.
Proof.
  unfold DoDnsResolve, DnsResolver_Resolver, andthen, reading, modify, emit, skip. cbn.
  rewrite nth_error_app2, Nat.sub_diag by lia. cbn.
  destruct (is_nil _); cbn; intros H; injection H as <- <-; (split; [reflexivity|]); (split; [|reflexivity]);
    eexists; cbn; (rewrite nth_error_app2, Nat.sub_diag by lia; split; reflexivity).
Qed.

(** ** The invariant *)

Record progress_inv (w : net_world) : Prop := {
  pg_cleanup : In TaskHandleCleanUp (tasks w) -> delegate_ (conn w) = false;
  pg_way : delegate_ (conn w) = true -> asked w -> reports (trace w) \/ on_the_way w
}.

(** Something stays on its way while the methods in between neither report nor
    kill a resolver, and tasks and operations are only added. *)
Lemma way_mono s ts ps s' ts' ps' :
  (forall i, live s i -> live s' i) -> incl ts ts' -> incl ps ps' -> way s ts ps -> way s' ts' ps'.
Proof.
  intros Hl Ht Hp [H|i Hi H|i Hi H|H|H|H];
    [apply way_asked | apply (way_posted _ _ _ i) | apply (way_resolving _ _ _ i) | apply way_connecting
    | apply way_tls | apply way_websocket]; auto.
Qed.

Lemma advances_way w s o :
  advances o ->
  reports (trace w ++ o) \/ way s (tasks w ++ posted_tasks o) (pending w ++ started_ops o).
Proof.
  intros [H|[H|[H|H]]]; [left; apply reports_app; auto | right..].
  - apply way_connecting, in_app_iff. right. apply in_started, H.
  - apply way_tls, in_app_iff. right. apply in_started, H.
  - apply way_websocket, in_app_iff. right. apply in_started, H.
Qed.

(** A step that takes away what [v] lacks, and then runs a method with
    [way_fact]. *)
Lemma exec_way_fact m v w :
  respects way_fact m -> conn v = conn w -> trace v = trace w -> incl (tasks v) (tasks w) ->
  (on_the_way w -> on_the_way v) -> progress_inv w -> progress_inv (exec m v).
Proof.
  intros Hm Hc Ht Hs Hw [H1 H2]. destruct (m (conn v)) as [s o] eqn:E. rewrite (exec_eq _ _ _ _ E).
  apply Hm in E as (Ed & El & Eq1 & Eq2). rewrite Hc, Ht in *. split; cbn; rewrite Ed.
  - rewrite in_app_iff. intros [Hi|Hi]; [auto | contradiction].
  - intros Hd. unfold asked, on_the_way in *. cbn. rewrite posted_tasks_app, in_app_iff. intros [Ha|Ha]; [|contradiction].
    rewrite reports_app. destruct (El Hd) as [Hr|Hl]; [auto|]. destruct (H2 Hd Ha) as [Hr|Hy]; [auto|].
    right. eapply way_mono; [exact Hl | apply incl_appl, incl_refl | apply incl_appl, incl_refl |].
    rewrite <- Hc. exact (Hw Hy).
Qed.

(** A step that runs a method which advances. *)
Lemma exec_advances m v w :
  respects quiet_fact m -> conn v = conn w -> trace v = trace w -> incl (tasks v) (tasks w) ->
  (forall s o, m (conn w) = (s, o) -> delegate_ (conn w) = true -> advances o) -> progress_inv w -> progress_inv (exec m v).
Proof.
  intros Hm Hc Ht Hs Ha [H1 H2]. destruct (m (conn v)) as [s o] eqn:E. rewrite (exec_eq _ _ _ _ E).
  rewrite Hc in E. pose proof (Ha _ _ E) as Hadv. apply Hm in E as (Ed & Eq1 & Eq2). split; cbn; rewrite Ed.
  - rewrite in_app_iff. intros [Hi|Hi]; [auto | contradiction].
  - intros Hd _. unfold on_the_way. cbn. apply advances_way. auto.
Qed.

Abbreviation step := (net_step is_v4 is_v6 char_signed set_sni_error).
Abbreviation reached := (net_reachable is_v4 is_v6 char_signed set_sni_error).
Abbreviation done op ec data := (complete is_v4 is_v6 char_signed set_sni_error op ec data).

Definition usable (w : net_world) : Prop :=
  class_fits (conn w) = true /\ nr_proxy_host (request_ (conn w)) = [].

Lemma quiet_done op ec data : plain_op op = true -> respects quiet_fact (done op ec data).
Proof. apply respects_complete; [apply quiet_transition | apply quiet_facts]. Qed.

Lemma way_remove op pre suf w :
  pending w = pre ++ op :: suf ->
  match op with
  | OpResolve i => ~ live (conn w) i
  | OpConnect | OpTlsHandshake | OpWebsocketHandshake => False
  | _ => True
  end ->
  on_the_way w -> way (conn w) (tasks w) (pre ++ suf).
Proof.
  unfold on_the_way. intros -> Hop.
  assert (forall x, In x (pre ++ op :: suf) -> x <> op -> In x (pre ++ suf)) as Hr.
  { intros x Hx Hn. apply in_app_iff in Hx. apply in_app_iff. cbn in Hx. intuition congruence. }
  intros [H|i Hi H|i Hi H|H|H|H];
    [apply way_asked; exact H | apply (way_posted _ _ _ i); assumption | apply (way_resolving _ _ _ i); [exact Hi|]
    | apply way_connecting | apply way_tls | apply way_websocket]; (apply Hr; [exact H | intros <-; contradiction]).
Qed.

(** The completion of an operation. *)
Lemma complete_progress op pre suf ec data w :
  pending w = pre ++ op :: suf -> usable w -> progress_inv w ->
  progress_inv (exec (done op ec data)
    (confirm op ec (mk_net_world (conn w) (tasks w) (pre ++ suf) (trace w) (requested w) (confirmed w)))).
Proof.
  intros Hp [Hc Hx] Hi. destruct op as [i| | | | |b|n|n d].
  2,3,4: apply (exec_advances _ _ w); [apply quiet_done; reflexivity | reflexivity.. | apply incl_refl | cbn [complete]; intros s o E Hd |exact Hi].
  2: exact (advance_connect _ _ _ _ Hc Hd Hx E).
  2: exact (advance_tls _ _ _ _ Hc Hd E).
  2: exact (advance_websocket _ _ _ _ Hd E).
  2,3,4,5: apply (exec_way_fact _ _ w); [cbn [complete] | reflexivity.. | apply incl_refl
     | apply (way_remove _ _ _ _ Hp), I | exact Hi].
  2: apply way_recv.
  2: apply way_sent.
  2,3: apply way_with_client.
  destruct (delegate_ (conn w)) eqn:Hd.
  2:{ apply (exec_advances _ _ w); [apply quiet_done; reflexivity | reflexivity.. | apply incl_refl | congruence | exact Hi]. }
  match goal with |- progress_inv (exec ?m ?v) => destruct (m (conn v)) as [s o] eqn:E; rewrite (exec_eq _ _ _ _ E) end.
  cbn [complete] in E. pose proof (quiet_done (OpResolve i) ec data eq_refl _ _ _ E) as (Ed & Eq1 & Eq2).
  destruct Hi as [H1 H2]. split; cbn in *; rewrite Ed.
  - rewrite in_app_iff. intros [Hi|Hi]; [auto | contradiction].
  - intros _. unfold asked, on_the_way. cbn. rewrite posted_tasks_app, in_app_iff. intros [Ha|Ha]; [|contradiction].
    destruct (resolve_result _ _ _ _ _ E Hc Hd Hx) as [Hadv|[Hl ->]].
    + exact (advances_way (mk_net_world (conn w) (tasks w) (pre ++ suf) (trace w) [] []) s o Hadv).
    + rewrite reports_app. destruct (H2 Hd Ha) as [Hr|Hy]; [auto|]. right.
      apply (way_mono (conn w) (tasks w) (pre ++ suf)); [auto | apply incl_appl, incl_refl | apply incl_appl, incl_refl |].
      exact (way_remove _ _ _ _ Hp Hl Hy).
Qed.

Lemma way_untask t ts w :
  tasks w = t :: ts -> match t with TaskDoDnsResolve | TaskDoResolver _ => False | _ => True end ->
  on_the_way w -> way (conn w) ts (pending w).
Proof.
  unfold on_the_way. intros -> Ht. intros [H|j Hj H|j Hj H|H|H|H];
    [apply way_asked | apply (way_posted _ _ _ j) | apply (way_resolving _ _ _ j) | apply way_connecting | apply way_tls
    | apply way_websocket]; auto; destruct H as [->|H]; auto; contradiction.
Qed.

(** A closure of the pump. *)
Lemma task_progress t ts w :
  tasks w = t :: ts -> progress_inv w ->
  progress_inv (exec (run_task t) (mk_net_world (conn w) ts (pending w) (trace w) (requested w) (confirmed w))).
Proof.
  intros Ht Hi. assert (incl ts (tasks w)) as Hin by (rewrite Ht; apply incl_tl, incl_refl).
  destruct t as [|b| |i|i]; cbn [run_task].
  - match goal with |- progress_inv (exec ?m ?v) => destruct (m (conn v)) as [s o] eqn:E; rewrite (exec_eq _ _ _ _ E) end.
    apply resolve_starts in E as (-> & Hl & Ed). cbn in *. destruct Hi as [H1 _]. split; cbn; rewrite Ed.
    + rewrite in_app_iff. intros [Hi|[Hi|[]]]; [apply H1, Hin, Hi | discriminate].
    + intros _ _. right. apply (way_posted _ _ _ _ Hl). apply in_app_iff. cbn. auto.
  - apply (exec_way_fact _ _ w); [apply way_queue | reflexivity.. | exact Hin | | exact Hi].
    exact (way_untask _ _ _ Ht I).
  - pose proof (pg_cleanup _ Hi) as Hd. rewrite Ht in Hd. specialize (Hd (or_introl eq_refl)).
    apply (exec_advances _ _ w); [apply quiet_clean | reflexivity.. | exact Hin | congruence | exact Hi].
  - destruct Hi as [H1 H2]. erewrite exec_eq by reflexivity. split; cbn; rewrite ?app_nil_r; [auto|].
    intros Hd. unfold asked, on_the_way. cbn. rewrite posted_tasks_app, reports_app. cbn. rewrite !app_nil_r. intros Ha.
    destruct (H2 Hd Ha) as [Hr|Hy]; [auto|]. right. unfold on_the_way in Hy. rewrite Ht in Hy.
    destruct Hy as [H|j Hj H|j Hj H|H|H|H].
    + destruct H as [H|H]; [discriminate|]. apply way_asked, H.
    + destruct H as [H|H]; [|apply (way_posted _ _ _ j); assumption].
      injection H as ->. apply (way_resolving _ _ _ j); [exact Hj|]. apply in_app_iff. cbn. auto.
    + apply (way_resolving _ _ _ j); [exact Hj | apply in_app_iff; auto].
    + apply way_connecting, in_app_iff. auto.
    + apply way_tls, in_app_iff. auto.
    + apply way_websocket, in_app_iff. auto.
  - apply (exec_way_fact _ _ w); [keep_run | reflexivity.. | exact Hin | | exact Hi].
    exact (way_untask _ _ _ Ht I).
Qed.

Lemma step_progress w w' : step w w' -> usable w -> progress_inv w -> progress_inv w'.
Proof.
  intros H Hu Hi. destruct H as [| |b|t ts Ht|op pre suf ec data Hp|pre suf _ Hp].
  - destruct Hi as [H1 H2]. erewrite exec_eq by reflexivity. split; cbn.
    + rewrite in_app_iff. intros [Hx|[Hx|[]]]; [auto | discriminate].
    + intros _ _. right. apply way_asked. cbn. apply in_app_iff. cbn. auto.
  - erewrite exec_eq by apply surjective_pairing. rewrite disconnect_eq. destruct (stoped_ (conn w)); cbn.
    + destruct w. cbn in *. rewrite !app_nil_r. exact Hi.
    + split; cbn; [reflexivity | discriminate].
  - apply (exec_way_fact _ _ w); [apply way_send | reflexivity.. | apply incl_refl | auto | exact Hi].
  - apply task_progress; assumption.
  - apply complete_progress; assumption.
  - apply (exec_way_fact _ _ w); [keep_run | reflexivity.. | apply incl_refl | apply (way_remove _ _ _ _ Hp), I | exact Hi].
Qed.

Lemma reached_progress c r w :
  class_fits (new_connection c r) = true -> nr_proxy_host r = [] -> reached c r w -> progress_inv w.
Proof.
  intros Hc Hp. induction 1 as [|w w' Hr IH Hs]; [split; cbn; contradiction|].
  apply (step_progress _ _ Hs); [|exact IH]. destruct (no_fatal _ _ _ _ _ _ _ Hr) as (H1 & H2 & _).
  split; [unfold class_fits in *; rewrite H1, H2; exact Hc | rewrite H2; exact Hp].
Qed.
End Way.

(** C34: A connection is reported.  Without a proxy, and with the class that fits
    the request: when [Connect] was called and no closure and no operation is
    left, the delegate has been told of the success or failure of the
    connection, or has been taken away by [DisConnect]. *)
Theorem connect_reported is_v4 is_v6 char_signed sni c r w :
  class_fits (new_connection c r) = true -> nr_proxy_host r = [] ->
  net_reachable is_v4 is_v6 char_signed sni c r w ->
  asked w -> tasks w = [] -> pending w = [] -> stoped_ (conn w) = false -> reports (trace w).
Proof.
  intros Hc Hp Hr Ha Ht Hq Hs. destruct (reached_progress _ _ _ _ _ _ _ Hc Hp Hr) as [_ Hw].
  destruct Hw as [H|H]; [rewrite (reached_delegate _ _ _ _ _ _ _ Hr), Hs; reflexivity | exact Ha | exact H|].
  unfold on_the_way in H. rewrite Ht, Hq in H. destruct H; contradiction.
Qed.

(** The name cannot be resolved. *)
Definition failed_world : net_world :=
  net_play [UserConnect; PumpTask; PumpTask; Completion 0 11001 []; PumpTask]
    (new_net_world TcpConnectionImpl plain_request).

Lemma connect_reported_witness :
  filter is_callback (trace failed_world) = [OnConnect 11001] /\ reports (trace failed_world).
Proof.
  split; [reflexivity|].
  apply (connect_reported no_literal no_literal true None TcpConnectionImpl plain_request failed_world);
    try reflexivity; [apply net_play_runs | left; reflexivity].
Defined.
