(* ===== verification/NetFactory.v ===== *)
(** * The factories of connections

    The functions of src/base/net/net.cc that create connections, and what the
    connections they create never do. *)

From Stdlib Require Import String ZArith List Bool Lia.
From S2P Require Import Prelude Cpp HttpDefs HttpUrl NetClient Socks5 NetConnection NetConnectionSpec NetConnectionOrder.
Import ListNotations.
Local Open Scope Z_scope.

Definition set_net_type (t : NetType) (r : NetConnectionRequest) : NetConnectionRequest :=
  mk_net_request (nr_host r) (nr_port r) t (nr_path r) (nr_proxy_host r) (nr_proxy_port r)
    (nr_proxy_username r) (nr_proxy_passwd r).

(** The type of the request is overwritten, so only one case of the switch is
    left. *)
Definition CreateTcpClient (r : NetConnectionRequest) : option NetConnectionImpl :=
  let r := set_net_type kNetTypeTcp r in
  match nr_net_type r with
  | kNetTypeTcp => Some (new_connection TcpConnectionImpl r)
  | kNetTypeTcpTls => Some (new_connection TcpTlsConnectionImpl r)
  | _ => None
  end.

Definition CreateWebsocket (r : NetConnectionRequest) : option NetConnectionImpl :=
  match nr_net_type r with
  | kNetTypeWebsocket => Some (new_connection WebsocketConnectionImpl r)
  | kNetTypeWebsocketTls => Some (new_connection WebsocketTlsConnectionImpl r)
  | _ => None
  end.

(** The connection an HTTP client is. *)
Definition http_connection (c : http_client) : NetConnectionImpl :=
  match c with
  | HttpClientImpl r => new_connection HttpConnection r
  | HttpsClientImpl r => new_connection HttpsConnection r
  end.

(** A connection comes from one of the factories. *)
Inductive created `{BuildConfig} : NetConnectionImpl -> Prop :=
| created_tcp r s : CreateTcpClient r = Some s -> created s
| created_websocket r s : CreateWebsocket r = Some s -> created s
| created_http r c : CreateHttpClient r = Created c -> created (http_connection c).

Lemma created_fits `{BuildConfig} s :
  created s -> class_fits s = true /\ s = new_connection (cls s) (request_ s).
Proof.
  intros [r s' Hc|r s' Hc|r c Hc].
  - injection Hc as <-. split; reflexivity.
  - unfold CreateWebsocket in Hc. destruct (nr_net_type r) eqn:E; try discriminate; injection Hc as <-;
      unfold class_fits; cbn; rewrite E; split; reflexivity.
  - unfold CreateHttpClient, make_client in Hc.
    assert (forall t q, (match t with kNetTypeHttp => Created (HttpClientImpl q) | _ => Created (HttpsClientImpl q) end = Created c) ->
              nr_net_type q = t -> t = kNetTypeHttp \/ t = kNetTypeHttps ->
              class_fits (http_connection c) = true /\ http_connection c = new_connection (cls (http_connection c)) (request_ (http_connection c)))
      as Hq.
    { intros t q Hx Ht [-> | ->]; injection Hx as <-; unfold class_fits; cbn; rewrite Ht; split; reflexivity. }
    destruct (http_parser_parse_url _ _ _ _) as [code u|]; [|discriminate].
    destruct (code =? 0); [|discriminate].
    destruct (url_parameters (cr_url r) u) as [[[[p t] h] q]|] eqn:E; [|discriminate].
    apply (Hq t _ Hc eq_refl). unfold url_parameters in E.
    repeat case_match_hyp E; try discriminate; injection E as _ <- _ _; auto.
Qed.

(** The factories.  A connection that [CreateTcpClient], [CreateWebsocket] or
    [CreateHttpClient] gives out never calls a handshake its class does not
    have, is shut down at most once and hands data on only after it has
    reported success, under any use and any behaviour of the network. *)
Theorem created_connections_safe `{BuildConfig} is_v4 is_v6 char_signed sni s w :
  created s ->
  net_runs is_v4 is_v6 char_signed sni (mk_net_world s [] [] [] [] []) w ->
  ~ In LogFatal (trace w) /\ (closes (trace w) <= 1)%nat /\
  (forall t1 n t2, trace w = t1 ++ OnRecvData n :: t2 -> In (OnConnect 0) t1).
Proof.
  intros Hc Hr. apply created_fits in Hc as [Hf Hs]. rewrite Hs in Hr, Hf.
  destruct (no_fatal _ _ _ _ _ _ _ Hr) as (_ & _ & Hl). split; [exact (Hl Hf)|].
  split; [rewrite (closed_once _ _ _ _ _ _ _ Hr); destruct (already_clean_up _); cbn; lia|].
  exact (rv_trace _ (reached_recv_inv _ _ _ _ _ _ _ Hr)).
Qed.

(** A TCP connection to port 443 is a plain one. *)
Definition port_443 : NetConnectionRequest :=
  mk_net_request (bytes "example.org") (Some 443) kNetTypeTcpTls (bytes "/") [] 0 [] [].

Lemma created_connections_safe_witness :
  CreateTcpClient port_443 = Some (new_connection TcpConnectionImpl (set_net_type kNetTypeTcp port_443)) /\
  let w := net_play sample_run (new_net_world TcpConnectionImpl (set_net_type kNetTypeTcp port_443)) in
  ~ In LogFatal (trace w) /\ (closes (trace w) <= 1)%nat /\
  (forall t1 n t2, trace w = t1 ++ OnRecvData n :: t2 -> In (OnConnect 0) t1).
Proof.
  split; [reflexivity|]. intros w.
  apply (created_connections_safe no_literal no_literal true None
           (new_connection TcpConnectionImpl (set_net_type kNetTypeTcp port_443)) w).
  - apply (created_tcp port_443). reflexivity.
  - apply net_play_runs.
Defined.
