(* ===== verification/HttpClient.v ===== *)
(** * HTTP clients and the downloader

    src/base/net/http/http_connection_base.h: the HTTP client, that is, the
    callbacks of the Boost.Beast parser it derives from and of the connection it
    is; src/base/net/http/http_downloader_impl.{h,cc}: the delegate that writes
    the body to a file.  A callback runs the delegate while it holds
    [delegate_mutex_]; what it means that the delegate calls back is part of the
    model. *)

From Stdlib Require Import String ZArith List Bool Lia.
From S2P Require Import Prelude Cpp NetClient.
Import ListNotations.
Local Open Scope Z_scope.
Local Open Scope cpp_scope.

(** ** Delegates *)

(** What a delegate calls: the client it belongs to, or its own user. *)
Inductive delegate_call (O : Type) : Type :=
| ClientCancel
| Out (o : O).
Arguments ClientCancel {O}.
Arguments Out {O} o.

(** An [unordered_map<string, string>]. *)
Definition header_map : Type := list (list Z * list Z).

Fixpoint header_find (name : list Z) (h : header_map) : option (list Z) :=
  match h with
  | [] => None
  | (n, v) :: h' => if bytes_eqb n name then Some v else header_find name h'
  end.

(** [heads_[name] = value]. *)
Fixpoint header_set (name value : list Z) (h : header_map) : header_map :=
  match h with
  | [] => [(name, value)]
  | (n, v) :: h' => if bytes_eqb n name then (n, value) :: h' else (n, v) :: header_set name value h'
  end.

(** [HttpClient::HttpClientDelegate]: an object with members [D] and calls [O];
    an exception ends the call. *)
Class HttpClientDelegate (D O : Type) := {
  OnHttpHeads : header_map -> D -> outcome (D * list (delegate_call O));
  OnHttpResponse : list Z -> D -> outcome (D * list (delegate_call O));
  OnHttpComplete : Z -> D -> outcome (D * list (delegate_call O))
}.

(** ** The client *)

Definition status_ok : Z := 200.
Definition status_not_found : Z := 404.

Record HttpConnectionBase := mk_http {
  recv_complete : bool;
  heads_ : header_map;
  http_code_ : Z;
  http_delegate_ : bool               (* delegate_ is not null *)
}.

Definition new_http : HttpConnectionBase := mk_http false [] status_not_found true.

(** ** The request

    [boost::beast::http::request<empty_body>] with its fields; how Beast replaces
    and adds a field are parameters. *)

Inductive HttpMethod := kHttpMethodGet | kHttpMethodPost | kHttpMethodPut.

Record beast_request (F : Type) : Type := mk_request {
  rq_version : Z;
  rq_method : option HttpMethod;
  rq_target : list Z;
  rq_fields : F
}.
Arguments mk_request {F}.
Arguments rq_version {F}.
Arguments rq_method {F}.
Arguments rq_target {F}.
Arguments rq_fields {F}.

(** [DoSendData]: what it makes of [req_] before it is written; the buffer is not
    used. *)
Definition http_DoSendData {F : Type} (fields_set fields_insert : list Z -> list Z -> F -> F)
  (method : HttpMethod) (heads : header_map) (path host : list Z) (req : beast_request F) : beast_request F :=
  let fields := fields_set (bytes "Host") host (rq_fields req) in
  mk_request 11 (Some method) path
    (fold_left (fun f item => fields_insert (fst item) (snd item) f) heads fields).

(** What the client itself calls: the methods of [NetConnectionImpl], and
    [body_limit] of the parser. *)
Inductive http_call (O : Type) : Type :=
| NetConnect
| NetDisConnect
| NetSend (b : list Z)
| NetNotifyRecvData (ec len : Z)
| BodyLimit (n : Z)
| Delegate (o : O).
Arguments NetConnect {O}.
Arguments NetDisConnect {O}.
Arguments NetSend {O} b.
Arguments NetNotifyRecvData {O} ec len.
Arguments BodyLimit {O} n.
Arguments Delegate {O} o.

Section Client.
Context {D O : Type} `{HttpClientDelegate D O}.
(** [boost::lexical_cast<uint64_t>]; [None] when it throws. *)
Variable lexical_cast_u64 : list Z -> option Z.

Definition client_method : Type :=
  HttpConnectionBase * D -> outcome (HttpConnectionBase * D * list (http_call O)).

(** Calls of the delegate made while this thread holds [delegate_mutex_]:
    [Cancel] would lock the mutex, which is not recursive, once more. *)
Fixpoint under_lock (o : list (delegate_call O)) : outcome (list (http_call O)) :=
  match o with
  | [] => Ok []
  | ClientCancel :: _ => Undefined
  | Out x :: o' => let? r := under_lock o' in Ok (Delegate x :: r)
  end.

Definition notify (m : D -> outcome (D * list (delegate_call O))) : client_method := fun '(c, d) =>
  if http_delegate_ c then
    let? r := m d in
    let? o := under_lock (snd r) in Ok (c, fst r, o)
  else Ok (c, d, []).

Definition NotifyComplete : client_method := fun '(c, d) => notify (OnHttpComplete (http_code_ c)) (c, d).

Definition NotifyResponse (message : list Z) : client_method := notify (OnHttpResponse message).

Definition Request : client_method := fun '(c, d) => Ok (c, d, [NetConnect]).

(** [Cancel], called by a thread that does not hold the mutex. *)
Definition Cancel : client_method := fun '(c, d) =>
  Ok (mk_http (recv_complete c) (heads_ c) (http_code_ c) false, d, [NetDisConnect]).

(** [OnConnect] sends one byte, only to have the base class call [DoSendData]. *)
Definition OnConnect (code : Z) : client_method := fun '(c, d) =>
  if code =? 0 then Ok (c, d, [NetSend (bytes "1")])
  else NotifyComplete (mk_http (recv_complete c) (heads_ c) status_not_found (http_delegate_ c), d).

Definition OnRecvData (len : Z) : client_method := fun '(c, d) => Ok (c, d, []).

Definition OnDisconnect (code : Z) : client_method := NotifyComplete.

(** The completion handler of [DoRecvData]. *)
Definition recv_done (ec len : Z) : client_method := fun '(c, d) =>
  Ok (c, d, if recv_complete c then [] else [NetNotifyRecvData ec len]).

(** The callbacks of the parser; [on_body_init_impl] and [on_chunk_header_impl]
    do nothing. *)
Definition on_request_impl : client_method := fun _ => Throws.

Definition on_response_impl (code : Z) : client_method := fun '(c, d) =>
  Ok (mk_http (recv_complete c) (heads_ c) code (http_delegate_ c), d, []).

Definition on_field_impl (name value : list Z) : client_method := fun '(c, d) =>
  let c' := mk_http (recv_complete c) (header_set name value (heads_ c)) (http_code_ c) (http_delegate_ c) in
  if bytes_eqb name (bytes "Content-Length") then
    match lexical_cast_u64 value with
    | Some n => Ok (c', d, if n =? 0 then [] else [BodyLimit n])
    | None => Throws
    end
  else Ok (c', d, []).

Definition on_header_impl : client_method := fun '(c, d) => notify (OnHttpHeads (heads_ c)) (c, d).

Definition on_body_impl (body : list Z) : client_method := NotifyResponse body.

Definition on_chunk_body_impl (body : list Z) : client_method := NotifyResponse body.

Definition on_finish_impl : client_method := fun cd =>
  let? r := NotifyComplete cd in
  let '(c, d, o) := r in
  Ok (mk_http true (heads_ c) (http_code_ c) (http_delegate_ c), d, o).

(** A sequence of calls. *)
Fixpoint run_client (ms : list client_method) : client_method := fun cd =>
  match ms with
  | [] => Ok (cd, [])
  | m :: ms' =>
      let? r := m cd in
      let? r' := run_client ms' (fst r) in
      Ok (fst r', snd r ++ snd r')
  end.
End Client.

Arguments client_method D O : clear implicits.

(** ** The downloader *)

(** The file on disk: its content and whether it is open. *)
Record HttpDownloaderImpl := mk_downloader {
  total_size_ : Z;
  write_size_ : Z;
  file_open : bool;
  file_content : list Z;
  dl_delegate_ : bool                 (* delegate_ is not null *)
}.

Definition new_downloader : HttpDownloaderImpl := mk_downloader 0 0 false [] true.

Inductive download_call :=
| OnStartDownload
| OnDownloadProgress (current total : Z)
| OnDownloadComplte (status : Z).

(** The request the downloader gives to [CreateHttpClient]. *)
Record HttpDownloaderRequest := mk_download_request {
  dq_url : list Z;
  dq_path : list Z;
  dq_proxy_host : list Z;
  dq_proxy_port : Z;
  dq_proxy_username : list Z;
  dq_proxy_passwd : list Z
}.

Definition download_client_request (q : HttpDownloaderRequest) : HttpClientRequest :=
  mk_client_request (dq_url q) (dq_proxy_host q) (dq_proxy_port q) (dq_proxy_username q) (dq_proxy_passwd q).

Section Downloader.
Variable lexical_cast_u64 : list Z -> option Z.
(** Whether [file_.open] succeeds, and [file_.write] of some bytes at the end of
    the content. *)
Variables (open_ok : bool) (write_ok : list Z -> list Z -> bool).

Definition user (d : HttpDownloaderImpl) (o : download_call) : list (delegate_call download_call) :=
  if dl_delegate_ d then [Out o] else [].

Definition NotifyDownloadStart (d : HttpDownloaderImpl) := user d OnStartDownload.

(** The sizes are converted from [uint64_t] to [int64_t]. *)
Definition NotifyDownloadProgress (d : HttpDownloaderImpl) :=
  user d (OnDownloadProgress (i64 (write_size_ d)) (i64 (total_size_ d))).

Definition NotifyDownloadComplte (code : Z) (d : HttpDownloaderImpl) := user d (OnDownloadComplte code).

(** [HttpDownloaderImpl::Cancel]: the user's delegate goes, then the client is
    cancelled. *)
Definition downloader_cancel (d : HttpDownloaderImpl)
  : HttpDownloaderImpl * list (delegate_call download_call) :=
  (mk_downloader (total_size_ d) (write_size_ d) (file_open d) (file_content d) false, [ClientCancel]).

Definition downloader_complete (http_code : Z) (d : HttpDownloaderImpl)
  : outcome (HttpDownloaderImpl * list (delegate_call download_call)) :=
  let d := mk_downloader (total_size_ d) (write_size_ d) false (file_content d) (dl_delegate_ d) in
  Ok (d, NotifyDownloadComplte (if http_code =? status_ok then 0 else -1) d).

(** The failure of a file operation. *)
Definition downloader_fail (d : HttpDownloaderImpl)
  : outcome (HttpDownloaderImpl * list (delegate_call download_call)) :=
  let (d', o) := downloader_cancel d in Ok (d', NotifyDownloadComplte (-1) d ++ o).

(** The second half of [OnHttpResponse], with the file open. *)
Definition downloader_write (content : list Z) (d : HttpDownloaderImpl)
  : outcome (HttpDownloaderImpl * list (delegate_call download_call)) :=
  if write_ok (file_content d) content then
    let d := mk_downloader (total_size_ d) (u64 (write_size_ d + zlen content)) (file_open d)
               (file_content d ++ content) (dl_delegate_ d) in
    Ok (d, NotifyDownloadProgress d)
  else downloader_fail d.

Definition downloader_response (content : list Z) (d : HttpDownloaderImpl)
  : outcome (HttpDownloaderImpl * list (delegate_call download_call)) :=
  if file_open d then downloader_write content d
  else if open_ok then
    (* file_mode::write truncates the file *)
    let d := mk_downloader (total_size_ d) (write_size_ d) true [] (dl_delegate_ d) in
    let? r := downloader_write content d in Ok (fst r, NotifyDownloadStart d ++ snd r)
  else downloader_fail d.

Definition downloader_heads (heads : header_map) (d : HttpDownloaderImpl)
  : outcome (HttpDownloaderImpl * list (delegate_call download_call)) :=
  match header_find (bytes "Content-Length") heads with
  | Some v =>
      match lexical_cast_u64 v with
      | Some n => Ok (mk_downloader n (write_size_ d) (file_open d) (file_content d) (dl_delegate_ d), [])
      | None => Throws
      end
  | None => Ok (d, [])
  end.

#[export] Instance downloader_delegate : HttpClientDelegate HttpDownloaderImpl download_call := {
  OnHttpHeads := downloader_heads;
  OnHttpResponse := downloader_response;
  OnHttpComplete := downloader_complete
}.
End Downloader.
