(* ===== verification/HttpClientSpec.v ===== *)
(** * What a download does

    A response that is read without errors is on disk and has been reported
    step by step; a file error ends in a deadlock. *)

From Stdlib Require Import String ZArith List Bool Lia.
From S2P Require Import Prelude Cpp NetClient HttpClient.
Import ListNotations.
Local Open Scope Z_scope.
Local Open Scope cpp_scope.

(** ** Sequences of calls *)

Definition delegate_calls {O} (o : list (http_call O)) : list O :=
  flat_map (fun c => match c with Delegate x => [x] | _ => [] end) o.

Lemma delegate_calls_app {O} (o1 o2 : list (http_call O)) :
  delegate_calls (o1 ++ o2) = delegate_calls o1 ++ delegate_calls o2.
Proof. apply flat_map_app. Qed.

Lemma delegate_calls_map {O} (l : list O) : delegate_calls (map Delegate l) = l.
Proof. induction l as [|x l IH]; cbn; [reflexivity | f_equal; exact IH]. Qed.

Lemma under_lock_out {O} (l : list O) : under_lock (map Out l) = Ok (map Delegate l).
Proof. induction l as [|x l IH]; cbn; [reflexivity|]. rewrite IH. reflexivity. Qed.

Section Run.
Context {D O : Type}.
Implicit Types ms : list (client_method D O).

Lemma run_client_app ms1 ms2 cd cd1 o1 :
  run_client ms1 cd = Ok (cd1, o1) ->
  run_client (ms1 ++ ms2) cd = (let? r := run_client ms2 cd1 in Ok (fst r, o1 ++ snd r)).
Proof.
  revert cd o1. induction ms1 as [|m ms1 IH]; intros cd o1; cbn [run_client app].
  - intros Hx. injection Hx as <- <-. destruct (run_client ms2 cd) as [[? ?]| |]; reflexivity.
  - destruct (m cd) as [[cd' o']| |]; cbn; try discriminate.
    destruct (run_client ms1 cd') as [[cd2 o2]| |] eqn:E; cbn; try discriminate.
    intros Hx. injection Hx as <- <-. rewrite (IH _ _ E).
    destruct (run_client ms2 cd2) as [[? ?]| |]; cbn; [rewrite app_assoc|..]; reflexivity.
Qed.
End Run.

(** ** A download *)

Section Download.
Variable lexical_cast_u64 : list Z -> option Z.
Variables (open_ok : bool) (write_ok : list Z -> list Z -> bool).

Abbreviation method := (client_method HttpDownloaderImpl download_call).
#[local] Instance the_delegate : HttpClientDelegate HttpDownloaderImpl download_call :=
  downloader_delegate lexical_cast_u64 open_ok write_ok.

Definition field_call (f : list Z * list Z) : method := on_field_impl lexical_cast_u64 (fst f) (snd f).

(** The calls the parser makes for a response. *)
Definition response_calls (code : Z) (fields : list (list Z * list Z)) (bodies : list (list Z)) : list method :=
  [on_response_impl code] ++ map field_call fields ++ [on_header_impl] ++ map on_body_impl bodies ++ [on_finish_impl].

Definition headers_of (fields : list (list Z * list Z)) : header_map :=
  fold_left (fun h f => header_set (fst f) (snd f) h) fields [].

(** What the user of the downloader is told about the pieces of the body, in
    numbers of type [int64_t]. *)
Fixpoint progress (total sofar : Z) (bodies : list (list Z)) : list download_call :=
  match bodies with
  | [] => []
  | b :: bs => OnDownloadProgress (i64 (sofar + zlen b)) (i64 total) :: progress total (sofar + zlen b) bs
  end.

Definition length_readable (f : list Z * list Z) : Prop :=
  fst f = bytes "Content-Length" -> lexical_cast_u64 (snd f) <> None.

Lemma bytes_eqb_spec a b : bytes_eqb a b = true <-> a = b.
Proof. unfold bytes_eqb. destruct (list_eq_dec Z.eq_dec a b); split; congruence. Qed.

Lemma run_fields fields c d :
  Forall length_readable fields ->
  exists o, run_client (map field_call fields) (c, d) =
            Ok (mk_http (recv_complete c) (fold_left (fun h f => header_set (fst f) (snd f) h) fields (heads_ c))
                  (http_code_ c) (http_delegate_ c), d, o) /\ delegate_calls o = [].
Proof.
  intros Hf. revert c. induction Hf as [|[n v] fields Hn _ IH]; intros c; cbn [map run_client fold_left].
  - exists []. destruct c. auto.
  - specialize (IH (mk_http (recv_complete c) (header_set n v (heads_ c)) (http_code_ c) (http_delegate_ c))).
    destruct IH as (o & E & Ho). unfold field_call at 1, on_field_impl. cbn [fst snd] in *.
    destruct (bytes_eqb n (bytes "Content-Length")) eqn:En.
    + apply bytes_eqb_spec in En. destruct (lexical_cast_u64 v) as [k|] eqn:Ek; [|destruct (Hn En Ek)].
      cbn [outcome_bind fst]. rewrite E. cbn. eexists. split; [reflexivity|].
      rewrite delegate_calls_app, Ho. destruct (k =? 0); reflexivity.
    + cbn [outcome_bind fst]. rewrite E. cbn. exists o. auto.
Qed.

Context (Hopen : open_ok = true) (Hwrite : forall old b, write_ok old b = true).

(** Pieces of the body with the file open. *)
Lemma run_bodies bodies c total sofar content :
  http_delegate_ c = true -> 0 <= sofar -> sofar + zlen (concat bodies) < 2 ^ 64 ->
  run_client (map on_body_impl bodies) (c, mk_downloader total sofar true content true) =
  Ok (c, mk_downloader total (sofar + zlen (concat bodies)) true (content ++ concat bodies) true,
      map Delegate (progress total sofar bodies)).
Proof.
  intros Hd. revert sofar content. induction bodies as [|b bs IH]; intros sofar content Hs Hl; cbn [map run_client concat progress].
  - rewrite app_nil_r. change (zlen []) with 0. rewrite Z.add_0_r. reflexivity.
  - cbn [concat] in Hl. rewrite zlen_app in Hl. pose proof (zlen_nonneg b). pose proof (zlen_nonneg (concat bs)).
    unfold on_body_impl, NotifyResponse, notify. rewrite Hd.
    cbn [OnHttpResponse the_delegate downloader_delegate]. unfold downloader_response. cbn [file_open].
    unfold downloader_write. cbn [file_content]. rewrite Hwrite.
    cbn [write_size_ total_size_ file_open dl_delegate_]. rewrite (wrap_small 64 (sofar + zlen b)) by lia.
    cbn [outcome_bind fst snd NotifyDownloadProgress user dl_delegate_ under_lock write_size_ total_size_].
    fold (@NotifyResponse HttpDownloaderImpl download_call _).
    change (map (fun message => notify (OnHttpResponse message)) bs) with (map on_body_impl bs).
    rewrite IH by lia. cbn. rewrite zlen_app, <- app_assoc, Z.add_assoc. reflexivity.
Qed.

(** The first piece opens the file. *)
Lemma run_first_body b c total old :
  http_delegate_ c = true -> zlen b < 2 ^ 64 ->
  on_body_impl b (c, mk_downloader total 0 false old true) =
  Ok (c, mk_downloader total (zlen b) true b true,
      [Delegate OnStartDownload; Delegate (OnDownloadProgress (i64 (zlen b)) (i64 total))]).
Proof.
  intros Hd Hl. pose proof (zlen_nonneg b). unfold on_body_impl, NotifyResponse, notify. rewrite Hd.
  cbn [OnHttpResponse the_delegate downloader_delegate]. unfold downloader_response. cbn [file_open]. rewrite Hopen.
  unfold downloader_write. cbn [file_content write_size_]. rewrite Hwrite.
  cbn [total_size_ file_open dl_delegate_ Z.add]. rewrite wrap_small by lia. reflexivity.
Qed.

Lemma run_header c d total :
  match header_find (bytes "Content-Length") (heads_ c) with
  | Some v => lexical_cast_u64 v = Some total
  | None => total = total_size_ d
  end ->
  on_header_impl (c, d) =
  Ok (c, if http_delegate_ c then mk_downloader total (write_size_ d) (file_open d) (file_content d) (dl_delegate_ d) else d, []).
Proof.
  intros Ht. unfold on_header_impl, notify. destruct (http_delegate_ c); [|reflexivity].
  cbn [OnHttpHeads the_delegate downloader_delegate]. unfold downloader_heads.
  destruct (header_find _ _) as [v|]; [rewrite Ht; reflexivity|]. subst total. destruct d. reflexivity.
Qed.

Lemma run_finish c d :
  http_delegate_ c = true -> dl_delegate_ d = true ->
  on_finish_impl (c, d) =
  Ok (mk_http true (heads_ c) (http_code_ c) true,
      mk_downloader (total_size_ d) (write_size_ d) false (file_content d) true,
      [Delegate (OnDownloadComplte (if http_code_ c =? status_ok then 0 else -1))]).
Proof.
  intros Hc Hd. unfold on_finish_impl, NotifyComplete, notify. rewrite Hc.
  cbn [OnHttpComplete the_delegate downloader_delegate]. unfold downloader_complete, NotifyDownloadComplte, user.
  cbn [dl_delegate_]. rewrite Hd. cbn. rewrite Hc. reflexivity.
Qed.

(** The pieces of a body, from the start. *)
Lemma run_whole_body bodies c total old :
  http_delegate_ c = true -> zlen (concat bodies) < 2 ^ 64 ->
  run_client (map on_body_impl bodies) (c, mk_downloader total 0 false old true) =
  Ok (c, mk_downloader total (zlen (concat bodies)) (negb (is_nil bodies)) (if is_nil bodies then old else concat bodies) true,
      map Delegate ((if is_nil bodies then [] else [OnStartDownload]) ++ progress total 0 bodies)).
Proof.
  intros Hd Hl. destruct bodies as [|b bs]; [reflexivity|]. cbn [map run_client concat is_nil negb app progress] in *.
  rewrite zlen_app in *. pose proof (zlen_nonneg b). pose proof (zlen_nonneg (concat bs)).
  rewrite run_first_body by (assumption || lia). cbn [outcome_bind fst snd]. rewrite run_bodies by (assumption || lia).
  reflexivity.
Qed.

(** The content of the file and the calls of the user's delegate. *)
Lemma download_run code fields bodies total old :
  Forall length_readable fields -> zlen (concat bodies) < 2 ^ 64 ->
  match header_find (bytes "Content-Length") (headers_of fields) with
  | Some v => lexical_cast_u64 v = Some total
  | None => total = 0
  end ->
  exists o, run_client (response_calls code fields bodies) (new_http, mk_downloader 0 0 false old true) =
    Ok (mk_http true (headers_of fields) code true,
        mk_downloader total (zlen (concat bodies)) false (if is_nil bodies then old else concat bodies) true, o) /\
    delegate_calls o = (if is_nil bodies then [] else [OnStartDownload]) ++ progress total 0 bodies ++
                       [OnDownloadComplte (if code =? status_ok then 0 else -1)].
Proof.
  intros Hf Hl Ht.
  unfold response_calls. cbn [app run_client on_response_impl new_http outcome_bind fst snd recv_complete heads_ http_code_ http_delegate_].
  destruct (run_fields fields (mk_http false [] code true) (mk_downloader 0 0 false old true) Hf) as (o1 & E1 & O1).
  rewrite (run_client_app _ _ _ _ _ E1). cbn [recv_complete heads_ http_code_ http_delegate_]. fold (headers_of fields).
  cbn [run_client app]. rewrite (run_header _ _ total) by exact Ht.
  cbn [outcome_bind fst snd http_delegate_ write_size_ file_open file_content dl_delegate_].
  erewrite run_client_app by (apply run_whole_body; [reflexivity | exact Hl]).
  cbn [run_client]. rewrite run_finish by reflexivity.
  cbn [outcome_bind fst snd heads_ http_code_ total_size_ write_size_ file_content].
  eexists. split; [reflexivity|]. rewrite !app_nil_l, app_nil_r.
  rewrite !delegate_calls_app, O1, delegate_calls_map, <- app_assoc. reflexivity.
Qed.
End Download.

(** C36: A download.  When the file can be opened and written and the lengths
    among the headers can be read: if the body has a piece, the pieces are in the
    file, in order and nothing else, the file is closed, and the user is told of
    the start and, after every piece, of the bytes written against the announced
    length, both converted to [int64_t]; without a piece the file is left as it
    was.  Then the user is told of the end, with 0 exactly for the status 200. *)
Theorem download_correct lexical_cast_u64 open_ok write_ok code fields bodies total old :
  open_ok = true -> (forall content piece, write_ok content piece = true) ->
  Forall (length_readable lexical_cast_u64) fields -> zlen (concat bodies) < 2 ^ 64 ->
  match header_find (bytes "Content-Length") (headers_of fields) with
  | Some v => lexical_cast_u64 v = Some total
  | None => total = 0
  end ->
  exists c d o,
    run_client (response_calls lexical_cast_u64 open_ok write_ok code fields bodies)
      (new_http, mk_downloader 0 0 false old true) = Ok (c, d, o) /\
    file_content d = (if is_nil bodies then old else concat bodies) /\ file_open d = false /\ recv_complete c = true /\
    delegate_calls o = (if is_nil bodies then [] else [OnStartDownload]) ++ progress total 0 bodies ++
                       [OnDownloadComplte (if code =? 200 then 0 else -1)].
Proof.
  intros Ho Hw Hf Hl Ht.
  destruct (download_run lexical_cast_u64 open_ok write_ok Ho Hw code fields bodies total old Hf Hl Ht) as (o & E & Hd).
  rewrite E. do 3 eexists. split; [reflexivity|]. auto.
Qed.

(** Decimal digits without a sign, of at most 19 digits. *)
Definition read_digits (l : list Z) : option Z :=
  if forallb (fun c => (48 <=? c) && (c <=? 57)) l && (Nat.leb (length l) 19) && negb (is_nil l)
  then Some (fold_left (fun v c => v * 10 + (c - 48)) l 0) else None.

(** An announced length of 2^63 is reported as a negative one. *)
Lemma download_correct_witness :
  exists c d o,
    run_client (response_calls read_digits true (fun _ _ => true) 200 [(bytes "Content-Length", bytes "9223372036854775808")]
                  [bytes "he"; bytes "llo"]) (new_http, mk_downloader 0 0 false (bytes "old") true) = Ok (c, d, o) /\
    file_content d = bytes "hello" /\ file_open d = false /\ recv_complete c = true /\
    delegate_calls o = OnStartDownload :: [OnDownloadProgress 2 (- 2 ^ 63); OnDownloadProgress 5 (- 2 ^ 63)] ++ [OnDownloadComplte 0].
Proof.
  apply (download_correct read_digits true (fun _ _ => true) 200 [(bytes "Content-Length", bytes "9223372036854775808")]
           [bytes "he"; bytes "llo"] (2 ^ 63) (bytes "old")); try reflexivity.
  constructor; [|constructor]. intros _. discriminate.
Defined.

(** Whether the file cannot be opened, or not be written with the next piece. *)
Definition file_fails (open_ok : bool) (write_ok : list Z -> list Z -> bool) (body : list Z) (d : HttpDownloaderImpl)
  : bool :=
  negb (if file_open d then write_ok (file_content d) body else open_ok && write_ok [] body).

Lemma under_lock_cancel {O} (o : list (delegate_call O)) : In ClientCancel o -> under_lock o = Undefined.
Proof.
  induction o as [|[|x] o IH]; cbn; [contradiction|reflexivity|]. intros [H|H]; [discriminate|].
  rewrite (IH H). reflexivity.
Qed.

Lemma notify_cancel {D O} m (c : HttpConnectionBase) (d d' : D) (o : list (delegate_call O)) :
  http_delegate_ c = true -> m d = Ok (d', o) -> In ClientCancel o -> notify m (c, d) = Undefined.
Proof. intros Hc Hm Ho. unfold notify. rewrite Hc, Hm. cbn. rewrite under_lock_cancel by assumption. reflexivity. Qed.

(** The downloader cancels its client when the file fails. *)
Lemma failure_cancels open_ok write_ok body d :
  file_fails open_ok write_ok body d = true ->
  exists d' o, downloader_response open_ok write_ok body d = Ok (d', o) /\ In ClientCancel o.
Proof.
  unfold file_fails, downloader_response, downloader_write, downloader_fail. intros He%negb_true_iff.
  destruct (file_open d); [|destruct open_ok]; cbn [andb file_content] in *; rewrite ?He; cbn;
    (eexists; eexists; split; [reflexivity|]); rewrite ?in_app_iff; cbn; auto.
Qed.

(** A delegate must not cancel its client.  A delegate that calls [Cancel] of
    the client when a piece of the body arrives locks [delegate_mutex_] while the
    same thread holds it, which is undefined for a [std::mutex]; the downloader
    does so, and only then, when the file cannot be opened or written. *)
Theorem cancel_in_callback lexical_cast_u64 open_ok write_ok body c d :
  http_delegate_ c = true ->
  let delegate := downloader_delegate lexical_cast_u64 open_ok write_ok in
  (@on_body_impl _ _ delegate body (c, d) = Undefined <-> file_fails open_ok write_ok body d = true).
Proof.
  intros Hc delegate. split.
  - unfold on_body_impl, NotifyResponse, notify. rewrite Hc. cbn [OnHttpResponse delegate downloader_delegate].
    unfold file_fails, downloader_response, downloader_write.
    destruct (file_open d); [destruct (write_ok _ _)|destruct open_ok; [cbn; destruct (write_ok _ _)|]]; try reflexivity;
      cbn; destruct d as [t ws fo fc [|]]; discriminate.
  - intros Hf. destruct (failure_cancels _ _ _ _ Hf) as (d' & o & Hr & Ho).
    apply (notify_cancel _ c d d' o Hc); assumption.
Qed.

Lemma cancel_in_callback_witness :
  @on_body_impl _ _ (downloader_delegate read_digits false (fun _ _ => true)) (bytes "x") (new_http, new_downloader) = Undefined.
Proof. apply (cancel_in_callback read_digits false (fun _ _ => true)); reflexivity. Defined.
