(* ===== verification/HttpSession.v ===== *)
(** * An HTTP client on its connection

    src/base/net/http/http_connection_base.h derives from [NetConnectionImpl], of
    which it is also the delegate, and from the parser of Boost.Beast.  Here the
    client of HttpClient.v and the connection of NetConnection.v run together:
    callbacks of the connection call the client, and what the client calls in
    turn goes to the connection; a read calls the parser, which calls the client
    in any way, before its completion handler is called. *)

From Stdlib Require Import String ZArith List Bool Lia.
From S2P Require Import Prelude Cpp NetClient HttpClient Socks5 NetConnection NetFactory.
Import ListNotations.
Local Open Scope Z_scope.
Local Open Scope cpp_scope.

(** ** Delegates that remember

    A delegate of the client together with what it has been told. *)

Inductive report := Heads (h : header_map) | Piece (b : list Z) | Complete (code : Z).

Record heard (D : Type) : Type := mk_heard { told : list report; inner : D }.
Arguments mk_heard {D} told inner.
Arguments told {D} h.
Arguments inner {D} h.

Definition hearing {D O : Type} (r : report) (m : D -> outcome (D * list (delegate_call O))) (h : heard D)
  : outcome (heard D * list (delegate_call O)) :=
  let? x := m (inner h) in Ok (mk_heard (told h ++ [r]) (fst x), snd x).

#[export] Instance heard_delegate {D O : Type} `{HttpClientDelegate D O} : HttpClientDelegate (heard D) O := {
  OnHttpHeads h := hearing (Heads h) (OnHttpHeads h);
  OnHttpResponse b := hearing (Piece b) (OnHttpResponse b);
  OnHttpComplete code := hearing (Complete code) (OnHttpComplete code)
}.

(** ** Sessions *)

(** The calls the parser makes while it reads. *)
Inductive parser_call :=
| ParsedResponse (code : Z)
| ParsedField (name value : list Z)
| ParsedHeader
| ParsedBody (body : list Z)
| ParsedChunk (body : list Z)
| ParsedFinish.

Section Session.
Context {D O : Type} `{HttpClientDelegate D O}.
Variable lexical_cast_u64 : list Z -> option Z.
Variables (is_v4 is_v6 : list Z -> bool) (char_signed : bool) (set_sni_error : option Z).

Record session := mk_session {
  net : net_world;
  client : HttpConnectionBase;
  listener : heard D;
  user_calls : list O                (* the calls of the delegate to its user *)
}.

Definition set_net (w : net_world) (s : session) : session := mk_session w (client s) (listener s) (user_calls s).

(** The client [CreateHttpClient] gives, with its delegate. *)
Definition new_session (c : http_client) (d : D) : session :=
  let s := http_connection c in mk_session (new_net_world (cls s) (request_ s)) new_http (mk_heard [] d) [].

(** A call of the client to the connection or to the user.  [NotifyRecvData] is
    called by the completion handler of a read only, see [recv_complete_handler]. *)
Definition react (c : http_call O) (s : session) : outcome session :=
  match c with
  | NetConnect => Ok (set_net (exec Connect (net s)) s)
  | NetDisConnect => Ok (set_net (exec DisConnect (net s)) s)
  | NetSend b => Ok (set_net (exec (Send b) (request_send b (net s))) s)
  | NetNotifyRecvData _ _ => Undefined
  | BodyLimit _ => Ok s
  | Delegate o => Ok (mk_session (net s) (client s) (listener s) (user_calls s ++ [o]))
  end.

Fixpoint react_all (o : list (http_call O)) (s : session) : outcome session :=
  match o with
  | [] => Ok s
  | c :: o' => let? s' := react c s in react_all o' s'
  end.

Definition call_client (m : client_method (heard D) O) (s : session) : outcome session :=
  let? r := m (client s, listener s) in
  let '(c, d, o) := r in react_all o (mk_session (net s) c d (user_calls s)).

(** The callback of the connection that [c] is, if it is one. *)
Definition callback (c : net_call) : option (client_method (heard D) O) :=
  match c with
  | OnConnect code => Some (HttpClient.OnConnect code)
  | OnRecvData len => Some (HttpClient.OnRecvData len)
  | OnDisconnect code => Some (HttpClient.OnDisconnect code)
  | _ => None
  end.

Fixpoint deliver (o : list net_call) (s : session) : outcome session :=
  match o with
  | [] => Ok s
  | c :: o' =>
      match callback c with
      | Some m => let? s' := call_client m s in deliver o' s'
      | None => deliver o' s
      end
  end.

(** A method of the connection runs on [w]; its callbacks are made by the way.
    All a callback does to the connection is to post the sending of the request;
    the method posts nothing after such a callback, so that it makes no
    difference that the callbacks are made here when the method has returned. *)
Definition run_net (m : net_method) (w : net_world) (s : session) : outcome session :=
  deliver (snd (m (conn w))) (set_net (exec m w) s).

Definition parser_method (p : parser_call) : client_method (heard D) O :=
  match p with
  | ParsedResponse code => on_response_impl code
  | ParsedField name value => on_field_impl lexical_cast_u64 name value
  | ParsedHeader => on_header_impl
  | ParsedBody b => on_body_impl b
  | ParsedChunk b => on_chunk_body_impl b
  | ParsedFinish => on_finish_impl
  end.

Fixpoint parse (ps : list parser_call) (s : session) : outcome session :=
  match ps with
  | [] => Ok s
  | p :: ps' => let? s' := call_client (parser_method p) s in parse ps' s'
  end.

(** The completion handler of [DoRecvData], on a connection [w] from whose
    operations the read has been taken: what [recv_done] decides. *)
Definition recv_complete_handler (ec len : Z) (w : net_world) (s : session) : outcome session :=
  let? r := recv_done (O := O) ec len (client s, listener s) in
  match snd r with
  | [NetNotifyRecvData ec' len'] => run_net (NotifyRecvData ec' len') w s
  | _ => Ok (set_net w s)
  end.

Definition take_task (ts : list task) (w : net_world) : net_world :=
  mk_net_world (conn w) ts (pending w) (trace w) (requested w) (confirmed w).

Definition take_op (ps : list async_op) (w : net_world) : net_world :=
  mk_net_world (conn w) (tasks w) ps (trace w) (requested w) (confirmed w).

(** The end of a read of [data] with the calls of the parser before it. *)
Definition read_ends (ps : list parser_call) (ec : Z) (data : list Z) (rest : list async_op) (s : session)
  : outcome session :=
  let? s' := parse ps s in recv_complete_handler ec (zlen data) (take_op rest (net s')) s'.

(** What the user can do is [Request] and [Cancel]; the rest is up to the pump
    and to the network. *)
Inductive http_event :=
| UserRequest
| UserCancel
| RunTask
| OpEnds (i : nat) (ec : Z) (data : list Z)
| ReadEnds (i : nat) (ps : list parser_call) (ec : Z) (data : list Z).

Definition http_do (e : http_event) (s : session) : option (outcome session) :=
  match e with
  | UserRequest => Some (call_client Request s)
  | UserCancel => Some (call_client Cancel s)
  | RunTask =>
      match tasks (net s) with
      | t :: ts => Some (run_net (run_task t) (take_task ts (net s)) s)
      | [] => None
      end
  | OpEnds i ec data =>
      match nth_error (pending (net s)) i with
      | Some OpRecv | None => None
      | Some op =>
          let rest := firstn i (pending (net s)) ++ skipn (S i) (pending (net s)) in
          Some (run_net (complete is_v4 is_v6 char_signed set_sni_error op ec data)
                  (confirm op ec (take_op rest (net s))) s)
      end
  | ReadEnds i ps ec data =>
      match nth_error (pending (net s)) i with
      | Some OpRecv =>
          Some (read_ends ps ec data (firstn i (pending (net s)) ++ skipn (S i) (pending (net s))) s)
      | _ => None
      end
  end.

Inductive http_runs (s : session) : session -> Prop :=
| http_refl : http_runs s s
| http_more e s1 s2 : http_runs s s1 -> http_do e s1 = Some (Ok s2) -> http_runs s s2.

(** A run given by its events; [None] when one cannot happen. *)
Fixpoint http_play (es : list http_event) (s : session) : option (outcome session) :=
  match es with
  | [] => Some (Ok s)
  | e :: es' =>
      match http_do e s with
      | Some (Ok s') => http_play es' s'
      | r => r
      end
  end.
End Session.

Arguments session : clear implicits.
Arguments mk_session {D O}.
Arguments net {D O}.
Arguments client {D O}.
Arguments listener {D O}.
Arguments user_calls {D O}.
