(* ===== verification/HttpSessionSpec.v ===== *)
(** * What an HTTP client promises

    A session is a run of its connection, so all that holds of connections holds
    of it; and the client adds to it that a request is written for every
    connection made, and that it is answered. *)

From Stdlib Require Import String ZArith List Bool Lia.
From S2P Require Import Prelude Cpp HttpDefs HttpUrl NetClient HttpClient HttpClientSpec Socks5 NetConnection.
From S2P Require Import NetConnectionSpec NetConnectionOrder NetConnectionProgress NetFactory HttpSession.
Import ListNotations.
Local Open Scope Z_scope.
Local Open Scope cpp_scope.

(** ** Calls of the client *)

Definition is_success (c : net_call) : bool := match c with OnConnect code => code =? 0 | _ => false end.

Definition is_failure (c : net_call) : bool :=
  match c with OnConnect code => negb (code =? 0) | OnDisconnect _ => true | _ => false end.

(** Calls that leave the connection alone. *)
Definition local_call {O} (c : http_call O) : bool :=
  match c with Delegate _ | BodyLimit _ => true | _ => false end.

(** The buffer of a request. *)
Definition request_byte : list Z := bytes "1".

(** ** Methods of the connection *)

(** When the success of the connection is reported a read is started. *)
Definition opens_fact (s : NetConnectionImpl) (o : list net_call) (s' : NetConnectionImpl) : Prop :=
  In (OnConnect 0) o -> In (Start OpRecv) o.

#[export] Instance opens_transition : Transition opens_fact.
Proof. split; unfold opens_fact; [auto|]. intros s o1 s1 o2 s2. rewrite !in_app_iff. tauto. Qed.

Ltac run_opens :=
  unfold opens_fact; cbn; let Hi := fresh "Hi" in intros Hi;
  repeat match type of Hi with _ \/ _ => destruct Hi as [Hi|Hi]; try discriminate Hi end; auto 10; try congruence; contradiction.

Lemma opens_facts : block_facts opens_fact.
Proof. run_facts; run_opens. Qed.

Lemma opens_data : data_facts opens_fact.
Proof. split; intros; run_data; run_opens. Qed.

Section Methods.
Variables (is_v4 is_v6 : list Z -> bool) (char_signed : bool) (set_sni_error : option Z).
Context (R : NetConnectionImpl -> list net_call -> NetConnectionImpl -> Prop) `{!Transition R} (B : block_facts R).

Lemma task_fact t : (forall b, respects R (DoSendFromQueue b)) -> respects R (run_task t).
Proof. intros Hq. destruct t; try (apply respects_task; auto; reflexivity). apply Hq. Qed.

Lemma op_fact op ec data :
  (forall e, respects R (NotifySendComplete e)) -> op <> OpRecv ->
  respects R (complete is_v4 is_v6 char_signed set_sni_error op ec data).
Proof.
  intros Hs Hop. destruct op; try congruence; try (apply respects_complete; auto; reflexivity). apply Hs.
Qed.
End Methods.

Lemma no_callback_success t : existsb is_callback t = false -> filter is_success t = [] /\ ~ reports t.
Proof.
  unfold reports. induction t as [|c t IH]; cbn; [auto|]. intros [Hc Ht]%orb_false_iff.
  destruct c; try discriminate Hc; exact (IH Ht).
Qed.

Lemma map_const_repeat {A B} (b : B) (l : list A) : map (fun _ => b) l = repeat b (length l).
Proof. induction l as [|a l IH]; cbn; congruence. Qed.

(** A report is one of success or of failure. *)
Lemma report_cases t : reports t -> In (OnConnect 0) t \/ existsb is_failure t = true.
Proof.
  unfold reports. induction t as [|c t IH]; cbn; [discriminate|]. intros [Hc|Ht]%orb_true_iff.
  - destruct c as [| | | | | | | | |code| | |]; try discriminate Hc; cbn; [|auto].
    destruct (Z.eqb_spec code 0) as [->|_]; auto.
  - destruct (IH Ht) as [Hi|Hf]; [auto|]. right. rewrite Hf. apply orb_true_r.
Qed.

(** ** Calls between the two *)

Section Session.
Context {D O : Type} `{HttpClientDelegate D O}.
Variable lexical_cast_u64 : list Z -> option Z.
Variables (is_v4 is_v6 : list Z -> bool) (char_signed : bool) (set_sni_error : option Z).
Implicit Types (s : session D O) (o : list (http_call O)).

Abbreviation runs := (net_runs is_v4 is_v6 char_signed set_sni_error).
Abbreviation reached := (net_reachable is_v4 is_v6 char_signed set_sni_error).
Abbreviation hdo := (http_do lexical_cast_u64 is_v4 is_v6 char_signed set_sni_error).

Definition answered s : Prop := exists code, In (Complete code) (told (listener s)).

(** Nothing is forgotten, and the client stays as it is but for its code and
    headers. *)
Record kept s s' : Prop := {
  kp_complete : recv_complete (client s') = recv_complete (client s);
  kp_delegate : http_delegate_ (client s') = http_delegate_ (client s);
  kp_told : incl (told (listener s)) (told (listener s'));
  kp_silent : http_delegate_ (client s) = false -> listener s' = listener s
}.

Lemma kept_same s s' : client s' = client s -> listener s' = listener s -> kept s s'.
Proof. intros Hc Hl. split; rewrite ?Hc, ?Hl; auto using incl_refl. Qed.

Lemma kept_refl s : kept s s.
Proof. now apply kept_same. Qed.

Lemma kept_trans s1 s2 s3 : kept s1 s2 -> kept s2 s3 -> kept s1 s3.
Proof.
  intros [] []. split; [congruence.. | eapply incl_tran; eassumption|].
  intros Hd. rewrite kp_silent1 by congruence. auto.
Qed.

Lemma kept_answered s s' : kept s s' -> answered s -> answered s'.
Proof. intros Hk [code Hc]. exists code. apply (kp_told _ _ Hk), Hc. Qed.

Lemma react_local o s :
  forallb local_call o = true ->
  react_all o s = Ok (mk_session (net s) (client s) (listener s) (user_calls s ++ delegate_calls o)).
Proof.
  revert s. induction o as [|c o IH]; intros s; cbn [forallb react_all].
  - intros _. cbn. rewrite app_nil_r. destruct s. reflexivity.
  - intros [Hc Ho]%andb_true_iff. destruct c; try discriminate Hc; cbn [react outcome_bind]; rewrite IH by exact Ho.
    + reflexivity.
    + cbn. rewrite <- app_assoc. reflexivity.
Qed.

Lemma under_lock_local (l : list (delegate_call O)) o : under_lock l = Ok o -> forallb local_call o = true.
Proof.
  revert o. induction l as [|[|x] l IH]; intros o; cbn; [intros Hx; injection Hx as <-; reflexivity | discriminate|].
  destruct (under_lock l) as [o'| |]; cbn; try discriminate. intros Hx. injection Hx as <-. cbn. auto.
Qed.

(** A callback of the delegate, under its lock. *)
Lemma notify_hearing r (m : D -> outcome (D * list (delegate_call O))) c h c' h' o :
  notify (hearing r m) (c, h) = Ok (c', h', o) ->
  c' = c /\ forallb local_call o = true /\ told h' = told h ++ (if http_delegate_ c then [r] else []) /\
  (http_delegate_ c = false -> h' = h).
Proof.
  unfold notify, hearing. destruct (http_delegate_ c).
  - destruct (m (inner h)) as [[d l]| |]; cbn; try discriminate. destruct (under_lock l) as [o'| |] eqn:E; cbn; try discriminate.
    intros Hx. injection Hx as <- <- <-. repeat split; [exact (under_lock_local _ _ E) | discriminate].
  - intros Hx. injection Hx as <- <- <-. rewrite app_nil_r. auto.
Qed.

(** A method of the client that only talks to the delegate. *)
Definition talks (m : client_method (heard D) O) : Prop :=
  forall c h c' h' o, m (c, h) = Ok (c', h', o) ->
  forallb local_call o = true /\ http_delegate_ c' = http_delegate_ c /\ incl (told h) (told h') /\
  (http_delegate_ c = false -> h' = h).

Lemma talks_notify r (m : D -> outcome (D * list (delegate_call O))) : talks (notify (hearing r m)).
Proof.
  intros c h c' h' o E. apply notify_hearing in E as (-> & Ho & -> & Hs). split; [exact Ho|]. split; [reflexivity|].
  split; [apply incl_appl, incl_refl | exact Hs].
Qed.

Lemma talks_parser p : talks (parser_method lexical_cast_u64 p).
Proof.
  destruct p as [code|name value| |b|b|]; cbn [parser_method]; try (apply talks_notify).
  - intros c h c' h' o E. injection E as <- <- <-. repeat split. apply incl_refl.
  - intros c h c' h' o. unfold on_field_impl. destruct (bytes_eqb _ _); [destruct (lexical_cast_u64 value) as [n|]; [|discriminate]|];
      intros E; injection E as <- <- <-; repeat split; try apply incl_refl. destruct (n =? 0); reflexivity.
  - intros c h c' h' o. unfold on_header_impl. apply (talks_notify (Heads (heads_ c))).
  - intros c h c' h' o. unfold on_finish_impl, NotifyComplete.
    destruct (notify (OnHttpComplete (http_code_ c)) (c, h)) as [[[c1 d1] o1]| |] eqn:E; try discriminate.
    intros Hx. injection Hx as <- <- <-. apply (talks_notify (Complete (http_code_ c))) in E. exact E.
Qed.

Lemma call_talks m s s' :
  talks m -> call_client m s = Ok s' ->
  net s' = net s /\ http_delegate_ (client s') = http_delegate_ (client s) /\ incl (told (listener s)) (told (listener s')) /\
  (http_delegate_ (client s) = false -> listener s' = listener s).
Proof.
  intros Hm. unfold call_client. destruct (m (client s, listener s)) as [[[c h] o]| |] eqn:E; try discriminate.
  apply Hm in E as (Ho & Hd & Ht & Hs). cbn. rewrite react_local by exact Ho. intros Hx. injection Hx as <-. auto.
Qed.

(** ** Callbacks of the connection *)

Lemma net_runs_trans w1 w2 w3 : runs w1 w2 -> runs w2 w3 -> runs w1 w3.
Proof. intros H1. induction 1 as [|w w' _ IH Hs]; [exact H1 | eapply net_more; eassumption]. Qed.

Lemma net_runs_one w w' : net_step is_v4 is_v6 char_signed set_sni_error w w' -> runs w w'.
Proof. intros Hs. eapply net_more; [constructor | exact Hs]. Qed.

Lemma send_exec b w :
  exec (Send b) (request_send b w) =
  mk_net_world (conn w) (tasks w ++ (if stoped_ (conn w) then [] else [TaskDoSendFromQueue b])) (pending w)
    (trace w ++ (if stoped_ (conn w) then [] else [PostRunable (TaskDoSendFromQueue b)]))
    (requested w ++ (if stoped_ (conn w) then [] else [b])) (confirmed w).
Proof.
  unfold exec, Send, reading, request_send. cbn [conn]. destruct (stoped_ (conn w)); cbn; rewrite ?app_nil_r; reflexivity.
Qed.

(** What the callbacks among [o] lead to. *)
Record delivered (o : list net_call) s s' : Prop := {
  dv_runs : runs (net s) (net s');
  dv_kept : kept s s';
  dv_answer : http_delegate_ (client s) = true -> existsb is_failure o = true -> answered s';
  dv_conn : conn (net s') = conn (net s);
  dv_pending : pending (net s') = pending (net s);
  dv_trace : exists t, trace (net s') = trace (net s) ++ t /\ existsb is_callback t = false;
  dv_requested : stoped_ (conn (net s)) = false ->
    requested (net s') = requested (net s) ++ map (fun _ => request_byte) (filter is_success o)
}.

(** The client reports the end with its code. *)
Lemma complete_reports s s' c :
  recv_complete c = recv_complete (client s) -> http_delegate_ c = http_delegate_ (client s) ->
  (let? r := NotifyComplete (c, listener s) in
   let '(c', d, o) := r in react_all o (mk_session (net s) c' d (user_calls s))) = Ok s' ->
  net s' = net s /\ kept s s' /\ (http_delegate_ (client s) = true -> answered s').
Proof.
  intros H1 H2. destruct (NotifyComplete (c, listener s)) as [[[c' h'] o]| |] eqn:E; try discriminate.
  apply (notify_hearing (Complete (http_code_ c))) in E as (-> & Ho & Ht & Hs). cbn [outcome_bind].
  rewrite react_local by exact Ho. intros Hx. injection Hx as <-. split; [reflexivity|]. split.
  - split; cbn; [exact H1 | exact H2 | rewrite Ht; apply incl_appl, incl_refl | rewrite <- H2; exact Hs].
  - intros Hd. exists (http_code_ c). cbn. rewrite Ht, H2, Hd. apply in_app_iff. cbn. auto.
Qed.

Lemma deliver_one c m s s' :
  callback c = Some m -> call_client m s = Ok s' -> delivered [c] s s'.
Proof.
  assert (forall t : session D O, exists t0, trace (net t) = trace (net t) ++ t0 /\ existsb is_callback t0 = false) as Hn.
  { intros t. exists []. rewrite app_nil_r. auto. }
  assert (forall c', net s' = net s /\ kept s s' /\ (http_delegate_ (client s) = true -> answered s') ->
            filter is_success [c'] = [] -> delivered [c'] s s') as Hq.
  { intros c' (Hw & Hk & Ha) Hs. split; rewrite ?Hw; auto; [constructor|].
    intros _. rewrite Hs. cbn. rewrite app_nil_r. reflexivity. }
  destruct c as [| | | | | | | | |code|len|code|]; try discriminate; intros Hc; injection Hc as <-.
  - unfold call_client, HttpClient.OnConnect. destruct (Z.eqb_spec code 0) as [->|Hz].
    + cbn [outcome_bind react_all react]. intros Hx. injection Hx as <-.
      split; cbn [net set_net client listener]; try reflexivity; try discriminate.
      * apply net_runs_one, net_send.
      * now apply kept_same.
      * rewrite send_exec. reflexivity.
      * rewrite send_exec. reflexivity.
      * rewrite send_exec. eexists. split; [reflexivity|]. destruct (stoped_ _); reflexivity.
      * intros Hs. rewrite send_exec. cbn. rewrite Hs. reflexivity.
    + intros Hx. apply Hq; [|cbn; apply Z.eqb_neq in Hz; rewrite Hz; reflexivity].
      eapply complete_reports; [| |exact Hx]; reflexivity.
  - unfold call_client, HttpClient.OnRecvData. cbn [outcome_bind react_all]. intros Hx. injection Hx as <-.
    split; cbn; auto; [constructor | now apply kept_same | discriminate|].
    intros _. rewrite app_nil_r. reflexivity.
  - unfold call_client, HttpClient.OnDisconnect. intros Hx. apply Hq; [|reflexivity].
    eapply complete_reports; [| |exact Hx]; reflexivity.
Qed.

Lemma delivered_app (o1 o2 : list net_call) s1 s2 s3 : delivered o1 s1 s2 -> delivered o2 s2 s3 -> delivered (o1 ++ o2) s1 s3.
Proof.
  intros [R1 K1 A1 C1 P1 (t1 & T1 & B1) Q1] [R2 K2 A2 C2 P2 (t2 & T2 & B2) Q2]. split.
  - eapply net_runs_trans; eassumption.
  - eapply kept_trans; eassumption.
  - intros Hd. rewrite existsb_app. intros [Hf|Hf]%orb_true_iff.
    + eapply kept_answered; [exact K2 | auto].
    + apply A2; [rewrite (kp_delegate _ _ K1); exact Hd | exact Hf].
  - congruence.
  - congruence.
  - exists (t1 ++ t2). rewrite T2, T1, app_assoc, existsb_app, B1, B2. auto.
  - intros Hs. rewrite filter_app, map_app, app_assoc, <- Q1 by exact Hs. apply Q2. rewrite C1. exact Hs.
Qed.

Lemma deliver_ok (o : list net_call) s s' : deliver o s = Ok s' -> delivered o s s'.
Proof.
  revert s. induction o as [|c o IH]; intros s; cbn [deliver].
  - intros Hx. injection Hx as <-. split; auto using kept_refl; [constructor | discriminate | | intros _; cbn; now rewrite app_nil_r].
    exists []. rewrite app_nil_r. auto.
  - destruct (callback c) as [m|] eqn:Ec.
    + destruct (call_client m s) as [s1| |] eqn:E; try discriminate. cbn [outcome_bind]. intros Hx.
      apply (delivered_app [c] o s s1 s'); [eapply deliver_one; eassumption | apply IH, Hx].
    + intros Hx. apply IH in Hx as [R K A C P T Q].
      destruct c; try discriminate Ec; split; auto.
Qed.

Lemma deliver_none (o : list net_call) s : existsb is_callback o = false -> deliver o s = Ok s.
Proof.
  induction o as [|c o IH]; cbn; [reflexivity|]. intros [Hc Ho]%orb_false_iff.
  destruct c; try discriminate Hc; cbn; exact (IH Ho).
Qed.

Lemma net_recv_over' w pre suf :
  is_http (cls (conn w)) = true -> pending w = pre ++ OpRecv :: suf ->
  net_step is_v4 is_v6 char_signed set_sni_error w (take_op (pre ++ suf) w).
Proof.
  intros Hh Hp. pose proof (net_recv_over is_v4 is_v6 char_signed set_sni_error w pre suf Hh Hp) as Hs.
  erewrite exec_eq in Hs by reflexivity. cbn in Hs. rewrite !app_nil_r in Hs. exact Hs.
Qed.

(** ** The invariant *)

Record session_inv s : Prop := {
  si_delegate : http_delegate_ (client s) = delegate_ (conn (net s));
  si_complete : http_delegate_ (client s) = true -> recv_complete (client s) = true -> answered s;
  si_read : http_delegate_ (client s) = true -> reports (trace (net s)) -> answered s \/ In OpRecv (pending (net s));
  si_requests : requested (net s) = map (fun _ => request_byte) (filter is_success (trace (net s)))
}.

(** A method of the connection keeps it, if it starts another read or reports a
    failure where [w] lacks the read. *)
Lemma run_net_inv m w s s' c r :
  respects silent_fact m -> respects opens_fact m -> reached c r (net s) -> session_inv s ->
  conn w = conn (net s) -> trace w = trace (net s) -> requested w = requested (net s) ->
  (http_delegate_ (client s) = true -> reports (trace (net s)) -> answered s \/ In OpRecv (pending w) \/
     In (Start OpRecv) (snd (m (conn w))) \/ existsb is_failure (snd (m (conn w))) = true) ->
  run_net m w s = Ok s' -> session_inv s' /\ runs (exec m w) (net s').
Proof.
  intros Hm1 Hm2 Hr [I1 I2 I3 I4] Hc Ht Hq Hread. unfold run_net. destruct (m (conn w)) as [n o] eqn:E.
  rewrite (exec_eq _ _ _ _ E). cbn [snd] in *. pose proof (Hm2 _ _ _ E) as Ho. unfold opens_fact in Ho. pose proof (Hm1 _ _ _ E) as (Ed & Es & Eq).
  set (s1 := set_net _ s). intros Hx. pose proof (deliver_ok _ _ _ Hx) as [R K A C P (t & T & Bt) Q].
  destruct (no_callback_success t Bt) as [Ft Rt]. pose proof (reached_delegate _ _ _ _ _ _ _ Hr) as Hd. rewrite Hc in *.
  assert (client s1 = client s) as Hs1 by reflexivity. rewrite Hs1 in *.
  pose proof (kp_delegate _ _ K) as Kd. rewrite Hs1 in Kd.
  split; [|exact R]. split.
  - rewrite Kd, C. cbn. rewrite Ed. exact I1.
  - rewrite Kd, (kp_complete _ _ K), Hs1. intros H1 H2. apply (kept_answered s1 s' K). exact (I2 H1 H2).
  - rewrite Kd, T, P. cbn [s1 set_net net trace pending]. intros H1 Hrep. rewrite in_app_iff.
    assert (existsb is_failure o = true -> answered s') as Ha by (apply A; exact H1).
    assert (In (Start OpRecv) o -> In OpRecv (started_ops o)) as Hst by apply in_started.
    apply reports_app in Hrep as [[Hrep|Hrep]%reports_app|Hrep]; [|apply report_cases in Hrep; tauto|contradiction].
    rewrite Ht in Hrep. destruct (Hread H1 Hrep) as [Ha'|Hrest]; [|tauto]. left. exact (kept_answered s1 s' K Ha').
  - rewrite T. cbn [s1 set_net net trace]. rewrite !filter_app, Ft, app_nil_r, map_app.
    destruct (delegate_ (conn (net s))) eqn:Ed'.
    + symmetry in Hd. apply negb_true_iff in Hd. rewrite Q by (cbn; rewrite Es; exact Hd).
      cbn. rewrite Hq, I4, Ht. reflexivity.
    + specialize (Eq eq_refl). rewrite (deliver_none o s1 Eq) in Hx. injection Hx as <-.
      destruct (no_callback_success o Eq) as [-> _]. cbn. rewrite app_nil_r, Hq, I4, Ht. reflexivity.
Qed.

(** ** Steps *)

Lemma some_eq {A} (a b : A) : Some a = Some b -> a = b.
Proof. congruence. Qed.

(** The message is complete only when the delegate has been told. *)
Lemma parser_complete p c h c' h' o :
  parser_method lexical_cast_u64 p (c, h) = Ok (c', h', o) -> recv_complete c' = true ->
  recv_complete c = true \/ (http_delegate_ c = true -> In (Complete (http_code_ c)) (told h')).
Proof.
  destruct p as [code|name value| |b|b|]; cbn [parser_method].
  - intros E. injection E as <- <- <-. auto.
  - unfold on_field_impl. destruct (bytes_eqb _ _); [destruct (lexical_cast_u64 value) as [n|]; [|discriminate]|];
      intros E; injection E as <- <- <-; auto.
  - intros E. apply (notify_hearing (Heads (heads_ c))) in E as (-> & _). auto.
  - intros E. apply (notify_hearing (Piece b)) in E as (-> & _). auto.
  - intros E. apply (notify_hearing (Piece b)) in E as (-> & _). auto.
  - unfold on_finish_impl, NotifyComplete.
    destruct (notify (OnHttpComplete (http_code_ c)) (c, h)) as [[[c1 d1] o1]| |] eqn:E; try discriminate.
    intros Hx _. injection Hx as <- <- <-. apply (notify_hearing (Complete (http_code_ c))) in E as (_ & _ & -> & _).
    right. intros ->. apply in_app_iff. cbn. auto.
Qed.

Lemma parse_inv ps s s' : parse lexical_cast_u64 ps s = Ok s' -> session_inv s -> net s' = net s /\ session_inv s'.
Proof.
  revert s. induction ps as [|p ps IH]; intros s; cbn [parse]; [intros Hx; injection Hx as <-; auto|].
  destruct (call_client (parser_method lexical_cast_u64 p) s) as [s1| |] eqn:E; try discriminate. cbn [outcome_bind].
  intros Hx [I1 I2 I3 I4]. destruct (call_talks _ _ _ (talks_parser p) E) as (Hn & Hd & Ht & _).
  rewrite <- Hn. apply IH; [exact Hx|].
  assert (answered s -> answered s1) as Ha by (intros [code Hc]; exists code; apply Ht, Hc).
  split; rewrite ?Hn, ?Hd; auto; [|intros H1 H2; destruct (I3 H1 H2); auto].
  intros H1 H2. unfold call_client in E.
  destruct (parser_method lexical_cast_u64 p (client s, listener s)) as [[[c h] o]| |] eqn:Ep; try discriminate.
  cbn [outcome_bind] in E. rewrite react_local in E by apply (talks_parser _ _ _ _ _ _ Ep). injection E as <-.
  destruct (parser_complete _ _ _ _ _ _ Ep H2) as [Hc|Hc]; [auto|]. exists (http_code_ (client s)). exact (Hc H1).
Qed.

Lemma in_rest {A} (l : list A) i x y : nth_error l i = Some y -> In x l -> x <> y -> In x (firstn i l ++ skipn (S i) l).
Proof.
  intros Hi Hx Hn. apply nth_error_split in Hi as (l1 & l2 & -> & <-).
  replace (firstn (length l1) (l1 ++ y :: l2)) with l1 by (rewrite firstn_app, Nat.sub_diag, firstn_all; cbn; now rewrite app_nil_r).
  replace (skipn (S (length l1)) (l1 ++ y :: l2)) with l2.
  - apply in_app_iff. apply in_app_iff in Hx as [Hx|[Hx|Hx]]; [auto | congruence | auto].
  - rewrite skipn_app, skipn_all2 by lia. replace (S (length l1) - length l1)%nat with 1%nat by lia. reflexivity.
Qed.

Lemma rest_split {A} (l : list A) i y :
  nth_error l i = Some y -> l = firstn i l ++ y :: skipn (S i) l.
Proof.
  revert i. induction l as [|x l IH]; intros [|i]; cbn; try discriminate.
  - intros E. injection E as ->. reflexivity.
  - intros E. f_equal. exact (IH i E).
Qed.

(** A read ends: the message is complete, another read starts, or the failure is
    reported. *)
Lemma recv_inv ec len w s s' c r :
  reached c r (net s) -> session_inv s -> conn w = conn (net s) -> trace w = trace (net s) ->
  requested w = requested (net s) -> recv_complete_handler ec len w s = Ok s' ->
  session_inv s' /\ (if recv_complete (client s) then net s' = w else runs (exec (NotifyRecvData ec len) w) (net s')).
Proof.
  intros Hr Hi Hc Ht Hq. unfold recv_complete_handler, recv_done. cbn [outcome_bind snd].
  destruct (recv_complete (client s)) eqn:Ec.
  - intros Hx. injection Hx as <-. split; [|reflexivity]. destruct Hi as [I1 I2 I3 I4].
    split; cbn [net client set_net]; rewrite ?Hc, ?Ht, ?Hq; auto.
  - intros Hx. eapply run_net_inv; eauto; [apply silent_data; eauto | apply opens_data|].
    intros Hd _. rewrite Hc. unfold NotifyRecvData, HandleRecvData, NotifyDisconnect, DoRecvData, andthen, reading, emit.
    destruct (ec =? 0); cbn [negb]; cbv beta; rewrite <- (si_delegate _ Hi), Hd; [cbn; auto 10|].
    destruct (HandleCleanUp _) as [n o]. cbn. auto.
Qed.

(** The user asks for the page, or no longer wants it. *)
Lemma request_inv s s' : call_client Request s = Ok s' -> session_inv s -> session_inv s' /\ runs (net s) (net s').
Proof.
  unfold call_client, Request. cbn [outcome_bind react_all react]. intros Hx [I1 I2 I3 I4]. injection Hx as <-.
  split; [|apply net_runs_one, net_connect].
  split; cbn [client net set_net listener]; erewrite exec_eq by reflexivity; cbn; auto.
  - intros H1 Hr. rewrite app_nil_r. apply I3; [exact H1|]. apply reports_app in Hr as [Hr|Hr]; [exact Hr | discriminate].
  - rewrite filter_app. cbn. rewrite app_nil_r. exact I4.
Qed.

Lemma cancel_inv s s' c r :
  reached c r (net s) -> call_client Cancel s = Ok s' -> session_inv s -> session_inv s' /\ runs (net s) (net s').
Proof.
  intros Hr. unfold call_client, Cancel. cbn [outcome_bind react_all react]. intros Hx [I1 I2 I3 I4]. injection Hx as <-.
  split; [|apply net_runs_one, net_disconnect]. pose proof (reached_delegate _ _ _ _ _ _ _ Hr) as Hd.
  split; cbn [client net set_net listener http_delegate_]; try discriminate;
    erewrite exec_eq by apply surjective_pairing; rewrite disconnect_eq; destruct (stoped_ (conn (net s))) eqn:E; cbn; auto.
  - rewrite app_nil_r. exact I4.
  - rewrite filter_app. cbn. rewrite app_nil_r. exact I4.
Qed.

(** Every event keeps the invariant and is a run of the connection. *)
Lemma do_inv e s s' c r :
  is_http c = true -> reached c r (net s) -> session_inv s -> hdo e s = Some (Ok s') ->
  session_inv s' /\ runs (net s) (net s').
Proof.
  intros Hh Hr Hi. destruct e as [| | |i ec data|i ps ec data]; cbn [http_do].
  - intros Hx. apply some_eq in Hx. apply request_inv; assumption.
  - intros Hx. apply some_eq in Hx. eapply cancel_inv; eassumption.
  - destruct (tasks (net s)) as [|t ts] eqn:Et; [discriminate|]. intros Hx. apply some_eq in Hx.
    destruct (run_net_inv (run_task t) (take_task ts (net s)) s s' c r) as [Hi' Hn]; auto.
    + apply task_fact; [apply silent_transition | apply silent_facts|]. intros b. apply silent_data. eauto 10.
    + apply task_fact; [apply opens_transition | apply opens_facts | apply opens_data].
    + intros H1 H2. destruct (si_read _ Hi H1 H2); auto.
    + split; [exact Hi'|]. eapply net_runs_trans; [apply net_runs_one, (net_task _ _ _ _ _ t ts Et) | exact Hn].
  - destruct (nth_error (pending (net s)) i) as [op|] eqn:Ei; [|discriminate].
    assert (match op with OpRecv => op = OpRecv | _ => op <> OpRecv end) as Hop by (destruct op; congruence).
    destruct op; try discriminate; intros Hx; apply some_eq in Hx;
    (match type of Hx with run_net ?m ?w s = Ok s' => destruct (run_net_inv m w s s' c r) as [Hi' Hn]; auto end;
     [ apply op_fact; [apply silent_transition | apply silent_facts | intros e; apply silent_data; eauto 10 | exact Hop]
     | apply op_fact; [apply opens_transition | apply opens_facts | apply opens_data | exact Hop]
     | intros H1 H2; destruct (si_read _ Hi H1 H2) as [Ha|Hp]; [auto|]; right; left; exact (in_rest _ _ _ _ Ei Hp (not_eq_sym Hop))
     | split; [exact Hi'|]; eapply net_runs_trans; [apply net_runs_one, net_complete, (rest_split _ _ _ Ei) | exact Hn]]).
  - destruct (nth_error (pending (net s)) i) as [op|] eqn:Ei; [|discriminate]. destruct op; try discriminate.
    intros Hx. apply some_eq in Hx. unfold read_ends in Hx.
    destruct (parse lexical_cast_u64 ps s) as [s1| |] eqn:Ep; try discriminate. cbn [outcome_bind] in Hx.
    destruct (parse_inv _ _ _ Ep Hi) as [Hn Hi1]. rewrite <- Hn in *.
    destruct ((fun A B C => recv_inv _ _ _ _ _ c r Hr Hi1 A B C Hx) eq_refl eq_refl eq_refl) as [Hi' Hs]. split; [exact Hi'|].
    destruct (recv_complete (client s1)).
    + rewrite Hs. apply net_runs_one. eapply net_recv_over'; [|exact (rest_split _ _ _ Ei)].
      destruct (no_fatal _ _ _ _ _ _ _ Hr) as (-> & _). exact Hh.
    + eapply net_runs_trans; [|exact Hs]. apply net_runs_one.
      pose proof (net_complete is_v4 is_v6 char_signed set_sni_error _ _ _ _ ec data (rest_split _ _ _ Ei)) as Hst.
      unfold confirm in Hst. cbn [conn tasks pending trace requested confirmed complete] in Hst.
      rewrite app_nil_r in Hst. exact Hst.
Qed.
(** ** After [Cancel] *)

Lemma parse_silent ps s s' :
  parse lexical_cast_u64 ps s = Ok s' -> http_delegate_ (client s) = false ->
  http_delegate_ (client s') = false /\ listener s' = listener s.
Proof.
  revert s. induction ps as [|p ps IH]; intros s; cbn [parse]; [intros Hx; injection Hx as <-; auto|].
  destruct (call_client (parser_method lexical_cast_u64 p) s) as [s1| |] eqn:E; try discriminate. cbn [outcome_bind].
  intros Hx Hd. destruct (call_talks _ _ _ (talks_parser p) E) as (_ & Hd1 & _ & Hl).
  rewrite <- (Hl Hd). apply IH; [exact Hx | congruence].
Qed.

Lemma run_net_silent m w s s' :
  run_net m w s = Ok s' -> http_delegate_ (client s) = false ->
  http_delegate_ (client s') = false /\ listener s' = listener s.
Proof.
  intros Hx Hd. apply deliver_ok in Hx as [_ K _ _ _ _ _].
  split; [rewrite (kp_delegate _ _ K); exact Hd | exact (kp_silent _ _ K Hd)].
Qed.

Lemma do_silent e s s' :
  hdo e s = Some (Ok s') -> http_delegate_ (client s) = false ->
  http_delegate_ (client s') = false /\ listener s' = listener s.
Proof.
  destruct e as [| | |i ec data|i ps ec data]; cbn [http_do]; intros Hx Hd.
  - injection Hx as <-. auto.
  - injection Hx as <-. auto.
  - destruct (tasks (net s)); [discriminate|]. apply some_eq in Hx. exact (run_net_silent _ _ _ _ Hx Hd).
  - destruct (nth_error (pending (net s)) i) as [op|]; [|discriminate].
    destruct op; try discriminate; apply some_eq in Hx; exact (run_net_silent _ _ _ _ Hx Hd).
  - destruct (nth_error (pending (net s)) i) as [[]|]; try discriminate. apply some_eq in Hx. unfold read_ends in Hx.
    destruct (parse lexical_cast_u64 ps s) as [s1| |] eqn:Ep; try discriminate. cbn [outcome_bind] in Hx.
    destruct (parse_silent _ _ _ Ep Hd) as [Hd1 Hl]. rewrite <- Hl. unfold recv_complete_handler, recv_done in Hx.
    cbn [outcome_bind snd] in Hx. destruct (recv_complete (client s1)); [injection Hx as <-; auto|].
    exact (run_net_silent _ _ _ _ Hx Hd1).
Qed.

Lemma runs_silent s s' :
  http_runs lexical_cast_u64 is_v4 is_v6 char_signed set_sni_error s s' -> http_delegate_ (client s) = false ->
  http_delegate_ (client s') = false /\ listener s' = listener s.
Proof.
  induction 1 as [|e s1 s2 _ IH He]; [auto|]. intros Hd. destruct (IH Hd) as [Hd1 <-]. exact (do_silent e s1 s2 He Hd1).
Qed.

(** ** Sessions *)

Lemma new_session_inv c d : session_inv (new_session c d).
Proof. destruct c; split; try reflexivity; discriminate. Qed.

Lemma http_is_http c : is_http (cls (http_connection c)) = true.
Proof. destruct c; reflexivity. Qed.

(** A session is a run of its connection. *)
Lemma http_runs_inv c d s :
  http_runs lexical_cast_u64 is_v4 is_v6 char_signed set_sni_error (new_session c d) s ->
  session_inv s /\ reached (cls (http_connection c)) (request_ (http_connection c)) (net s).
Proof.
  induction 1 as [|e s1 s2 _ [Hi Hr] He]; [split; [apply new_session_inv | constructor]|].
  destruct (do_inv e s1 s2 _ _ (http_is_http c) Hr Hi He) as [Hi' Hn].
  split; [exact Hi'|]. eapply net_runs_trans; eassumption.
Qed.
End Session.

Lemma http_play_runs {D O} `{HttpClientDelegate D O} lexical_cast_u64 is_v4 is_v6 char_signed sni es s s' :
  http_play (D := D) (O := O) lexical_cast_u64 is_v4 is_v6 char_signed sni es s = Some (Ok s') ->
  http_runs lexical_cast_u64 is_v4 is_v6 char_signed sni s s'.
Proof.
  revert s'. induction es as [|e es IH] using rev_ind; intros s'.
  - intros Hx. injection Hx as <-. constructor.
  - intros Hx. assert (forall l t, http_play lexical_cast_u64 is_v4 is_v6 char_signed sni (l ++ [e]) t = Some (Ok s') ->
      exists t', http_play lexical_cast_u64 is_v4 is_v6 char_signed sni l t = Some (Ok t') /\
                 http_do lexical_cast_u64 is_v4 is_v6 char_signed sni e t' = Some (Ok s')) as Hl.
    { clear. induction l as [|e' l IH]; intros t; cbn [app http_play].
      - intros E. exists t. split; [reflexivity|]. destruct (http_do _ _ _ _ _ e t) as [[t'| |]|]; congruence.
      - destruct (http_do _ _ _ _ _ e' t) as [[t'| |]|]; try discriminate. apply IH. }
    apply Hl in Hx as (t & Ht & He). eapply http_more; [apply IH, Ht | exact He].
Qed.

Lemma created_request `{BuildConfig} q c :
  CreateHttpClient q = Created c -> nr_proxy_host (request_ (http_connection c)) = cr_proxy_host q.
Proof.
  assert (forall h p t path, make_client q h p t path = Created c ->
            nr_proxy_host (request_ (http_connection c)) = cr_proxy_host q) as Hm.
  { intros h p [] path E; injection E as <-; reflexivity. }
  unfold CreateHttpClient. intros E. repeat case_match_hyp E; try discriminate; eapply Hm, E.
Qed.

(** C35: A request is answered.  For every client that [CreateHttpClient] gives
    for a request without a proxy, whatever its delegate does and whatever the
    network and the parser do: when [Request] was called, and no closure and no
    operation is left, the delegate has been told of the end, unless the request
    was cancelled. *)
Theorem http_request_answered `{BuildConfig} {D O} `{HttpClientDelegate D O} lexical_cast_u64 is_v4 is_v6 char_signed sni
  q c (d : D) (s : session D O) :
  CreateHttpClient q = Created c -> cr_proxy_host q = [] ->
  http_runs lexical_cast_u64 is_v4 is_v6 char_signed sni (new_session c d) s ->
  asked (net s) -> tasks (net s) = [] -> pending (net s) = [] -> http_delegate_ (client s) = true ->
  answered s.
Proof.
  intros Hc Hp Hr Ha Ht Hq Hd. destruct (http_runs_inv _ _ _ _ _ _ _ _ Hr) as [Hi Hn].
  destruct (created_fits _ (created_http q c Hc)) as [Hf Hs]. rewrite Hs in Hf. rewrite <- (created_request q c Hc) in Hp.
  destruct (reached_progress _ _ _ _ _ _ _ Hf Hp Hn) as [_ Hw].
  destruct Hw as [Hrep|Hy]; [rewrite <- (si_delegate _ Hi); exact Hd | exact Ha | |].
  - destruct (si_read _ Hi Hd Hrep) as [Hans|Hin]; [exact Hans|]. rewrite Hq in Hin. contradiction.
  - unfold on_the_way in Hy. rewrite Ht, Hq in Hy. destruct Hy; contradiction.
Qed.

(** ** A session that ends well *)

#[local] Instance any_file : HttpClientDelegate HttpDownloaderImpl download_call :=
  downloader_delegate read_digits true (fun _ _ => true).

Definition page_request : HttpClientRequest := sample_request (bytes "http://example.org/page").

Definition page_client : http_client :=
  HttpClientImpl (mk_net_request (bytes "example.org") (Some 80) kNetTypeHttp (bytes "/page") [] 0 [] []).

Definition page_run (es : list http_event) : option (outcome (session HttpDownloaderImpl download_call)) :=
  http_play read_digits no_literal no_literal true None es (new_session page_client new_downloader).

(** Up to the request: resolved, connected and written. *)
Definition page_asked : list http_event :=
  [UserRequest; RunTask; RunTask; OpEnds 0 0 []; RunTask; OpEnds 0 0 []; RunTask; OpEnds 1 0 []].

(** The head of a response of five bytes, and the first two of them. *)
Definition page_begins : list parser_call :=
  [ParsedResponse 200; ParsedField (bytes "Content-Length") (bytes "5"); ParsedHeader; ParsedBody (bytes "he")].

Definition page_cut : list http_event := page_asked ++ [ReadEnds 0 page_begins 0 (bytes "head he")].

Definition page_whole : list http_event :=
  page_asked ++ [ReadEnds 0 page_begins 0 (bytes "head he"); ReadEnds 0 [ParsedBody (bytes "llo"); ParsedFinish] 0 (bytes "llo")].

(** The session after events that can happen. *)
Definition session_after (es : list http_event) : session HttpDownloaderImpl download_call :=
  match page_run es with Some (Ok s) => s | _ => new_session page_client new_downloader end.

Lemma session_after_runs es :
  match page_run es with Some (Ok _) => True | _ => False end ->
  http_runs read_digits no_literal no_literal true None (new_session page_client new_downloader) (session_after es).
Proof.
  unfold session_after. destruct (page_run es) as [[s| |]|] eqn:E; try contradiction. intros _. exact (http_play_runs _ _ _ _ _ _ _ _ E).
Qed.

Lemma http_request_answered_witness :
  (file_content (inner (listener (session_after page_whole))) = bytes "hello" /\
   user_calls (session_after page_whole) =
     [OnStartDownload; OnDownloadProgress 2 5; OnDownloadProgress 5 5; OnDownloadComplte 0]) /\
  exists code, In (Complete code) (told (listener (session_after page_whole))).
Proof.
  split; [split; vm_compute; reflexivity|].
  refine (http_request_answered read_digits no_literal no_literal true None page_request page_client new_downloader
            (session_after page_whole) _ eq_refl (session_after_runs page_whole _) _ _ _ _).
  - vm_compute. reflexivity.
  - vm_compute. exact I.
  - vm_compute. left. reflexivity.
  - vm_compute. reflexivity.
  - vm_compute. reflexivity.
  - vm_compute. reflexivity.
Defined.

(** ** What is written *)

Definition successes (t : list net_call) : nat := length (filter is_success t).

(** C14: What a client writes and says.  It writes its request at most once for each
    success of its connection, one after the other, and when nothing is left to do
    and the connection is up, exactly once for each.  [Cancel] can be called at any
    time by its user; from then on the delegate hears nothing more, whatever the
    pump, the network and the parser do. *)
Theorem http_request_written {D O} `{HttpClientDelegate D O} lexical_cast_u64 is_v4 is_v6 char_signed sni c (d : D)
  (s : session D O) :
  http_runs lexical_cast_u64 is_v4 is_v6 char_signed sni (new_session c d) s ->
  (exists rest, started_writes (net s) ++ rest = repeat request_byte (successes (trace (net s)))) /\
  (already_clean_up (conn (net s)) = false -> in_flight (net s) = [] -> tasks (net s) = [] ->
   confirmed (net s) = repeat request_byte (successes (trace (net s)))) /\
  (exists s1, http_do lexical_cast_u64 is_v4 is_v6 char_signed sni UserCancel s = Some (Ok s1) /\
   forall s', http_runs lexical_cast_u64 is_v4 is_v6 char_signed sni s1 s' -> told (listener s') = told (listener s)).
Proof.
  intros Hr. destruct (http_runs_inv _ _ _ _ _ _ _ _ Hr) as [Hi Hn]. apply reached_send_inv in Hn as Hq.
  unfold successes. rewrite <- map_const_repeat, <- (si_requests _ Hi). split; [exact (writes_prefix _ Hq)|]. split.
  - intros H1 H2 H3. apply (writes_done _ Hq H1 H2 H3).
  - eexists. split; [reflexivity|]. intros s' Hs. now destruct (runs_silent _ _ _ _ _ _ _ Hs eq_refl) as [_ ->].
Qed.

(** A download that is cancelled in the middle of the body: the rest arrives, and
    nobody is told. *)
Definition page_cancelled : list http_event :=
  [UserCancel; ReadEnds 0 [ParsedBody (bytes "llo"); ParsedFinish] 0 (bytes "llo")].

Lemma http_request_written_witness :
  let s := session_after page_cut in
  (exists rest, started_writes (net s) ++ rest = [request_byte]) /\
  exists s1, http_do read_digits no_literal no_literal true None UserCancel s = Some (Ok s1) /\
    (forall s', http_runs read_digits no_literal no_literal true None s1 s' -> told (listener s') = told (listener s)) /\
    exists s2, http_play read_digits no_literal no_literal true None page_cancelled s = Some (Ok s2) /\
      told (listener s2) = told (listener s).
Proof.
  destruct (http_request_written read_digits no_literal no_literal true None page_client new_downloader (session_after page_cut))
    as (H1 & _ & (s1 & E & H2)); [apply session_after_runs; vm_compute; exact I|].
  split; [exact H1|]. exists s1. split; [exact E|]. split; [exact H2|].
  eexists. split; [vm_compute; reflexivity | vm_compute; reflexivity].
Defined.

(** ** A connection that is lost *)

Lemma cleanup_no_callback : respects (fun _ o _ => existsb is_callback o = false) HandleCleanUp.
Proof. run_block; reflexivity. Qed.

(** What the user of a download is told at its end. *)
Definition end_of_download (http_code : Z) : download_call := OnDownloadComplte (if http_code =? 200 then 0 else -1).

(** C12: A download whose connection is lost.  When reading fails before the
    message is complete, the file is closed as it is and the user is told of the
    end of the download, with the code of the head of the response: after a head
    with the status 200 the user is told of success, however much of the announced
    body is missing. *)
Theorem truncated_download_reported lexical_cast_u64 open_ok write_ok is_v4 is_v6 char_signed sni c d
  (s : session HttpDownloaderImpl download_call) i ec data :
  let delegate := downloader_delegate lexical_cast_u64 open_ok write_ok in
  http_runs lexical_cast_u64 is_v4 is_v6 char_signed sni (new_session c d) s ->
  http_delegate_ (client s) = true -> dl_delegate_ (inner (listener s)) = true -> recv_complete (client s) = false ->
  nth_error (pending (net s)) i = Some OpRecv -> ec <> 0 ->
  exists s', http_do lexical_cast_u64 is_v4 is_v6 char_signed sni (ReadEnds i [] ec data) s = Some (Ok s') /\
    file_content (inner (listener s')) = file_content (inner (listener s)) /\ file_open (inner (listener s')) = false /\
    user_calls s' = user_calls s ++ [end_of_download (http_code_ (client s))].
Proof.
  intros delegate Hr Hd Hu Hf Hi Hec. destruct (http_runs_inv _ _ _ _ _ _ _ _ Hr) as [Hinv _].
  pose proof (si_delegate _ Hinv) as Hn. rewrite Hd in Hn. cbn [http_do]. rewrite Hi. unfold read_ends. cbn [parse outcome_bind].
  unfold recv_complete_handler, recv_done. cbn [outcome_bind snd]. rewrite Hf. unfold run_net.
  set (w := take_op _ (net s)). assert (NotifyRecvData ec (zlen data) (conn w) =
    (fst (HandleCleanUp (conn w)), OnDisconnect ec :: snd (HandleCleanUp (conn w)))) as E.
  { unfold NotifyRecvData. apply Z.eqb_neq in Hec as ->. cbn [negb]. unfold NotifyDisconnect, andthen, reading, emit.
    cbn [w take_op conn]. rewrite <- Hn. destruct (HandleCleanUp (conn (net s))). reflexivity. }
  rewrite E. cbn [snd deliver callback]. destruct (HandleCleanUp (conn w)) as [n o] eqn:Eo.
  apply cleanup_no_callback in Eo. cbn [snd].
  unfold call_client, HttpClient.OnDisconnect, NotifyComplete, notify. cbn [client set_net]. rewrite Hd.
  cbn [OnHttpComplete heard_delegate delegate downloader_delegate]. unfold hearing, downloader_complete, NotifyDownloadComplte, user.
  cbn [listener set_net dl_delegate_]. rewrite Hu. cbn [outcome_bind snd fst under_lock react_all react].
  rewrite deliver_none by exact Eo. eexists. split; [reflexivity|]. cbn. auto.
Qed.

Lemma truncated_download_reported_witness :
  total_size_ (inner (listener (session_after page_cut))) = 5 /\
  exists s', http_do read_digits no_literal no_literal true None (ReadEnds 0 [] 104 []) (session_after page_cut) = Some (Ok s') /\
    file_content (inner (listener s')) = bytes "he" /\ file_open (inner (listener s')) = false /\
    user_calls s' = [OnStartDownload; OnDownloadProgress 2 5] ++ [OnDownloadComplte 0].
Proof.
  split; [vm_compute; reflexivity|].
  refine (truncated_download_reported read_digits true (fun _ _ => true) no_literal no_literal true None page_client new_downloader
            (session_after page_cut) 0 104 [] (session_after_runs page_cut _) _ _ _ _ _); try (vm_compute; reflexivity).
  - discriminate.
Defined.

(** The end can be reported twice: writing the request fails, the connection is
    shut down, and the read that was under way fails as well. *)
Example complete_reported_twice :
  told (listener (session_after
    [UserRequest; RunTask; RunTask; OpEnds 0 0 []; RunTask; OpEnds 0 0 []; RunTask; OpEnds 1 32 []; ReadEnds 0 [] 995 []])) =
  [Complete 404; Complete 404].
Proof. vm_compute. reflexivity. Qed.
