(* ===== verification/Mvvm.v ===== *)
(** * The MVVM framework

    src/mvvm/model.{h,cc}, src/mvvm/viewmodel.{h,cc}, src/mvvm/baseview.{h,cc}:
    models with subscriptions to their events, view models that subscribe and
    pass properties and events on, and views bound to them.  Objects that exist
    once per type are kept under their type; a [std::map] is the list of its
    entries in the order of the keys.  Delegates do not change subscriptions
    while an event is fired. *)

From Stdlib Require Import ZArith List Bool Lia.
From S2P Require Import Prelude Cpp.
Import ListNotations.
Local Open Scope Z_scope.

(** ** [std::map] *)

Fixpoint map_find {V} (k : Z) (m : list (Z * V)) : option V :=
  match m with
  | [] => None
  | (k', v) :: m' => if k =? k' then Some v else map_find k m'
  end.

(** [m[k] = v]. *)
Fixpoint map_set {V} (k : Z) (v : V) (m : list (Z * V)) : list (Z * V) :=
  match m with
  | [] => [(k, v)]
  | (k', v') :: m' =>
      if k =? k' then (k, v) :: m'
      else if k <? k' then (k, v) :: m else (k', v') :: map_set k v m'
  end.

(** ** Models *)

Section Framework.
(** Delegates of events and the messages they take. *)
Context {D Msg : Type}.

Record SuscribeEventDelegateInfo := mk_info {
  delegate : D;
  sub_id : Z
}.

(** [event_delegate_] of a model. *)
Definition Model : Type := list (Z * list SuscribeEventDelegateInfo).

(** The static members of [Model]; a builder gives a model without
    subscriptions. *)
Record framework := mk_framework {
  s_suscribe_id_ : Z;
  model_builder_ : list Z;
  models_ : list (Z * Model)
}.

Definition RegisterModel (type : Z) (f : framework) : framework :=
  mk_framework (s_suscribe_id_ f) (type :: model_builder_ f) (models_ f).

(** [ModelOf]: the model is looked up, else created and kept. *)
Definition ModelOf (type : Z) (f : framework) : framework * option Model :=
  match map_find type (models_ f) with
  | Some m => (f, Some m)
  | None =>
      if existsb (Z.eqb type) (model_builder_ f) then
        (mk_framework (s_suscribe_id_ f) (model_builder_ f) (map_set type [] (models_ f)), Some [])
      else (f, None)
  end.

(** [SubscribeEvent] of a model, with the counter of ids. *)
Definition SubscribeEvent (event : Z) (d : D) (counter : Z) (m : Model) : Z * Model :=
  let old := match map_find event m with Some l => l | None => [] end in
  (counter + 1, map_set event (old ++ [mk_info d (counter + 1)]) m).

Fixpoint erase_info (id : Z) (l : list SuscribeEventDelegateInfo) : bool * list SuscribeEventDelegateInfo :=
  match l with
  | [] => (false, [])
  | x :: l' =>
      if id =? sub_id x then (true, l')
      else let (found, l'') := erase_info id l' in (found, x :: l'')
  end.

(** [UnSubscribeEvent]: the events in order, up to the first subscription with
    the id. *)
Fixpoint UnSubscribeEvent (id : Z) (m : Model) : Model :=
  match m with
  | [] => []
  | (e, l) :: m' =>
      let (found, l') := erase_info id l in
      (e, l') :: (if found then m' else UnSubscribeEvent id m')
  end.

(** [FireEvent]: the delegates called, in order. *)
Definition FireEvent (event : Z) (m : Model) : list D :=
  match map_find event m with
  | None => []
  | Some l => map delegate l
  end.

Definition set_model (type : Z) (m : Model) (f : framework) : framework :=
  mk_framework (s_suscribe_id_ f) (model_builder_ f) (map_set type m (models_ f)).

(** ** View models *)

Context {P E : Type}.

Record ViewModel := mk_vm {
  viewmode_type_ : Z;
  context_ : option Z;
  subscribe_ids_ : list (Z * Z);
  property_changed_delegate_ : option P;
  event_fired_delegate_ : option E
}.

(** The constructor, with the initializers of the members. *)
Definition new_viewmodel (viewmode_type : Z) : ViewModel := mk_vm viewmode_type None [] None None.

Definition set_subscribe_ids (ids : list (Z * Z)) (v : ViewModel) : ViewModel :=
  mk_vm (viewmode_type_ v) (context_ v) ids (property_changed_delegate_ v) (event_fired_delegate_ v).

Definition BindPropertyChanged (delegate : option P) (v : ViewModel) : ViewModel :=
  mk_vm (viewmode_type_ v) (context_ v) (subscribe_ids_ v) delegate (event_fired_delegate_ v).

Definition BindEvent (event_fired_delegate : option E) (v : ViewModel) : ViewModel :=
  mk_vm (viewmode_type_ v) (context_ v) (subscribe_ids_ v) (property_changed_delegate_ v) event_fired_delegate.

(** The macros [BEGIN_SUBSCRIE_EVENT], [SUBSCRIE_EVENT], [END_SUBSCRIE_EVENT]
    around one event. *)
Definition SUBSCRIE_EVENT (model_type event_id : Z) (func : D) (f : framework) (v : ViewModel)
  : framework * ViewModel :=
  let (f, model) := ModelOf model_type f in
  match model with
  | Some m =>
      let (id, m') := SubscribeEvent event_id func (s_suscribe_id_ f) m in
      (set_model model_type m' (mk_framework id (model_builder_ f) (models_ f)),
       set_subscribe_ids (map_set id model_type (subscribe_ids_ v)) v)
  | None => (f, v)
  end.

(** The loop of [UnSubscrieAllEvent]. *)
Fixpoint unsubscribe_loop (ids : list (Z * Z)) (f : framework) : framework :=
  match ids with
  | [] => f
  | (id, type) :: ids' =>
      let (f, model) := ModelOf type f in
      match model with
      | Some m => unsubscribe_loop ids' (set_model type (UnSubscribeEvent id m) f)
      | None => unsubscribe_loop ids' f
      end
  end.

(** Also the destructor of a view model. *)
Definition UnSubscrieAllEvent (f : framework) (v : ViewModel) : framework * ViewModel :=
  (unsubscribe_loop (subscribe_ids_ v) f, set_subscribe_ids [] v).

(** [OnAttach] and [OnDetach] are the overrides of the class. *)
Definition NotifyBind (OnAttach : framework -> ViewModel -> framework * ViewModel) (context : Z)
  (f : framework) (v : ViewModel) : framework * ViewModel :=
  OnAttach f (mk_vm (viewmode_type_ v) (Some context) (subscribe_ids_ v) (property_changed_delegate_ v)
                (event_fired_delegate_ v)).

Definition NotifyUnBind (OnDetach : framework -> ViewModel -> framework * ViewModel)
  (f : framework) (v : ViewModel) : framework * ViewModel :=
  let (f, v) := OnDetach f (BindEvent None (BindPropertyChanged None v)) in
  UnSubscrieAllEvent f v.

(** The argument of the overloads of [SetProperty] and [FireEvent]; the first
    four are wrapped in the message of their name. *)
Inductive property_value :=
| ParamInt32 (value : Z)
| ParamInt64 (value : Z)
| ParamBool (value : bool)
| ParamString (value : list Z)
| ParamMessage (value : Msg).

(** The call of the view's delegate, if one is bound. *)
Definition SetProperty (property_id : Z) (value : property_value) (v : ViewModel)
  : option (P * Z * property_value) :=
  match property_changed_delegate_ v with
  | Some p => Some (p, property_id, value)
  | None => None
  end.

Definition vm_FireEvent (event_id : Z) (value : property_value) (v : ViewModel)
  : option (E * Z * property_value) :=
  match event_fired_delegate_ v with
  | Some e => Some (e, event_id, value)
  | None => None
  end.

Definition RouteEventToUI (event_id : Z) (value : Msg) (v : ViewModel) : option (E * Z * property_value) :=
  vm_FireEvent event_id (ParamMessage value) v.

(** [vm_builder_] *)
Definition RegisterViewModel {B : Type} (type : Z) (builder : B) (vm_builder : list (Z * B)) : list (Z * B) :=
  map_set type builder vm_builder.

(** [run] is the call of a builder. *)
Definition Create {B : Type} (run : B -> option ViewModel) (type : Z) (vm_builder : list (Z * B))
  : option ViewModel :=
  match map_find type vm_builder with
  | Some builder => run builder
  | None => None
  end.

(** ** Views: the view's [vm_] is [None] when it is null. *)

Definition CreateVM {B : Type} (run : B -> option ViewModel) (on_property : P) (on_event : E) (type : Z)
  (vm_builder : list (Z * B)) : outcome ViewModel :=
  match Create run type vm_builder with
  | Some v => Ok (BindEvent (Some on_event) (BindPropertyChanged (Some on_property) v))
  | None => Undefined
  end.

Definition BindVM (OnAttach : framework -> ViewModel -> framework * ViewModel) (this : Z)
  (f : framework) (vm : option ViewModel) : outcome (framework * ViewModel) :=
  match vm with
  | Some v => Ok (NotifyBind OnAttach this f v)
  | None => Undefined
  end.

Definition UnBindVM (OnDetach : framework -> ViewModel -> framework * ViewModel)
  (f : framework) (vm : option ViewModel) : outcome (framework * ViewModel) :=
  match vm with
  | Some v => Ok (NotifyUnBind OnDetach f v)
  | None => Undefined
  end.
End Framework.

Arguments SuscribeEventDelegateInfo : clear implicits.
Arguments Model : clear implicits.
Arguments framework : clear implicits.
Arguments ViewModel : clear implicits.
Arguments property_value : clear implicits.
