(* ===== verification/MvvmSpec.v ===== *)
(** * The MVVM framework as a list of subscriptions

    The subscriptions of every model, kept by the code in nested maps with ids
    that view models remember, behave as one list of the active subscriptions in
    the order they were made: firing an event calls the delegates of the entries
    for it, and unbinding or destroying a view model removes its entries and no
    others. *)

From Stdlib Require Import ZArith List Bool Sorted Lia.
From S2P Require Import Prelude Cpp Mvvm.
Import ListNotations.
Local Open Scope Z_scope.

(** ** Maps *)

Section Maps.
Context {V : Type}.
Implicit Types m : list (Z * V).

Lemma map_find_set k k' v m :
  map_find k (map_set k' v m) = if k =? k' then Some v else map_find k m.
Proof.
  induction m as [|[k0 v0] m IH]; cbn; [reflexivity|].
  destruct (Z.eqb_spec k' k0), (Z.ltb_spec k' k0); cbn; try rewrite IH;
    repeat match goal with |- context [Z.eqb ?x ?y] => destruct (Z.eqb_spec x y) end; lia || reflexivity.
Qed.

(** A key beyond all others goes to the end. *)
Lemma map_set_last k v m : Forall (fun p => fst p < k) m -> map_set k v m = m ++ [(k, v)].
Proof.
  induction 1 as [|[k0 v0] m Hk _ IH]; cbn in *; [reflexivity|].
  destruct (Z.eqb_spec k k0); [lia|]. destruct (Z.ltb_spec k k0); [lia|]. rewrite IH. reflexivity.
Qed.

(** The keys of a map are in order. *)
Definition ordered m : Prop := StronglySorted Z.lt (map fst m).

Lemma map_set_above k v m x : x < k -> Forall (Z.lt x) (map fst m) -> Forall (Z.lt x) (map fst (map_set k v m)).
Proof.
  intros Hx. induction m as [|[k0 v0] m IH]; cbn; intros H; [repeat constructor; assumption|].
  apply Forall_cons_iff in H as [H0 H].
  destruct (k =? k0); [|destruct (k <? k0)]; cbn; repeat constructor; auto.
Qed.

Lemma map_set_ordered k v m : ordered m -> ordered (map_set k v m).
Proof.
  unfold ordered. induction m as [|[k0 v0] m IH]; cbn; intros H; [repeat constructor|].
  apply StronglySorted_inv in H as [Hs H0].
  destruct (Z.eqb_spec k k0) as [->|E]; [now constructor|]. destruct (Z.ltb_spec k k0); cbn.
  - constructor; [now constructor|]. constructor; [assumption|]. eapply Forall_impl; [|exact H0]. cbn. lia.
  - constructor; [auto|]. apply map_set_above; [lia|assumption].
Qed.

Lemma map_find_above k m : Forall (Z.lt k) (map fst m) -> map_find k m = None.
Proof.
  induction m as [|[k0 v0] m IH]; cbn; [reflexivity|]. intros [H0 H]%Forall_cons_iff.
  destruct (Z.eqb_spec k k0); [lia|auto].
Qed.
End Maps.

(** ** One model *)

Section Model.
Context {D : Type}.
Implicit Types (m : Model D) (l : list (SuscribeEventDelegateInfo D)).

Definition find_list (event : Z) m : list (SuscribeEventDelegateInfo D) :=
  match map_find event m with Some l => l | None => [] end.

Lemma find_list_set e e' l m : find_list e (map_set e' l m) = if e =? e' then l else find_list e m.
Proof. unfold find_list. rewrite map_find_set. destruct (e =? e'); reflexivity. Qed.

Lemma find_list_cons e e0 l m : find_list e ((e0, l) :: m) = if e =? e0 then l else find_list e m.
Proof. unfold find_list. cbn. destruct (e =? e0); reflexivity. Qed.

Lemma FireEvent_list event m : FireEvent event m = map delegate (find_list event m).
Proof. unfold FireEvent, find_list. destruct (map_find event m); reflexivity. Qed.

Definition keeps (id : Z) (x : SuscribeEventDelegateInfo D) : bool := negb (id =? sub_id x).

Lemma keeps_all id l : ~ In id (map sub_id l) -> filter (keeps id) l = l.
Proof.
  induction l as [|x l IH]; cbn; [reflexivity|]. intros H. unfold keeps at 1.
  destruct (Z.eqb_spec id (sub_id x)) as [->|E]; [destruct H; now left|]. cbn. rewrite IH; intuition.
Qed.

Lemma erase_info_spec id l found l' :
  NoDup (map sub_id l) -> erase_info id l = (found, l') ->
  l' = filter (keeps id) l /\ (found = true <-> In id (map sub_id l)).
Proof.
  revert found l'. induction l as [|x l IH]; cbn; intros found l' Hl.
  - intros [= <- <-]. split; [reflexivity|]. split; easy.
  - apply NoDup_cons_iff in Hl as [Hx Hl]. unfold keeps at 1.
    destruct (Z.eqb_spec id (sub_id x)) as [->|E]; cbn.
    + intros [= <- <-]. rewrite keeps_all by assumption. split; [reflexivity|]. split; auto.
    + destruct (erase_info id l) as [f l0]. intros [= <- <-]. destruct (IH f l0 Hl eq_refl) as [-> Hf].
      split; [reflexivity|]. rewrite Hf. split; [auto|]. intros [H|]; [congruence|assumption].
Qed.

(** Unsubscribing an id that belongs to one event removes its subscription. *)
Lemma UnSubscribeEvent_spec id m e :
  ordered m -> (forall e, NoDup (map sub_id (find_list e m))) ->
  (forall e1 e2, In id (map sub_id (find_list e1 m)) -> In id (map sub_id (find_list e2 m)) -> e1 = e2) ->
  find_list e (UnSubscribeEvent id m) = filter (keeps id) (find_list e m).
Proof.
  induction m as [|[e0 l] m IH]; intros Hm Hl Hid; [reflexivity|].
  apply StronglySorted_inv in Hm as [Hm Habove]. fold (map fst m) in *.
  assert (Hsame : forall e1, e1 <> e0 -> find_list e1 ((e0, l) :: m) = find_list e1 m)
    by (intros e1 He; rewrite find_list_cons; apply Z.eqb_neq in He; rewrite He; reflexivity).
  assert (Hhead : find_list e0 ((e0, l) :: m) = l) by (rewrite find_list_cons, Z.eqb_refl; reflexivity).
  assert (Hrest : find_list e0 m = []) by (unfold find_list; rewrite map_find_above by assumption; reflexivity).
  cbn [UnSubscribeEvent]. destruct (erase_info id l) as [found l'] eqn:Hel.
  destruct (erase_info_spec id l found l') as [-> Hfound]; [rewrite <- Hhead; apply Hl|assumption|].
  rewrite find_list_cons. destruct (Z.eqb_spec e e0) as [->|He].
  - rewrite Hhead. reflexivity.
  - rewrite (Hsame e He). destruct found.
    + symmetry. apply keeps_all. rewrite <- (Hsame e He). intros Hin. apply He.
      apply Hid; [assumption|]. rewrite Hhead. now apply Hfound.
    + apply IH; [assumption| |].
      * intros e1. destruct (Z.eq_dec e1 e0) as [->|H1]; [rewrite Hrest; constructor|rewrite <- Hsame; auto].
      * intros e1 e2 H1 H2. destruct (Z.eq_dec e1 e0) as [->|N1]; [rewrite Hrest in H1; destruct H1|].
        destruct (Z.eq_dec e2 e0) as [->|N2]; [rewrite Hrest in H2; destruct H2|].
        apply Hid; rewrite Hsame; assumption.
Qed.

Lemma UnSubscribeEvent_ordered id m : ordered m -> ordered (UnSubscribeEvent id m).
Proof.
  enough (map fst (UnSubscribeEvent id m) = map fst m) as E by (unfold ordered; now rewrite E).
  induction m as [|[e l] m IH]; cbn; [reflexivity|]. destruct (erase_info id l) as [[|] l']; cbn; congruence.
Qed.
End Model.

(** ** The system: models, and the view models by name *)

Section System.
Context {D P E : Type}.

Record mvvm := mk_mvvm {
  frame : framework D;
  views : list (Z * ViewModel P E)
}.

Definition view (v : Z) (w : mvvm) : ViewModel P E :=
  match map_find v (views w) with Some vm => vm | None => new_viewmodel v end.

Inductive mvvm_op :=
| OpRegister (type : Z)
| OpSubscribe (v type event : Z) (d : D)
| OpUnBind (v : Z)
| OpDestroy (v : Z).

(** A view model without work of its own when it is detached. *)
Definition no_detach (f : framework D) (vm : ViewModel P E) : framework D * ViewModel P E := (f, vm).

Definition on_view (v : Z) (h : framework D -> ViewModel P E -> framework D * ViewModel P E) (w : mvvm) : mvvm :=
  let (f, vm) := h (frame w) (view v w) in mk_mvvm f (map_set v vm (views w)).

Definition mvvm_step (w : mvvm) (o : mvvm_op) : mvvm :=
  match o with
  | OpRegister type => mk_mvvm (RegisterModel type (frame w)) (views w)
  | OpSubscribe v type event d => on_view v (SUBSCRIE_EVENT type event d) w
  | OpUnBind v => on_view v (NotifyUnBind no_detach) w
  | OpDestroy v => on_view v UnSubscrieAllEvent w
  end.

Definition mvvm_run (ops : list mvvm_op) : mvvm :=
  fold_left mvvm_step ops (mk_mvvm (mk_framework 0 [] []) []).

(** The delegates an event of the model of a type calls. *)
Definition fired (type event : Z) (w : mvvm) : list D :=
  match map_find type (models_ (frame w)) with
  | Some m => FireEvent event m
  | None => []
  end.

(** ** The list of subscriptions *)

Record subscription := mk_subscription {
  s_view : Z;
  s_type : Z;
  s_event : Z;
  s_delegate : D
}.

Record bus := mk_bus {
  registered : list Z;
  active : list subscription
}.

Definition bus_step (b : bus) (o : mvvm_op) : bus :=
  match o with
  | OpRegister type => mk_bus (type :: registered b) (active b)
  | OpSubscribe v type event d =>
      if existsb (Z.eqb type) (registered b)
      then mk_bus (registered b) (active b ++ [mk_subscription v type event d]) else b
  | OpUnBind v | OpDestroy v => mk_bus (registered b) (filter (fun s => negb (s_view s =? v)) (active b))
  end.

Definition bus_run (ops : list mvvm_op) : bus := fold_left bus_step ops (mk_bus [] []).

Definition bus_fired (type event : Z) (b : bus) : list D :=
  map s_delegate (filter (fun s => (s_type s =? type) && (s_event s =? event)) (active b)).

(** ** Simulation

    A ghost list gives each active subscription the id the code gave it. *)

Abbreviation ghost := (list (subscription * Z)).

Definition at_event (type event : Z) (g : subscription * Z) : bool :=
  (s_type (fst g) =? type) && (s_event (fst g) =? event).

Definition of_view (v : Z) (g : subscription * Z) : bool := s_view (fst g) =? v.

Definition info (g : subscription * Z) : SuscribeEventDelegateInfo D := mk_info (s_delegate (fst g)) (snd g).

Definition entry (g : subscription * Z) : Z * Z := (snd g, s_type (fst g)).

(** What the ghost list says of the models. *)
Record models_ok (f : framework D) (G : ghost) : Prop := {
  ok_lists : forall type event,
    match map_find type (models_ f) with Some m => find_list event m | None => [] end
    = map info (filter (at_event type event) G);
  ok_ordered : forall type m, map_find type (models_ f) = Some m -> ordered m;
  ok_ids : NoDup (map snd G);
  ok_built : forall type m, map_find type (models_ f) = Some m -> existsb (Z.eqb type) (model_builder_ f) = true
}.

Record sim (w : mvvm) (b : bus) (G : ghost) : Prop := {
  sim_models : models_ok (frame w) G;
  sim_active : map fst G = active b;
  sim_registered : model_builder_ (frame w) = registered b;
  sim_counter : Forall (fun g => snd g <= s_suscribe_id_ (frame w)) G;
  sim_views : forall v, subscribe_ids_ (view v w) = map entry (filter (of_view v) G)
}.

Lemma models_ok_find f G type m event :
  models_ok f G -> map_find type (models_ f) = Some m ->
  find_list event m = map info (filter (at_event type event) G).
Proof. intros H Hm. rewrite <- (ok_lists f G H), Hm. reflexivity. Qed.

(** The ids under an event are among those of the ghost list. *)
Lemma ids_of_lists (G : ghost) p : map sub_id (map info (filter p G)) = map snd (filter p G).
Proof. rewrite map_map. reflexivity. Qed.

Lemma nodup_ids (G : ghost) p : NoDup (map snd G) -> NoDup (map snd (filter p G)).
Proof.
  induction G as [|g G IH]; cbn; [easy|]. intros [Hg HG]%NoDup_cons_iff. destruct (p g); cbn; [|auto].
  constructor; [|auto]. intros Hin. apply Hg. apply in_map_iff in Hin as (g' & <- & Hg').
  apply filter_In in Hg' as [Hg' _]. now apply in_map.
Qed.

Lemma same_id (G : ghost) g1 g2 : NoDup (map snd G) -> In g1 G -> In g2 G -> snd g1 = snd g2 -> g1 = g2.
Proof.
  induction G as [|g G IH]; cbn; [easy|]. intros [Hg HG]%NoDup_cons_iff H1 H2 Eid.
  destruct H1 as [<-|H1], H2 as [<-|H2]; auto; exfalso; apply Hg; [rewrite Eid|rewrite <- Eid]; now apply in_map.
Qed.

Lemma keeps_ghost (G : ghost) id p :
  filter (keeps id) (map info (filter p G)) = map info (filter p (filter (fun g => negb (id =? snd g)) G)).
Proof.
  induction G as [|g G IH]; cbn; [reflexivity|].
  destruct (p g) eqn:Ep; cbn; [unfold keeps at 1; cbn|]; destruct (id =? snd g); cbn; rewrite ?Ep; cbn; congruence.
Qed.

(** One round of the unsubscribing loop. *)
Lemma unsubscribe_one f G g :
  models_ok f G -> In g G ->
  exists m, ModelOf (s_type (fst g)) f = (f, Some m) /\
    models_ok (set_model (s_type (fst g)) (UnSubscribeEvent (snd g) m) f)
      (filter (fun g' => negb (snd g =? snd g')) G).
Proof.
  intros H Hg. set (type := s_type (fst g)).
  assert (Hin : In g (filter (at_event type (s_event (fst g))) G))
    by (apply filter_In; split; [assumption|]; unfold at_event, type; rewrite !Z.eqb_refl; reflexivity).
  destruct (map_find type (models_ f)) as [m|] eqn:Hm.
  2: { exfalso. pose proof (ok_lists f G H type (s_event (fst g))) as Hl. rewrite Hm in Hl.
       destruct (filter (at_event type (s_event (fst g))) G); [destruct Hin|discriminate]. }
  exists m. split; [unfold ModelOf; rewrite Hm; reflexivity|].
  assert (Hids : forall e, NoDup (map sub_id (find_list e m))).
  { intros e. rewrite (models_ok_find f G type m e H Hm), ids_of_lists. apply nodup_ids, (ok_ids f G H). }
  assert (Hone : forall e1 e2, In (snd g) (map sub_id (find_list e1 m)) ->
    In (snd g) (map sub_id (find_list e2 m)) -> e1 = e2).
  { enough (Hw : forall e, In (snd g) (map sub_id (find_list e m)) -> e = s_event (fst g))
      by (intros e1 e2 H1%Hw H2%Hw; congruence).
    intros e. rewrite (models_ok_find f G type m e H Hm), ids_of_lists. intros (g' & Hs & Hg')%in_map_iff.
    apply filter_In in Hg' as [Hg' Ha]. rewrite <- (same_id G g' g (ok_ids f G H) Hg' Hg Hs).
    apply andb_true_iff in Ha as [_ Ha%Z.eqb_eq]. auto. }
  split; unfold set_model; cbn.
  - intros t e. rewrite map_find_set. destruct (Z.eqb_spec t type) as [->|Ht].
    + rewrite UnSubscribeEvent_spec; [|apply (ok_ordered f G H type m Hm)|assumption|assumption].
      rewrite (models_ok_find f G type m e H Hm). apply keeps_ghost.
    + rewrite (ok_lists f G H), <- keeps_ghost. symmetry. apply keeps_all. rewrite ids_of_lists.
      intros (g' & Hs & Hg')%in_map_iff. apply filter_In in Hg' as [Hg' Ha].
      rewrite (same_id G g' g (ok_ids f G H) Hg' Hg Hs) in Ha.
      apply andb_true_iff in Ha as [Ha%Z.eqb_eq _]. exact (Ht (eq_sym Ha)).
  - intros t m'. rewrite map_find_set. destruct (t =? type); [|apply (ok_ordered f G H)].
    intros [= <-]. apply UnSubscribeEvent_ordered, (ok_ordered f G H type m Hm).
  - apply nodup_ids, (ok_ids f G H).
  - intros t m'. rewrite map_find_set. destruct (Z.eqb_spec t type) as [->|Ht]; [|apply (ok_built f G H)].
    intros _. apply (ok_built f G H type m Hm).
Qed.

(** The whole loop, for the entries of some of the subscriptions. *)
Lemma unsubscribe_all L : forall f G,
  models_ok f G -> NoDup (map snd L) -> incl L G ->
  models_ok (unsubscribe_loop (map entry L) f)
    (filter (fun g => negb (existsb (Z.eqb (snd g)) (map snd L))) G) /\
  s_suscribe_id_ (unsubscribe_loop (map entry L) f) = s_suscribe_id_ f /\
  model_builder_ (unsubscribe_loop (map entry L) f) = model_builder_ f.
Proof.
  induction L as [|g L IH]; cbn; intros f G H HL Hincl.
  - split; [|split; reflexivity]. replace (filter _ G) with G; [assumption|].
    clear. induction G as [|g G IH]; cbn; [|rewrite <- IH]; reflexivity.
  - apply NoDup_cons_iff in HL as [Hg HL].
    destruct (unsubscribe_one f G g H) as (m & -> & Hm); [apply Hincl; now left|].
    destruct (IH _ _ Hm HL) as (H1 & H2 & H3).
    { intros x Hx. apply filter_In. split; [apply Hincl; now right|]. apply negb_true_iff, Z.eqb_neq.
      intros Eid. apply Hg. rewrite Eid. now apply in_map. }
    split; [|split; assumption].
    replace (filter (fun g0 => negb ((snd g0 =? snd g) || existsb (Z.eqb (snd g0)) (map snd L))) G)
      with (filter (fun g0 => negb (existsb (Z.eqb (snd g0)) (map snd L)))
              (filter (fun g' => negb (snd g =? snd g')) G)); [assumption|].
    clear. induction G as [|x G IH]; cbn; [reflexivity|]. rewrite (Z.eqb_sym (snd x)).
    destruct (snd g =? snd x); cbn; [assumption|]. destruct (existsb _ _); cbn; congruence.
Qed.

Lemma ModelOf_spec f G type :
  models_ok f G -> existsb (Z.eqb type) (model_builder_ f) = true ->
  exists f' m, ModelOf type f = (f', Some m) /\ models_ok f' G /\ map_find type (models_ f') = Some m /\
    s_suscribe_id_ f' = s_suscribe_id_ f /\ model_builder_ f' = model_builder_ f.
Proof.
  intros H Hb. unfold ModelOf. destruct (map_find type (models_ f)) as [m|] eqn:Hm; [exists f, m; auto|].
  rewrite Hb. eexists _, _. split; [reflexivity|]. cbn. rewrite map_find_set, Z.eqb_refl.
  split; [|auto]. split; cbn.
  - intros t e. rewrite map_find_set. destruct (Z.eqb_spec t type) as [->|Ht]; [|apply (ok_lists f G H)].
    rewrite <- (ok_lists f G H type e), Hm. reflexivity.
  - intros t m. rewrite map_find_set. destruct (t =? type); [|apply (ok_ordered f G H)].
    intros [= <-]. constructor.
  - apply (ok_ids f G H).
  - intros t m. rewrite map_find_set. destruct (Z.eqb_spec t type) as [->|Ht]; [auto|apply (ok_built f G H)].
Qed.

Lemma subscribe_ok f G v type event d m id m' :
  models_ok f G -> map_find type (models_ f) = Some m -> Forall (fun g => snd g <= s_suscribe_id_ f) G ->
  SubscribeEvent event d (s_suscribe_id_ f) m = (id, m') ->
  models_ok (set_model type m' (mk_framework id (model_builder_ f) (models_ f)))
    (G ++ [(mk_subscription v type event d, id)]).
Proof.
  intros H Hm Hc [= <- <-]. fold (find_list event m). split; unfold set_model; cbn.
  - intros t e. rewrite map_find_set, filter_app, map_app. unfold at_event at 2. cbn.
    rewrite (Z.eqb_sym type t), (Z.eqb_sym event e). destruct (Z.eqb_spec t type) as [->|Ht]; cbn.
    + rewrite find_list_set, <- !(models_ok_find f G type m _ H Hm).
      destruct (Z.eqb_spec e event) as [->|He]; cbn; [reflexivity|rewrite app_nil_r; reflexivity].
    + rewrite app_nil_r. apply (ok_lists f G H).
  - intros t m'. rewrite map_find_set. destruct (t =? type); [|apply (ok_ordered f G H)].
    intros [= <-]. apply map_set_ordered, (ok_ordered f G H type m Hm).
  - rewrite map_app. apply NoDup_app; [apply (ok_ids f G H)|repeat constructor; auto|].
    intros x (g & <- & Hg)%in_map_iff [Hx|[]]. cbn in Hx. rewrite Forall_forall in Hc. apply Hc in Hg. lia.
  - intros t m'. rewrite map_find_set. destruct (Z.eqb_spec t type) as [->|Ht]; [|apply (ok_built f G H)].
    intros _. apply (ok_built f G H type m Hm).
Qed.

Lemma map_set_set {V} k (x y : V) m : map_set k x (map_set k y m) = map_set k x m.
Proof.
  induction m as [|[k' v] m IH]; cbn [map_set]; [now rewrite Z.eqb_refl|].
  destruct (Z.eqb_spec k k') as [->|Hk]; [cbn [map_set]; rewrite Z.eqb_refl; reflexivity|].
  destruct (Z.ltb_spec k k'); cbn [map_set]; [rewrite Z.eqb_refl; reflexivity|].
  destruct (Z.eqb_spec k k'); [lia|]. destruct (Z.ltb_spec k k'); [lia|]. now rewrite IH.
Qed.

Lemma view_set f v u vm vs : view u (mk_mvvm f (map_set v vm vs)) = if u =? v then vm else view u (mk_mvvm f vs).
Proof. unfold view. cbn. rewrite map_find_set. destruct (u =? v); reflexivity. Qed.

Lemma sim_subscribe w b G v type event d :
  sim w b G -> exists G', sim (mvvm_step w (OpSubscribe v type event d)) (bus_step b (OpSubscribe v type event d)) G'.
Proof.
  intros [H Ha Hr Hc Hv]. cbn. unfold on_view, SUBSCRIE_EVENT. rewrite <- Hr.
  destruct (existsb (Z.eqb type) (model_builder_ (frame w))) eqn:Hb.
  - destruct (ModelOf_spec _ _ _ H Hb) as (f' & m & -> & H' & Hm & Ec & Eb).
    rewrite <- Ec in Hc. pose proof (subscribe_ok f' G v type event d m _ _ H' Hm Hc eq_refl) as Hs.
    eexists. split; cbn; [exact Hs|rewrite map_app, Ha; reflexivity|congruence| |].
    + apply Forall_app. split; [|repeat constructor; cbn; lia]. eapply Forall_impl; [|exact Hc]. cbn. lia.
    + intros u. rewrite view_set, filter_app, map_app. unfold of_view at 2. cbn. rewrite (Z.eqb_sym v u).
      destruct (Z.eqb_spec u v) as [->|Hu]; cbn; [|rewrite app_nil_r; apply (Hv u)].
      rewrite map_set_last, (Hv v); [reflexivity|]. rewrite (Hv v). apply Forall_forall.
      intros x (g & <- & Hg)%in_map_iff. apply filter_In in Hg as [Hg _]. rewrite Forall_forall in Hc.
      apply Hc in Hg. cbn. lia.
  - assert (ModelOf type (frame w) = (frame w, None)) as ->.
    { unfold ModelOf. destruct (map_find type (models_ (frame w))) as [m|] eqn:Hm; [|rewrite Hb; reflexivity].
      rewrite (ok_built _ _ H type m Hm) in Hb. discriminate. }
    exists G. split; auto. intros u. rewrite view_set. destruct (Z.eqb_spec u v) as [->|Hu]; apply Hv.
Qed.

Lemma sim_remove w b G v vm :
  sim w b G -> subscribe_ids_ vm = [] ->
  exists G', sim (mk_mvvm (unsubscribe_loop (subscribe_ids_ (view v w)) (frame w)) (map_set v vm (views w)))
    (bus_step b (OpUnBind v)) G'.
Proof.
  intros [H Ha Hr Hc Hv] Hvm. exists (filter (fun g => negb (of_view v g)) G).
  destruct (unsubscribe_all (filter (of_view v) G) (frame w) G H) as (H1 & H2 & H3);
    [apply nodup_ids, (ok_ids _ _ H)|intros g Hg; now apply filter_In in Hg|]. rewrite <- (Hv v) in *.
  split; cbn.
  - erewrite filter_ext_in; [exact H1|]. intros g Hg. apply (f_equal negb), eq_true_iff_eq. rewrite existsb_exists.
    split.
    + intros E1. exists (snd g). split; [apply in_map, filter_In; auto|apply Z.eqb_refl].
    + intros (x & (g' & <- & Hg')%in_map_iff & Ex%Z.eqb_eq). apply filter_In in Hg' as [Hg' E1].
      now rewrite (same_id G g g' (ok_ids _ _ H) Hg Hg' Ex).
  - rewrite <- Ha. clear. induction G as [|g G IH]; cbn; [reflexivity|]. unfold of_view at 1.
    destruct (s_view (fst g) =? v); cbn; congruence.
  - congruence.
  - rewrite H2. apply Forall_forall. intros g Hg. apply filter_In in Hg as [Hg _]. rewrite Forall_forall in Hc. auto.
  - intros u. rewrite view_set. destruct (Z.eqb_spec u v) as [->|Hu].
    + rewrite Hvm. symmetry. replace (filter _ _) with (@nil (subscription * Z)); [reflexivity|].
      clear. induction G as [|g G IH]; cbn; [reflexivity|]. destruct (of_view v g) eqn:E1; cbn; rewrite ?E1; assumption.
    + change (view u (mk_mvvm _ (views w))) with (view u w). rewrite (Hv u). f_equal.
      clear - Hu. induction G as [|g G IH]; cbn; [reflexivity|]. destruct (of_view v g) eqn:E1; cbn.
      * assert (of_view u g = false) as ->; [|assumption]. apply Z.eqb_eq in E1. apply Z.eqb_neq. congruence.
      * destruct (of_view u g); congruence.
Qed.

(** View models may change in all but the ids of their subscriptions. *)
Lemma sim_view_ext w w' b G :
  sim w b G -> frame w' = frame w -> (forall v, subscribe_ids_ (view v w') = subscribe_ids_ (view v w)) -> sim w' b G.
Proof. intros [H Ha Hr Hc Hv] Hf Hw. split; rewrite ?Hf; auto. intros v. rewrite Hw. apply Hv. Qed.

(** A view model has ids only for active subscriptions. *)
Lemma sim_no_ids w b G v :
  sim w b G -> (forall s, In s (active b) -> s_view s <> v) -> subscribe_ids_ (view v w) = [].
Proof.
  intros [_ Ha _ _ Hv] Hs. rewrite Hv, <- Ha in *. clear - Hs. induction G as [|g G IH]; cbn in *; [reflexivity|].
  unfold of_view at 1. destruct (Z.eqb_spec (s_view (fst g)) v) as [Ev|_]; [destruct (Hs (fst g)); auto | auto].
Qed.

(** Looking a model up changes no subscription. *)
Lemma sim_lookup w b G type f m :
  sim w b G -> ModelOf type (frame w) = (f, m) -> sim (mk_mvvm f (views w)) b G.
Proof.
  intros Hs. destruct (existsb (Z.eqb type) (model_builder_ (frame w))) eqn:Hb.
  - destruct (ModelOf_spec _ _ _ (sim_models _ _ _ Hs) Hb) as (f' & m' & -> & H' & Hm & Ec & Eb).
    intros Hx. injection Hx as <- <-. destruct Hs as [H1 H2 H3 H4 H5]. split; auto; cbn; [rewrite Eb; exact H3 | rewrite Ec; exact H4].
  - unfold ModelOf. rewrite Hb. destruct (map_find type (models_ (frame w))); intros Hx; injection Hx as <- <-;
      (eapply sim_view_ext; [exact Hs | reflexivity..]).
Qed.

Lemma sim_step w b G o : sim w b G -> exists G', sim (mvvm_step w o) (bus_step b o) G'.
Proof.
  intros H. destruct o.
  - exists G. destruct H as [[] ? Hr ? ?]. split; cbn; [split; auto|auto|rewrite Hr; reflexivity|auto|auto].
    cbn. intros t m Hm. erewrite ok_built0; [apply orb_true_r|eassumption].
  - apply sim_subscribe with G. assumption.
  - apply (sim_remove w b G v (set_subscribe_ids [] (BindEvent None (BindPropertyChanged None (view v w)))) H eq_refl).
  - apply (sim_remove w b G v (set_subscribe_ids [] (view v w)) H eq_refl).
Qed.

Lemma sim_run ops : exists G, sim (mvvm_run ops) (bus_run ops) G.
Proof.
  induction ops as [|o ops [G IH]] using rev_ind.
  - exists []. split; cbn; auto. split; cbn; [reflexivity|discriminate|constructor|discriminate].
  - unfold mvvm_run, bus_run in *. rewrite !fold_left_app. apply sim_step with G. exact IH.
Qed.

Lemma sim_fired w b G type event : sim w b G -> fired type event w = bus_fired type event b.
Proof.
  intros [H Ha _ _ _]. unfold fired, bus_fired. rewrite <- Ha.
  pose proof (ok_lists _ _ H type event) as Hl.
  transitivity (map delegate (map info (filter (at_event type event) G))).
  - rewrite <- Hl. destruct (map_find type _); [apply FireEvent_list|reflexivity].
  - clear. induction G as [|g G IH]; cbn; [reflexivity|]. unfold at_event at 1.
    destruct ((_ =? _) && _); cbn; congruence.
Qed.

(** C38: the models and view models implement a list of subscriptions: after any
    sequence of registrations, subscriptions, unbindings and destructions, firing
    an event of a model calls the delegates of the active subscriptions to that
    event of that type, in the order they were made; unbinding or destroying a
    view model removes its own subscriptions and no others, and a subscription to
    a type without a model has no effect. *)
Theorem mvvm_refines_bus (ops : list mvvm_op) (type event : Z) :
  fired type event (mvvm_run ops) = bus_fired type event (bus_run ops).
Proof. destruct (sim_run ops) as [G H]. exact (sim_fired _ _ _ _ _ H). Qed.
End System.
