(* ===== verification/Crypto.v ===== *)
(** * Cryptographic helpers

    src/base/crypto_util.cc in a build without NDEBUG, where all of its
    functions exist and assertions are checked (a failed one ends the program,
    given as [Throws]).  OpenSSL is a parameter: its digests, ciphers and keys are
    functions of the section below, and what is relied on is a hypothesis of the
    theorem that uses it.  A pointer with a length is the list of the bytes that
    may be read and the length. *)

From Stdlib Require Import ZArith List Bool Lia.
From S2P Require Import Prelude Cpp StringUtil.
Import ListNotations.
Local Open Scope Z_scope.
Local Open Scope cpp_scope.

(** ** Memory *)

(** [n] bytes from [b + off]. *)
Definition read_at (b : list Z) (off n : Z) : outcome (list Z) :=
  if (0 <=? off) && (0 <=? n) && (off + n <=? zlen b) then Ok (slice b off n) else Undefined.

(** The bytes [data] to [b + off]. *)
Definition write_at (b : list Z) (off : Z) (data : list Z) : outcome (list Z) :=
  if (0 <=? off) && (off + zlen data <=? zlen b)
  then Ok (slice b 0 off ++ data ++ skipn (Z.to_nat (off + zlen data)) b) else Undefined.

Definition zeros (n : Z) : list Z := repeat 0 (Z.to_nat n).

(** [std::string::resize] of a number converted to [size_t]: a negative one is
    beyond [max_size()]. *)
Definition resize_to (s : list Z) (n : Z) : outcome (list Z) := if n <? 0 then Throws else Ok (resize s n).

(** [assert] and [BOOST_VERIFY]. *)
Definition check (b : bool) : outcome unit := if b then Ok tt else Throws.

Section OpenSSL.

(** ** Base64 *)

Context (EVP_EncodedLength : Z -> Z) (EVP_EncodeBlock : list Z -> list Z).
Context (EVP_DecodedLength : Z -> Z) (EVP_DecodeBase64 : list Z -> option (list Z)).

Definition Base64Encode_ptr (buffer : list Z) (len : Z) : outcome (list Z) :=
  let? input := read_at buffer 0 len in
  let out := EVP_EncodeBlock input in
  let? result := write_at (zeros (EVP_EncodedLength len)) 0 out in
  Ok (resize result (zlen out)).

Definition Base64Encode (buffer : list Z) : outcome (list Z) := Base64Encode_ptr buffer (i32 (zlen buffer)).

(** [EVP_DecodeBase64] fails when the result does not fit. *)
Definition Base64Decode_ptr (buffer : list Z) (len : Z) : outcome (list Z) :=
  let? input := read_at buffer 0 len in
  match EVP_DecodeBase64 input with
  | Some out =>
      if zlen out <=? EVP_DecodedLength len then
        let? result := write_at (zeros (EVP_DecodedLength len)) 0 out in Ok (resize result (zlen out))
      else Ok []
  | None => Ok []
  end.

Definition Base64Decode (buffer : list Z) : outcome (list Z) := Base64Decode_ptr buffer (i32 (zlen buffer)).

(** [boost::algorithm::replace_all] of a one-character string. *)
Definition replace_all (c : Z) (by_ : list Z) (s : list Z) : list Z :=
  flat_map (fun x => if x =? c then by_ else [x]) s.

Definition Base64EncodeUrlSafe_ptr (buffer : list Z) (len : Z) : outcome (list Z) :=
  let? base_64 := Base64Encode_ptr buffer len in
  Ok (replace_all 61 [] (replace_all 47 [95] (replace_all 43 [45] base_64))).

Definition Base64EncodeUrlSafe (buffer : list Z) : outcome (list Z) :=
  Base64EncodeUrlSafe_ptr buffer (i32 (zlen buffer)).

(** ** Digests *)

Context (MD5 SHA256 : list Z -> list Z).
(** Whether a context can be allocated; [None] when [HMAC_Init_ex] fails. *)
Context (hmac_ctx : bool) (hmac_sha256 hmac_sha1 : list Z -> list Z -> option (list Z)).

Definition Md5 (source : list Z) : outcome (list Z) := write_at (zeros 16) 0 (MD5 source).

Definition Md5_ptr (source : list Z) (len : Z) : outcome (list Z) :=
  let? input := read_at source 0 len in write_at (zeros 16) 0 (MD5 input).

Definition Md5Hex_ptr (source : list Z) (len : Z) : outcome (list Z) :=
  let? digst := Md5_ptr source len in BinToHex digst.

Definition Md5Hex (source : list Z) : outcome (list Z) := Md5Hex_ptr source (i32 (zlen source)).

Definition SHA256Hash (source : list Z) : outcome (list Z) := write_at (zeros 32) 0 (SHA256 source).

Definition HMAC_SHA256 (text key : list Z) : outcome (list Z) :=
  if negb hmac_ctx then Ok []
  else match hmac_sha256 key text with
       | None => Ok []
       | Some md => let? _ := check (zlen md =? 32) in write_at (zeros (zlen md)) 0 md
       end.

Definition HMAC_SHA (text key digest : list Z) : outcome (list Z) :=
  if negb hmac_ctx then Ok digest
  else match hmac_sha1 key text with
       | None => Ok digest
       | Some md => let? _ := check (zlen md =? 20) in write_at digest 0 md
       end.

(** ** RSA *)

Context {Key : Type} (mem_buf : bool) (public_key private_key : option Key) (RSA_size : Key -> Z).
(** Encryption pads at random: the first argument numbers the calls.  [None] is
    a result of -1. *)
Context (RSA_public_encrypt : nat -> Key -> list Z -> option (list Z)).
Context (RSA_private_decrypt : Key -> list Z -> option (list Z)).
Context (RSA_verify : Key -> list Z -> list Z -> bool).
Context (RSA_sign : Key -> list Z -> option (list Z)).

(** The public and the private key, where [BIO_new_mem_buf] and the reading of
    the key succeed. *)
Definition read_key (k : option Key) : option Key := if mem_buf then k else None.

(** The loop of [EncryptByPublicKey], with the number of its round. *)
Fixpoint encrypt_loop (fuel round : nat) (rsa : Key) (buffer : list Z) (len already_enc_len enc_data_len : Z)
  (result : list Z) : outcome (list Z * Z) :=
  match fuel with
  | O => Undefined
  | S fuel =>
      if already_enc_len <? len then
        let current_enc_len := Z.min 100 (len - already_enc_len) in
        let? input := read_at buffer already_enc_len current_enc_len in
        match RSA_public_encrypt round rsa input with
        | Some out =>
            let? result := write_at result enc_data_len out in
            encrypt_loop fuel (S round) rsa buffer len (already_enc_len + current_enc_len)
              (enc_data_len + zlen out) result
        | None =>
            encrypt_loop fuel (S round) rsa buffer len (already_enc_len + current_enc_len)
              (enc_data_len + -1) result
        end
      else Ok (result, enc_data_len)
  end.

(** The returned flag and [result], which starts as the caller's string. *)
Definition EncryptByPublicKey_ptr (buffer : list Z) (len : Z) (result : list Z) : outcome (bool * list Z) :=
  if len =? 0 then Ok (false, result)
  else match read_key public_key with
       | None => Ok (false, result)
       | Some rsa =>
           let? enc_result_len := int_result ((Z.quot (len - 1) 100 + 1) * RSA_size rsa) in
           let? result := resize_to result enc_result_len in
           let? r := encrypt_loop (S (Z.to_nat len)) 0 rsa buffer len 0 0 result in
           let? _ := check (snd r =? enc_result_len) in
           Ok (snd r =? enc_result_len, fst r)
       end.

Definition EncryptByPublicKey (buffer result : list Z) : outcome (bool * list Z) :=
  EncryptByPublicKey_ptr buffer (i32 (zlen buffer)) result.

Definition RSA_Verify (source sign : list Z) : outcome bool :=
  match read_key public_key with
  | None => Ok false
  | Some rsa => let? md5 := Md5 source in Ok (RSA_verify rsa md5 sign)
  end.

(** The loop of [DecryptByPrivateKey]: [result], [decrypted_len] and
    [result_data_len] after it. *)
Fixpoint decrypt_loop (fuel : nat) (rsa : Key) (buffer : list Z) (len decrypted_len result_data_len : Z)
  (result : list Z) : outcome (list Z * Z * Z) :=
  match fuel with
  | O => Undefined
  | S fuel =>
      if decrypted_len <? len then
        let? input := read_at buffer decrypted_len (RSA_size rsa) in
        match RSA_private_decrypt rsa input with
        | Some out =>
            let? result := write_at result result_data_len out in
            decrypt_loop fuel rsa buffer len (decrypted_len + RSA_size rsa) (result_data_len + zlen out) result
        | None => Ok (result, decrypted_len, result_data_len)
        end
      else Ok (result, decrypted_len, result_data_len)
  end.

Definition DecryptByPrivateKey_ptr (buffer : list Z) (len : Z) (result : list Z) : outcome (bool * list Z) :=
  match read_key private_key with
  | None => Ok (false, result)
  | Some rsa =>
      let? _ := check (Z.rem len (RSA_size rsa) =? 0) in
      let? result := resize_to result len in
      let? r := decrypt_loop (S (Z.to_nat len)) rsa buffer len 0 0 result in
      let '(result, decrypted_len, result_data_len) := r in
      Ok (decrypted_len =? len, resize result result_data_len)
  end.

Definition DecryptByPrivateKey (buffer result : list Z) : outcome (bool * list Z) :=
  DecryptByPrivateKey_ptr buffer (i32 (zlen buffer)) result.

Definition RSA_Sign (source sign : list Z) : outcome (bool * list Z) :=
  match read_key private_key with
  | None => Ok (false, sign)
  | Some rsa =>
      let sign := resize sign (RSA_size rsa) in
      let? md5 := Md5 source in
      match RSA_sign rsa md5 with
      | Some s => let? sign := write_at sign 0 s in Ok (true, sign)
      | None => Ok (false, sign)
      end
  end.

(** ** AES-256-GCM *)

(** A context for encryption or decryption: started with key and iv, given the
    additional data, fed with data in pieces, and asked for its tag. *)
Context {Ctx : Type} (gcm_encrypt_init gcm_decrypt_init : list Z -> list Z -> Ctx).
Context (gcm_aad : Ctx -> list Z -> Ctx) (EVP_EncryptUpdate EVP_DecryptUpdate : Ctx -> list Z -> Ctx * list Z).
Context (gcm_tag : Ctx -> list Z).

(** [(uint8_t)(iv >> n)] *)
Definition iv_byte (iv n : Z) : Z := Z.land (Z.shiftr iv n) 255.

(** [iv_str]: its first four bytes stay zero. *)
Definition iv_str (iv : Z) : list Z :=
  let s := zeros 12 in
  let s := buf_set s 11 (iv_byte iv 0) in
  let s := buf_set s 10 (iv_byte iv 8) in
  let s := buf_set s 9 (iv_byte iv 16) in
  let s := buf_set s 8 (iv_byte iv 24) in
  let s := buf_set s 7 (iv_byte iv 32) in
  let s := buf_set s 6 (iv_byte iv 40) in
  let s := buf_set s 5 (iv_byte iv 48) in
  buf_set s 4 (iv_byte iv 56).

(** The loops of both functions over [len] bytes, 128 at a time; [result_buffer]
    has 1024 bytes. *)
Fixpoint gcm_loop (update : Ctx -> list Z -> Ctx * list Z) (fuel : nat) (source : list Z) (len i : Z)
  (ctx : Ctx) (result : list Z) : outcome (Ctx * list Z) :=
  match fuel with
  | O => Undefined
  | S fuel =>
      if i <? len then
        let? next := int_result (i + 128) in
        let input_size := if len >? next then 128 else len - i in
        let? input := read_at source i input_size in
        let (ctx, out) := update ctx input in
        let? _ := write_at (zeros 1024) 0 out in
        gcm_loop update fuel source len next ctx (result ++ out)
      else Ok (ctx, result)
  end.

(** The key is read as 32 bytes of [key.c_str()]. *)
Definition EncryptByAESGCM (key : list Z) (iv : Z) (source addata : list Z) : outcome (list Z) :=
  let? k := read_at (key ++ [0]) 0 32 in
  let ctx := gcm_aad (gcm_encrypt_init k (iv_str iv)) addata in
  let? r := gcm_loop EVP_EncryptUpdate (S (length source)) source (zlen source) 0 ctx [] in
  Ok (snd r ++ slice (gcm_tag (fst r)) 0 16).

(** The tag that is read at the end is not used. *)
Definition DecryptByAESGCM (key : list Z) (iv : Z) (source addata : list Z) : outcome (list Z) :=
  let? k := read_at (key ++ [0]) 0 32 in
  let ctx := gcm_aad (gcm_decrypt_init k (iv_str iv)) addata in
  let data_len := i32 (zlen source - 16) in
  let? r := gcm_loop EVP_DecryptUpdate (S (Z.to_nat data_len)) source data_len 0 ctx [] in
  Ok (snd r).
End OpenSSL.
