(* ===== verification/CryptoSpec.v ===== *)
(** * Encryption in pieces

    The helpers cut what they encrypt into blocks (RSA) or feed it in pieces
    (AES-GCM); the theorems say that the pieces fit together, so that decrypting
    gives back what was encrypted, for every key and length in range. *)

From Stdlib Require Import ZArith List Bool Lia.
From S2P Require Import Prelude Cpp StringUtil Crypto.
Import ListNotations.
Local Open Scope Z_scope.
Local Open Scope cpp_scope.

(** ** Memory *)

Lemma slice_step {A} (l : list A) off n :
  0 <= off -> 0 <= n -> off + n <= zlen l ->
  slice l off (zlen l - off) = slice l off n ++ slice l (off + n) (zlen l - (off + n)).
Proof.
  intros Ho Hn Hl. unfold slice, zlen in *.
  replace (Z.to_nat (Z.of_nat (length l) - off)) with (Z.to_nat n + Z.to_nat (Z.of_nat (length l) - (off + n)))%nat by lia.
  rewrite firstn_plus, skipn_skipn. do 3 f_equal. lia.
Qed.

Lemma read_at_ok b off n :
  0 <= off -> 0 <= n -> off + n <= zlen b -> read_at b off n = Ok (slice b off n).
Proof.
  intros H1%Z.leb_le H2%Z.leb_le H3%Z.leb_le. unfold read_at. rewrite H1, H2, H3. reflexivity.
Qed.

(** Writing behind what has been written so far. *)
Lemma write_at_next pre data rest :
  zlen data <= zlen rest ->
  exists rest', write_at (pre ++ rest) (zlen pre) data = Ok (pre ++ data ++ rest') /\ zlen rest' = zlen rest - zlen data.
Proof.
  intros H. exists (skipn (length data) rest). unfold write_at. rewrite zlen_app.
  destruct (Z.leb_spec 0 (zlen pre)) as [_|]; [|pose proof (zlen_nonneg pre); lia].
  destruct (Z.leb_spec (zlen pre + zlen data) (zlen pre + zlen rest)); [|lia]. cbn. split.
  - unfold slice, zlen in *. rewrite skipn_0, Nat2Z.id, firstn_app, Nat.sub_diag, firstn_all, firstn_O, app_nil_r.
    do 3 f_equal. rewrite skipn_app, skipn_all2 by lia. cbn. f_equal. lia.
  - unfold zlen in *. rewrite length_skipn. lia.
Qed.

Lemma zlen_resize s n : 0 <= n -> zlen (resize s n) = n.
Proof. intros Hn. unfold resize, zlen. rewrite length_app, length_firstn, repeat_length. lia. Qed.

Lemma resize_to_ok s n : 0 <= n -> resize_to s n = Ok (resize s n).
Proof. intros Hn. unfold resize_to. destruct (Z.ltb_spec n 0); [lia|reflexivity]. Qed.

Lemma resize_prefix s rest : resize (s ++ rest) (zlen s) = s.
Proof.
  unfold resize, zlen. rewrite Nat2Z.id, length_app, firstn_app, Nat.sub_diag, firstn_all, firstn_O, app_nil_r.
  replace (length s - (length s + length rest))%nat with O by lia. apply app_nil_r.
Qed.

(** ** RSA in blocks of 100 bytes *)

Definition blocks (n : Z) : Z := (n + 99) / 100.

Lemma blocks_zero : blocks 0 = 0.
Proof. reflexivity. Qed.

Lemma blocks_next n : 0 < n -> blocks n = 1 + blocks (n - Z.min 100 n).
Proof.
  intros Hn. unfold blocks. destruct (Z.min_spec 100 n) as [[H ->]|[H ->]].
  - replace (n + 99) with (n - 100 + 99 + 1 * 100) by lia. rewrite Z.div_add by lia. lia.
  - rewrite Z.sub_diag. change ((0 + 99) / 100) with 0. symmetry. apply Z.div_unique with (n - 1); lia.
Qed.

Lemma blocks_quot n : 0 < n -> Z.quot (n - 1) 100 + 1 = blocks n.
Proof.
  intros Hn. rewrite Z.quot_div_nonneg by lia. unfold blocks.
  replace (n + 99) with (n - 1 + 1 * 100) by lia. rewrite Z.div_add by lia. reflexivity.
Qed.

Section Rsa.
Context {Key : Type} (RSA_size : Key -> Z).
Context (RSA_public_encrypt : nat -> Key -> list Z -> option (list Z)).
Context (RSA_private_decrypt : Key -> list Z -> option (list Z)).
Context (public private : Key).

(** PKCS #1 v1.5: a plaintext at least 11 bytes shorter than the modulus is
    encrypted to the size of the modulus, whatever the padding, and the private
    key decrypts it. *)
Definition rsa_pair : Prop :=
  RSA_size private = RSA_size public /\
  forall round p, zlen p <= RSA_size public - 11 ->
    exists c, RSA_public_encrypt round public p = Some c /\ zlen c = RSA_size public /\
      RSA_private_decrypt private c = Some p.

Context (Hpair : rsa_pair) (Hsize : 111 <= RSA_size public).

(** A ciphertext made of blocks, and its plaintext. *)
Inductive deciphers : list Z -> list Z -> Prop :=
| deciphers_nil : deciphers [] []
| deciphers_block c p cs ps :
    zlen c = RSA_size public -> zlen p <= RSA_size public -> RSA_private_decrypt private c = Some p ->
    deciphers cs ps -> deciphers (c ++ cs) (p ++ ps).

Lemma encrypt_loop_spec fuel : forall round buffer already pre rest,
  0 <= already -> zlen buffer - already < Z.of_nat fuel -> already <= zlen buffer ->
  zlen rest = blocks (zlen buffer - already) * RSA_size public ->
  exists c, encrypt_loop RSA_public_encrypt fuel round public buffer (zlen buffer) already (zlen pre) (pre ++ rest)
      = Ok (pre ++ c, zlen pre + zlen c) /\ zlen c = zlen rest /\
    deciphers c (slice buffer already (zlen buffer - already)).
Proof.
  induction fuel as [|fuel IH]; intros round buffer already pre rest Ha Hf Hle Hrest; [lia|].
  cbn [encrypt_loop]. destruct (Z.ltb_spec already (zlen buffer)) as [Hlt|Hge].
  - set (cur := Z.min 100 (zlen buffer - already)). rewrite read_at_ok by lia.
    destruct (proj2 Hpair round (slice buffer already cur)) as (c & Hc & Hlen & Hdec);
      [rewrite zlen_slice; lia|].
    rewrite blocks_next in Hrest by lia. fold cur in Hrest.
    assert (0 <= blocks (zlen buffer - already - cur)) by (apply Z.div_pos; lia).
    cbn [outcome_bind]. rewrite Hc. destruct (write_at_next pre c rest) as (rest' & -> & Hr'); [nia|].
    cbn [outcome_bind]. rewrite <- zlen_app, app_assoc.
    destruct (IH (S round) buffer (already + cur) (pre ++ c) rest') as (cs & -> & Hcs & Hd);
      [lia|lia|lia|rewrite Hr'; replace (zlen buffer - (already + cur)) with (zlen buffer - already - cur) by lia; nia|].
    exists (c ++ cs). rewrite app_assoc, !zlen_app. split; [|split].
    + do 2 f_equal. lia.
    + lia.
    + rewrite (slice_step buffer already cur) by lia. constructor; try assumption. rewrite zlen_slice; lia.
  - assert (zlen buffer - already = 0) as E by lia. rewrite E, blocks_zero in Hrest.
    destruct rest; [|rewrite zlen_cons in Hrest; pose proof (zlen_nonneg rest); lia].
    exists []. rewrite E. unfold zlen. cbn. rewrite Z.add_0_r. split; [reflexivity|]. split; [reflexivity|].
    unfold slice. cbn. constructor.
Qed.

Lemma deciphers_length c p : deciphers c p -> zlen p <= zlen c /\ Z.rem (zlen c) (RSA_size public) = 0.
Proof.
  induction 1 as [|c p cs ps Hc Hp _ _ [IH1 IH2]]; [unfold zlen; cbn; split; [lia|reflexivity]|].
  rewrite !zlen_app, Hc. split; [lia|]. pose proof (zlen_nonneg cs).
  rewrite <- (Z.mul_1_l (RSA_size public)) at 1. rewrite Z.add_comm, Z.rem_add by nia. assumption.
Qed.

Lemma decrypt_loop_spec cs ps : deciphers cs ps -> forall fuel done pre rest,
  zlen cs < Z.of_nat fuel -> zlen ps <= zlen rest ->
  exists rest', decrypt_loop RSA_size RSA_private_decrypt fuel private (done ++ cs) (zlen (done ++ cs)) (zlen done)
      (zlen pre) (pre ++ rest) = Ok (pre ++ ps ++ rest', zlen (done ++ cs), zlen pre + zlen ps).
Proof.
  destruct Hpair as [Esize _].
  induction 1 as [|c p cs ps Hc Hp Hdec _ IH]; intros fuel done pre rest Hf Hr;
    (destruct fuel as [|fuel]; [unfold zlen in Hf; lia|]); cbn [decrypt_loop].
  - rewrite app_nil_r, Z.ltb_irrefl. exists rest. cbn. rewrite Z.add_0_r. reflexivity.
  - rewrite !zlen_app in *. rewrite Hc in *. pose proof (zlen_nonneg cs).
    destruct (Z.ltb_spec (zlen done) (zlen done + (RSA_size public + zlen cs))) as [_|]; [|lia].
    rewrite read_at_ok, Esize by (rewrite ?zlen_app, ?Hc, ?Esize; pose proof (zlen_nonneg done); lia).
    replace (slice (done ++ c ++ cs) (zlen done) (RSA_size public)) with c
      by (rewrite <- Hc; symmetry; apply slice_app_middle).
    cbn [outcome_bind]. rewrite Hdec.
    pose proof (zlen_nonneg ps).
    destruct (write_at_next pre p rest) as (rest' & -> & Hr'); [lia|]. cbn [outcome_bind].
    destruct (IH fuel (done ++ c) (pre ++ p) rest') as (rest2 & H2); [lia|lia|].
    rewrite !zlen_app, Hc, <- !app_assoc in H2. exists rest2. rewrite <- !app_assoc.
    rewrite <- !Z.add_assoc in H2. rewrite <- H2, !Z.add_assoc. reflexivity.
Qed.
End Rsa.

(** C39: RSA by blocks is a round trip: a string that is not empty, cut into
    blocks of 100 bytes, is encrypted without error to one ciphertext of the size
    of the key for each block, and decrypting that gives the string back, for
    every key pair of at least 888 bits, every padding and every content of the
    result strings before, as long as the ciphertext's length is an [int]. *)
Theorem rsa_roundtrip {Key : Type} (RSA_size : Key -> Z)
    (RSA_public_encrypt : nat -> Key -> list Z -> option (list Z))
    (RSA_private_decrypt : Key -> list Z -> option (list Z)) (public private : Key) (buffer result result' : list Z) :
  rsa_pair RSA_size RSA_public_encrypt RSA_private_decrypt public private ->
  111 <= RSA_size public -> 0 < zlen buffer -> blocks (zlen buffer) * RSA_size public < 2 ^ 31 ->
  exists c,
    EncryptByPublicKey true (Some public) RSA_size RSA_public_encrypt buffer result = Ok (true, c) /\
    zlen c = blocks (zlen buffer) * RSA_size public /\
    DecryptByPrivateKey true (Some private) RSA_size RSA_private_decrypt c result' = Ok (true, buffer).
Proof.
  intros Hpair Hsize Hpos Hmax. set (n := zlen buffer) in *.
  assert (Hn : n <= 100 * blocks n) by (unfold blocks; pose proof (Z.mod_pos_bound (n + 99) 100); Z.div_mod_to_equations; lia).
  set (size := RSA_size public) in *. assert (Hlt : n < 2 ^ 31) by nia.
  destruct (encrypt_loop_spec RSA_size RSA_public_encrypt RSA_private_decrypt public private Hpair Hsize
    (S (Z.to_nat n)) 0 buffer 0 [] (resize result (blocks n * size))) as (c & Hc & Hlen & Hd);
    [lia|fold n; lia|lia|rewrite zlen_resize by nia; fold n size; rewrite Z.sub_0_r; reflexivity|].
  rewrite zlen_resize in Hlen by nia. fold n in Hc, Hd. change (zlen (@nil Z)) with 0 in Hc. cbn [app] in Hc.
  rewrite Z.add_0_l, Hlen in Hc. rewrite Z.sub_0_r in Hd. unfold n in Hd. rewrite slice_all in Hd. fold n in Hd.
  exists c. split; [|split; [assumption|]].
  - unfold EncryptByPublicKey, EncryptByPublicKey_ptr. fold n. rewrite i32_small by lia.
    destruct (Z.eqb_spec n 0); [lia|]. cbn [read_key]. fold size. rewrite blocks_quot, int_result_ok by nia.
    cbn [outcome_bind]. rewrite resize_to_ok by nia. cbn [outcome_bind]. rewrite Hc.
    cbn. rewrite Z.eqb_refl. reflexivity.
  - destruct (deciphers_length RSA_size RSA_private_decrypt public private Hsize c buffer Hd) as [Hle Hrem]. fold n in Hle.
    unfold DecryptByPrivateKey, DecryptByPrivateKey_ptr. rewrite i32_small by lia. cbn [read_key].
    rewrite (proj1 Hpair). fold size in Hrem |- *. rewrite Hrem. cbn [check Z.eqb outcome_bind].
    rewrite resize_to_ok by lia. cbn [outcome_bind].
    destruct (decrypt_loop_spec _ _ _ public private Hpair Hsize c buffer Hd (S (Z.to_nat (zlen c))) [] []
      (resize result' (zlen c))) as (rest' & Hl); [lia|rewrite zlen_resize by lia; assumption|].
    change (zlen (@nil Z)) with 0 in Hl. cbn [app] in Hl. rewrite Hl. cbn [outcome_bind].
    rewrite Z.eqb_refl, Z.add_0_l, resize_prefix. reflexivity.
Qed.

(** A key pair for the witness: the length, the plaintext and zeros, 128 bytes
    in all. *)
Definition sample_encrypt (round : nat) (k : unit) (p : list Z) : option (list Z) :=
  if zlen p <=? 117 then Some (zlen p :: p ++ zeros (127 - zlen p)) else None.

Definition sample_decrypt (k : unit) (c : list Z) : option (list Z) :=
  match c with
  | n :: c => Some (slice c 0 n)
  | [] => None
  end.

Lemma sample_pair : rsa_pair (fun _ => 128) sample_encrypt sample_decrypt tt tt.
Proof.
  split; [reflexivity|]. intros round p Hp. unfold sample_encrypt. destruct (Z.leb_spec (zlen p) 117); [|lia].
  eexists. split; [reflexivity|]. split.
  - rewrite zlen_cons, zlen_app. unfold zeros, zlen in *. rewrite repeat_length. lia.
  - cbn. f_equal. exact (slice_app_middle [] p _).
Qed.

Lemma rsa_roundtrip_witness :
  exists c,
    EncryptByPublicKey true (Some tt) (fun _ => 128) sample_encrypt (repeat 7 250) [1] = Ok (true, c) /\
    zlen c = 384 /\
    DecryptByPrivateKey true (Some tt) (fun _ => 128) sample_decrypt c [] = Ok (true, repeat 7 250).
Proof.
  apply (rsa_roundtrip (fun _ => 128) sample_encrypt sample_decrypt tt tt (repeat 7 250) [1] []).
  - apply sample_pair.
  - lia.
  - reflexivity.
  - reflexivity.
Defined.

(** ** AES-GCM in pieces of 128 bytes *)

Section Gcm.
Context {Ctx : Type}.

(** A context takes its data in pieces of any size and gives as much out. *)
Record streaming (update : Ctx -> list Z -> Ctx * list Z) : Prop := {
  stream_nil : forall c, update c [] = (c, []);
  stream_app : forall c l1 l2, update c (l1 ++ l2) =
    let (c1, o1) := update c l1 in let (c2, o2) := update c1 l2 in (c2, o1 ++ o2);
  stream_length : forall c l, zlen (snd (update c l)) = zlen l
}.

Context (update : Ctx -> list Z -> Ctx * list Z) (Hupdate : streaming update).

(** The loop does what one call on all the data would do. *)
Lemma gcm_loop_spec source len : len <= zlen source -> len + 128 < 2 ^ 31 ->
  forall fuel i ctx result, 0 <= i <= len -> len - i < Z.of_nat fuel ->
  gcm_loop update fuel source len i ctx result =
    Ok (fst (update ctx (slice source i (len - i))), result ++ snd (update ctx (slice source i (len - i)))).
Proof.
  intros Hlen Hmax. induction fuel as [|fuel IH]; intros i ctx result Hi Hf; [lia|]. cbn [gcm_loop].
  destruct (Z.ltb_spec i len) as [Hlt|Hge].
  2: { replace (len - i) with 0 by lia. unfold slice. cbn. rewrite (stream_nil _ Hupdate). cbn.
       rewrite app_nil_r. reflexivity. }
  rewrite int_result_ok by lia. cbn [outcome_bind]. rewrite Z.gtb_ltb.
  set (size := if i + 128 <? len then 128 else len - i).
  assert (Hsize : 0 <= size <= 128 /\ i + size <= len) by (unfold size; destruct (Z.ltb_spec (i + 128) len); lia).
  rewrite read_at_ok by lia. cbn [outcome_bind]. destruct (update ctx (slice source i size)) as [ctx' out] eqn:Hout.
  assert (Hol : zlen out = size).
  { rewrite <- (zlen_slice source i size) by lia. rewrite <- (stream_length _ Hupdate ctx (slice source i size)), Hout. reflexivity. }
  destruct (write_at_next [] out (zeros 1024)) as (r & Hr & _); [change (zlen (zeros 1024)) with 1024; lia|].
  change (zlen (@nil Z)) with 0 in Hr. cbn [app] in Hr. rewrite Hr. cbn [outcome_bind].
  destruct (Z.ltb_spec (i + 128) len) as [Hnext|Hlast].
  - rewrite IH by lia. subst size.
    assert (slice source i (len - i) = slice source i 128 ++ slice source (i + 128) (len - (i + 128))) as ->.
    { unfold slice. replace (Z.to_nat (len - i)) with (Z.to_nat 128 + Z.to_nat (len - (i + 128)))%nat by lia.
      rewrite firstn_plus, skipn_skipn. do 3 f_equal. lia. }
    rewrite (stream_app _ Hupdate), Hout. destruct (update ctx' _). cbn. rewrite app_assoc. reflexivity.
  - subst size. rewrite Hout. destruct fuel as [|fuel]; [lia|]. cbn [gcm_loop].
    destruct (Z.ltb_spec (i + 128) len); [lia|reflexivity].
Qed.
End Gcm.

(** C40: AES-GCM in pieces: a string is encrypted to the ciphertext that one call
    on all of it gives, followed by the 16 bytes of the tag, and decrypting with
    the same key, number and additional data gives the string back, whatever the
    16 bytes after the ciphertext are: the tag is not checked. *)
Theorem gcm_roundtrip {Ctx : Type} (encrypt_init decrypt_init : list Z -> list Z -> Ctx)
    (aad : Ctx -> list Z -> Ctx) (encrypt decrypt : Ctx -> list Z -> Ctx * list Z) (tag : Ctx -> list Z)
    (key source addata : list Z) (iv : Z) :
  streaming encrypt -> streaming decrypt -> (forall c, zlen (tag c) = 16) ->
  (forall k v a p,
     snd (decrypt (aad (decrypt_init k v) a) (snd (encrypt (aad (encrypt_init k v) a) p))) = p) ->
  32 <= zlen key -> zlen source + 128 < 2 ^ 31 ->
  let sent := encrypt (aad (encrypt_init (slice key 0 32) (iv_str iv)) addata) source in
  EncryptByAESGCM encrypt_init aad encrypt tag key iv source addata = Ok (snd sent ++ tag (fst sent)) /\
  forall other, zlen other = 16 ->
    DecryptByAESGCM decrypt_init aad decrypt key iv (snd sent ++ other) addata = Ok source.
Proof.
  intros He Hd Htag Hinv Hkey Hmax. cbv zeta.
  set (ctx := aad (encrypt_init (slice key 0 32) (iv_str iv)) addata).
  assert (Hk : read_at (key ++ [0]) 0 32 = Ok (slice key 0 32)).
  { rewrite read_at_ok by (rewrite ?zlen_app; pose proof (zlen_nonneg [0]); lia). f_equal. unfold slice, zlen in *.
    change (Z.to_nat 0) with O. rewrite !skipn_O, firstn_app.
    replace (Z.to_nat 32 - length key)%nat with O by lia. apply app_nil_r. }
  split.
  - unfold EncryptByAESGCM. rewrite Hk. cbn [outcome_bind]. fold ctx.
    rewrite (gcm_loop_spec encrypt He source (zlen source)) by (unfold zlen in *; lia).
    rewrite Z.sub_0_r, slice_all. cbn [outcome_bind fst snd app]. rewrite <- (Htag (fst (encrypt ctx source))), slice_all.
    reflexivity.
  - intros other Ho. pose proof (stream_length _ He ctx source) as Hl. set (c := snd (encrypt ctx source)) in *.
    unfold DecryptByAESGCM. rewrite Hk. cbn [outcome_bind]. rewrite zlen_app, Ho, Hl.
    replace (zlen source + 16 - 16) with (zlen source) by lia. pose proof (zlen_nonneg source).
    rewrite i32_small by lia.
    rewrite (gcm_loop_spec decrypt Hd (c ++ other) (zlen source)) by (rewrite ?zlen_app; lia).
    cbn [outcome_bind fst snd app]. rewrite Z.sub_0_r, <- Hl. rewrite (slice_app_middle [] c other : slice (c ++ other) 0 _ = c).
    unfold c, ctx. rewrite Hinv. reflexivity.
Qed.

(** A cipher for the witness: the context is the next number of the keystream. *)
Fixpoint sample_update (n : Z) (l : list Z) : Z * list Z :=
  match l with
  | [] => (n, [])
  | c :: l => let (n', out) := sample_update (n + 1) l in (n', Z.lxor c n :: out)
  end.

Definition sample_init (k v : list Z) : Z := fold_left Z.add (k ++ v) 0.

Definition sample_aad (n : Z) (a : list Z) : Z := fold_left Z.add a n.

Definition sample_tag (n : Z) : list Z := repeat n 16.

Lemma sample_streaming : streaming sample_update.
Proof.
  split.
  - reflexivity.
  - intros n l1 l2. revert n. induction l1 as [|c l1 IH]; intros n; cbn; [destruct (sample_update n l2); reflexivity|].
    rewrite IH. destruct (sample_update (n + 1) l1) as [n1 o1]. destruct (sample_update n1 l2). reflexivity.
  - intros n l. revert n. induction l as [|c l IH]; intros n; [reflexivity|]. specialize (IH (n + 1)).
    cbn [sample_update]. destruct (sample_update (n + 1) l). cbn [snd] in *. rewrite !zlen_cons, IH. reflexivity.
Qed.

Lemma sample_inverse l : forall n, snd (sample_update n (snd (sample_update n l))) = l.
Proof.
  induction l as [|c l IH]; intros n; cbn; [reflexivity|]. specialize (IH (n + 1)).
  destruct (sample_update (n + 1) l) as [n1 o1]. cbn in *. destruct (sample_update (n + 1) o1). cbn in *.
  rewrite IH, Z.lxor_assoc, Z.lxor_nilpotent, Z.lxor_0_r. reflexivity.
Qed.

Lemma gcm_roundtrip_witness :
  exists sent,
    EncryptByAESGCM sample_init sample_aad sample_update sample_tag (repeat 3 32) 5 (repeat 7 300) [1] =
      Ok (snd sent ++ sample_tag (fst sent)) /\
    DecryptByAESGCM sample_init sample_aad sample_update (repeat 3 32) 5 (snd sent ++ repeat 0 16) [1] =
      Ok (repeat 7 300).
Proof.
  exists (sample_update (sample_aad (sample_init (slice (repeat 3 32) 0 32) (iv_str 5)) [1]) (repeat 7 300)).
  destruct (gcm_roundtrip sample_init sample_init sample_aad sample_update sample_update sample_tag
    (repeat 3 32) (repeat 7 300) [1] 5) as [H1 H2].
  - apply sample_streaming.
  - apply sample_streaming.
  - reflexivity.
  - intros k v a p. apply sample_inverse.
  - discriminate.
  - reflexivity.
  - split; [exact H1|apply H2; reflexivity].
Defined.
