(* ===== verification/MessagePumpUi.v ===== *)
(** * The pumps of the user interface

    src/base/message_loop/message_pump_win.cc, on the message queue of a hidden
    window, and src/base/message_loop/message_pump_android.cc, on a timer of the
    looper.  Both are the pump of MessagePump.v behind another [Wakeup]; the
    members of [world] that belong to the [io_service] there are read as said
    below.  The window, its messages, the timer and the looper do what Windows
    and Linux document. *)

From Stdlib Require Import ZArith List Bool Lia.
From S2P Require Import Prelude Cpp MessagePump.
Import ListNotations.
Local Open Scope Z_scope.

Section Ui.
Context {A : Type}.
Implicit Types (x : RunnableInfo A) (w : world A).

Definition set_timer (t : option Z) w : world A :=
  mk_world (pump w) (clock w) t (posted w) (work_ w) (posting w) (waking w) (workers w) (ran w).

Definition add_ran x w : world A :=
  mk_world (pump w) (clock w) (timer w) (posted w) (work_ w) (posting w) (waking w) (workers w) (ran w ++ [x]).

(** ** Windows

    [work_] says that the window [g_hwnd_] exists, [posted] counts the messages
    [MESSAGE_PUMP_CUSTOM] in its queue, and [timer] is the time asked of
    [SetTimer].  [posting] and [waking] are the other threads inside
    [PostRunable]; the thread of the window, which also runs the closures and
    calls [Stop], is in one place of [PostRunable] at most. *)

Inductive ui_phase :=
| UiIdle
| UiPosting (e : Z) (r : Runnable A)    (* before the mutex *)
| UiWaking (t : Z).                     (* between the mutex and Wakeup *)

(** [stray] says that the thread of the window has set a timer without a window,
    whose callback would find no pump behind the null window. *)
Record win_world := mk_win {
  shared : world A;
  ui : ui_phase;
  stray : bool
}.

Definition new_win (t : Z) : win_world := mk_win (new_world t) UiIdle false.

Definition set_shared (w : world A) (v : win_world) : win_world := mk_win w (ui v) (stray v).

Definition set_ui (u : ui_phase) (v : win_world) : win_world := mk_win (shared v) u (stray v).

Definition add_message w : world A :=
  mk_world (pump w) (clock w) (timer w) (S (posted w)) (work_ w) (posting w) (waking w) (workers w) (ran w).

(** [MessagePumpWin::Wakeup], called by the thread of the window or not ([own]).
    [SetTimer] sets the one timer of the window anew; it wants a window of the
    calling thread and fails for another one.  Without a window it sets a timer
    of the calling thread, and [PostMessage] posts to the queue of the calling
    thread: the other threads have no loop for either, and nobody takes such a
    message for one of the pump. *)
Definition win_Wakeup (own : bool) (t : Z) (v : win_world) : win_world :=
  let w := shared v in
  if clock w <? t then
    if work_ w then
      if own then set_shared (set_timer (Some (clock w + wrap 32 (u64 (t - clock w)))) w) v else v
    else if own then mk_win w (ui v) true else v
  else if work_ w then set_shared (add_message w) v else v.

(** [MessagePumpWin::Work], that is, [DoOneWork]: the closure starts last, and
    while it runs it may take messages from the queue itself. *)
Definition win_Work (v : win_world) : win_world :=
  let '(p, r, t) := DoOneWork (clock (shared v)) (pump (shared v)) in
  let v := set_shared (set_pump p (shared v)) v in
  let v := match t with Some t => win_Wakeup true t v | None => v end in
  match r with
  | Some x => set_shared (add_ran x (shared v)) v
  | None => v
  end.

(** The message [MESSAGE_PUMP_CUSTOM] has been taken from the queue. *)
Definition WndProcThunk (v : win_world) : win_world := win_Work v.

Definition WndTimerProcThunk (v : win_world) : win_world := win_Work (set_shared (set_timer None (shared v)) v).

(** [DestroyWindow] also takes the messages and the timer. *)
Definition win_DoStop (v : win_world) : win_world :=
  let w := shared v in
  if work_ w then
    set_shared (mk_world (pump w) (clock w) None 0 false (posting w) (waking w) (workers w) (ran w)) v
  else v.

Definition win_Stop (v : win_world) : win_world :=
  win_DoStop (set_shared (set_pump (set_stoped (pump (shared v))) (shared v)) v).

(** Other threads that use the pump are as in MessagePump.v, with the delays
    [allowed]; [WM_TIMER] may come at any time after [SetTimer]. *)
Inductive win_step (allowed : Z -> Prop) : win_world -> win_world -> Prop :=
| win_tick t w u b :
    clock w <= t ->
    win_step allowed (mk_win w u b)
      (mk_win (mk_world (pump w) t (timer w) (posted w) (work_ w) (posting w) (waking w) (workers w) (ran w)) u b)
| win_post delay a w u b :
    allowed delay -> stoped_ (pump w) = false ->
    win_step allowed (mk_win w u b)
      (mk_win (mk_world (pump w) (clock w) (timer w) (posted w) (work_ w)
                 (posting w ++ [(u64 (clock w + delay), Closure a)]) (waking w) (workers w) (ran w)) u b)
| win_insert e r pre suf p i t w u b :
    posting w = pre ++ (e, r) :: suf ->
    post_insert e r (pump w) = (p, i, t) ->
    win_step allowed (mk_win w u b)
      (mk_win (mk_world p (clock w) (timer w) (posted w) (work_ w) (pre ++ suf)
                 (waking w ++ match t with Some t => [t] | None => [] end) (workers w) (ran w)) u b)
| win_wakeup t pre suf w u b :
    waking w = pre ++ t :: suf ->
    win_step allowed (mk_win w u b)
      (win_Wakeup false t
         (mk_win (mk_world (pump w) (clock w) (timer w) (posted w) (work_ w) (posting w) (pre ++ suf)
                    (workers w) (ran w)) u b))
| win_ui_post delay a w b :
    stoped_ (pump w) = false ->
    win_step allowed (mk_win w UiIdle b) (mk_win w (UiPosting (u64 (clock w + delay)) (Closure a)) b)
| win_ui_insert e r p i t w b :
    post_insert e r (pump w) = (p, i, t) ->
    win_step allowed (mk_win w (UiPosting e r) b)
      (mk_win (set_pump p w) (match t with Some t => UiWaking t | None => UiIdle end) b)
| win_ui_wakeup t w b :
    win_step allowed (mk_win w (UiWaking t) b) (win_Wakeup true t (mk_win w UiIdle b))
| win_cancel i found p w u b :
    Cancel i (pump w) = (found, p) -> win_step allowed (mk_win w u b) (mk_win (set_pump p w) u b)
| win_message n w b :
    posted w = S n ->
    win_step allowed (mk_win w UiIdle b)
      (WndProcThunk
         (mk_win (mk_world (pump w) (clock w) (timer w) n (work_ w) (posting w) (waking w) (workers w) (ran w)) UiIdle b))
| win_timer d w b :
    timer w = Some d -> win_step allowed (mk_win w UiIdle b) (WndTimerProcThunk (mk_win w UiIdle b))
| win_stop w b : win_step allowed (mk_win w UiIdle b) (win_Stop (mk_win w UiIdle b)).

(** Sequences of steps, while the counter of ids does not wrap around. *)
Inductive win_runs (allowed : Z -> Prop) (v : win_world) : win_world -> Prop :=
| win_refl : win_runs allowed v v
| win_more v1 v2 :
    win_runs allowed v v1 -> id_ (pump (shared v1)) + 1 < 2 ^ 64 -> win_step allowed v1 v2 -> win_runs allowed v v2.

Definition any_delay (delay : Z) : Prop := True.
Definition no_delay (delay : Z) : Prop := delay = 0.

(** ** Android

    [timer] is the time for which [delayed_fd_] is set, in nanoseconds of
    [CLOCK_MONOTONIC], and [base] the value of that clock at [g_base_tick];
    [posted] is not used. *)

Definition kNanosecondsPerSecond : Z := 1000 * 1000 * 1000.

(** [timerfd_settime] with [TFD_TIMER_ABSTIME]: the value zero disarms the timer,
    one out of range is an error. *)
Definition timerfd_settime (tv_sec tv_nsec : Z) w : world A :=
  if (tv_sec <? 0) || (tv_nsec <? 0) || (kNanosecondsPerSecond <=? tv_nsec) then w
  else if (tv_sec =? 0) && (tv_nsec =? 0) then set_timer None w
  else set_timer (Some (tv_sec * kNanosecondsPerSecond + tv_nsec)) w.

(** [MessagePumpAndroid::Wakeup]. *)
Definition android_nanos (t now : Z) : Z := if now <? t then i64 (u64 (u64 (u64 (t - now) * 1000) * 1000)) else 10.

Definition android_Wakeup (t : Z) w : world A :=
  let nanos := android_nanos t (clock w) in
  timerfd_settime (Z.quot nanos kNanosecondsPerSecond) (Z.rem nanos kNanosecondsPerSecond) w.

(** [WorkWrapper] up to the end of the first block of [DoWork]; reading the timer
    clears it.  [DelayedLooperCallback] calls it when the timer has expired. *)
Definition android_start w : world A := start_work (set_timer None w).

(** [DoStop] does nothing. *)
Definition android_run x (others : list (list (RunnableInfo A))) w : world A :=
  mk_world (pump w) (clock w) (timer w) (posted w) (work_ w) (posting w) (waking w) others (ran w ++ [x]).

Definition android_finish w : world A :=
  let w' := mk_world (pump w) (clock w) (timer w) (posted w) (work_ w) (posting w) (waking w) [] (ran w) in
  match next_wakeup (pump w) with
  | Some t => android_Wakeup t w'
  | None => w'
  end.

(** Up to 2^43 milliseconds (278 years) the nanoseconds of a delay fit. *)
Definition longest_delay : Z := 2 ^ 43.

(** Threads post with delays below [max_delay]. *)
Inductive android_step (base max_delay : Z) : world A -> world A -> Prop :=
| android_tick t w :
    clock w <= t ->
    android_step base max_delay w (mk_world (pump w) t (timer w) (posted w) (work_ w) (posting w) (waking w) (workers w) (ran w))
| android_post delay a w :
    stoped_ (pump w) = false -> 0 <= delay < max_delay ->
    android_step base max_delay w
      (mk_world (pump w) (clock w) (timer w) (posted w) (work_ w)
         (posting w ++ [(u64 (clock w + delay), Closure a)]) (waking w) (workers w) (ran w))
| android_stop w :
    stoped_ (pump w) = false ->
    android_step base max_delay w
      (mk_world (pump w) (clock w) (timer w) (posted w) (work_ w)
         (posting w ++ [(u64 (clock w), StopClosure)]) (waking w) (workers w) (ran w))
| android_stoped w : android_step base max_delay w (set_pump (set_stoped (pump w)) w)
| android_insert e r pre suf p i t w :
    posting w = pre ++ (e, r) :: suf ->
    post_insert e r (pump w) = (p, i, t) ->
    android_step base max_delay w
      (mk_world p (clock w) (timer w) (posted w) (work_ w) (pre ++ suf)
         (waking w ++ match t with Some t => [t] | None => [] end) (workers w) (ran w))
| android_wakeup t pre suf w :
    waking w = pre ++ t :: suf ->
    android_step base max_delay w
      (android_Wakeup t (mk_world (pump w) (clock w) (timer w) (posted w) (work_ w) (posting w) (pre ++ suf)
                           (workers w) (ran w)))
| android_cancel i found p w :
    Cancel i (pump w) = (found, p) -> android_step base max_delay w (set_pump p w)
| android_timer d monotonic w :   (* the looper sees that the timer has expired *)
    timer w = Some d -> d <= monotonic -> (monotonic - base) / 1000000 = clock w -> workers w = [] ->
    android_step base max_delay w (android_start w)
| android_closure x due w :
    workers w = [x :: due] -> android_step base max_delay w (android_run x [due] w)
| android_done w :
    workers w = [[]] -> android_step base max_delay w (android_finish w).

Inductive android_runs (base max_delay : Z) w : world A -> Prop :=
| android_refl : android_runs base max_delay w w
| android_more w1 w2 :
    android_runs base max_delay w w1 -> id_ (pump w1) + 1 < 2 ^ 64 -> android_step base max_delay w1 w2 -> android_runs base max_delay w w2.
End Ui.

Arguments win_world : clear implicits.
Arguments ui_phase : clear implicits.
