(* ===== verification/MessagePumpUiSpec.v ===== *)
(** * What the pumps of the user interface promise

    Both implement the queue of MessagePumpQueue.v.  The one of Windows starts one
    closure for a message and stops at once; the one of Android wakes up too
    early. *)

From Stdlib Require Import ZArith List Bool Lia Permutation Sorted.
From S2P Require Import Prelude Cpp MessagePump MessagePumpSpec MessagePumpQueue MessagePumpUi.
Import ListNotations.
Local Open Scope Z_scope.

Lemma u64_le z : 0 <= z -> u64 z <= z.
Proof. intros Hz. apply Z.mod_le; lia. Qed.

(** ** Windows *)

Section Win.
Context {A : Type}.
Implicit Types (x y : RunnableInfo A) (w : world A) (v : win_world A).

(** A message or the timer is under way, or a thread is about to ask for it. *)
Definition win_pending v : Prop :=
  waking (shared v) <> [] \/ (0 < posted (shared v))%nat \/ timer (shared v) <> None \/ exists t, ui v = UiWaking t.

Record win_inv v : Prop := {
  wn_order : order_inv (shared v);
  wn_turn : turn_inv (shared v);
  wn_workers : workers (shared v) = [];
  wn_gone : work_ (shared v) = false ->
    posted (shared v) = O /\ timer (shared v) = None /\ ui v = UiIdle /\ stoped_ (pump (shared v)) = true;
  wn_stray : stray v = false
}.

(** [Wakeup] changes only what can wake the pump. *)
Lemma win_Wakeup_same own t v :
  pump (shared (win_Wakeup own t v)) = pump (shared v) /\ clock (shared (win_Wakeup own t v)) = clock (shared v) /\
  ran (shared (win_Wakeup own t v)) = ran (shared v) /\ workers (shared (win_Wakeup own t v)) = workers (shared v) /\
  work_ (shared (win_Wakeup own t v)) = work_ (shared v) /\ posting (shared (win_Wakeup own t v)) = posting (shared v) /\
  waking (shared (win_Wakeup own t v)) = waking (shared v) /\ ui (win_Wakeup own t v) = ui v.
Proof.
  destruct v as [w u b]. unfold win_Wakeup. cbn [shared]. destruct (clock w <? t), (work_ w) eqn:E, own;
    cbn; rewrite ?E; repeat split; auto.
Qed.

(** The thread of the window gets what it asks for; another one if the time has
    come. *)
Lemma win_Wakeup_pending own t v :
  work_ (shared v) = true -> own = true \/ t <= clock (shared v) -> win_pending (win_Wakeup own t v).
Proof.
  intros Hw Ho. unfold win_Wakeup, win_pending. rewrite Hw. destruct (Z.ltb_spec (clock (shared v)) t) as [Hl|Hl]; cbn.
  - destruct Ho as [->|Ho]; [cbn; right; right; left; discriminate | lia].
  - right; left; lia.
Qed.

(** With a window, or called by another thread, it leaves no stray timer; without
    a window it changes nothing else. *)
Lemma win_Wakeup_stray own t v : own = false \/ work_ (shared v) = true -> stray (win_Wakeup own t v) = stray v.
Proof. intros [->|Hw]; unfold win_Wakeup; [|rewrite Hw]; destruct (_ <? _); try destruct (work_ _); try destruct own; reflexivity. Qed.

Lemma win_Wakeup_gone own t v : work_ (shared v) = false -> shared (win_Wakeup own t v) = shared v.
Proof. intros Hw. unfold win_Wakeup. rewrite Hw. destruct (_ <? _), own; reflexivity. Qed.

(** [Work] either takes the head of the set, which is due, or nothing. *)
Record worked v v' : Prop := {
  wk_clock : clock (shared v') = clock (shared v);
  wk_workers : workers (shared v') = workers (shared v);
  wk_work : work_ (shared v') = work_ (shared v);
  wk_id : id_ (pump (shared v')) = id_ (pump (shared v));
  wk_stoped : stoped_ (pump (shared v')) = stoped_ (pump (shared v));
  wk_posting : posting (shared v') = posting (shared v);
  wk_waking : waking (shared v') = waking (shared v);
  wk_ui : ui v' = ui v;
  wk_ran :
    (runable_set_ (pump (shared v')) = runable_set_ (pump (shared v)) /\ ran (shared v') = ran (shared v)) \/
    exists x, runable_set_ (pump (shared v)) = x :: runable_set_ (pump (shared v')) /\ expired_time x <= clock (shared v) /\
              ran (shared v') = ran (shared v) ++ [x];
  wk_stray : work_ (shared v) = true -> stray v' = stray v;
  wk_awake : work_ (shared v) = true -> runable_set_ (pump (shared v')) <> [] -> win_pending v'
}.

Lemma DoOneWork_spec now (q p : MessagePumpImpl A) r t :
  DoOneWork now q = (p, r, t) ->
  t = next_wakeup p /\ id_ p = id_ q /\ stoped_ p = stoped_ q /\
  ((r = None /\ runable_set_ p = runable_set_ q) \/
   exists y, r = Some y /\ runable_set_ q = y :: runable_set_ p /\ expired_time y <= now).
Proof.
  unfold DoOneWork. destruct (runable_set_ q) as [|y l] eqn:E.
  - intros H. injection H as <- <- <-. unfold next_wakeup. rewrite E. auto 10.
  - destruct (Z.leb_spec (expired_time y) now); intros H'; injection H' as <- <- <-; cbn; rewrite ?E; eauto 10.
Qed.

Lemma win_Work_spec v : worked v (win_Work v).
Proof.
  unfold win_Work. destruct (DoOneWork (clock (shared v)) (pump (shared v))) as [[p r] t] eqn:Ep.
  apply DoOneWork_spec in Ep as (Ht & Hid & Hst & Hr).
  set (v1 := set_shared (set_pump p (shared v)) v).
  set (v2 := match t with Some t => win_Wakeup true t v1 | None => v1 end).
  assert (pump (shared v2) = p /\ clock (shared v2) = clock (shared v) /\ ran (shared v2) = ran (shared v) /\
    workers (shared v2) = workers (shared v) /\ work_ (shared v2) = work_ (shared v) /\ posting (shared v2) = posting (shared v) /\
    waking (shared v2) = waking (shared v) /\ ui v2 = ui v) as (K1 & K2 & K3 & K4 & K5 & K6 & K7 & K8).
  { unfold v2. destruct t as [t|]; [exact (win_Wakeup_same true t v1) | repeat split]. }
  assert (work_ (shared v) = true -> stray v2 = stray v) as Hs.
  { intros Hw. unfold v2. destruct t as [t|]; [|reflexivity]. rewrite win_Wakeup_stray; auto. }
  assert (work_ (shared v) = true -> runable_set_ p <> [] -> win_pending v2) as Ha.
  { intros Hw Hp. unfold v2, next_wakeup in *. destruct (runable_set_ p); [contradiction|]. subst t. apply win_Wakeup_pending; auto. }
  clearbody v2. destruct Hr as [[-> Hr]|(y & -> & Hr & Hd)]; split; cbn; rewrite ?K1, ?K2, ?K3, ?K4, ?K5, ?K6, ?K7, ?K8; eauto.
Qed.

Lemma work_line v w v' :
  worked v v' -> pump (shared v) = pump w -> clock (shared v) = clock w -> ran (shared v) = ran w ->
  workers (shared v) = workers w -> workers w = [] -> line_step w (shared v').
Proof.
  intros Hw Ep Ec Er Ew H0. pose proof (wk_workers _ _ Hw) as Ww. pose proof (wk_clock _ _ Hw) as Wc.
  rewrite Ew, H0 in Ww. destruct (wk_ran _ _ Hw) as [[R1 R2]|(x & R1 & R2 & R3)]; rewrite ?Ep, ?Ec, ?Er in *.
  - apply line_same; [exact R2|]. unfold waiting. rewrite Ww, H0, R1. reflexivity.
  - apply (line_run _ _ x [] (runable_set_ (pump (shared v')))); auto; [lia|..]; unfold waiting.
    + rewrite H0. exact R1.
    + rewrite Ww. reflexivity.
Qed.

Ltac win_cases H :=
  destruct H as [t w u b Ht|delay a w u b Hal Hs|e r pre suf p i t w u b Hp Hx|t pre suf w u b Hw|delay a w b Hs|e r p i t w b Hx
    |t w b|i f p w u b Hc|n w b Hn|d w b Hd|w b]; cbn [shared ui stray] in *.

Section Allowed.
Variable allowed : Z -> Prop.

Lemma win_step_line v v' : workers (shared v) = [] -> win_step allowed v v' -> line_step (shared v) (shared v').
Proof.
  intros H0 H. win_cases H.
  - apply line_same; reflexivity.
  - apply line_same; reflexivity.
  - eapply post_line; [exact Hx | reflexivity..].
  - match goal with |- line_step _ (shared (win_Wakeup false t ?v)) => destruct (win_Wakeup_same false t v) as (E1 & _ & E2 & E3 & _) end.
    apply line_same; [exact E2|]. unfold waiting. rewrite E1, E3. reflexivity.
  - apply line_same; reflexivity.
  - eapply post_line; [exact Hx | reflexivity..].
  - match goal with |- line_step _ (shared (win_Wakeup true t ?v)) => destruct (win_Wakeup_same true t v) as (E1 & _ & E2 & E3 & _) end.
    apply line_same; [exact E2|]. unfold waiting. rewrite E1, E3. reflexivity.
  - eapply cancel_line, Hc.
  - eapply work_line; [apply win_Work_spec | reflexivity.. | exact H0].
  - eapply work_line; [apply win_Work_spec | reflexivity.. | exact H0].
  - unfold win_Stop, win_DoStop. cbn. destruct (work_ w); apply line_same; reflexivity.
Qed.

Lemma win_step_clock v v' : win_step allowed v v' -> clock (shared v) <= clock (shared v').
Proof.
  intros H. win_cases H; cbn; try lia.
  - match goal with |- context [win_Wakeup false t ?v] => destruct (win_Wakeup_same false t v) as (_ & -> & _) end. cbn. lia.
  - match goal with |- context [win_Wakeup true t ?v] => destruct (win_Wakeup_same true t v) as (_ & -> & _) end. cbn. lia.
  - unfold WndProcThunk. rewrite (wk_clock _ _ (win_Work_spec _)). cbn. lia.
  - unfold WndTimerProcThunk. rewrite (wk_clock _ _ (win_Work_spec _)). cbn. lia.
  - unfold win_Stop, win_DoStop. cbn. destruct (work_ _); cbn; lia.
Qed.

Lemma work_keeps v v' w :
  worked v v' -> pump (shared v) = pump w -> sorted (runable_set_ (pump w)) -> workers (shared v) = [] ->
  workers (shared v') = [] /\ sorted (runable_set_ (pump (shared v'))) /\
  (id_ (pump (shared v')) = id_ (pump w) \/ id_ (pump (shared v')) = u64 (id_ (pump w) + 1)).
Proof.
  intros Hk Ep Hs Hw. rewrite (wk_workers _ _ Hk), (wk_id _ _ Hk), Ep. repeat split; auto.
  destruct (wk_ran _ _ Hk) as [[-> _]|(x & R1 & _)]; rewrite Ep in *; [exact Hs|].
  rewrite R1 in Hs. apply StronglySorted_inv in Hs. apply Hs.
Qed.

(** What a step does to the rest. *)
Lemma win_step_keeps v v' :
  order_inv (shared v) -> workers (shared v) = [] -> id_ (pump (shared v)) + 1 < 2 ^ 64 -> win_step allowed v v' ->
  workers (shared v') = [] /\ sorted (runable_set_ (pump (shared v'))) /\
  (id_ (pump (shared v')) = id_ (pump (shared v)) \/ id_ (pump (shared v')) = u64 (id_ (pump (shared v)) + 1)).
Proof.
  intros Hi H0 Hb H. pose proof (wi_sorted _ Hi) as Hs0. win_cases H; cbn; auto.
  - split; [exact H0|]. split; [eapply post_sorted; eassumption | right; eapply post_id, Hx].
  - match goal with |- context [win_Wakeup false t ?v] => destruct (win_Wakeup_same false t v) as (-> & _ & _ & -> & _) end. auto.
  - split; [exact H0|]. split; [eapply post_sorted; eassumption | right; eapply post_id, Hx].
  - match goal with |- context [win_Wakeup true t ?v] => destruct (win_Wakeup_same true t v) as (-> & _ & _ & -> & _) end. auto.
  - split; [exact H0|]. split; [eapply cancel_sorted; eassumption | left; eapply cancel_id, Hc].
  - eapply work_keeps; [apply win_Work_spec | reflexivity | exact Hs0 | exact H0].
  - eapply work_keeps; [apply win_Work_spec | reflexivity | exact Hs0 | exact H0].
  - unfold win_Stop, win_DoStop. cbn. destruct (work_ w); auto.
Qed.

(** The window, the timers and the thread of the window. *)
Definition win_quiet v : Prop :=
  (work_ (shared v) = false ->
    posted (shared v) = O /\ timer (shared v) = None /\ ui v = UiIdle /\ stoped_ (pump (shared v)) = true) /\
  stray v = false.

Lemma worked_quiet v v' : work_ (shared v) = true -> stray v = false -> worked v v' -> win_quiet v'.
Proof.
  intros Hw Hs Hk. split; [rewrite (wk_work _ _ Hk); congruence|]. rewrite (wk_stray _ _ Hk Hw). exact Hs.
Qed.

Lemma win_step_quiet v v' : win_quiet v -> win_step allowed v v' -> win_quiet v'.
Proof.
  intros [Hg Hst] H. unfold win_quiet. win_cases H; auto.
  - split; [|exact Hst]. injection Hx as <- _ _. exact Hg.
  - rewrite win_Wakeup_stray by auto. split; [|exact Hst].
    match goal with |- context [win_Wakeup false t ?v] => destruct (win_Wakeup_same false t v) as (-> & _ & _ & _ & -> & _ & _ & ->);
      pose proof (win_Wakeup_gone false t v) as Hgo end. cbn in *. intros H0. rewrite (Hgo H0). exact (Hg H0).
  - split; [|exact Hst]. cbn. intros H0. destruct (Hg H0) as (_ & _ & _ & H1). congruence.
  - split; [|exact Hst]. cbn. intros H0. destruct (Hg H0) as (_ & _ & H1 & _). discriminate.
  - destruct (work_ w) eqn:E; [|destruct (Hg eq_refl) as (_ & _ & H1 & _); discriminate].
    split; [|rewrite win_Wakeup_stray by auto; exact Hst].
    match goal with |- context [win_Wakeup true t ?v] => destruct (win_Wakeup_same true t v) as (_ & _ & _ & _ & -> & _) end.
    cbn. congruence.
  - split; [|exact Hst]. cbn. unfold Cancel in Hc. destruct (erase_id i _). injection Hc as _ <-. exact Hg.
  - destruct (work_ w) eqn:E; [|destruct (Hg eq_refl); congruence].
    eapply worked_quiet; [| |apply win_Work_spec]; [first [exact E | reflexivity] | exact Hst].
  - destruct (work_ w) eqn:E; [|destruct (Hg eq_refl) as (_ & H1 & _); congruence].
    eapply worked_quiet; [| |apply win_Work_spec]; [first [exact E | reflexivity] | exact Hst].
  - unfold win_Stop, win_DoStop. cbn. destruct (work_ w) eqn:E; cbn; [auto|]. rewrite E. split; [|exact Hst].
    intros H0. destruct (Hg H0) as (H1 & H2 & H3 & _). auto.
Qed.

Lemma win_step_inv v v' : win_inv v -> id_ (pump (shared v)) + 1 < 2 ^ 64 -> win_step allowed v v' -> win_inv v'.
Proof.
  intros Hi Hb Hs. pose proof (win_step_line v v' (wn_workers v Hi) Hs) as Hl.
  destruct (win_step_keeps v v' (wn_order v Hi) (wn_workers v Hi) Hb Hs) as (K1 & K2 & K3).
  destruct (win_step_quiet v v' (conj (wn_gone v Hi) (wn_stray v Hi)) Hs) as [A1 A2].
  constructor; auto.
  - eapply line_step_inv; eauto. exact (wn_order v Hi).
  - split; [rewrite K1; cbn; lia|]. eapply line_turn; eauto; [exact (wn_order v Hi) | exact (wn_turn v Hi)].
Qed.

Lemma win_runs_keep v v' : win_inv v -> win_runs allowed v v' -> win_inv v'.
Proof. intros Hi. induction 1 as [|v1 v2 _ IH Hb Hs]; [exact Hi | eapply win_step_inv; eassumption]. Qed.

(** Without the window nothing starts any more. *)
Lemma win_step_gone v v' :
  win_inv v -> work_ (shared v) = false -> win_step allowed v v' ->
  work_ (shared v') = false /\ ran (shared v') = ran (shared v).
Proof.
  intros Hi H0 H. pose proof (wn_gone v Hi H0) as (Hp0 & Ht0 & Hu0 & Hs0). win_cases H; auto; try congruence.
  - rewrite win_Wakeup_gone by exact H0. auto.
  - unfold win_Stop, win_DoStop. cbn. rewrite H0. auto.
Qed.

Lemma win_runs_gone v v' :
  win_inv v -> work_ (shared v) = false -> win_runs allowed v v' -> ran (shared v') = ran (shared v).
Proof.
  intros Hi H0 Hr. enough (work_ (shared v') = false /\ ran (shared v') = ran (shared v)) by tauto.
  induction Hr as [|v1 v2 Hr [I1 I2] Hb Hs]; [auto|]. rewrite <- I2.
  exact (win_step_gone v1 v2 (win_runs_keep _ _ Hi Hr) I1 Hs).
Qed.

Lemma win_runs_absent i v v' : win_inv v -> win_runs allowed v v' -> absent i (shared v) -> absent i (shared v').
Proof.
  intros Hi. induction 1 as [|v1 v2 Hr IH Hb Hs]; [auto|]. intros Ha. pose proof (win_runs_keep _ _ Hi Hr) as Hi1.
  eapply line_step_absent; [exact (wn_order _ Hi1) | exact Hb | exact (win_step_line _ _ (wn_workers _ Hi1) Hs) | | exact (IH Ha)].
  exact (proj2 (proj2 (win_step_keeps _ _ (wn_order _ Hi1) (wn_workers _ Hi1) Hb Hs))).
Qed.
End Allowed.

Lemma new_win_inv t : win_inv (new_win t).
Proof. constructor; [apply new_world_inv | apply new_turn | reflexivity | discriminate | reflexivity]. Qed.

Lemma win_runs_inv allowed t v : win_runs allowed (new_win t) v -> win_inv v.
Proof. apply win_runs_keep, new_win_inv. Qed.

Lemma win_Stop_inv v : win_inv v -> ui v = UiIdle -> win_inv (win_Stop v) /\ work_ (shared (win_Stop v)) = false.
Proof.
  intros [[O1 O2 O3 O4] [T1 T2] W G S] Hu. unfold win_Stop, win_DoStop. cbn.
  destruct (work_ (shared v)) eqn:E; cbn; (split; [|assumption || reflexivity]); constructor; cbn; auto;
    try (constructor; assumption); intros _; try (destruct (G eq_refl) as (? & ? & ? & _)); auto.
Qed.

(** ** Waking the window *)

(** Posted without delay by other threads: their times have come. *)
Record win_awake v : Prop := {
  wa_clock : 0 <= clock (shared v);
  wa_posting : Forall (fun r => fst r <= clock (shared v)) (posting (shared v));
  wa_waking : Forall (fun t => t <= clock (shared v)) (waking (shared v));
  wa_awake : work_ (shared v) = true -> runable_set_ (pump (shared v)) <> [] -> win_pending v
}.

Lemma pending_more w p u b (l : list Z) w' :
  win_pending (mk_win w u b) -> posted w' = posted w -> timer w' = timer w -> waking w' = waking w ++ l -> pump w' = p ->
  win_pending (mk_win w' u b).
Proof.
  unfold win_pending. cbn. intros H -> -> -> _. destruct H as [H|[H|[H|H]]]; auto.
  left. intros [E _]%app_eq_nil. contradiction.
Qed.

Lemma worked_awake v v' :
  worked v v' -> work_ (shared v) = true -> 0 <= clock (shared v) ->
  Forall (fun r => fst r <= clock (shared v)) (posting (shared v)) ->
  Forall (fun t => t <= clock (shared v)) (waking (shared v)) -> win_awake v'.
Proof.
  intros Hk Hw Hc Hp Hq. split; rewrite ?(wk_clock _ _ Hk), ?(wk_posting _ _ Hk), ?(wk_waking _ _ Hk); auto.
  intros _. apply (wk_awake _ _ Hk Hw).
Qed.

Lemma win_step_awake v v' : win_inv v -> win_awake v -> win_step no_delay v v' -> win_awake v'.
Proof.
  intros Hi [Hc0 Hp0 Hw0 Ha] H. pose proof (wn_gone v Hi) as Hg. win_cases H.
  - split; cbn; auto; try lia; (eapply Forall_impl; [|eassumption]); cbn; lia.
  - unfold no_delay in Hal. subst delay. split; cbn; auto. apply Forall_app. split; [exact Hp0|].
    constructor; [|constructor]. cbn. rewrite Z.add_0_r. apply u64_le, Hc0.
  - rewrite Hp in Hp0. apply Forall_app in Hp0 as [P1 P2]. inversion_clear P2. split; cbn; auto.
    + apply Forall_app. auto.
    + apply Forall_app. split; [exact Hw0|]. injection Hx as _ _ <-. destruct (match runable_set_ _ with [] => _ | _ => _ end); auto.
    + intros H1 _. destruct (post_wakes _ _ _ _ _ _ (waking w) Hx) as [He|He]; [|left; exact He].
      eapply pending_more; [exact (Ha H1 He) | reflexivity..].
  - rewrite Hw in Hw0. apply Forall_app in Hw0 as [P1 P2]. inversion_clear P2.
    match goal with |- win_awake (win_Wakeup false t ?v) =>
      destruct (win_Wakeup_same false t v) as (E1 & E2 & _ & _ & E3 & E4 & E5 & _); pose proof (win_Wakeup_pending false t v) as Hpe end.
    split; rewrite ?E1, ?E2, ?E3, ?E4, ?E5; [exact Hc0 | exact Hp0 | apply Forall_app; auto | intros H1 _; apply Hpe; auto].
  - split; cbn; auto. intros H1 He. destruct (Ha H1 He) as [H|[H|[H|[t H]]]]; unfold win_pending; cbn in *; auto. discriminate.
  - split; cbn; auto. intros H1 _. injection Hx as <- _ <-. unfold win_pending in *. cbn in *.
    destruct (runable_set_ (pump w)) as [|y l] eqn:El; [eauto|].
    destruct (Ha H1 ltac:(discriminate)) as [H|[H|[H|[t' H]]]]; auto. discriminate.
  - match goal with |- win_awake (win_Wakeup true t ?v) =>
      destruct (win_Wakeup_same true t v) as (E1 & E2 & _ & _ & E3 & E4 & E5 & _); pose proof (win_Wakeup_pending true t v) as Hpe end.
    split; rewrite ?E1, ?E2, ?E3, ?E4, ?E5; auto.
  - split; cbn; auto. intros H1 He. exact (Ha H1 (cancel_nonempty _ _ _ _ Hc He)).
  - destruct (work_ w) eqn:E; [|destruct (Hg eq_refl); congruence]. eapply worked_awake; [apply win_Work_spec | cbn; auto..].
  - destruct (work_ w) eqn:E; [|destruct (Hg eq_refl) as (_ & H1 & _); congruence].
    eapply worked_awake; [apply win_Work_spec | cbn; auto..].
  - unfold win_Stop, win_DoStop. cbn. destruct (work_ w) eqn:E; split; cbn; auto; try discriminate; rewrite ?E; discriminate.
Qed.

Lemma win_runs_awake t v : 0 <= t -> win_runs no_delay (new_win t) v -> win_awake v.
Proof.
  intros Ht Hr. induction Hr as [|v1 v2 Hr IH Hb Hs]; [|exact (win_step_awake _ _ (win_runs_inv _ _ _ Hr) IH Hs)].
  split; cbn; auto. contradiction.
Qed.
End Win.

(** C18: The Windows pump is the same queue.  Whatever threads post and cancel,
    and however the closures take messages themselves, the closures start in the
    way the abstract queue runs them: each once, not before its time, in its
    turn, and never one that was cancelled.  After [Stop] nothing starts any more,
    and what waits is dropped; the thread of the window never sets a timer for a
    window that is gone.  When the other threads post without delay, no wake-up is
    lost: while the window exists and closures wait, a message or the timer is
    under way or a thread is about to ask for it. *)
Theorem win_pump_refines_queue {A} t (v : win_world A) :
  0 <= t -> win_runs any_delay (new_win t) v ->
  spec_steps (mk_queue [] [] t) (abstract (shared v)) /\ in_turn (ran (shared v)) /\ NoDup (map id (ran (shared v))) /\
  (forall i p v', Cancel i (pump (shared v)) = (true, p) -> id_ (pump (shared v)) + 1 < 2 ^ 64 ->
     win_runs any_delay (set_shared (set_pump p (shared v)) v) v' -> ~ In i (map id (ran (shared v')))) /\
  (ui v = UiIdle -> forall v', win_runs any_delay (win_Stop v) v' -> ran (shared v') = ran (shared v)) /\
  stray v = false /\
  (win_runs no_delay (new_win t) v -> work_ (shared v) = true -> runable_set_ (pump (shared v)) <> [] -> win_pending v).
Proof.
  intros Ht Hr. pose proof (win_runs_inv _ t v Hr) as Hi.
  destruct (turn_once _ (wn_order v Hi) (wn_turn v Hi)) as [T1 T2].
  split; [|repeat split; auto].
  - clear T1 T2 Hi. induction Hr as [|v1 v2 Hr IH Hb Hs]; [constructor|].
    pose proof (win_runs_inv _ t v1 Hr) as Hi.
    eapply spec_steps_line; [exact (wn_order _ Hi) | exact (wn_turn _ Hi) | exact Hb
      | exact (win_step_line _ _ _ (wn_workers _ Hi) Hs) | exact (win_step_clock _ _ _ Hs) | exact IH].
  - intros i p v' Hc Hb Hr'. eapply absent_ran, win_runs_absent; [|exact Hr' | exact (cancel_absent _ _ _ (wn_order _ Hi) Hc)].
    eapply (win_step_inv any_delay); [exact Hi | exact Hb |]. destruct v. eapply win_cancel, Hc.
  - intros Hu v' Hr'. destruct (win_Stop_inv v Hi Hu) as [Hi' H0]. rewrite (win_runs_gone _ _ _ Hi' H0 Hr').
    clear. unfold win_Stop, win_DoStop. cbn [shared set_shared set_pump work_]. destruct (work_ (shared v)); reflexivity.
  - apply wn_stray, Hi.
  - intros Hn. apply (wa_awake v (win_runs_awake t v Ht Hn)).
Qed.

(** Another thread posts closure 1 without delay, the thread of the window
    closure 2 for time 5, and a message has started the first. *)
Definition win_example : win_world nat :=
  mk_win (mk_world (mk_pump [mk_info 5 (Closure 2%nat) 2] 2 false) 0 (Some 5) 0 true [] [] [] [mk_info 0 (Closure 1%nat) 1])
    UiIdle false.

Lemma win_prefix {A} allowed (v v1 v2 : win_world A) :
  id_ (pump (shared v)) + 1 < 2 ^ 64 -> win_step allowed v v1 -> win_runs allowed v1 v2 -> win_runs allowed v v2.
Proof.
  intros Hb Hs. induction 1 as [|u1 u2 _ IH Hb' Hs'].
  - eapply win_more; [apply win_refl | exact Hb | exact Hs].
  - eapply win_more; eassumption.
Qed.

Ltac one_win s := eapply win_prefix; [reflexivity | s | cbn].

Lemma win_example_run allowed : allowed 0 -> win_runs allowed (new_win 0) win_example.
Proof.
  intros H0.
  one_win ltac:(apply (win_post _ 0 1%nat); [exact H0 | reflexivity]).
  one_win ltac:(eapply (win_insert _ _ _ [] []); reflexivity).
  one_win ltac:(eapply (win_wakeup _ _ [] []); reflexivity).
  one_win ltac:(apply (win_ui_post _ 5 2%nat); reflexivity).
  one_win ltac:(eapply win_ui_insert; reflexivity).
  one_win ltac:(eapply (win_message _ 0); reflexivity).
  apply win_refl.
Qed.

Lemma win_pump_refines_queue_witness :
  spec_steps (mk_queue [] [] 0) (abstract (shared win_example)) /\ win_pending win_example /\
  work_ (shared win_example) = true /\
  (forall v', win_runs any_delay (win_Stop win_example) v' -> ran (shared v') = [mk_info 0 (Closure 1%nat) 1]).
Proof.
  destruct (win_pump_refines_queue 0 win_example (Z.le_refl 0) (win_example_run any_delay I)) as (H1 & _ & _ & _ & H2 & _ & H3).
  split; [exact H1|]. split; [|split; [reflexivity | exact (H2 eq_refl)]].
  apply H3; [exact (win_example_run no_delay eq_refl) | reflexivity | discriminate].
Defined.

(** A closure another thread posts with a delay is forgotten: the thread does not
    own the window, and no timer is set. *)
Example foreign_delay_lost :
  exists v : win_world nat, win_runs any_delay (new_win 0) v /\ work_ (shared v) = true /\
    runable_set_ (pump (shared v)) = [mk_info 5 (Closure 1%nat) 1] /\ ~ win_pending v.
Proof.
  eexists. split; [|split; [|split]].
  - one_win ltac:(apply (win_post _ 5 1%nat); [exact I | reflexivity]).
    one_win ltac:(eapply (win_insert _ _ _ [] []); reflexivity).
    one_win ltac:(eapply (win_wakeup _ _ [] []); reflexivity).
    apply win_refl.
  - reflexivity.
  - reflexivity.
  - intros [H|[H|[H|[t H]]]]; cbn in H; [contradiction | lia | contradiction | discriminate].
Qed.

(** ** Android *)

Section Android.
Context {A : Type}.
Implicit Types (x y : RunnableInfo A) (w : world A).
Variables (base max_delay : Z).
Hypothesis max_delay_ok : max_delay <= longest_delay.

Definition soon (now t : Z) : Prop := t < now + longest_delay.

(** A callback runs, or something will call one. *)
Definition android_pending w : Prop := workers w <> [] \/ waking w <> [] \/ timer w <> None.

Record android_inv w : Prop := {
  an_order : order_inv w;
  an_turn : turn_inv w;
  an_due : Forall (fun y => expired_time y <= clock w) (concat (workers w));
  an_clock : 0 <= clock w;
  an_posting : Forall (fun r => soon (clock w) (fst r)) (posting w);
  an_waking : Forall (soon (clock w)) (waking w);
  an_set : Forall (fun y => soon (clock w) (expired_time y)) (runable_set_ (pump w));
  an_awake : runable_set_ (pump w) <> [] -> android_pending w
}.

(** The time the timer is set to: the delay, taken for a time. *)
Definition android_time (t now : Z) : Z := if now <? t then (t - now) * 1000000 else 10.

Lemma android_Wakeup_timer t w :
  0 <= clock w -> soon (clock w) t -> android_Wakeup t w = set_timer (Some (android_time t (clock w))) w.
Proof.
  unfold soon, longest_delay. intros Hc Ht. unfold android_Wakeup.
  replace (android_nanos t (clock w)) with (android_time t (clock w)).
  2:{ unfold android_nanos, android_time. destruct (Z.ltb_spec (clock w) t); [|reflexivity].
      rewrite (wrap_small 64 (t - clock w)) by lia. rewrite (wrap_small 64 ((t - clock w) * 1000)) by lia.
      rewrite wrap_small by lia. rewrite i64_small by lia. lia. }
  assert (0 < android_time t (clock w)) as Hn by (unfold android_time; destruct (Z.ltb_spec (clock w) t); lia).
  set (n := android_time t (clock w)) in *. unfold timerfd_settime.
  pose proof (Z.quot_rem' n kNanosecondsPerSecond). pose proof (Z.rem_bound_pos n kNanosecondsPerSecond ltac:(lia) ltac:(reflexivity)).
  pose proof (Z.quot_pos n kNanosecondsPerSecond ltac:(lia) ltac:(reflexivity)).
  destruct (Z.ltb_spec (Z.quot n kNanosecondsPerSecond) 0); [lia|].
  destruct (Z.ltb_spec (Z.rem n kNanosecondsPerSecond) 0); [lia|].
  destruct (Z.leb_spec kNanosecondsPerSecond (Z.rem n kNanosecondsPerSecond)); [lia|]. cbn [orb].
  destruct (Z.eqb_spec (Z.quot n kNanosecondsPerSecond) 0), (Z.eqb_spec (Z.rem n kNanosecondsPerSecond) 0); cbn [andb];
    do 2 f_equal; lia.
Qed.

Lemma set_insert_all (P : RunnableInfo A -> Prop) x l : P x -> Forall P l -> Forall P (set_insert x l).
Proof.
  intros Hx. induction 1 as [|y l Hy Hl IH]; cbn; [auto|].
  destruct (info_lt x y), (info_lt y x); auto.
Qed.

Lemma cancel_all (P : RunnableInfo A -> Prop) i found p w :
  Cancel i (pump w) = (found, p) -> Forall P (runable_set_ (pump w)) -> Forall P (runable_set_ p).
Proof.
  unfold Cancel. destruct (erase_id i _) as [g l] eqn:E. intros Hc Hs. injection Hc as <- <-. cbn.
  apply erase_id_spec in E. destruct g; [|destruct E as [-> _]; exact Hs].
  destruct E as (x & l1 & l2 & E & -> & _). rewrite E in Hs. apply Forall_app in Hs as [H1 H2].
  inversion_clear H2. apply Forall_app. auto.
Qed.

(** The wakeup at the end of [DoWork]. *)
Lemma android_finish_timer w :
  0 <= clock w -> Forall (fun y => soon (clock w) (expired_time y)) (runable_set_ (pump w)) ->
  exists t, android_finish w =
    set_timer t (mk_world (pump w) (clock w) (timer w) (posted w) (work_ w) (posting w) (waking w) [] (ran w)) /\
    match runable_set_ (pump w) with
    | [] => t = timer w
    | y :: _ => t = Some (android_time (expired_time y) (clock w))
    end.
Proof.
  intros Hc Hs. unfold android_finish, next_wakeup. destruct (runable_set_ (pump w)) as [|y l].
  - exists (timer w). auto.
  - inversion_clear Hs. rewrite android_Wakeup_timer by assumption. eexists. split; reflexivity.
Qed.

Lemma android_step_line w w' : android_inv w -> android_step base max_delay w w' -> line_step w w'.
Proof.
  intros Hi H. destruct H as [t w Ht|delay a w Hs Hd|w Hs|w|e r pre suf p i t w Hp Hx|t pre suf w Hw|i f p w Hc
    |d mono w Hd Hm Hc Hw|x due w Hw|w Hw].
  - apply line_same; reflexivity.
  - apply line_same; reflexivity.
  - apply line_same; reflexivity.
  - apply line_same; reflexivity.
  - eapply post_line; [exact Hx | reflexivity..].
  - rewrite android_Wakeup_timer; [apply line_same; reflexivity | exact (an_clock w Hi)|].
    pose proof (an_waking w Hi) as H. rewrite Hw in H. apply Forall_app in H as [_ H]. now inversion_clear H.
  - eapply cancel_line, Hc.
  - destruct (start_work_waiting (set_timer None w)) as (E1 & E2 & _). apply line_same; assumption.
  - pose proof (an_due w Hi) as Hd. rewrite Hw in Hd. cbn in Hd. inversion_clear Hd.
    apply (line_run _ _ x [] (due ++ runable_set_ (pump w))); auto; unfold waiting; rewrite ?Hw; cbn; rewrite ?app_nil_r; reflexivity.
  - destruct (android_finish_timer w (an_clock w Hi) (an_set w Hi)) as (t & -> & _).
    apply line_same; [reflexivity|]. unfold waiting. rewrite Hw. reflexivity.
Qed.

Lemma android_step_clock w w' : android_inv w -> android_step base max_delay w w' -> clock w <= clock w'.
Proof.
  intros Hi H. destruct H as [t w Ht|delay a w Hs Hd|w Hs|w|e r pre suf p i t w Hp Hx|t pre suf w Hw|i f p w Hc
    |d mono w Hd Hm Hc Hw|x due w Hw|w Hw]; cbn; try lia.
  - rewrite android_Wakeup_timer; [cbn; lia | exact (an_clock w Hi)|].
    pose proof (an_waking w Hi) as H. rewrite Hw in H. apply Forall_app in H as [_ H]. now inversion_clear H.
  - unfold android_start, start_work. destruct (take_due _ _). cbn. lia.
  - destruct (android_finish_timer w (an_clock w Hi) (an_set w Hi)) as (t & -> & _). cbn. lia.
Qed.

(** Everything about time and waking up. *)
Definition android_times w : Prop :=
  Forall (fun y => expired_time y <= clock w) (concat (workers w)) /\ (length (workers w) <= 1)%nat /\ 0 <= clock w /\
  Forall (fun r => soon (clock w) (fst r)) (posting w) /\ Forall (soon (clock w)) (waking w) /\
  Forall (fun y => soon (clock w) (expired_time y)) (runable_set_ (pump w)) /\
  (runable_set_ (pump w) <> [] -> android_pending w).

Lemma android_inv_times w : android_inv w -> android_times w.
Proof. intros Hi. destruct Hi as [? []]. repeat split; assumption. Qed.

Lemma android_step_times w w' : android_inv w -> android_step base max_delay w w' -> android_times w'.
Proof.
  intros Hi H. pose proof (android_inv_times w Hi) as (T1 & T2 & T3 & T4 & T5 & T6 & T7).
  unfold android_times, android_pending in *. destruct H as [t w Ht|delay a w Hs Hd|w Hs|w|e r pre suf p i t w Hp Hx|t pre suf w Hw|i f p w Hc
    |d mono w Hd Hm Hc Hw|x due w Hw|w Hw].
  - cbn. repeat split; auto; try lia; (eapply Forall_impl; [|eassumption]); unfold soon; cbn; lia.
  - cbn. repeat split; auto. apply Forall_app. split; [exact T4|]. constructor; [|constructor]. cbn [fst].
    eapply Z.le_lt_trans; [apply u64_le|]; lia.
  - cbn. repeat split; auto. apply Forall_app. split; [exact T4|]. constructor; [|constructor]. cbn [fst].
    eapply Z.le_lt_trans; [apply u64_le|unfold longest_delay]; lia.
  - cbn. repeat split; auto.
  - cbn. rewrite Hp in T4. apply Forall_app in T4 as [P1 P2]. inversion_clear P2. repeat split; auto.
    + apply Forall_app. auto.
    + apply Forall_app. split; [exact T5|]. injection Hx as _ _ <-. destruct (match runable_set_ _ with [] => _ | _ => _ end); auto.
    + injection Hx as <- _ _. apply set_insert_all; auto.
    + intros _. destruct (post_wakes _ _ _ _ _ _ (waking w) Hx) as [He|He]; [|auto].
      destruct (T7 He) as [H'|[H'|H']]; auto. right; left. intros [H'' _]%app_eq_nil. contradiction.
  - rewrite Hw in T5. apply Forall_app in T5 as [P1 P2]. inversion_clear P2.
    rewrite android_Wakeup_timer by assumption. cbn. repeat split; auto.
    + apply Forall_app. auto.
    + intros _. right; right. discriminate.
  - cbn. repeat split; auto; [eapply cancel_all; eassumption | intros He; apply T7, (cancel_nonempty _ _ _ _ Hc He)].
  - unfold android_start, start_work. cbn. destruct (take_due _ _) as [due rest] eqn:E.
    pose proof (take_due_due _ _ _ _ E) as Hdue. apply take_due_app in E. rewrite Hw, E in *. apply Forall_app in T6 as [_ T6].
    cbn. rewrite app_nil_r. repeat split; auto. intros _. left. discriminate.
  - rewrite Hw in *. cbn in *. inversion_clear T1. repeat split; auto. intros _. left. discriminate.
  - destruct (android_finish_timer w T3 T6) as (t & -> & Et). cbn. repeat split; auto.
    intros He. right; right. destruct (runable_set_ (pump w)); [contradiction|]. rewrite Et. discriminate.
Qed.

Lemma android_step_order w w' :
  android_inv w -> id_ (pump w) + 1 < 2 ^ 64 -> android_step base max_delay w w' ->
  sorted (runable_set_ (pump w')) /\ (id_ (pump w') = id_ (pump w) \/ id_ (pump w') = u64 (id_ (pump w) + 1)).
Proof.
  intros Hi Hb H. pose proof (an_order w Hi) as Ho. pose proof (wi_sorted w Ho) as Hs.
  destruct H as [t w Ht|delay a w Hx Hd|w Hx|w|e r pre suf p i t w Hp Hx|t pre suf w Hw|i f p w Hc
    |d mono w Hd Hm Hc Hw|x due w Hw|w Hw]; cbn; auto.
  - split; [eapply post_sorted; eassumption | right; eapply post_id, Hx].
  - rewrite android_Wakeup_timer; [auto | exact (an_clock w Hi)|].
    pose proof (an_waking w Hi) as H. rewrite Hw in H. apply Forall_app in H as [_ H]. now inversion_clear H.
  - split; [eapply cancel_sorted; eassumption | left; eapply cancel_id, Hc].
  - unfold android_start, start_work. destruct (take_due _ _) as [due rest] eqn:E. apply take_due_app in E.
    cbn in E |- *. rewrite E in Hs. split; [eapply sorted_app_r, Hs | auto].
  - destruct (android_finish_timer w (an_clock w Hi) (an_set w Hi)) as (t & -> & _). auto.
Qed.

Lemma android_step_inv w w' : android_inv w -> id_ (pump w) + 1 < 2 ^ 64 -> android_step base max_delay w w' -> android_inv w'.
Proof.
  intros Hi Hb Hs. destruct (android_step_times w w' Hi Hs) as (T1 & T2 & T3 & T4 & T5 & T6 & T7).
  destruct (android_step_order w w' Hi Hb Hs) as [O1 O2]. pose proof (android_step_line w w' Hi Hs) as Hl.
  constructor; auto.
  - eapply line_step_inv; eauto. exact (an_order w Hi).
  - split; [exact T2|]. eapply line_turn; eauto; [exact (an_order w Hi) | exact (an_turn w Hi)].
Qed.

Lemma new_android_inv t : 0 <= t -> android_inv (new_world t).
Proof.
  intros Ht. constructor; [apply new_world_inv | apply new_turn | constructor | exact Ht | constructor.. | intros []; reflexivity].
Qed.

Lemma android_runs_inv t w : 0 <= t -> android_runs base max_delay (new_world t) w -> android_inv w.
Proof. intros Ht. induction 1 as [|w1 w2 _ IH Hb Hs]; [exact (new_android_inv t Ht) | eapply android_step_inv; eassumption]. Qed.

Lemma android_runs_keep w w' : android_inv w -> android_runs base max_delay w w' -> android_inv w'.
Proof. intros Hi. induction 1 as [|w1 w2 _ IH Hb Hs]; [exact Hi | eapply android_step_inv; eassumption]. Qed.

Lemma android_runs_absent i w w' : android_inv w -> android_runs base max_delay w w' -> absent i w -> absent i w'.
Proof.
  intros Hi. induction 1 as [|w1 w2 Hr IH Hb Hs]; [auto|]. intros Ha. pose proof (android_runs_keep _ _ Hi Hr) as Hi1.
  eapply line_step_absent; [exact (an_order _ Hi1) | exact Hb | exact (android_step_line _ _ Hi1 Hs) | | exact (IH Ha)].
  exact (proj2 (android_step_order _ _ Hi1 Hb Hs)).
Qed.

(** A callback with nothing due. *)
Lemma android_round x l w :
  android_inv w -> workers w = [] -> runable_set_ (pump w) = x :: l -> clock w < expired_time x ->
  workers (android_start w) = [[]] /\
  android_finish (android_start w) = set_timer (Some ((expired_time x - clock w) * 1000000)) w.
Proof.
  intros Hi Hw Hs Hx.
  assert (android_start w = mk_world (pump w) (clock w) None (posted w) (work_ w) (posting w) (waking w) [[]] (ran w)) as E1.
  { unfold android_start, start_work. cbn. rewrite Hs. cbn [take_due]. destruct (Z.leb_spec (expired_time x) (clock w)); [lia|].
    rewrite Hw. unfold set_runables. rewrite <- Hs. destruct (pump w). reflexivity. }
  rewrite E1. split; [reflexivity|]. pose proof (an_set w Hi) as Hn. rewrite Hs in Hn. inversion_clear Hn.
  unfold android_finish, next_wakeup. cbn. rewrite Hs. rewrite android_Wakeup_timer by (assumption || exact (an_clock w Hi)).
  unfold set_timer, android_time. cbn. destruct (Z.ltb_spec (clock w) (expired_time x)); [|lia]. rewrite Hw. reflexivity.
Qed.
End Android.

(** C19: The Android pump is the same queue, but it does not sleep.  With delays
    of less than 2^43 milliseconds, for which the nanoseconds fit into 64 bits:
    closures start as the abstract queue runs them, none that was cancelled, and no
    wake-up is lost.  But [Wakeup] gives the delay as an absolute time: when the
    callback runs before the first closure is due, and that closure's delay is no
    longer than the time since the device was started, the callback runs nothing
    and leaves everything as it was, with the timer set to a time that has passed
    already, so that the callback is due again at once. *)
Theorem android_pump_refines_queue {A} base max_delay t (w : world A) :
  max_delay <= 2 ^ 43 -> 0 <= t -> android_runs base max_delay (new_world t) w ->
  spec_steps (mk_queue [] [] t) (abstract w) /\ in_turn (ran w) /\ NoDup (map id (ran w)) /\
  (forall i p w', Cancel i (pump w) = (true, p) -> id_ (pump w) + 1 < 2 ^ 64 ->
     android_runs base max_delay (set_pump p w) w' -> ~ In i (map id (ran w'))) /\
  (runable_set_ (pump w) <> [] -> android_pending w) /\
  (forall monotonic d x l, workers w = [] -> runable_set_ (pump w) = x :: l ->
     timer w = Some d -> d <= monotonic -> (monotonic - base) / 1000000 = clock w ->
     0 < expired_time x - clock w -> (expired_time x - clock w) * 1000000 <= monotonic ->
     android_step base max_delay w (android_start w) /\ workers (android_start w) = [[]] /\
     exists d', android_finish (android_start w) = set_timer (Some d') w /\ d' <= monotonic).
Proof.
  intros Hm Ht Hr. pose proof (android_runs_inv base max_delay Hm t w Ht Hr) as Hi.
  destruct (turn_once w (an_order w Hi) (an_turn w Hi)) as [T1 T2].
  split; [|split; [exact T1|split; [exact T2|split; [|split; [apply an_awake, Hi|]]]]].
  - clear T1 T2 Hi. induction Hr as [|w1 w2 Hr IH Hb Hs]; [constructor|].
    pose proof (android_runs_inv base max_delay Hm t w1 Ht Hr) as Hi.
    eapply spec_steps_line; [exact (an_order _ Hi) | exact (an_turn _ Hi) | exact Hb
      | exact (android_step_line _ _ _ _ Hi Hs) | exact (android_step_clock _ _ _ _ Hi Hs) | exact IH].
  - intros i p w' Hc Hb Hr'. eapply absent_ran, android_runs_absent; [exact Hm| | exact Hr' | exact (cancel_absent _ _ _ (an_order _ Hi) Hc)].
    eapply (android_step_inv base max_delay Hm); [exact Hi | exact Hb | eapply android_cancel, Hc].
  - intros monotonic d x l Hw Hx Hd Hle Hc Hp Hup. destruct (android_round x l w Hi Hw Hx ltac:(lia)) as [R1 R2].
    split; [eapply android_timer; eassumption|]. split; [exact R1|]. eexists. split; [exact R2 | exact Hup].
Qed.

(** A closure posted for time 5 on a device that has been up for a second. *)
Definition android_example : world nat :=
  mk_world (mk_pump [mk_info 5 (Closure 1%nat) 1] 1 false) 0 (Some 5000000) 0 true [] [] [] [].

Lemma android_prefix {A} base max_delay (w w1 w2 : world A) :
  id_ (pump w) + 1 < 2 ^ 64 -> android_step base max_delay w w1 -> android_runs base max_delay w1 w2 -> android_runs base max_delay w w2.
Proof.
  intros Hb Hs. induction 1 as [|v1 v2 _ IH Hb' Hs'].
  - eapply android_more; [apply android_refl | exact Hb | exact Hs].
  - eapply android_more; eassumption.
Qed.

Ltac one_android s := eapply android_prefix; [reflexivity | s | cbn].

Lemma android_example_run : android_runs 1000000000 100 (new_world 0) android_example.
Proof.
  one_android ltac:(apply (android_post _ _ 5 1%nat); [reflexivity | lia]).
  one_android ltac:(eapply (android_insert _ _ _ _ [] []); reflexivity).
  one_android ltac:(eapply (android_wakeup _ _ _ [] []); reflexivity).
  apply android_refl.
Qed.

Lemma android_pump_refines_queue_witness :
  spec_steps (mk_queue [] [] 0) (abstract android_example) /\
  exists d', android_finish (android_start android_example) = set_timer (Some d') android_example /\ d' <= 1000000000.
Proof.
  destruct (android_pump_refines_queue 1000000000 100 0 android_example ltac:(lia) ltac:(lia) android_example_run)
    as (H1 & _ & _ & _ & _ & H2).
  split; [exact H1|].
  apply (H2 1000000000 5000000 (mk_info 5 (Closure 1%nat) 1) []); try reflexivity; cbn; lia.
Defined.
