(* ===== verification/MessageLoop.v ===== *)
(** * The message loops of a process

    src/base/message_loop/message_loop_impl.cc and message_loop.h: the four pumps
    of a process, by type, and the empty pump that stands for them before
    [InitMessageLoop] and after [UnintMessageLoop].  What a pump does is the
    subject of MessagePump.v and MessagePumpUi.v; here it is known by its kind. *)

From Stdlib Require Import String ZArith List Bool Lia.
From S2P Require Import Prelude Cpp MessagePump MessagePumpSpec MessagePumpQueue MessagePumpUi MessagePumpUiSpec.
Import ListNotations.
Local Open Scope Z_scope.

(** ** Data *)

Inductive MessagePumpType := kMessagePumpTypeUI | kMessagePumpTypeIO | kMessagePumpTypeWork | kMessagePumpTypeFile.

Definition pump_type_num (t : MessagePumpType) : Z :=
  match t with
  | kMessagePumpTypeUI => 0
  | kMessagePumpTypeIO => 1
  | kMessagePumpTypeWork => 2
  | kMessagePumpTypeFile => 3
  end.

Inductive platform := OS_WIN | OS_ANDROID.

(** The classes of pumps, [MessagePumpDefatlt] with its number of threads. *)
Inductive pump_kind :=
| MessagePumpWin
| MessagePumpAndroid
| MessagePumpDefatlt (name : list Z) (thread_count : nat)
| EmptyMessagePump.

(** A pump is the object with some number. *)
Record MessagePump := mk_message_pump { pump_number : Z; kind : pump_kind }.

(** [MessageLoopImpl] owns a pump. *)
Record MessageLoopImpl := mk_loop { pump_ : MessagePump }.

Definition WORK_THREAD_COUNT : nat := 4.

(** [loopers_], in the order of the types. *)
Definition MessageLooperManager : Type := list (MessagePumpType * MessageLoopImpl).

(** The variables of the file, the number of the next pump, and the pumps [Stop]
    was called of, in order. *)
Record loop_state := mk_loops {
  g_loop_manager : option MessageLooperManager;
  next_pump : Z;
  stop_calls : list MessagePump
}.

Definition s_empty_pump : MessagePump := mk_message_pump 0 EmptyMessagePump.

Definition no_loops : loop_state := mk_loops None 1 [].

Section Loops.
Variable os : platform.

(** ** Operations *)

(** The constructor of [MessageLooperManager], which has the next four pumps. *)
Definition new_looper_manager (n : Z) : MessageLooperManager :=
  let ui := match os with OS_WIN => MessagePumpWin | OS_ANDROID => MessagePumpAndroid end in
  [(kMessagePumpTypeUI, mk_loop (mk_message_pump n ui));
   (kMessagePumpTypeIO, mk_loop (mk_message_pump (n + 1) (MessagePumpDefatlt (bytes "IO") 1)));
   (kMessagePumpTypeWork, mk_loop (mk_message_pump (n + 2) (MessagePumpDefatlt (bytes "Work") WORK_THREAD_COUNT)));
   (kMessagePumpTypeFile, mk_loop (mk_message_pump (n + 3) (MessagePumpDefatlt (bytes "File") 1)))].

(** The calls of [Stop] in the destructor: its own, and the one of
    [~MessageLoopImpl]. *)
Definition destroy_manager (m : MessageLooperManager) : list MessagePump :=
  flat_map (fun item => [pump_ (snd item); pump_ (snd item)]) m.

Fixpoint find_looper (t : MessagePumpType) (m : MessageLooperManager) : option MessagePump :=
  match m with
  | [] => None
  | (t', l) :: m' => if pump_type_num t' =? pump_type_num t then Some (pump_ l) else find_looper t m'
  end.

Definition InitMessageLoop (s : loop_state) : loop_state :=
  match g_loop_manager s with
  | Some _ => s
  | None => mk_loops (Some (new_looper_manager (next_pump s))) (next_pump s + 4) (stop_calls s)
  end.

Definition UnintMessageLoop (s : loop_state) : loop_state :=
  mk_loops None (next_pump s)
    (stop_calls s ++ match g_loop_manager s with Some m => destroy_manager m | None => [] end).

(** A null pointer when the type is not in the map. *)
Definition GetMessagePumpByType (t : MessagePumpType) (s : loop_state) : option MessagePump :=
  match g_loop_manager s with
  | None => Some s_empty_pump
  | Some m => find_looper t m
  end.

Definition IOMessagePump (s : loop_state) : option MessagePump := GetMessagePumpByType kMessagePumpTypeIO s.
Definition WorkMessagePump (s : loop_state) : option MessagePump := GetMessagePumpByType kMessagePumpTypeWork s.
Definition FileMessagePump (s : loop_state) : option MessagePump := GetMessagePumpByType kMessagePumpTypeFile s.
Definition UIMessagePump (s : loop_state) : option MessagePump := GetMessagePumpByType kMessagePumpTypeUI s.

(** The methods of the empty pump: the id is [-1] as a [uint64_t]. *)
Definition empty_PostRunable : Z := u64 (-1).
Definition empty_Cancel (id : Z) : bool := false.

(** ** What the pumps run *)

(** Closures a pump of some kind can have started, in order, from time 0 on;
    on Android with delays below [longest_delay]. *)
Definition can_run {A} (base : Z) (k : pump_kind) (started : list (RunnableInfo A)) : Prop :=
  match k with
  | MessagePumpWin => exists v, win_runs any_delay (new_win 0) v /\ ran (shared v) = started
  | MessagePumpAndroid => exists w, android_runs base longest_delay (new_world 0) w /\ ran w = started
  | MessagePumpDefatlt _ threads => exists w, reachable threads w /\ ran w = started
  | EmptyMessagePump => started = []
  end.
End Loops.

(** The pumps with one thread keep the turn. *)
Lemma one_thread_in_turn {A} base k (started : list (RunnableInfo A)) :
  (forall name threads, k = MessagePumpDefatlt name threads -> threads = 1%nat) ->
  can_run base k started -> in_turn started /\ NoDup (map id started).
Proof.
  destruct k as [| |name threads|]; cbn; intros H1 Hr.
  - destruct Hr as (v & Hr & <-). pose proof (win_runs_inv any_delay 0 v Hr) as Hi.
    exact (turn_once (shared v) (wn_order v Hi) (wn_turn v Hi)).
  - destruct Hr as (w & Hr & <-). pose proof (android_runs_inv base longest_delay (Z.le_refl _) 0 w (Z.le_refl 0) Hr) as Hi.
    exact (turn_once w (an_order w Hi) (an_turn w Hi)).
  - destruct Hr as (w & [t Hr] & <-). rewrite (H1 _ _ eq_refl) in Hr.
    apply turn_once; [apply wi_order, (runs_inv _ _ _ (new_world_inv t) Hr)|exact (runs_turn _ _ (new_world_inv t) (new_turn t) Hr)].
  - subst. split; constructor.
Qed.

(** Two closures posted one after the other, started the other way round by two
    threads. *)
Definition overtaking_world : world nat :=
  mk_world (mk_pump [] 2 false) 0 None 0 true [] [] [[]; []]
    [mk_info 0 (Closure 2%nat) 2; mk_info 0 (Closure 1%nat) 1].

Lemma overtaking_run : runs WORK_THREAD_COUNT (new_world 0) overtaking_world.
Proof.
  one_more ltac:(apply (step_post 4 0 1%nat); reflexivity).
  one_more ltac:(eapply (step_insert 4 _ _ [] []); reflexivity).
  one_more ltac:(eapply (step_wakeup 4 _ [] []); reflexivity).
  one_more ltac:(eapply (step_posted 4 0); [reflexivity | cbn; lia]).
  one_more ltac:(eapply (step_post 4 0 2%nat); reflexivity).
  one_more ltac:(eapply (step_insert 4 _ _ [] []); reflexivity).
  one_more ltac:(eapply (step_wakeup 4 _ [] []); reflexivity).
  one_more ltac:(eapply (step_posted 4 0); [reflexivity | cbn; lia]).
  one_more ltac:(eapply (step_run 4 _ _ [_] []); reflexivity).
  one_more ltac:(eapply (step_run 4 _ _ [] [_]); reflexivity).
  apply runs_refl.
Qed.

(** The order of tasks, as the comments of MessageLoop promise it.  After
    [InitMessageLoop] every type has a pump; closures posted to the pumps for the
    user interface, for IO and for files start in their turn (without delays: in
    the order in which they were posted), each once; the pump for work, with four
    threads, can start them in another order.  Before [InitMessageLoop] and after
    [UnintMessageLoop], which stops each of the four pumps, there is the empty
    pump, which runs nothing. *)
Theorem message_loop_order {A} os base (t : MessagePumpType) s :
  g_loop_manager s = None ->
  GetMessagePumpByType t s = Some s_empty_pump /\
  GetMessagePumpByType t (UnintMessageLoop (InitMessageLoop os s)) = Some s_empty_pump /\
  (exists p, GetMessagePumpByType t (InitMessageLoop os s) = Some p /\
     In p (stop_calls (UnintMessageLoop (InitMessageLoop os s))) /\
     (t <> kMessagePumpTypeWork -> forall started : list (RunnableInfo A), can_run base (kind p) started ->
        in_turn started /\ NoDup (map id started)) /\
     (t = kMessagePumpTypeWork -> exists started : list (RunnableInfo nat), can_run base (kind p) started /\ ~ in_turn started)).
Proof.
  intros H0. unfold GetMessagePumpByType, UnintMessageLoop, InitMessageLoop. rewrite H0.
  repeat split. cbn [g_loop_manager stop_calls].
  destruct t; (eexists; split; [reflexivity|]; split; [apply in_app_iff; cbn; tauto | split]);
    try discriminate; try (intros _ started; apply one_thread_in_turn; cbn; intros; congruence).
  - intros _ started. apply one_thread_in_turn. destruct os; discriminate.
  - intros H. contradiction.
  - intros _. exists (ran overtaking_world). split.
    + exists overtaking_world. split; [exists 0; exact overtaking_run | reflexivity].
    + intros H. inversion_clear H as [|? ? H1 _]. inversion_clear H1 as [|? ? H2 _]. apply H2. unfold precedes. cbn. lia.
Qed.

Lemma message_loop_order_witness :
  exists p, GetMessagePumpByType kMessagePumpTypeIO (InitMessageLoop OS_ANDROID no_loops) = Some p /\
    forall started : list (RunnableInfo nat), can_run 0 (kind p) started -> in_turn started.
Proof.
  destruct (message_loop_order (A := nat) OS_ANDROID 0 kMessagePumpTypeIO no_loops eq_refl) as (_ & _ & p & Hp & _ & Ht & _).
  exists p. split; [exact Hp|]. intros started Hr. apply Ht; [discriminate | exact Hr].
Defined.
