(* ===== verification/Threads.v ===== *)
(** * Threads and the pump of a thread

    src/base/thread_util.cc: the storage of a thread and its name; what the
    constructors of the pumps put there (message_pump_default.cc,
    message_pump_win.cc, message_pump_android.cc); and the functions of
    message_loop_impl.cc that read it.  The loops themselves are those of
    MessageLoop.v; [Main] is the thread that starts and ends them, as message_loop.h
    asks for. *)

From Stdlib Require Import String ZArith List Bool Lia.
From S2P Require Import Prelude Cpp MessageLoop.
Import ListNotations.
Local Open Scope Z_scope.
Local Open Scope cpp_scope.

(** ** Data *)

Inductive thread := Main | PumpThread (pump : Z) (i : nat).

Definition thread_eqb (a b : thread) : bool :=
  match a, b with
  | Main, Main => true
  | PumpThread p i, PumpThread q j => (p =? q) && Nat.eqb i j
  | _, _ => false
  end.

Lemma thread_eqb_spec a b : reflect (a = b) (thread_eqb a b).
Proof.
  destruct a as [|p i], b as [|q j]; cbn; try (constructor; congruence).
  destruct (Z.eqb_spec p q), (Nat.eqb_spec i j); constructor; congruence.
Qed.

(** What each thread has in [g_tls_], and its name. *)
Record threads := mk_threads {
  g_tls_ : thread -> option MessagePump;
  thread_name : thread -> list Z
}.

Definition no_threads : threads := mk_threads (fun _ => None) (fun _ => []).

(** ** Operations *)

Definition SetThreadTls (t : thread) (value : option MessagePump) (s : threads) : threads :=
  mk_threads (fun t' => if thread_eqb t' t then value else g_tls_ s t') (thread_name s).

Definition GetThreadTls (t : thread) (s : threads) : option MessagePump := g_tls_ s t.

(** The names given here are shorter than the 15 bytes Linux keeps of a name. *)
Definition SetCurrentThreadName (t : thread) (name : list Z) (s : threads) : threads :=
  mk_threads (g_tls_ s) (fun t' => if thread_eqb t' t then name else thread_name s t').

(** Always empty, whatever the name is. *)
Definition GetCurrentThreadName : list Z := [].

(** Thread [i] of a pump, before it runs the pump. *)
Definition start_thread (p : MessagePump) (name : list Z) (s : threads) (i : nat) : threads :=
  SetThreadTls (PumpThread (pump_number p) i) (Some p)
    (SetCurrentThreadName (PumpThread (pump_number p) i) (name ++ bytes ":" ++ print_int (Z.of_nat i + 1)) s).

(** The constructor of a pump, called by [t]; the one of [MessagePumpDefatlt]
    waits for each of its threads. *)
Definition construct_pump (t : thread) (s : threads) (p : MessagePump) : threads :=
  match kind p with
  | MessagePumpWin | MessagePumpAndroid => SetCurrentThreadName t (bytes "Main") (SetThreadTls t (Some p) s)
  | MessagePumpDefatlt name thread_count => fold_left (start_thread p name) (seq 0 thread_count) s
  | EmptyMessagePump => s
  end.

(** [Join] ends the threads of a pump; the pumps on a window or the Looper have
    none of their own. *)
Definition join_pump (s : threads) (p : MessagePump) : threads :=
  mk_threads (fun t => match t with
                       | PumpThread n i => if n =? pump_number p then None else g_tls_ s t
                       | Main => g_tls_ s t
                       end) (thread_name s).

Definition pumps_of (s : loop_state) : list MessagePump :=
  match g_loop_manager s with Some m => map (fun item => pump_ (snd item)) m | None => [] end.

(** The process: its loops and its threads. *)
Record process := mk_process { loops : loop_state; threads_of : threads }.

Definition new_process : process := mk_process no_loops no_threads.

Section Process.
Variable os : platform.

Definition start_loops (s : process) : process :=
  match g_loop_manager (loops s) with
  | Some _ => s
  | None =>
      let l := InitMessageLoop os (loops s) in
      mk_process l (fold_left (construct_pump Main) (pumps_of l) (threads_of s))
  end.

Definition end_loops (s : process) : process :=
  mk_process (UnintMessageLoop (loops s)) (fold_left join_pump (pumps_of (loops s)) (threads_of s)).

(** A pump exists as long as its loop; nobody else keeps it. *)
Definition alive (p : MessagePump) (s : process) : bool :=
  existsb (fun q => pump_number q =? pump_number p) (pumps_of (loops s)).

(** [shared_from_this] of a pump that has been destroyed is undefined. *)
Definition CurrentMessagePump (t : thread) (s : process) : outcome (option MessagePump) :=
  match GetThreadTls t (threads_of s) with
  | Some p => if alive p s then Ok (Some p) else Undefined
  | None => Ok None
  end.

Definition CallOnValidThread (t : thread) (l : MessageLoopImpl) (s : process) : outcome bool :=
  let? p := CurrentMessagePump t s in
  Ok (match p with Some p => pump_number (pump_ l) =? pump_number p | None => false end).

(** ** What a thread finds *)

Inductive process_op := StartLoops | EndLoops.

Definition process_run (ops : list process_op) : process :=
  fold_left (fun s o => match o with StartLoops => start_loops s | EndLoops => end_loops s end) ops new_process.

(** The four pumps made when [n] had been made before, and their threads. *)
Definition pumps_from (n : Z) : list MessagePump := map (fun item => pump_ (snd item)) (new_looper_manager os n).

Definition works_for (t : thread) (p : MessagePump) : Prop :=
  match kind p, t with
  | (MessagePumpWin | MessagePumpAndroid), Main => True
  | MessagePumpDefatlt _ n, PumpThread k i => k = pump_number p /\ (i < n)%nat
  | _, _ => False
  end.

(** The pump a thread is to find among four pumps. *)
Definition pump_for (t : thread) (n : Z) : option MessagePump :=
  match t with
  | Main => Some (mk_message_pump n (match os with OS_WIN => MessagePumpWin | OS_ANDROID => MessagePumpAndroid end))
  | PumpThread k i =>
      if (k =? n + 1) && Nat.ltb i 1 then Some (mk_message_pump (n + 1) (MessagePumpDefatlt (bytes "IO") 1))
      else if (k =? n + 2) && Nat.ltb i 4 then Some (mk_message_pump (n + 2) (MessagePumpDefatlt (bytes "Work") 4))
      else if (k =? n + 3) && Nat.ltb i 1 then Some (mk_message_pump (n + 3) (MessagePumpDefatlt (bytes "File") 1))
      else None
  end.

Lemma start_thread_tls p name l s t :
  g_tls_ (fold_left (start_thread p name) l s) t =
  match t with
  | PumpThread k i => if (k =? pump_number p) && existsb (Nat.eqb i) l then Some p else g_tls_ s t
  | Main => g_tls_ s t
  end.
Proof.
  revert s. induction l as [|j l IH]; intros s; cbn [fold_left existsb].
  - destruct t; [reflexivity|]. rewrite andb_false_r. reflexivity.
  - rewrite IH. destruct t as [|k i]; [reflexivity|]. cbn. destruct (k =? pump_number p) eqn:Ek; cbn; [|reflexivity].
    destruct (Nat.eqb i j), (existsb (Nat.eqb i) l); reflexivity.
Qed.

Lemma existsb_seq i n : existsb (Nat.eqb i) (seq 0 n) = Nat.ltb i n.
Proof.
  destruct (Nat.ltb_spec i n) as [H|H].
  - apply existsb_exists. exists i. split; [apply in_seq; lia | apply Nat.eqb_refl].
  - apply not_true_iff_false. intros (j & Hj & Hij)%existsb_exists. apply in_seq in Hj. apply Nat.eqb_eq in Hij. lia.
Qed.

(** The four constructors give each thread its pump. *)
Lemma constructed_tls n s t :
  (forall k i, g_tls_ s (PumpThread k i) = None) ->
  g_tls_ (fold_left (construct_pump Main) (pumps_from n) s) t = pump_for t n.
Proof.
  intros Hs. unfold pumps_from, new_looper_manager. cbn [map snd pump_ fold_left]. unfold WORK_THREAD_COUNT.
  assert (forall s' k name c, construct_pump Main s' (mk_message_pump k (MessagePumpDefatlt name c)) =
    fold_left (start_thread (mk_message_pump k (MessagePumpDefatlt name c)) name) (seq 0 c) s') as Hd by reflexivity.
  assert (forall ui, (ui = MessagePumpWin \/ ui = MessagePumpAndroid) ->
    construct_pump Main s (mk_message_pump n ui) =
    SetCurrentThreadName Main (bytes "Main") (SetThreadTls Main (Some (mk_message_pump n ui)) s)) as Hu.
  { intros ui [-> | ->]; reflexivity. }
  rewrite !Hd. clear Hd.
  rewrite Hu by (destruct os; auto). rewrite !start_thread_tls. cbn [pump_number].
  destruct t as [|k i]; [reflexivity|]. rewrite !existsb_seq. cbn [g_tls_ SetCurrentThreadName SetThreadTls thread_eqb].
  rewrite Hs. unfold pump_for. destruct (Z.eqb_spec k (n + 1)), (Z.eqb_spec k (n + 2)), (Z.eqb_spec k (n + 3)); try lia;
    cbn [andb]; repeat match goal with |- context [Nat.ltb i ?m] => destruct (Nat.ltb i m) end; reflexivity.
Qed.

(** Between the operations: with loops every thread finds its pump, without them
    there are no threads of pumps, and [Main] still has the pump it had. *)
Definition tls_inv (started : bool) (s : process) : Prop :=
  match g_loop_manager (loops s) with
  | Some m => exists n, m = new_looper_manager os n /\ forall t, g_tls_ (threads_of s) t = pump_for t n
  | None => (forall k i, g_tls_ (threads_of s) (PumpThread k i) = None) /\
            (if started then g_tls_ (threads_of s) Main <> None else g_tls_ (threads_of s) Main = None)
  end.

Lemma join_tls l s t :
  g_tls_ (fold_left join_pump l s) t =
  match t with
  | PumpThread k _ => if existsb (fun p => k =? pump_number p) l then None else g_tls_ s t
  | Main => g_tls_ s t
  end.
Proof.
  revert s. induction l as [|p l IH]; intros s; cbn [fold_left existsb]; [now destruct t|].
  rewrite IH. destruct t as [|k i]; [reflexivity|]. cbn. destruct (k =? pump_number p), (existsb _ l); reflexivity.
Qed.

Definition has_started (b : bool) (o : process_op) : bool := match o with StartLoops => true | EndLoops => b end.

Lemma start_inv b s : tls_inv b s -> tls_inv true (start_loops s).
Proof.
  unfold tls_inv, start_loops. destruct (g_loop_manager (loops s)) as [m|] eqn:E.
  - intros Hm. rewrite E. exact Hm.
  - intros [Hp _]. cbn [loops threads_of]. unfold InitMessageLoop, pumps_of. rewrite E. cbn [g_loop_manager].
    exists (next_pump (loops s)). split; [reflexivity|]. intros t. apply constructed_tls, Hp.
Qed.

Lemma end_inv b s : tls_inv b s -> (g_loop_manager (loops s) <> None -> b = true) -> tls_inv b (end_loops s).
Proof.
  unfold tls_inv, end_loops. cbn [loops threads_of UnintMessageLoop g_loop_manager].
  unfold pumps_of. destruct (g_loop_manager (loops s)) as [m|] eqn:E; [|auto].
  intros (n & -> & Hn) Hb. rewrite (Hb ltac:(discriminate)). split.
  - intros k i. rewrite join_tls, Hn. cbn. destruct (k =? n), (k =? n + 1), (k =? n + 2), (k =? n + 3); reflexivity.
  - rewrite join_tls, Hn. discriminate.
Qed.

Lemma run_tls ops :
  let b := fold_left has_started ops false in
  tls_inv b (process_run ops) /\ (g_loop_manager (loops (process_run ops)) <> None -> b = true).
Proof.
  unfold process_run. induction ops as [|o ops [IH1 IH2]] using rev_ind; [split; [split; reflexivity | contradiction]|].
  rewrite !fold_left_app. cbn [fold_left]. destruct o; cbn [has_started].
  - split; [exact (start_inv _ _ IH1) | reflexivity].
  - split; [exact (end_inv _ _ IH1 IH2) | contradiction].
Qed.

Lemma started_in ops b : fold_left has_started ops b = true <-> b = true \/ In StartLoops ops.
Proof.
  revert b. induction ops as [|o ops IH]; intros b; cbn; [tauto|]. rewrite IH.
  destruct o; cbn; intuition discriminate.
Qed.

Lemma pump_for_alive t n p s :
  g_loop_manager (loops s) = Some (new_looper_manager os n) -> pump_for t n = Some p -> alive p s = true.
Proof.
  intros Hm Hp. unfold alive, pumps_of. rewrite Hm. unfold new_looper_manager. cbn. unfold pump_for in Hp.
  destruct t as [|k i]; [injection Hp as <-; cbn; now rewrite Z.eqb_refl|].
  repeat (match type of Hp with (if ?c then _ else _) = _ => destruct c end;
    [injection Hp as <-; cbn; rewrite Z.eqb_refl, ?orb_true_r; reflexivity|]). discriminate.
Qed.

(** [CallOnValidThread] answers, for every thread. *)
Lemma valid_thread s n l t :
  g_loop_manager (loops s) = Some (new_looper_manager os n) -> (forall u, g_tls_ (threads_of s) u = pump_for u n) ->
  In l (map snd (new_looper_manager os n)) ->
  exists b, CallOnValidThread t l s = Ok b /\ (b = true <-> works_for t (pump_ l)).
Proof.
  intros Hm Ht Hl. unfold CallOnValidThread, CurrentMessagePump, GetThreadTls. rewrite Ht.
  assert (forall p, pump_for t n = Some p -> alive p s = true) as Ha by (intros p; apply (pump_for_alive t n p s Hm)).
  cbn in Hl. unfold works_for, pump_for in *. destruct t as [|k i].
  - rewrite (Ha _ eq_refl). eexists. split; [reflexivity|].
    destruct Hl as [<-|[<-|[<-|[<-|[]]]]]; cbn; rewrite Z.eqb_eq; destruct os; split; try tauto; lia.
  - destruct (Z.eqb_spec k (n + 1)), (Z.eqb_spec k (n + 2)), (Z.eqb_spec k (n + 3)); try lia; cbn [andb] in *;
      repeat match goal with |- context [Nat.ltb i ?m] => destruct (Nat.ltb_spec i m) end;
      try rewrite (Ha _ eq_refl); eexists; (split; [reflexivity|]); destruct Hl as [<-|[<-|[<-|[<-|[]]]]]; cbn;
      rewrite ?Z.eqb_eq; unfold WORK_THREAD_COUNT; destruct os; cbn; intuition (discriminate || lia).
Qed.
End Process.

(** The pump of a thread.  However often the loops have been started and ended:
    while there are loops, every thread can ask whether it is one of those that
    work for a loop, and gets the right answer; when they have ended, the main
    thread still has the pump of the user interface, which is gone, so that
    [CurrentMessagePump] is undefined there. *)
Theorem current_pump_correct os ops :
  let s := process_run os ops in
  (forall m ty l t, g_loop_manager (loops s) = Some m -> In (ty, l) m ->
     exists b, CallOnValidThread t l s = Ok b /\ (b = true <-> works_for t (pump_ l))) /\
  (g_loop_manager (loops s) = None -> In StartLoops ops -> CurrentMessagePump Main s = Undefined).
Proof.
  intros s. destruct (run_tls os ops) as [Hi Hb]. fold s in Hi, Hb. unfold tls_inv in Hi. split.
  - intros m ty l t Hm Hl. rewrite Hm in Hi. destruct Hi as (n & -> & Hn).
    apply (valid_thread os s n l t Hm Hn). apply in_map_iff. exists (ty, l). auto.
  - intros Hm Hin. rewrite Hm in Hi. destruct Hi as [_ Hi].
    rewrite (proj2 (started_in ops false) (or_intror Hin)) in Hi.
    unfold CurrentMessagePump, GetThreadTls, alive, pumps_of. rewrite Hm. destruct (g_tls_ _ Main); [reflexivity | congruence].
Qed.

Lemma current_pump_correct_witness :
  exists b, CallOnValidThread (PumpThread 7 3) (mk_loop (mk_message_pump 7 (MessagePumpDefatlt (bytes "Work") 4)))
              (process_run OS_WIN [StartLoops; EndLoops; StartLoops]) = Ok b /\
            (b = true <-> works_for (PumpThread 7 3) (mk_message_pump 7 (MessagePumpDefatlt (bytes "Work") 4))).
Proof.
  apply (proj1 (current_pump_correct OS_WIN [StartLoops; EndLoops; StartLoops]) (new_looper_manager OS_WIN 5) kMessagePumpTypeWork);
    [reflexivity | cbn; auto].
Defined.
