(* ===== verification/ThreadUtil.v ===== *)
(** * Semaphores and callbacks at the exit

    src/base/semaphore_util.cc: a semaphore from a mutex and a condition variable;
    src/base/at_exit.cc: the stack of callbacks that run when the manager is
    destroyed.  Each section under the mutex is one step; which thread the
    condition variable wakes, and wake-ups without a reason, are left open. *)

From Stdlib Require Import ZArith List Bool Lia Permutation.
From S2P Require Import Prelude Cpp.
Import ListNotations.
Local Open Scope Z_scope.
Local Open Scope cpp_scope.

(** ** Semaphores *)

(** A call of [Wait()], or of [Wait(timeout)], by a thread. *)
Inductive sem_call := Forever (thread : Z) | Timed (thread : Z).

(** [count_], the calls asleep in [cv_] and those that have been woken and are to
    evaluate their predicate under the mutex. *)
Record SemaphoreImpl := mk_semaphore {
  count_ : Z;
  asleep : list sem_call;
  woken : list sem_call
}.

Definition new_semaphore : SemaphoreImpl := mk_semaphore 0 [] [].

(** What the user sees: a permit is given or taken, or a timed call gives up. *)
Inductive sem_label := Gave | Took (c : sem_call) | GaveUp (c : sem_call) | Quiet.

(** [Signal]: the count, which may overflow, and the call [notify_one] wakes. *)
Definition Signal (s : SemaphoreImpl) : outcome Z := int_result (count_ s + 1).

(** The predicates of both [Wait], and what they leave in [count_]; that of the
    timed one takes the permit itself. *)
Definition wait_pred (c : sem_call) (count : Z) : bool * Z :=
  match c with
  | Forever _ => (0 <? count, count)
  | Timed _ => if 0 <? count then (true, count - 1) else (false, count)
  end.

(** [--count_] behind the wait. *)
Definition after_wait (c : sem_call) (count : Z) : Z :=
  match c with
  | Forever _ => count - 1
  | Timed _ => count
  end.

(** A call evaluates its predicate: it returns, or goes to sleep (again). *)
Definition try_wait (c : sem_call) (s : SemaphoreImpl) : SemaphoreImpl * sem_label :=
  let (ok, count) := wait_pred c (count_ s) in
  if ok then (mk_semaphore (after_wait c count) (asleep s) (woken s), Took c)
  else (mk_semaphore count (asleep s ++ [c]) (woken s), Quiet).

(** After the timeout the predicate is evaluated once more and the call returns. *)
Definition time_out (c : sem_call) (s : SemaphoreImpl) : SemaphoreImpl * sem_label :=
  let (ok, count) := wait_pred c (count_ s) in
  (mk_semaphore count (asleep s) (woken s), if ok then Took c else GaveUp c).

Inductive sem_step : SemaphoreImpl -> sem_label -> SemaphoreImpl -> Prop :=
| sem_step_signal n s :
    Signal s = Ok n -> asleep s = [] -> sem_step s Gave (mk_semaphore n [] (woken s))
| sem_step_notify n c pre suf s :
    Signal s = Ok n -> asleep s = pre ++ c :: suf -> sem_step s Gave (mk_semaphore n (pre ++ suf) (woken s ++ [c]))
| sem_step_call c s s' l : try_wait c s = (s', l) -> sem_step s l s'
| sem_step_woken c pre suf s s' l :
    woken s = pre ++ c :: suf -> try_wait c (mk_semaphore (count_ s) (asleep s) (pre ++ suf)) = (s', l) -> sem_step s l s'
| sem_step_spurious c pre suf s :
    asleep s = pre ++ c :: suf -> sem_step s Quiet (mk_semaphore (count_ s) (pre ++ suf) (woken s ++ [c]))
| sem_step_timeout t pre suf s s' l :
    asleep s = pre ++ Timed t :: suf ->
    time_out (Timed t) (mk_semaphore (count_ s) (pre ++ suf) (woken s)) = (s', l) -> sem_step s l s'
| sem_step_late t pre suf s s' l :              (* woken, but the time is over *)
    woken s = pre ++ Timed t :: suf ->
    time_out (Timed t) (mk_semaphore (count_ s) (asleep s) (pre ++ suf)) = (s', l) -> sem_step s l s'.

Inductive sem_trace (s : SemaphoreImpl) : list sem_label -> SemaphoreImpl -> Prop :=
| sem_trace_nil : sem_trace s [] s
| sem_trace_more ls s1 l s2 : sem_trace s ls s1 -> sem_step s1 l s2 -> sem_trace s (ls ++ [l]) s2.

Definition gave (ls : list sem_label) : Z := zlen (filter (fun l => match l with Gave => true | _ => false end) ls).
Definition took (ls : list sem_label) : Z := zlen (filter (fun l => match l with Took _ => true | _ => false end) ls).

(** Permits are counted, and a call sleeps beside a permit only if enough others
    have been woken for it. *)
Record sem_inv (ls : list sem_label) (s : SemaphoreImpl) : Prop := {
  sem_count : gave ls = count_ s + took ls;
  sem_nonneg : 0 <= count_ s;
  sem_awake : asleep s <> [] -> count_ s <= zlen (woken s)
}.

Lemma gave_app l1 l2 : gave (l1 ++ l2) = gave l1 + gave l2.
Proof. unfold gave. rewrite filter_app, zlen_app. reflexivity. Qed.

Lemma took_app l1 l2 : took (l1 ++ l2) = took l1 + took l2.
Proof. unfold took. rewrite filter_app, zlen_app. reflexivity. Qed.

(** A call that evaluates its predicate leaves the invariant, if it was one of
    those woken for a permit or the permits do not suffice anyway. *)
Lemma try_wait_inv c s s' l k :
  0 <= count_ s -> 0 <= k <= 1 -> (asleep s <> [] -> count_ s <= zlen (woken s) + k) ->
  try_wait c s = (s', l) ->
  gave [l] + count_ s = count_ s' + took [l] /\ 0 <= count_ s' /\ (asleep s' <> [] -> count_ s' <= zlen (woken s')).
Proof.
  intros Hn Hk Ha. pose proof (zlen_nonneg (woken s)). unfold try_wait, wait_pred. destruct c as [t|t].
  - destruct (Z.ltb_spec 0 (count_ s)) as [H0|H0]; intros Hx; injection Hx as <- <-; cbn -[Z.add Z.sub zlen].
    + change (gave [Took (Forever t)]) with 0. change (took [Took (Forever t)]) with 1. repeat split; try lia.
      intros Hs. specialize (Ha Hs). lia.
    + change (gave [Quiet]) with 0. change (took [Quiet]) with 0. repeat split; lia.
  - destruct (Z.ltb_spec 0 (count_ s)) as [H0|H0]; intros Hx; injection Hx as <- <-; cbn -[Z.add Z.sub zlen].
    + change (gave [Took (Timed t)]) with 0. change (took [Took (Timed t)]) with 1. repeat split; try lia.
      intros Hs. specialize (Ha Hs). lia.
    + change (gave [Quiet]) with 0. change (took [Quiet]) with 0. repeat split; lia.
Qed.

Lemma time_out_inv t s s' l k :
  0 <= count_ s -> 0 <= k <= 1 -> (asleep s <> [] -> count_ s <= zlen (woken s) + k) ->
  time_out (Timed t) s = (s', l) ->
  gave [l] + count_ s = count_ s' + took [l] /\ 0 <= count_ s' /\ (asleep s' <> [] -> count_ s' <= zlen (woken s')).
Proof.
  intros Hn Hk Ha. pose proof (zlen_nonneg (woken s)). unfold time_out, wait_pred.
  destruct (Z.ltb_spec 0 (count_ s)) as [H0|H0]; intros Hx; injection Hx as <- <-; cbn -[Z.add Z.sub zlen].
  - change (gave [Took (Timed t)]) with 0. change (took [Took (Timed t)]) with 1. repeat split; try lia.
    intros Hs. specialize (Ha Hs). lia.
  - change (gave [GaveUp (Timed t)]) with 0. change (took [GaveUp (Timed t)]) with 0. repeat split; lia.
Qed.

Lemma Signal_ok s n : Signal s = Ok n -> n = count_ s + 1.
Proof. unfold Signal, int_result. destruct (_ && _); congruence. Qed.

Lemma zlen_split {A} (l1 : list A) x l2 : zlen (l1 ++ x :: l2) = zlen (l1 ++ l2) + 1.
Proof. rewrite !zlen_app, zlen_cons. lia. Qed.

Lemma app_cons_nil {A} (l1 : list A) x l2 : l1 ++ x :: l2 <> [].
Proof. destruct l1; discriminate. Qed.

Lemma sem_step_inv ls s l s' : sem_inv ls s -> sem_step s l s' -> sem_inv (ls ++ [l]) s'.
Proof.
  intros [H1 H2 H3] Hs.
  enough (gave [l] + count_ s = count_ s' + took [l] /\ 0 <= count_ s' /\ (asleep s' <> [] -> count_ s' <= zlen (woken s')))
    as (E1 & E2 & E3) by (constructor; [rewrite gave_app, took_app; lia | exact E2 | exact E3]).
  pose proof (zlen_nonneg (woken s)) as Hw.
  destruct Hs as [n s Hn Ha|n c pre suf s Hn Ha|c s s' l Ht|c pre suf s s' l Ho Ht|c pre suf s Ha|t pre suf s s' l Ha Ht|t pre suf s s' l Ho Ht].
  - apply Signal_ok in Hn as ->. change (gave [Gave]) with 1. change (took [Gave]) with 0. cbn -[Z.add].
    repeat split; try lia. contradiction.
  - apply Signal_ok in Hn as ->. change (gave [Gave]) with 1. change (took [Gave]) with 0. cbn -[Z.add zlen].
    rewrite zlen_app. change (zlen [c]) with 1. rewrite Ha in H3. specialize (H3 (app_cons_nil _ _ _)). repeat split; lia.
  - eapply (try_wait_inv c s s' l 0); auto; lia || (intros Hx; specialize (H3 Hx); lia).
  - apply (try_wait_inv c (mk_semaphore (count_ s) (asleep s) (pre ++ suf)) s' l 1); [| | |exact Ht]; cbn -[zlen]; [exact H2|lia|]. rewrite Ho, zlen_split in H3. auto.
  - change (gave [Quiet]) with 0. change (took [Quiet]) with 0. cbn -[zlen]. rewrite zlen_app. change (zlen [c]) with 1.
    rewrite Ha in H3. specialize (H3 (app_cons_nil _ _ _)). repeat split; lia.
  - apply (time_out_inv t (mk_semaphore (count_ s) (pre ++ suf) (woken s)) s' l 0); [| | |exact Ht]; cbn -[zlen]; [exact H2|lia|]. rewrite Ha in H3.
    specialize (H3 (app_cons_nil _ _ _)). lia.
  - apply (time_out_inv t (mk_semaphore (count_ s) (asleep s) (pre ++ suf)) s' l 1); [| | |exact Ht]; cbn -[zlen]; [exact H2|lia|]. rewrite Ho, zlen_split in H3. auto.
Qed.

(** C20: The semaphore.  At any time, however the calls of the threads interleave
    and whatever the condition variable does, the permits given are those taken
    and those left, never negative; so no call returns without a permit of its
    own unless it gives up.  And no permit is overlooked: when nobody is between
    being woken and looking at the count, a call sleeps only if there is no
    permit. *)
Theorem semaphore_correct ls s :
  sem_trace new_semaphore ls s ->
  gave ls = count_ s + took ls /\ 0 <= count_ s /\ (woken s = [] -> asleep s <> [] -> count_ s = 0).
Proof.
  intros Ht. enough (sem_inv ls s) as [H1 H2 H3].
  { repeat split; auto. intros E Ha. specialize (H3 Ha). rewrite E in H3. change (zlen []) with 0 in H3. lia. }
  induction Ht as [|ls s1 l s2 _ IH Hs]; [|eapply sem_step_inv; eauto].
  constructor; cbn; [reflexivity | lia | contradiction].
Qed.

(** A thread waits for ever, another for some time; a signal wakes the second. *)
Lemma semaphore_correct_witness :
  gave [Quiet; Quiet; Gave; Took (Timed 2)] = 0 + took [Quiet; Quiet; Gave; Took (Timed 2)] /\ 0 <= 0 /\
  ([] = @nil sem_call -> [Forever 1] <> [] -> 0 = 0).
Proof.
  apply (semaphore_correct [Quiet; Quiet; Gave; Took (Timed 2)] (mk_semaphore 0 [Forever 1] [])).
  apply (sem_trace_more _ [Quiet; Quiet; Gave] (mk_semaphore 1 [Forever 1] [Timed 2])).
  - apply (sem_trace_more _ [Quiet; Quiet] (mk_semaphore 0 [Forever 1; Timed 2] [])).
    + apply (sem_trace_more _ [Quiet] (mk_semaphore 0 [Forever 1] [])).
      * apply (sem_trace_more _ [] new_semaphore); [apply sem_trace_nil|]. apply (sem_step_call (Forever 1)). reflexivity.
      * apply (sem_step_call (Timed 2)). reflexivity.
    + apply (sem_step_notify 1 (Timed 2) [Forever 1] []); reflexivity.
  - apply (sem_step_woken (Timed 2) [] []); reflexivity.
Defined.

(** ** Callbacks at the exit *)

Section AtExit.
Context {A : Type}.
(** Whether assertions are compiled in; [LogFatal] is one that fails. *)
Variable debug : bool.
(** The callbacks a callback registers when it runs. *)
Variable registers : A -> list A.

(** [g_top_manager], and the stack of every manager that exists, top first. *)
Record at_exit := mk_at_exit {
  g_top_manager : option Z;
  stacks : list (Z * list A)
}.

Definition no_manager : at_exit := mk_at_exit None [].

Definition stack_of (m : Z) (s : at_exit) : list A :=
  flat_map (fun e => if fst e =? m then snd e else []) (stacks s).

Definition set_stack (m : Z) (f : list A -> list A) (s : at_exit) : at_exit :=
  mk_at_exit (g_top_manager s) (map (fun e => if fst e =? m then (m, f (snd e)) else e) (stacks s)).

(** The constructor of the manager [m]. *)
Definition AtExitManager (m : Z) (s : at_exit) : outcome at_exit :=
  match g_top_manager s with
  | Some _ => if debug then Throws else Ok (mk_at_exit (Some m) ((m, []) :: stacks s))
  | None => Ok (mk_at_exit (Some m) ((m, []) :: stacks s))
  end.

Definition RegisterCallback (callback : A) (s : at_exit) : at_exit :=
  match g_top_manager s with
  | None => s
  | Some m => set_stack m (cons callback) s
  end.

(** The loop of the destructor: the callbacks that ran. *)
Fixpoint run_tasks (tasks : list A) (s : at_exit) : at_exit * list A :=
  match tasks with
  | [] => (s, [])
  | callback :: tasks' =>
      let s := fold_left (fun s c => RegisterCallback c s) (registers callback) s in
      let (s, ran) := run_tasks tasks' s in (s, callback :: ran)
  end.

(** The destructor, which takes the stack first. *)
Definition destroy_at_exit (m : Z) (s : at_exit) : at_exit * list A :=
  let tasks := stack_of m s in
  let (s, ran) := run_tasks tasks (set_stack m (fun _ => []) s) in
  (mk_at_exit None (filter (fun e => negb (fst e =? m)) (stacks s)), ran).

Lemma run_tasks_ran tasks s : snd (run_tasks tasks s) = tasks.
Proof.
  revert s. induction tasks as [|c tasks IH]; intros s; cbn; [reflexivity|].
  specialize (IH (fold_left (fun s c => RegisterCallback c s) (registers c) s)).
  destruct (run_tasks _ _). cbn in *. congruence.
Qed.

Lemma register_all cs l :
  fold_left (fun s c => RegisterCallback c s) cs (mk_at_exit (Some 1) [(1, l)]) = mk_at_exit (Some 1) [(1, rev cs ++ l)].
Proof.
  revert l. induction cs as [|c cs IH]; intros l; cbn [fold_left rev]; [reflexivity|].
  change (RegisterCallback c (mk_at_exit (Some 1) [(1, l)])) with (mk_at_exit (Some 1) [(1, c :: l)]).
  rewrite IH, <- app_assoc. reflexivity.
Qed.

Lemma run_tasks_stacks tasks : forall s m l, s = mk_at_exit (Some m) [(m, l)] ->
  exists l', fst (run_tasks tasks s) = mk_at_exit (Some m) [(m, l')].
Proof.
  induction tasks as [|c tasks IH]; intros s m l ->; cbn; [eauto|].
  assert (exists k, fold_left (fun s c => RegisterCallback c s) (registers c) (mk_at_exit (Some m) [(m, l)]) =
                    mk_at_exit (Some m) [(m, k)]) as [k Ek].
  { revert l. induction (registers c) as [|d ds IHd]; intros l; cbn [fold_left]; [eauto|].
    unfold RegisterCallback at 2, set_stack. cbn [g_top_manager stacks map fst snd]. rewrite Z.eqb_refl. apply IHd. }
  rewrite Ek. destruct (IH _ m k eq_refl) as [l' E]. destruct (run_tasks tasks _) as [s' r]. cbn in *. eauto.
Qed.

(** The callbacks registered with the manager run once, the last one first; what
    they register in turn is forgotten, and so is everything registered later. *)
Theorem at_exit_order callbacks s :
  AtExitManager 1 no_manager = Ok s ->
  let s' := fold_left (fun s c => RegisterCallback c s) callbacks s in
  destroy_at_exit 1 s' = (no_manager, rev callbacks) /\ forall c, RegisterCallback c no_manager = no_manager.
Proof.
  intros Hs. injection Hs as <-. cbn zeta. rewrite register_all, app_nil_r. split; [|reflexivity].
  unfold destroy_at_exit, stack_of, set_stack. cbn. rewrite app_nil_r.
  destruct (run_tasks_stacks (rev callbacks) _ 1 [] eq_refl) as [l E].
  pose proof (run_tasks_ran (rev callbacks) (mk_at_exit (Some 1) [(1, [])])) as R.
  destruct (run_tasks _ _) as [s r]. cbn in E, R. subst. reflexivity.
Qed.
End AtExit.
