(* ===== verification/TcpServer.v ===== *)
(** * The TCP server

    src/base/net/tcp_server/tcp_server_impl.cc: an acceptor of the IO pump whose
    asynchronous accepts are reported to a delegate.  The calls of the user, the
    ends of the asynchronous operations and the closure posted to the pump are
    events in any order that Asio allows. *)

From Stdlib Require Import ZArith List Bool Lia.
From S2P Require Import Prelude Cpp.
Import ListNotations.
Local Open Scope Z_scope.

(** [delegate_] is not null; the acceptor is open; the number of accepts that
    have not ended, those of them that were cancelled, and the posted closures. *)
Record TcpServerImpl := mk_tcp_server {
  delegate_ : bool;
  acceptor_open : bool;
  accepting : nat;
  aborted : nat;
  cleanups : nat
}.

(** The calls of the delegate; a socket is known by its number. *)
Inductive server_call := OnListen (code : Z) | OnNewConnection (socket : Z).

(** A server whose acceptor could be opened; otherwise the constructor throws. *)
Definition CreateTcpServer : TcpServerImpl := mk_tcp_server true true 0 0 0.

(** An accept on a closed acceptor ends at once with an error. *)
Definition StartListen (s : TcpServerImpl) : TcpServerImpl :=
  if acceptor_open s then mk_tcp_server (delegate_ s) true (S (accepting s)) (aborted s) (cleanups s)
  else mk_tcp_server (delegate_ s) false (accepting s) (S (aborted s)) (cleanups s).

Definition Cleanup (s : TcpServerImpl) : TcpServerImpl :=
  mk_tcp_server (delegate_ s) false 0 (accepting s + aborted s) (cleanups s).

Definition NotifyClient (ec socket : Z) (s : TcpServerImpl) : list server_call :=
  if delegate_ s then [if ec =? 0 then OnNewConnection socket else OnListen ec] else [].

Definition StopListen (s : TcpServerImpl) : TcpServerImpl :=
  mk_tcp_server false (acceptor_open s) (accepting s) (aborted s) (S (cleanups s)).

Inductive server_event := EvStart | EvStop | EvCall (c : list server_call) | EvCleanup.

Inductive server_step : TcpServerImpl -> server_event -> TcpServerImpl -> Prop :=
| server_start s : server_step s EvStart (StartListen s)
| server_stop s : server_step s EvStop (StopListen s)
| server_accepted ec socket n s :            (* an accept ends, with a connection or an error *)
    accepting s = S n ->
    server_step s (EvCall (NotifyClient ec socket s)) (mk_tcp_server (delegate_ s) (acceptor_open s) n (aborted s) (cleanups s))
| server_aborted ec n s :                    (* a cancelled accept ends *)
    aborted s = S n -> ec <> 0 ->
    server_step s (EvCall (NotifyClient ec 0 s)) (mk_tcp_server (delegate_ s) (acceptor_open s) (accepting s) n (cleanups s))
| server_cleanup n s :
    cleanups s = S n ->
    server_step s EvCleanup (Cleanup (mk_tcp_server (delegate_ s) (acceptor_open s) (accepting s) (aborted s) n)).

Inductive server_run : list server_event -> TcpServerImpl -> Prop :=
| server_new : server_run [] CreateTcpServer
| server_more es s e s' : server_run es s -> server_step s e s' -> server_run (es ++ [e]) s'.

Definition calls_of (es : list server_event) : list server_call :=
  flat_map (fun e => match e with EvCall c => c | _ => [] end) es.

Definition starts (es : list server_event) : nat :=
  length (filter (fun e => match e with EvStart => true | _ => false end) es).

Definition stopped (es : list server_event) : bool := existsb (fun e => match e with EvStop => true | _ => false end) es.

Lemma server_run_inv es s :
  server_run es s ->
  delegate_ s = negb (stopped es) /\
  (stopped es = false ->
   acceptor_open s = true /\ aborted s = O /\ cleanups s = O /\ starts es = (length (calls_of es) + accepting s)%nat).
Proof.
  induction 1 as [|es s e s' _ [I1 I2] Hs]; [auto|].
  unfold calls_of, starts, stopped in *. rewrite existsb_app, filter_app, length_app, flat_map_app, length_app.
  destruct Hs as [s|s|ec socket n s Hn|ec n s Hn He|n s Hn]; cbn in *; rewrite ?orb_false_r, ?orb_true_r.
  - unfold StartListen. destruct (acceptor_open s) eqn:E; cbn.
    + split; [exact I1|]. intros H. destruct (I2 H) as (J1 & J2 & J3 & J4). repeat split; auto. lia.
    + split; [exact I1|]. intros H. destruct (I2 H) as (J1 & J2 & J3 & J4). congruence.
  - split; [reflexivity|discriminate].
  - split; [exact I1|]. intros H. destruct (I2 H) as (J1 & J2 & J3 & J4). unfold NotifyClient. rewrite I1, H. cbn.
    repeat split; auto. lia.
  - split; [exact I1|]. intros H. destruct (I2 H) as (J1 & J2 & J3 & J4). congruence.
  - split; [exact I1|]. intros H. destruct (I2 H) as (J1 & J2 & J3 & J4). congruence.
Qed.

(** Every accept that was asked for is reported exactly once or still under way,
    while the server has not been stopped: a call of [StartListen] gives one
    connection, the user has to call it again for the next one. *)
Theorem one_connection_per_listen es s :
  server_run es s -> stopped es = false -> starts es = (length (calls_of es) + accepting s)%nat.
Proof. intros Hr H. apply (server_run_inv es s Hr), H. Qed.

(** After [StopListen] the delegate is not called any more. *)
Theorem stopped_server_silent es es' s' :
  stopped es = true -> server_run (es ++ es') s' -> calls_of (es ++ es') = calls_of es.
Proof.
  intros Hst. revert s'. induction es' as [|e es' IH] using rev_ind; intros s' Hr; [now rewrite app_nil_r|].
  rewrite app_assoc in Hr |- *. inversion Hr as [E|es0 s0 e0 s1 Hr0 Hs E]; [destruct (es ++ es'); discriminate|].
  apply app_inj_tail in E as [-> ->]. subst s1. unfold calls_of. rewrite flat_map_app. fold (calls_of (es ++ es')).
  rewrite (IH s0 Hr0). destruct (server_run_inv _ _ Hr0) as [Hd _]. unfold stopped in *. rewrite existsb_app, Hst in Hd.
  cbn in Hd. destruct Hs; cbn; unfold NotifyClient; rewrite ?Hd; apply app_nil_r.
Qed.
