(* ===== verification/Auth.v ===== *)
(** * The authentication client

    src/base/auth/auth_util.cc: requests to a licence server, encrypted with its
    public key, and answers signed with its private key.  [AuthManager] is a
    delegate of the HTTP clients it starts, told apart by a number.  Messages are
    protobuf messages: their encoding, the random ids and OpenSSL are parameters. *)

From Stdlib Require Import String ZArith List Bool Lia.
From S2P Require Import Prelude Cpp StringUtil Crypto HttpDefs NetClient HttpClient.
Import ListNotations.
Local Open Scope Z_scope.
Local Open Scope cpp_scope.

(** ** Data *)

(** [xauth::request] and [xauth::response]; [response.code()] of a message that
    could not be parsed is the default. *)
Record xauth_request := mk_xauth_request {
  xq_type : Z;
  xq_version : Z;
  xq_token : list Z;
  xq_deviceid : list Z;
  xq_randomid : list Z
}.

Record xauth_response := mk_xauth_response {
  xr_code : Z;
  xr_signature : list Z;
  xr_desc : list Z
}.

(** [delegate] and [http_client] are the user's function and the client, each
    given by a number. *)
Record AuthInfo := mk_auth_info {
  url : list Z;
  random_id : list Z;
  device_id : list Z;
  product_type : Z;
  version : Z;
  token : list Z;
  delegate : Z;
  http_client_ : Z;
  response_data : list Z
}.

Record AuthManager := mk_auth_manager {
  auth_id : Z;
  auth_map_ : list (Z * AuthInfo)         (* in the order of the keys *)
}.

Definition new_auth_manager : AuthManager := mk_auth_manager 0 [].

(** The call of the user's function. *)
Inductive auth_call := AuthDelegate (delegate code : Z) (desc : list Z).

(** [auth_map_[id] = info], behind all smaller keys. *)
Fixpoint auth_insert (id : Z) (info : AuthInfo) (m : list (Z * AuthInfo)) : list (Z * AuthInfo) :=
  match m with
  | [] => [(id, info)]
  | (k, x) :: m' =>
      if id =? k then (id, info) :: m'
      else if id <? k then (id, info) :: m else (k, x) :: auth_insert id info m'
  end.

Definition set_response (d : list Z) (i : AuthInfo) : AuthInfo :=
  mk_auth_info (url i) (random_id i) (device_id i) (product_type i) (version i) (token i) (delegate i)
    (http_client_ i) d.

(** The loops of [OnHttpResponse] and [OnHttpComplete] act on the first entry of
    the client. *)
Fixpoint append_response (client : Z) (content : list Z) (m : list (Z * AuthInfo)) : list (Z * AuthInfo) :=
  match m with
  | [] => []
  | (k, i) :: m' =>
      if http_client_ i =? client then (k, set_response (response_data i ++ content) i) :: m'
      else (k, i) :: append_response client content m'
  end.

Fixpoint take_client (client : Z) (m : list (Z * AuthInfo)) : option AuthInfo * list (Z * AuthInfo) :=
  match m with
  | [] => (None, [])
  | (k, i) :: m' =>
      if http_client_ i =? client then (Some i, m')
      else let (found, rest) := take_client client m' in (found, (k, i) :: rest)
  end.

Section Manager.
(** Base64, MD5 and RSA of OpenSSL, and the encoding of the messages. *)
Context (EVP_EncodedLength : Z -> Z) (EVP_EncodeBlock : list Z -> list Z).
Context (EVP_DecodedLength : Z -> Z) (EVP_DecodeBase64 : list Z -> option (list Z)) (MD5 : list Z -> list Z).
Context {Key : Type} (mem_buf : bool) (public_key : option Key) (RSA_size : Key -> Z).
Context (RSA_public_encrypt : nat -> Key -> list Z -> option (list Z)) (RSA_verify : Key -> list Z -> list Z -> bool).
Context (SerializeToString : xauth_request -> list Z) (ParseFromString : list Z -> xauth_response).

(** ** Requests *)

Definition nodeviceid : list Z := Eval cbv in bytes "nodeviceid".

(** The first half of [AuthRequest]: the device and the random id are set and the
    request is encrypted into the URL.  [proxy_port] of the HTTP request has no
    initializer. *)
Definition auth_start (random : list Z) (proxy_port : Z) (info : AuthInfo) : outcome (AuthInfo * HttpClientRequest) :=
  let info := mk_auth_info (url info) random nodeviceid (product_type info) (version info) (token info)
                (delegate info) (http_client_ info) (response_data info) in
  let serial :=
    SerializeToString (mk_xauth_request (product_type info) (version info) (token info) (device_id info)
                         (random_id info)) in
  let? chip_text := EncryptByPublicKey mem_buf public_key RSA_size RSA_public_encrypt serial [] in
  let? base64_chip_text := Base64EncodeUrlSafe EVP_EncodedLength EVP_EncodeBlock (snd chip_text) in
  Ok (info, mk_client_request (url info ++ bytes "?data=" ++ base64_chip_text) [] proxy_port [] []).

(** The second half, after [Request] of the new client has been called: the id
    that is returned. *)
Definition auth_register (client : Z) (info : AuthInfo) (m : AuthManager) : outcome (AuthManager * Z) :=
  let? tmp_id := int_result (auth_id m + 1) in
  let info := mk_auth_info (url info) (random_id info) (device_id info) (product_type info) (version info)
                (token info) (delegate info) client (response_data info) in
  Ok (mk_auth_manager tmp_id (auth_insert tmp_id info (auth_map_ m)), tmp_id).

(** A client, unless the program stops or [substr] throws. *)
Definition client_of (r : create_result) : outcome http_client :=
  match r with
  | Created c => Ok c
  | Verify_failed | Out_of_range => Throws
  | Parser_stuck _ => Undefined
  end.

(** [AuthRequest] on one thread, with [client] the number of the client it
    creates. *)
Definition AuthRequest `{BuildConfig} (random : list Z) (proxy_port client : Z) (info : AuthInfo) (m : AuthManager)
  : outcome (AuthManager * Z * http_client) :=
  let? r := auth_start random proxy_port info in
  let? http_client := client_of (CreateHttpClient (snd r)) in
  let? r' := auth_register client (fst r) m in
  Ok (fst r', snd r', http_client).

(** The free function fills the members it is given. *)
Definition AuthRequest_free `{BuildConfig} (url : list Z) (product_type version : Z) (token : list Z) (delegate : Z)
  (random : list Z) (proxy_port client : Z) (m : AuthManager) : outcome (AuthManager * Z * http_client) :=
  AuthRequest random proxy_port client (mk_auth_info url [] [] product_type version token delegate 0 []) m.

Definition AuthCancel (id : Z) (m : AuthManager) : AuthManager :=
  mk_auth_manager (auth_id m) (filter (fun e => negb (fst e =? id)) (auth_map_ m)).

(** ** Answers *)

(** What the server signs. *)
Definition signature_source (i : AuthInfo) : list Z :=
  print_int (product_type i) ++ print_int (version i) ++ token i ++ device_id i ++ random_id i.

Definition HandleAuthResponse (i : AuthInfo) (http_code : Z) : outcome (list auth_call) :=
  if negb (http_code =? status_ok) then Ok [AuthDelegate (delegate i) http_code (bytes "failed")]
  else
    let? data := Base64Decode EVP_DecodedLength EVP_DecodeBase64 (response_data i) in
    let response := ParseFromString data in
    if negb (xr_code response =? status_ok)
    then Ok [AuthDelegate (delegate i) (xr_code response) (xr_desc response)]
    else
      let? sign := Base64Decode EVP_DecodedLength EVP_DecodeBase64 (xr_signature response) in
      let? success := RSA_Verify MD5 mem_buf public_key RSA_verify (signature_source i) sign in
      if success then Ok [AuthDelegate (delegate i) (xr_code response) (xr_desc response)]
      else Ok [AuthDelegate (delegate i) 401 (xr_desc response)].

Definition auth_response (client : Z) (content : list Z) (m : AuthManager)
  : outcome (AuthManager * list (delegate_call auth_call)) :=
  Ok (mk_auth_manager (auth_id m) (append_response client content (auth_map_ m)), []).

Definition auth_complete (client http_code : Z) (m : AuthManager)
  : outcome (AuthManager * list (delegate_call auth_call)) :=
  match take_client client (auth_map_ m) with
  | (Some i, rest) =>
      let? o := HandleAuthResponse i http_code in
      Ok (mk_auth_manager (auth_id m) rest, map Out o ++ [ClientCancel])
  | (None, _) => Ok (m, [])
  end.

(** The manager as the delegate of one of its clients. *)
Definition auth_delegate (client : Z) : HttpClientDelegate AuthManager auth_call := {|
  OnHttpHeads := fun _ m => Ok (m, []);
  OnHttpResponse := auth_response client;
  OnHttpComplete := auth_complete client
|}.
End Manager.
