(* ===== verification/AuthSpec.v ===== *)
(** * What the authentication client decides

    The answer to a request depends on the data received for that request alone,
    success is reported only with a signature of that request, and a request is
    answered once. *)

From Stdlib Require Import String ZArith List Bool Lia.
From S2P Require Import Prelude Cpp StringUtil Crypto CryptoSpec HttpDefs NetClient HttpClient HttpClientSpec Auth.
Import ListNotations.
Local Open Scope Z_scope.
Local Open Scope cpp_scope.

(** ** The map of requests *)

Definition request_of (client : Z) (m : AuthManager) : option AuthInfo := fst (take_client client (auth_map_ m)).

Definition clients (m : AuthManager) : list Z := map (fun e => http_client_ (snd e)) (auth_map_ m).

Lemma take_append_same c x m :
  fst (take_client c (append_response c x m)) =
  option_map (fun i => set_response (response_data i ++ x) i) (fst (take_client c m)).
Proof.
  induction m as [|[k i] m IH]; [reflexivity|]. cbn [append_response take_client].
  destruct (http_client_ i =? c) eqn:E.
  - cbn [take_client]. change (http_client_ (set_response _ i)) with (http_client_ i). rewrite E. reflexivity.
  - cbn [take_client]. rewrite E. revert IH. destruct (take_client c (append_response c x m)), (take_client c m). auto.
Qed.

Lemma take_append_other c c' x m : c <> c' -> fst (take_client c (append_response c' x m)) = fst (take_client c m).
Proof.
  intros Hc. induction m as [|[k i] m IH]; [reflexivity|]. cbn [append_response take_client].
  destruct (Z.eqb_spec (http_client_ i) c') as [E|E]; cbn [take_client].
  - change (http_client_ (set_response _ i)) with (http_client_ i).
    destruct (Z.eqb_spec (http_client_ i) c); [congruence|]. destruct (take_client c m). reflexivity.
  - destruct (http_client_ i =? c); [reflexivity|].
    revert IH. destruct (take_client c (append_response c' x m)), (take_client c m). auto.
Qed.

Lemma take_take_other c c' m : c <> c' -> fst (take_client c (snd (take_client c' m))) = fst (take_client c m).
Proof.
  intros Hc. induction m as [|[k i] m IH]; [reflexivity|]. cbn [take_client].
  destruct (Z.eqb_spec (http_client_ i) c') as [E|E].
  - cbn [snd]. destruct (Z.eqb_spec (http_client_ i) c); [congruence|]. destruct (take_client c m). reflexivity.
  - revert IH. destruct (take_client c' m) as [f r]. cbn [snd take_client]. intros IH.
    destruct (http_client_ i =? c); [reflexivity|].
    revert IH. destruct (take_client c r), (take_client c m). auto.
Qed.

Lemma clients_append c x m :
  map (fun e => http_client_ (snd e)) (append_response c x m) = map (fun e => http_client_ (snd e)) m.
Proof.
  induction m as [|[k i] m IH]; [reflexivity|]. cbn [append_response].
  destruct (http_client_ i =? c); cbn; [|rewrite IH]; reflexivity.
Qed.

Lemma clients_take c m :
  NoDup (map (fun e => http_client_ (snd e)) m) ->
  let rest := map (fun e => http_client_ (snd e)) (snd (take_client c m)) in
  NoDup rest /\ ~ In c rest /\ forall x, In x rest -> In x (map (fun e => http_client_ (snd e)) m).
Proof.
  induction m as [|[k i] m IH]; [cbn; auto|]. cbn [map take_client snd].
  intros Hn. inversion Hn as [|? ? Hi Hm]; subst. destruct (IH Hm) as (I1 & I2 & I3).
  destruct (Z.eqb_spec (http_client_ i) c) as [E|E]; cbn [snd].
  - subst c. split; [exact Hm|]. split; [exact Hi|]. intros x Hx. now right.
  - destruct (take_client c m) as [f r]. cbn [snd map] in *. repeat split.
    + constructor; [|exact I1]. intros H. apply Hi, I3, H.
    + intros [H|H]; auto.
    + intros x [H|H]; [left|right]; auto.
Qed.

Lemma take_none c m : ~ In c (map (fun e => http_client_ (snd e)) m) -> take_client c m = (None, m).
Proof.
  induction m as [|[k i] m IH]; [reflexivity|]. cbn [map snd take_client In]. intros H.
  destruct (Z.eqb_spec (http_client_ i) c); [tauto|]. rewrite IH by tauto. reflexivity.
Qed.

(** ** Sequences of callbacks *)

Inductive http_event := Heads (h : header_map) | Body (content : list Z) | Completed (http_code : Z).

Section Decision.
Context (EVP_DecodedLength : Z -> Z) (EVP_DecodeBase64 : list Z -> option (list Z)) (MD5 : list Z -> list Z).
Context {Key : Type} (mem_buf : bool) (public_key : option Key) (RSA_verify : Key -> list Z -> list Z -> bool).
Context (ParseFromString : list Z -> xauth_response).

Abbreviation manager c := (auth_delegate EVP_DecodedLength EVP_DecodeBase64 MD5 mem_buf public_key RSA_verify ParseFromString c).

(** The callbacks of the clients of the manager, each of one client. *)
Definition auth_event (e : Z * http_event) (m : AuthManager) : outcome (AuthManager * list (delegate_call auth_call)) :=
  match snd e with
  | Heads h => OnHttpHeads (HttpClientDelegate := manager (fst e)) h m
  | Body b => OnHttpResponse (HttpClientDelegate := manager (fst e)) b m
  | Completed code => OnHttpComplete (HttpClientDelegate := manager (fst e)) code m
  end.

Fixpoint run_auth (es : list (Z * http_event)) (m : AuthManager) : outcome (AuthManager * list (delegate_call auth_call)) :=
  match es with
  | [] => Ok (m, [])
  | e :: es' =>
      let? r := auth_event e m in
      let? r' := run_auth es' (fst r) in
      Ok (fst r', snd r ++ snd r')
  end.

(** What arrived for a client, and whether it is complete. *)
Definition received (client : Z) (es : list (Z * http_event)) : list Z :=
  flat_map (fun e => match snd e with Body b => if fst e =? client then b else [] | _ => [] end) es.

Definition completes (client : Z) (e : Z * http_event) : bool :=
  match snd e with Completed _ => fst e =? client | _ => false end.

(** ** The decision *)

(** The text behind base64, or nothing. *)
Definition plain (s : list Z) : list Z :=
  match EVP_DecodeBase64 s with
  | Some out => if zlen out <=? EVP_DecodedLength (zlen s) then out else []
  | None => []
  end.

(** Whether a signature is one of this request. *)
Definition signed (i : AuthInfo) (sign : list Z) : bool :=
  match (if mem_buf then public_key else None) with
  | Some key => RSA_verify key (MD5 (signature_source i)) sign
  | None => false
  end.

(** The call of the user's function for an answer. *)
Definition verdict (i : AuthInfo) (http_code : Z) (data : list Z) : auth_call :=
  if http_code =? 200 then
    let r := ParseFromString (plain data) in
    let code := if (xr_code r =? 200) && negb (signed i (plain (xr_signature r))) then 401 else xr_code r in
    AuthDelegate (delegate i) code (xr_desc r)
  else AuthDelegate (delegate i) http_code (bytes "failed").

Lemma Base64Decode_plain s : zlen s < 2 ^ 31 -> Base64Decode EVP_DecodedLength EVP_DecodeBase64 s = Ok (plain s).
Proof.
  intros Hs. pose proof (zlen_nonneg s). unfold Base64Decode, Base64Decode_ptr, plain. rewrite i32_small by lia.
  rewrite read_at_ok by lia. cbn [outcome_bind].
  replace (slice s 0 (zlen s)) with s by (unfold slice, zlen; cbn [Z.to_nat skipn]; rewrite Nat2Z.id, firstn_all; reflexivity).
  destruct (EVP_DecodeBase64 s) as [out|]; [|reflexivity].
  destruct (Z.leb_spec (zlen out) (EVP_DecodedLength (zlen s))); [|reflexivity].
  destruct (write_at_next [] out (zeros (EVP_DecodedLength (zlen s)))) as (rest & E & _).
  - pose proof (zlen_nonneg out). unfold zeros, zlen at 2. rewrite repeat_length. lia.
  - cbn [app] in E. change (zlen []) with 0 in E. rewrite E. cbn [outcome_bind]. now rewrite resize_prefix.
Qed.

(** What OpenSSL and protobuf guarantee: a digest has 16 bytes, and a message
    has less than two gigabytes. *)
Context (Hmd5 : forall s, zlen (MD5 s) = 16) (Hpb : forall s, zlen (xr_signature (ParseFromString s)) < 2 ^ 31).

Lemma RSA_Verify_signed i sign :
  RSA_Verify MD5 mem_buf public_key RSA_verify (signature_source i) sign = Ok (signed i sign).
Proof.
  unfold RSA_Verify, read_key, signed. destruct (if mem_buf then public_key else None) as [key|]; [|reflexivity].
  unfold Md5. destruct (write_at_next [] (MD5 (signature_source i)) (zeros 16)) as (rest & E & Hr).
  - rewrite Hmd5. reflexivity.
  - cbn [app] in E. change (zlen []) with 0 in E. rewrite E. cbn [outcome_bind]. rewrite Hmd5 in Hr.
    change (zlen (zeros 16) - 16) with 0 in Hr. destruct rest; [rewrite app_nil_r; reflexivity|].
    rewrite zlen_cons in Hr. pose proof (zlen_nonneg rest). lia.
Qed.

Lemma HandleAuthResponse_verdict i http_code :
  zlen (response_data i) < 2 ^ 31 ->
  HandleAuthResponse EVP_DecodedLength EVP_DecodeBase64 MD5 mem_buf public_key RSA_verify ParseFromString i http_code =
  Ok [verdict i http_code (response_data i)].
Proof.
  intros Hd. unfold HandleAuthResponse, verdict, status_ok. destruct (http_code =? 200); [|reflexivity]. cbn [negb].
  rewrite Base64Decode_plain by exact Hd. cbn [outcome_bind]. set (r := ParseFromString _).
  destruct (xr_code r =? 200) eqn:Er; cbn [negb andb]; [|reflexivity].
  rewrite Base64Decode_plain by apply Hpb. cbn [outcome_bind]. rewrite RSA_Verify_signed. cbn [outcome_bind].
  destruct (signed _ _); reflexivity.
Qed.

(** ** A request among others *)

Lemma complete_other c code m m' o c' :
  auth_complete EVP_DecodedLength EVP_DecodeBase64 MD5 mem_buf public_key RSA_verify ParseFromString c code m = Ok (m', o) ->
  auth_map_ m' = snd (take_client c (auth_map_ m)) /\ (c' <> c -> request_of c' m' = request_of c' m).
Proof.
  unfold auth_complete, request_of. destruct (take_client c (auth_map_ m)) as [[i|] rest] eqn:E; cbn [snd].
  - destruct (HandleAuthResponse _ _ _ _ _ _ _ _ _); cbn; try discriminate. intros H. injection H as <- _. cbn [auth_map_].
    split; [reflexivity|]. intros Hc. pose proof (take_take_other c' c (auth_map_ m) Hc) as T. rewrite E in T. exact T.
  - intros H. injection H as <- _. split; [|reflexivity].
    clear o c'. revert rest E. induction (auth_map_ m) as [|[k i] l IH]; cbn; intros rest E; [congruence|].
    destruct (http_client_ i =? c); [discriminate|]. destruct (take_client c l) as [f r]. injection E as -> <-.
    f_equal. now apply IH.
Qed.

Lemma run_auth_keeps client i es : forall m m' o,
  run_auth es m = Ok (m', o) -> forallb (fun e => negb (completes client e)) es = true ->
  request_of client m = Some i -> NoDup (clients m) ->
  request_of client m' = Some (set_response (response_data i ++ received client es) i) /\ NoDup (clients m').
Proof.
  revert i. induction es as [|[c e] es IH]; intros i m m' o; cbn [run_auth forallb].
  - intros H _ Hi Hn. injection H as <- <-. cbn [received flat_map]. rewrite app_nil_r. destruct i. auto.
  - destruct (auth_event (c, e) m) as [[m1 o1]| |] eqn:E; cbn; try discriminate.
    destruct (run_auth es m1) as [[m2 o2]| |] eqn:Er; cbn; try discriminate. intros H. injection H as <- <-.
    intros [Hc Hes]%andb_true_iff Hi Hn. destruct e as [h|b|code]; cbn in E.
    + injection E as <- _. eapply IH; eassumption.
    + injection E as <- _. destruct (Z.eqb_spec c client) as [->|Hd].
      * specialize (IH (set_response (response_data i ++ b) i) _ _ _ Er Hes). cbn [response_data set_response] in IH.
        unfold received in *. cbn [flat_map snd fst]. rewrite app_assoc. apply IH.
        -- unfold request_of in *. cbn [auth_map_]. rewrite take_append_same, Hi. reflexivity.
        -- unfold clients in *. cbn [auth_map_]. now rewrite clients_append.
      * eapply IH; eauto.
        -- unfold request_of in *. cbn [auth_map_]. rewrite take_append_other by congruence. exact Hi.
        -- unfold clients in *. cbn [auth_map_]. now rewrite clients_append.
    + cbn in Hc. destruct (Z.eqb_spec c client) as [|Hd]; [discriminate|].
      destruct (complete_other _ _ _ _ _ client E) as [Hm Hr]. eapply IH; eauto.
      * rewrite Hr by congruence. exact Hi.
      * unfold clients in *. rewrite Hm. apply clients_take, Hn.
Qed.
End Decision.

(** C17: The decision about a request.  While the callbacks of any clients come
    in any order, the completion of one client calls the function of its request
    once, with an answer that depends only on the bytes received for that client;
    200 is reported only when the HTTP status and the code of the answer are 200
    and its signature is one of this request.  The request is then forgotten, and
    another completion of the client does nothing.  But the manager cancels the
    client from the callback: at the end of a response that a client with a
    delegate hands to it, [delegate_mutex_] is locked twice. *)
Theorem auth_decision (EVP_DecodedLength : Z -> Z) (EVP_DecodeBase64 : list Z -> option (list Z)) (MD5 : list Z -> list Z)
  {Key : Type} (mem_buf : bool) (public_key : option Key) (RSA_verify : Key -> list Z -> list Z -> bool)
  (ParseFromString : list Z -> xauth_response) client i m es m' o http_code :
  (forall s, zlen (MD5 s) = 16) -> (forall s, zlen (xr_signature (ParseFromString s)) < 2 ^ 31) ->
  NoDup (clients m) -> request_of client m = Some i -> response_data i = [] ->
  run_auth EVP_DecodedLength EVP_DecodeBase64 MD5 mem_buf public_key RSA_verify ParseFromString es m = Ok (m', o) ->
  forallb (fun e => negb (completes client e)) es = true -> zlen (received client es) < 2 ^ 31 ->
  let complete := auth_complete EVP_DecodedLength EVP_DecodeBase64 MD5 mem_buf public_key RSA_verify ParseFromString client in
  let answer := verdict EVP_DecodedLength EVP_DecodeBase64 MD5 mem_buf public_key RSA_verify ParseFromString i http_code
                  (received client es) in
  exists m2, complete http_code m' = Ok (m2, [Out answer; ClientCancel]) /\
    request_of client m2 = None /\ (forall code, complete code m2 = Ok (m2, [])) /\
    (forall desc, answer = AuthDelegate (delegate i) 200 desc ->
       http_code = 200 /\
       let r := ParseFromString (plain EVP_DecodedLength EVP_DecodeBase64 (received client es)) in
       xr_code r = 200 /\ mem_buf = true /\
       exists key, public_key = Some key /\
         RSA_verify key (MD5 (signature_source i)) (plain EVP_DecodedLength EVP_DecodeBase64 (xr_signature r)) = true) /\
    (forall c, http_delegate_ c = true -> http_code_ c = http_code ->
       on_finish_impl (D := AuthManager) (H := auth_delegate EVP_DecodedLength EVP_DecodeBase64 MD5 mem_buf public_key RSA_verify
         ParseFromString client) (c, m') = Undefined).
Proof.
  intros Hmd Hpb Hn Hi Hd Hrun Hes Hl complete answer.
  destruct (run_auth_keeps _ _ _ _ _ _ _ client i es m m' o Hrun Hes Hi Hn) as [Hi' Hn']. rewrite Hd in Hi'. cbn [app] in Hi'.
  pose proof (clients_take client (auth_map_ m') Hn') as (_ & Hout & _).
  assert (Hc : complete http_code m' =
    Ok (mk_auth_manager (auth_id m') (snd (take_client client (auth_map_ m'))), [Out answer; ClientCancel])).
  { unfold complete, auth_complete. unfold request_of in Hi'.
    destruct (take_client client (auth_map_ m')) as [f rest]. cbn [fst] in Hi'. subst f.
    rewrite HandleAuthResponse_verdict by assumption. reflexivity. }
  eexists. split; [exact Hc|]. cbn [auth_map_]. apply take_none in Hout.
  split; [unfold request_of; cbn [auth_map_]; now rewrite Hout|]. split; [|split].
  - intros code. unfold complete, auth_complete. cbn [auth_map_]. now rewrite Hout.
  - intros desc. unfold answer, verdict, signed. destruct (Z.eqb_spec http_code 200) as [->|]; [|congruence].
    cbv zeta. destruct (Z.eqb_spec (xr_code (ParseFromString (plain EVP_DecodedLength EVP_DecodeBase64 (received client es)))) 200)
      as [Ec|]; cbn [andb]; [|congruence].
    destruct mem_buf; [destruct public_key as [key|]|]; cbn [negb]; try discriminate.
    destruct (RSA_verify _ _ _) eqn:Ev; cbn [negb]; [|discriminate]. eauto 8.
  - intros c Hcd Hcc. unfold on_finish_impl, NotifyComplete. rewrite Hcc.
    erewrite notify_cancel; [reflexivity | exact Hcd | exact Hc | cbn; auto].
Qed.

(** A server that answers with the code 200 and a signature, in the clear. *)
Definition sample_answer (s : list Z) : xauth_response := mk_xauth_response 200 [7] (firstn 2 s).

Definition sample_auth : AuthManager :=
  mk_auth_manager 2
    [(1, mk_auth_info (bytes "http://a/") (bytes "r1") nodeviceid 1 23 (bytes "t") 10 100 []);
     (2, mk_auth_info (bytes "http://b/") (bytes "r2") nodeviceid 1 23 (bytes "t") 20 200 [])].

Lemma auth_decision_witness :
  exists m2,
    auth_complete (fun n => n) Some (fun _ => repeat 1 16) true (Some tt) (fun _ h s => bytes_eqb s [7]) sample_answer 200 200
      (mk_auth_manager 2 [(2, mk_auth_info (bytes "http://b/") (bytes "r2") nodeviceid 1 23 (bytes "t") 20 200 (bytes "okay"))]) =
    Ok (m2, [Out (AuthDelegate 20 200 (bytes "ok")); ClientCancel]).
Proof.
  edestruct (auth_decision (fun n => n) Some (fun _ => repeat 1 16) true (Some tt) (fun _ h s => bytes_eqb s [7]) sample_answer 200
           (mk_auth_info (bytes "http://b/") (bytes "r2") nodeviceid 1 23 (bytes "t") 20 200 []) sample_auth
           [(200, Body (bytes "ok")); (100, Completed 404); (200, Body (bytes "ay"))]
           (mk_auth_manager 2 [(2, mk_auth_info (bytes "http://b/") (bytes "r2") nodeviceid 1 23 (bytes "t") 20 200 (bytes "okay"))])
           [Out (AuthDelegate 10 404 (bytes "failed")); ClientCancel] 200) as (m2 & E & _); try reflexivity.
  - repeat constructor; cbn; lia.
  - exists m2. exact E.
Defined.
