(* ===== verification/Log.v ===== *)
(** * Logging

    src/base/log.{h,cc}: levels and their names, the line a record becomes, and
    the sinks [InitLog] adds to the core of Boost.Log.  The core is a list of
    sinks; it ignores a sink it already has, and hands a record to every sink
    whose filter accepts it, as its documentation says. *)

From Stdlib Require Import String ZArith List Bool Lia.
From S2P Require Import Prelude Cpp.
Import ListNotations.
Local Open Scope Z_scope.

(** ** Levels *)

Inductive LogLevel :=
| kLogLevelTrace | kLogLevelDebug | kLogLevelInfo | kLogLevelWarning | kLogLevelError | kLogLevelFatal.

Definition log_level_num (l : LogLevel) : Z :=
  match l with
  | kLogLevelTrace => 0
  | kLogLevelDebug => 1
  | kLogLevelInfo => 2
  | kLogLevelWarning => 3
  | kLogLevelError => 4
  | kLogLevelFatal => 5
  end.

(** [operator<<] of a level, which may be any number that was converted to one. *)
Definition level_names : list (list Z) :=
  Eval cbv in map bytes ["trace"%string; "debug"%string; "info"%string; "warning"%string; "error"%string; "fatal"%string].

Definition print_level (lvl : Z) : list Z :=
  match (if (0 <=? lvl) && (lvl <? zlen level_names) then nth_error level_names (Z.to_nat lvl) else None) with
  | Some name => name
  | None => print_int lvl
  end.

(** ** Records *)

(** The attributes of a record; the ids are missing before
    [add_common_attributes]. *)
Record log_record := mk_record {
  log_severity : LogLevel;
  log_timestamp : list Z;            (* as printed by format_date_time *)
  process_id : option Z;
  thread_id : option Z;
  log_scope : list Z;                (* as printed by format_named_scope *)
  log_message : list Z
}.

Definition GetNativeProcessID (pid : option Z) : Z := match pid with Some n => n | None => 0 end.
Definition GetNativeThreadID (tid : option Z) : Z := match tid with Some n => n | None => 0 end.

(** The formatter of the console and of the file; [show] prints a native id. *)
Definition format_record (show : Z -> list Z) (r : log_record) : list Z :=
  bytes "[" ++ log_timestamp r ++ bytes "]" ++
  bytes "[" ++ show (GetNativeProcessID (process_id r)) ++ bytes ":" ++ show (GetNativeThreadID (thread_id r)) ++ bytes "]" ++
  log_scope r ++ 10 :: bytes "<" ++ print_level (log_level_num (log_severity r)) ++ bytes ">" ++ log_message r.

(** ** Sinks *)

Inductive sink_kind :=
| ConsoleSink
| CustomSink
| FileSink (file_name : list Z) (rotation_size : Z) (target : list Z) (max_size min_free_space : Z).

(** The number tells objects apart. *)
Record log_sink := mk_sink {
  sink_number : Z;
  sink_kind_ : sink_kind;
  sink_filter : option LogLevel      (* records from this level on; None: all *)
}.

Record log_core := mk_core { sinks : list log_sink; next_sink : Z }.

Definition empty_core : log_core := mk_core [] 1.

(** [add_sink]: a sink with new settings takes the place of itself. *)
Definition add_sink (s : log_sink) (c : log_core) : log_core :=
  mk_core (filter (fun x => negb (sink_number x =? sink_number s)) (sinks c) ++ [s]) (next_sink c).

Definition new_sink (k : sink_kind) (c : log_core) : log_sink * log_core :=
  (mk_sink (next_sink c) k None, mk_core (sinks c) (next_sink c + 1)).

Definition set_filter (l : LogLevel) (s : log_sink) : log_sink := mk_sink (sink_number s) (sink_kind_ s) (Some l).

(** [add_console_log] and [add_file_log] add the sink already, without a filter. *)
Definition InitConsole (log_level : LogLevel) (c : log_core) : log_core :=
  let (console_sink, c) := new_sink ConsoleSink c in
  let c := add_sink console_sink c in
  let c := add_sink (set_filter log_level console_sink) c in
  let (custom, c) := new_sink CustomSink c in
  add_sink custom c.

Section Files.
(** [operator/] of [boost::filesystem::path]. *)
Variable path_append : list Z -> list Z -> list Z.

Definition InitLogFile (log_level : LogLevel) (log_dir : list Z) (c : log_core) : log_core :=
  let (file_sink, c) :=
    new_sink (FileSink (path_append log_dir (bytes "%Y-%m-%d %H.log")) (10 * 1024 * 1024) log_dir (100 * 1024 * 1024) (100 * 1024 * 1024)) c in
  let c := add_sink file_sink c in
  add_sink (set_filter log_level file_sink) c.

Definition InitLog (log_level : LogLevel) (log_dir : list Z) (c : log_core) : log_core :=
  InitLogFile log_level log_dir (InitConsole log_level c).

End Files.

Definition UnInitLog (c : log_core) : log_core := mk_core [] (next_sink c).

(** What the core hands to a sink. *)
Definition accepts (s : log_sink) (r : log_record) : bool :=
  match sink_filter s with
  | Some l => log_level_num l <=? log_level_num (log_severity r)
  | None => true
  end.

Definition deliver (r : log_record) (c : log_core) : list sink_kind := map sink_kind_ (filter (fun s => accepts s r) (sinks c)).

(** ** Theorems *)

(** A level is printed with its name; any other number as a number. *)
Lemma print_level_names l : exists name, nth_error level_names (Z.to_nat (log_level_num l)) = Some name /\
  print_level (log_level_num l) = name.
Proof. destruct l; eexists; split; reflexivity. Qed.

(** From the level given to [InitLog] on, a record is written once to the console
    and once to the file; the sink of the program itself, which does nothing
    with it, gets every record.  After [UnInitLog] there is no sink. *)
Theorem log_delivery path_append log_level log_dir r :
  deliver r (UnInitLog (InitLog path_append log_level log_dir empty_core)) = [] /\
  exists file, deliver r (InitLog path_append log_level log_dir empty_core) =
    if log_level_num log_level <=? log_level_num (log_severity r)
    then [ConsoleSink; CustomSink; FileSink file 10485760 log_dir 104857600 104857600] else [CustomSink].
Proof.
  split; [reflexivity|]. exists (path_append log_dir (bytes "%Y-%m-%d %H.log")).
  unfold deliver, accepts. cbn -[Z.leb log_level_num]. destruct (log_level_num log_level <=? log_level_num (log_severity r)); reflexivity.
Qed.
