(* ===== verification/App.v ===== *)
(** * The application

    src/app/logic: the constants of the application, its main model and view
    model, and its initialization; and from src/app/ui/MFCMVVMDlg.cpp the part of
    the dialog that is a view.  They use the framework of Mvvm.v, the loops of
    MessageLoop.v and the log of Log.v. *)

From Stdlib Require Import String ZArith List Bool Lia.
From S2P Require Import Prelude Cpp Mvvm MvvmSpec Log MessageLoop.
Import ListNotations.
Local Open Scope Z_scope.

(** ** Constants: [__LINE__] and the numbers after it *)

Definition kModelMain : Z := 9.
Definition kViewModelMain : Z := 17.
Definition kEventLogin : Z := 26.
Definition kEventLogout : Z := 27.
Definition kPropertyUserName : Z := 31.
Definition kPropertyPasswd : Z := 32.

(** ** Model and view model *)

(** A bound member function: [OnLoginComplete] of the view model of a dialog. *)
Inductive app_delegate := OnLoginComplete (dialog : Z).

Abbreviation param := (property_value unit).

(** A call of a delegate: it, the event and the message. *)
Definition app_call : Type := app_delegate * Z * param.

Definition fire (event : Z) (value : param) (m : Model app_delegate) : list app_call :=
  map (fun d => (d, event, value)) (FireEvent event m).

Definition model_HandleLogin (m : Model app_delegate) : list app_call :=
  fire kEventLogin (ParamString (bytes "login sucess")) m.

Definition model_HandleLogout (m : Model app_delegate) : list app_call := fire kEventLogout (ParamInt32 1) m.

(** [MainModel::HandleEvent], which [Call] of the model runs. *)
Definition model_HandleEvent (event : Z) (m : Model app_delegate) : list app_call :=
  if event =? kEventLogin then model_HandleLogin m
  else if event =? kEventLogout then model_HandleLogout m
  else [].

(** [HandleLogin] and [HandleLogout] of the view model, which differ in the
    event. *)
Definition vm_call (event : Z) (f : framework app_delegate) : framework app_delegate * list app_call :=
  let (f, model) := ModelOf kModelMain f in
  match model with
  | Some m => (f, model_HandleEvent event m)
  | None => (f, [])
  end.

(** [MainViewModel::OnEventFired], which [HandleEvent] of a view model runs. *)
Definition vm_OnEventFired (event : Z) (f : framework app_delegate) : framework app_delegate * list app_call :=
  if event =? kEventLogin then vm_call kEventLogin f
  else if event =? kEventLogout then vm_call kEventLogout f
  else (f, []).

(** [MainViewModel::OnAttach]; the view model of a dialog is known by the dialog. *)
Definition OnAttach (dialog : Z) (f : framework app_delegate) (v : ViewModel Z Z) : framework app_delegate * ViewModel Z Z :=
  SUBSCRIE_EVENT kModelMain kEventLogin (OnLoginComplete dialog) f v.

(** ** Initialization *)

Record Application := mk_app {
  core : log_core;
  loops : loop_state;
  vm_builder : list (Z * unit);
  system : mvvm (D := app_delegate) (P := Z) (E := Z)
}.

Definition new_app : Application := mk_app empty_core no_loops [] (mk_mvvm (mk_framework 0 [] []) []).

Section Startup.
Variable os : platform.
(** Paths of Boost.Filesystem. *)
Variables (path_append : list Z -> list Z -> list Z) (system_complete : list Z -> list Z).

Definition Init (data_dir : list Z) (a : Application) : Application :=
  let log_dir := path_append data_dir (bytes "log") in
  mk_app (InitLog path_append kLogLevelDebug (system_complete log_dir) (core a))
    (InitMessageLoop os (loops a))
    (RegisterViewModel kViewModelMain tt (vm_builder a))
    (mk_mvvm (RegisterModel kModelMain (frame (system a))) (views (system a))).

Definition UnInit (a : Application) : Application :=
  mk_app (UnInitLog (core a)) (UnintMessageLoop (loops a)) (vm_builder a) (system a).
End Startup.

(** ** The dialog *)

(** [MainViewModel::CreateViewModel]. *)
Definition CreateViewModel (builder : unit) : option (ViewModel Z Z) := Some (new_viewmodel kViewModelMain).

(** [OnInitDialog]: [CreateVM(kViewModelMain)], then [BindVM]; delegates of the
    view model and its context are the dialog. *)
Definition OnInitDialog (dialog : Z) (a : Application) : outcome Application :=
  outcome_bind (CreateVM CreateViewModel dialog dialog kViewModelMain (vm_builder a)) (fun vm =>
  outcome_bind (BindVM (OnAttach dialog) dialog (frame (system a)) (Some vm)) (fun r =>
  Ok (mk_app (core a) (loops a) (vm_builder a) (mk_mvvm (fst r) (map_set dialog (snd r) (views (system a))))))).

(** The dialog goes, and its view model with it. *)
Definition destroy_dialog (dialog : Z) (a : Application) : Application :=
  mk_app (core a) (loops a) (vm_builder a) (on_view dialog UnSubscrieAllEvent (system a)).

Definition set_system (f : framework app_delegate) (a : Application) : Application :=
  mk_app (core a) (loops a) (vm_builder a) (mk_mvvm f (views (system a))).

Definition OnBnClickedButtonLogin (a : Application) : Application * list app_call :=
  let (f, o) := vm_OnEventFired kEventLogin (frame (system a)) in (set_system f a, o).

Definition OnBnClickedButtonLogout (a : Application) : Application * list app_call :=
  let (f, o) := vm_OnEventFired kEventLogout (frame (system a)) in (set_system f a, o).

(** [OnPropertyChanged]: the texts of the dialog; [utf16] stands for
    [Utf8ToUnicode].  A message is read as the class it is taken for. *)
Record CMFCMVVMDlg := mk_dialog { username_ : list Z; value_ : list Z }.

Definition OnUserNameChange (utf16 : list Z -> list Z) (new_value : param) (d : CMFCMVVMDlg) : outcome CMFCMVVMDlg :=
  match new_value with
  | ParamString s => Ok (mk_dialog (utf16 s) (value_ d))
  | _ => Undefined
  end.

Definition login_succeeded : list Z := [30331; 24405; 25104; 21151].
Definition login_failed : list Z := [30331; 24405; 22833; 36133].

Definition OnPasswdChange (new_value : param) (d : CMFCMVVMDlg) : outcome CMFCMVVMDlg :=
  match new_value with
  | ParamInt32 n => Ok (mk_dialog (username_ d) (if n =? 0 then login_succeeded else login_failed))
  | _ => Undefined
  end.

Definition OnPropertyChanged (utf16 : list Z -> list Z) (property_id : Z) (new_value : param) (d : CMFCMVVMDlg)
  : outcome CMFCMVVMDlg :=
  if property_id =? kPropertyUserName then OnUserNameChange utf16 new_value d
  else if property_id =? kPropertyPasswd then OnPasswdChange new_value d
  else Ok d.

(** ** Runs *)

Inductive app_op := OpenDialog (dialog : Z) | CloseDialog (dialog : Z) | ClickLogin | ClickLogout.

Definition app_step (a : Application) (o : app_op) : outcome Application :=
  match o with
  | OpenDialog d => OnInitDialog d a
  | CloseDialog d => Ok (destroy_dialog d a)
  | ClickLogin => Ok (fst (OnBnClickedButtonLogin a))
  | ClickLogout => Ok (fst (OnBnClickedButtonLogout a))
  end.

Fixpoint app_run (ops : list app_op) (a : Application) : outcome Application :=
  match ops with
  | [] => Ok a
  | o :: ops' => outcome_bind (app_step a o) (app_run ops')
  end.

(** The dialogs that are open, in the order in which they were opened; a dialog
    that is open is not opened again. *)
Definition still_open (l : list Z) (o : app_op) : list Z :=
  match o with
  | OpenDialog d => l ++ [d]
  | CloseDialog d => filter (fun x => negb (x =? d)) l
  | _ => l
  end.

Fixpoint sensible (l : list Z) (ops : list app_op) : bool :=
  match ops with
  | [] => true
  | o :: ops' =>
      match o with OpenDialog d => negb (existsb (Z.eqb d) l) | _ => true end && sensible (still_open l o) ops'
  end.

Definition login_subscription (d : Z) : subscription := mk_subscription d kModelMain kEventLogin (OnLoginComplete d).

(** The subscriptions are those of the open dialogs. *)
Definition app_inv (l : list Z) (a : Application) : Prop :=
  map_find kViewModelMain (vm_builder a) = Some tt /\
  exists G, sim (system a) (mk_bus [kModelMain] (map login_subscription l)) G.

Lemma app_inv_open l d a :
  app_inv l a -> existsb (Z.eqb d) l = false -> exists a', OnInitDialog d a = Ok a' /\ app_inv (l ++ [d]) a'.
Proof.
  intros [Hb [G Hs]] Hd. unfold OnInitDialog, CreateVM, Create. rewrite Hb.
  cbn [CreateViewModel outcome_bind BindVM]. eexists. split; [reflexivity|]. split; [exact Hb|]. cbn [system].
  set (vm := mk_vm kViewModelMain (Some d) [] (Some d) (Some d)).
  assert (sim (mk_mvvm (frame (system a)) (map_set d vm (views (system a)))) (mk_bus [kModelMain] (map login_subscription l)) G) as Hs'.
  { eapply sim_view_ext; [exact Hs | reflexivity|]. intros u. rewrite view_set. destruct (Z.eqb_spec u d) as [->|Hu]; [|reflexivity].
    symmetry. apply (sim_no_ids _ _ _ _ Hs). cbn. intros x (e & <- & He)%in_map_iff Hx. cbn in Hx. subst e.
    apply not_true_iff_false in Hd. apply Hd, existsb_exists. exists d. split; [exact He | apply Z.eqb_refl]. }
  destruct (sim_subscribe _ _ G d kModelMain kEventLogin (OnLoginComplete d) Hs') as [G' H'].
  exists G'. rewrite map_app. cbn [map]. cbn in H'. unfold on_view, view in H'. cbn [frame views] in H'.
  rewrite map_find_set, Z.eqb_refl in H'. unfold OnAttach, NotifyBind.
  match goal with |- context [SUBSCRIE_EVENT _ _ _ _ ?x] => change x with vm end.
  destruct (SUBSCRIE_EVENT kModelMain kEventLogin (OnLoginComplete d) (frame (system a)) vm) as [f v]. cbn [fst snd].
  rewrite map_set_set in H'. exact H'.
Qed.

Lemma app_inv_close l d a : app_inv l a -> app_inv (filter (fun x => negb (x =? d)) l) (destroy_dialog d a).
Proof.
  intros [Hb [G Hs]]. split; [exact Hb|].
  destruct (sim_step _ _ G (OpDestroy d) Hs) as [G' H']. exists G'. cbn in H'. cbn [destroy_dialog system].
  replace (map login_subscription (filter (fun x => negb (x =? d)) l))
    with (filter (fun s => negb (s_view s =? d)) (map login_subscription l)); [exact H'|].
  clear. induction l as [|x l IH]; cbn; [reflexivity|]. destruct (x =? d); cbn; congruence.
Qed.

(** A click looks the model up; nothing else changes. *)
Lemma app_inv_click l event a :
  app_inv l a -> event = kEventLogin \/ event = kEventLogout ->
  let r := vm_OnEventFired event (frame (system a)) in
  app_inv l (set_system (fst r) a) /\
  snd r = map (fun d => (d, event, if event =? kEventLogin then ParamString (bytes "login sucess") else ParamInt32 1))
            (bus_fired kModelMain event (mk_bus [kModelMain] (map login_subscription l))).
Proof.
  intros [Hb [G Hs]] He. unfold vm_OnEventFired, vm_call.
  replace (if event =? kEventLogin then _ else _) with
    (let (f, model) := ModelOf kModelMain (frame (system a)) in
     match model with Some m => (f, model_HandleEvent event m) | None => (f, []) end)
    by (destruct He; subst; reflexivity).
  destruct (ModelOf_spec _ G kModelMain (sim_models _ _ _ Hs)) as (f' & m & Ef & H' & Hm & Ec & Eb).
  { rewrite (sim_registered _ _ _ Hs). reflexivity. }
  pose proof (sim_lookup _ _ _ _ _ _ Hs Ef) as Hs'. rewrite Ef. cbn [fst snd].
  split; [split; [exact Hb|]; exists G; exact Hs'|].
  rewrite <- (sim_fired _ _ _ kModelMain event Hs'). unfold fired. cbn [frame]. rewrite Hm.
  destruct He; subst; reflexivity.
Qed.

Lemma app_inv_run ops : forall l a, app_inv l a -> sensible l ops = true ->
  exists a', app_run ops a = Ok a' /\ app_inv (fold_left still_open ops l) a'.
Proof.
  induction ops as [|o ops IH]; intros l a Hi; cbn [sensible app_run fold_left]; [eauto|]. intros [Ho Hr]%andb_true_iff.
  assert (exists a1, app_step a o = Ok a1 /\ app_inv (still_open l o) a1) as (a1 & -> & H1).
  { destruct o as [d|d| |]; cbn [app_step still_open].
    - apply app_inv_open; [exact Hi|]. now apply negb_true_iff.
    - eexists. split; [reflexivity|]. now apply app_inv_close.
    - eexists. split; [reflexivity|]. destruct (app_inv_click l kEventLogin a Hi) as [H _]; [auto|].
      unfold OnBnClickedButtonLogin. destruct (vm_OnEventFired _ _). exact H.
    - eexists. split; [reflexivity|]. destruct (app_inv_click l kEventLogout a Hi) as [H _]; [auto|].
      unfold OnBnClickedButtonLogout. destruct (vm_OnEventFired _ _). exact H. }
  exact (IH _ a1 H1 Hr).
Qed.

Lemma app_inv_init os path_append system_complete data_dir :
  app_inv [] (Init os path_append system_complete data_dir new_app).
Proof. split; [reflexivity|]. exact (sim_run [OpRegister kModelMain]). Qed.

Lemma login_delegates l :
  bus_fired kModelMain kEventLogin (mk_bus [kModelMain] (map login_subscription l)) = map OnLoginComplete l /\
  bus_fired kModelMain kEventLogout (mk_bus [kModelMain] (map login_subscription l)) = [].
Proof. unfold bus_fired. cbn [active]. induction l as [|d l [I1 I2]]; cbn; [auto|]. split; [f_equal|]; assumption. Qed.

(** ** The program on Windows *)

(** The buttons. *)
Definition click (a : Application) (login : bool) : Application :=
  fst (if login then OnBnClickedButtonLogin a else OnBnClickedButtonLogout a).

(** [CMFCMVVMApp::InitInstance]: [DoModal] opens the dialog and returns when it is
    closed, after some clicks; the dialog is destroyed when the function is left,
    that is, after [UnInit]. *)
Definition InitInstance os path_append system_complete (fullpath : list Z) (dlg : Z) (clicks : list bool) (a : Application)
  : outcome Application :=
  outcome_bind (OnInitDialog dlg (Init os path_append system_complete fullpath a)) (fun a =>
  Ok (destroy_dialog dlg (UnInit (fold_left click clicks a)))).

Lemma app_inv_clicks l clicks a : app_inv l a -> app_inv l (fold_left click clicks a).
Proof.
  revert a. induction clicks as [|b clicks IH]; intros a Hi; [exact Hi|]. cbn [fold_left]. apply IH. unfold click.
  destruct b.
  - destruct (app_inv_click l kEventLogin a Hi) as [H _]; [auto|]. unfold OnBnClickedButtonLogin.
    destruct (vm_OnEventFired _ _). exact H.
  - destruct (app_inv_click l kEventLogout a Hi) as [H _]; [auto|]. unfold OnBnClickedButtonLogout.
    destruct (vm_OnEventFired _ _). exact H.
Qed.

(** A run of the program: it returns whatever is clicked, and leaves neither
    loops nor subscriptions behind. *)
Theorem program_leaves_nothing os path_append system_complete fullpath dlg clicks :
  exists a, InitInstance os path_append system_complete fullpath dlg clicks new_app = Ok a /\
    g_loop_manager (loops a) = None /\ forall event, fired kModelMain event (system a) = [].
Proof.
  unfold InitInstance.
  destruct (app_inv_open [] dlg _ (app_inv_init os path_append system_complete fullpath) eq_refl) as (a & -> & Hi).
  cbn [outcome_bind]. eexists. split; [reflexivity|]. split; [reflexivity|]. intros event.
  apply (app_inv_clicks [dlg] clicks) in Hi. set (a1 := fold_left click clicks a) in *.
  assert (app_inv [dlg] (UnInit a1)) as Hu by exact Hi.
  apply (app_inv_close [dlg] dlg) in Hu. cbn in Hu. rewrite Z.eqb_refl in Hu. destruct Hu as [_ [G Hs]].
  exact (sim_fired _ _ _ kModelMain event Hs).
Qed.

(** C25: A click on the login button.  After the initialization and any opening
    and closing of dialogs and clicks, the click goes through the view model and
    the model back to [OnLoginComplete] of the view model of every open dialog,
    once each, in the order in which the dialogs were opened, with the text of
    the model; a click on logout reaches nobody, since nobody subscribes to it. *)
Theorem login_reaches_dialogs os path_append system_complete data_dir ops :
  sensible [] ops = true ->
  exists a, app_run ops (Init os path_append system_complete data_dir new_app) = Ok a /\
    snd (OnBnClickedButtonLogin a) =
      map (fun d => (OnLoginComplete d, kEventLogin, ParamString (bytes "login sucess"))) (fold_left still_open ops []) /\
    snd (OnBnClickedButtonLogout a) = [].
Proof.
  intros Hs. destruct (app_inv_run ops [] _ (app_inv_init os path_append system_complete data_dir) Hs) as (a & E & Hi).
  exists a. split; [exact E|]. destruct (login_delegates (fold_left still_open ops [])) as [L1 L2].
  split.
  - destruct (app_inv_click _ kEventLogin a Hi) as [_ H]; [auto|]. rewrite L1, map_map in H.
    unfold OnBnClickedButtonLogin. destruct (vm_OnEventFired _ _). exact H.
  - destruct (app_inv_click _ kEventLogout a Hi) as [_ H]; [auto|]. rewrite L2 in H.
    unfold OnBnClickedButtonLogout. destruct (vm_OnEventFired _ _). exact H.
Qed.

Lemma login_reaches_dialogs_witness :
  exists a, app_run [OpenDialog 1; OpenDialog 2; ClickLogin; CloseDialog 1; OpenDialog 3]
              (Init OS_WIN (fun a b => a ++ [47] ++ b) (fun p => p) (bytes "data") new_app) = Ok a /\
    snd (OnBnClickedButtonLogin a) =
      [(OnLoginComplete 2, kEventLogin, ParamString (bytes "login sucess")); (OnLoginComplete 3, kEventLogin, ParamString (bytes "login sucess"))] /\
    snd (OnBnClickedButtonLogout a) = [].
Proof.
  apply (login_reaches_dialogs OS_WIN (fun a b => a ++ [47] ++ b) (fun p => p) (bytes "data")
           [OpenDialog 1; OpenDialog 2; ClickLogin; CloseDialog 1; OpenDialog 3]). reflexivity.
Defined.
