(* ===== verification/Cpp2Java.v ===== *)
(** * The generator of Java constants

    src/tool/cpp2java/main.cc reads a C++ header with enumerations inside
    namespaces and writes a Java class with one constant for each enumerator, so
    that both sides of the program name events, properties and types by the same
    numbers.  The value written is the number of the line. *)

From Stdlib Require Import String ZArith List Bool Lia.
From S2P Require Import Prelude Cpp NetClient StringUtil App.
Import ListNotations.
Local Open Scope Z_scope.
Local Open Scope cpp_scope.

(** ** Data *)

Definition NAMESPACE_KEYWORD : list Z := Eval cbv in bytes "namespace".
Definition ENUM_KEYWORD : list Z := Eval cbv in bytes "enum".

(** What is written for a line: the head of a class, with its indentation, a
    constant, or the end of a class. *)
Inductive java_item :=
| JavaClass (tabs : nat) (name : list Z)
| JavaConst (name : list Z) (value : Z)
| JavaEnd (tabs : nat).

Definition tab_ (n : nat) : list Z := repeat 9 n.

Definition print_item (i : java_item) : list Z :=
  match i with
  | JavaClass tabs name => tab_ tabs ++ bytes "public static class " ++ name ++ bytes "{" ++ [10]
  | JavaConst name value => tab_ 3 ++ bytes "public static final int " ++ name ++ bytes " = " ++ print_int value ++ bytes ";" ++ [10]
  | JavaEnd tabs => tab_ tabs ++ bytes "}" ++ [10]
  end.

(** The lines [std::getline] gives until the end of the file. *)
Fixpoint lines_of (text : list Z) : list (list Z) :=
  match text with
  | [] => [[]]
  | c :: text' =>
      if c =? 10 then [] :: lines_of text'
      else match lines_of text' with
           | l :: ls => (c :: l) :: ls
           | [] => [[c]]
           end
  end.

(** ** The loop *)

Section Generator.
(** [boost::split]. *)
Variable split_any_of : list Z -> list Z -> list (list Z).

Definition words (line : list Z) : list (list Z) := Split split_any_of line (bytes " ," ++ [9]) false.

(** One line: what is written, and [current_keyword]. *)
Definition generate_line (line_count : Z) (current_keyword : list Z) (cpp_line : list Z)
  : outcome (list java_item * list Z) :=
  match words cpp_line with
  | [] => Ok ([], current_keyword)
  | first_part :: rest =>
      if existsb (Z.eqb 125) first_part then
        Ok ([JavaEnd (if bytes_eqb current_keyword ENUM_KEYWORD then 2 else 1)], [])
      else if bytes_eqb first_part NAMESPACE_KEYWORD || bytes_eqb first_part ENUM_KEYWORD then
        match rest with
        | [] => Undefined                                   (* split_strings[1] *)
        | name :: _ => Ok ([JavaClass (if bytes_eqb first_part NAMESPACE_KEYWORD then 1 else 2) name], first_part)
        end
      else if bytes_eqb current_keyword ENUM_KEYWORD then Ok ([JavaConst first_part line_count], current_keyword)
      else Ok ([], current_keyword)
  end.

(** [first_part.empty()] cannot be, since [Split] leaves no empty part. *)

Fixpoint generate (line_count : Z) (current_keyword : list Z) (lines : list (list Z))
  : outcome (list java_item * list Z) :=
  match lines with
  | [] => Ok ([], current_keyword)
  | l :: ls =>
      let? n := int_result (line_count + 1) in
      let? r := generate_line n current_keyword l in
      let? r' := generate n (snd r) ls in
      Ok (fst r ++ fst r', snd r')
  end.

(** The program, with the content of the input file, if it can be opened: the
    text on the console and the output file, if it is written. *)
Definition main (argc : Z) (name : list Z) (file : option (list Z)) : outcome (list Z * option (list Z)) :=
  if negb (argc =? 3) then Ok (bytes "参数不对: input.cpp output.java", None)
  else match file with
       | None => Ok (bytes "打开文件失败:" ++ name, None)
       | Some text =>
           let? r := generate 0 [] (lines_of text) in
           Ok ([], Some (bytes "package com.mvvm;" ++ [10] ++ bytes "public class LogicDefine {" ++ [10] ++
                         flat_map print_item (fst r) ++ bytes "}" ++ [10]))
       end.

(** ** Enumerations *)

(** The values C++ gives to enumerators, the first of which has the value [v] and
    the others no initializer. *)
Fixpoint enumerator_values (v : Z) (names : list (list Z)) : list (list Z * Z) :=
  match names with
  | [] => []
  | n :: ns => (n, v) :: enumerator_values (v + 1) ns
  end.

Definition plain_name (n : list Z) : bool :=
  negb (existsb (Z.eqb 125) n) && negb (bytes_eqb n NAMESPACE_KEYWORD) && negb (bytes_eqb n ENUM_KEYWORD).

(** A line that starts with a name. *)
Definition declares (line name : list Z) : Prop := plain_name name = true /\ exists rest, words line = name :: rest.

Lemma generate_app n kw l1 l2 items kw1 :
  generate n kw l1 = Ok (items, kw1) ->
  generate n kw (l1 ++ l2) = (let? r := generate (n + zlen l1) kw1 l2 in Ok (items ++ fst r, snd r)).
Proof.
  revert n kw items kw1. induction l1 as [|l l1 IH]; intros n kw items kw1; cbn [generate app].
  - intros H. injection H as <- <-. change (zlen []) with 0. rewrite Z.add_0_r. destruct (generate n kw l2) as [[]| |]; reflexivity.
  - destruct (int_result (n + 1)) as [k| |] eqn:Ek; cbn [outcome_bind]; try discriminate.
    assert (k = n + 1) as -> by (unfold int_result in Ek; destruct (_ && _); congruence).
    destruct (generate_line (n + 1) kw l) as [[i1 kw']| |]; cbn [outcome_bind fst snd]; try discriminate.
    destruct (generate (n + 1) kw' l1) as [[i2 kw2]| |] eqn:E; cbn [outcome_bind fst snd]; try discriminate.
    intros H. injection H as <- <-. rewrite (IH _ _ _ _ E), zlen_cons, Z.add_assoc.
    destruct (generate _ kw2 l2) as [[]| |]; cbn [outcome_bind fst snd]; [rewrite app_assoc|..]; reflexivity.
Qed.

Lemma bytes_eqb_refl l : bytes_eqb l l = true.
Proof. unfold bytes_eqb. destruct (list_eq_dec Z.eq_dec l l); congruence. Qed.

(** The lines of the enumerators. *)
Lemma generate_body n body names :
  Forall2 declares body names -> -2 ^ 31 <= n -> n + zlen body < 2 ^ 31 ->
  generate n ENUM_KEYWORD body =
  Ok (map (fun e => JavaConst (fst e) (snd e)) (enumerator_values (n + 1) names), ENUM_KEYWORD).
Proof.
  intros Hb. revert n. induction Hb as [|l name body names [Hp [rest Hw]] _ IH]; intros n H0 Hn; [reflexivity|].
  rewrite zlen_cons in Hn. pose proof (zlen_nonneg body). cbn [generate]. rewrite int_result_ok by lia. cbn [outcome_bind].
  unfold plain_name in Hp. apply andb_true_iff in Hp as [Hp Hp3]. apply andb_true_iff in Hp as [Hp1 Hp2].
  apply negb_true_iff in Hp1, Hp2, Hp3.
  unfold generate_line. rewrite Hw, Hp1, Hp2, Hp3, bytes_eqb_refl. cbn [orb outcome_bind fst snd].
  rewrite IH by lia. reflexivity.
Qed.
End Generator.

(** C37: Both languages mean the same numbers.  For an enumeration anywhere in
    the file whose enumerators stand on lines of their own, one below the other,
    the first with the value [__LINE__], the generator writes a class with the
    name of the enumeration and a constant for every enumerator, with the value
    that C++ gives to it. *)
Theorem java_constants_agree split_any_of pre opening name more body names closing last post items kw items' kw' :
  let w := words split_any_of in
  generate split_any_of 0 [] pre = Ok (items, kw) ->
  w opening = ENUM_KEYWORD :: name :: more ->
  Forall2 (declares split_any_of) body names ->
  w closing = (125 :: last) :: [] ->
  zlen pre + zlen body + 2 < 2 ^ 31 ->
  generate split_any_of (zlen pre + zlen body + 2) [] post = Ok (items', kw') ->
  let first_line := zlen pre + 2 in
  generate split_any_of 0 [] (pre ++ [opening] ++ body ++ [closing] ++ post) =
  Ok (items ++ [JavaClass 2 name] ++ map (fun e => JavaConst (fst e) (snd e)) (enumerator_values first_line names) ++
      [JavaEnd 2] ++ items', kw').
Proof.
  intros w Hpre Ho Hb Hc Hn Hpost first_line. pose proof (zlen_nonneg pre). pose proof (zlen_nonneg body).
  assert (Hopen : generate split_any_of (zlen pre) kw [opening] = Ok ([JavaClass 2 name], ENUM_KEYWORD)).
  { cbn [generate]. rewrite int_result_ok by lia. cbn [outcome_bind]. unfold generate_line. fold w. rewrite Ho. reflexivity. }
  assert (Hclose : generate split_any_of (zlen pre + 1 + zlen body) ENUM_KEYWORD [closing] = Ok ([JavaEnd 2], [])).
  { cbn [generate]. rewrite int_result_ok by lia. cbn [outcome_bind]. unfold generate_line. fold w. rewrite Hc. reflexivity. }
  rewrite (generate_app _ _ _ _ _ _ _ Hpre), Z.add_0_l, (generate_app _ _ _ _ _ _ _ Hopen).
  change (zlen [opening]) with 1.
  rewrite (generate_app _ _ _ _ _ _ _ (generate_body split_any_of (zlen pre + 1) body names Hb ltac:(lia) ltac:(lia))).
  rewrite (generate_app _ _ _ _ _ _ _ Hclose). change (zlen [closing]) with 1.
  replace (zlen pre + 1 + zlen body + 1) with (zlen pre + zlen body + 2) by lia. rewrite Hpost.
  cbn [outcome_bind fst snd]. replace (zlen pre + 1 + 1) with first_line by (unfold first_line; lia).
  reflexivity.
Qed.

(** [boost::split] with [is_any_of]: the pieces between the separators. *)
Fixpoint pieces (s token : list Z) : list (list Z) :=
  match s with
  | [] => [[]]
  | c :: s' =>
      if existsb (Z.eqb c) token then [] :: pieces s' token
      else match pieces s' token with
           | p :: ps => (c :: p) :: ps
           | [] => [[c]]
           end
  end.

(** src/app/logic/logic_define.h, with its byte order mark. *)
Definition logic_define_before : list (list Z) := ([239; 187; 191] ++ bytes "#ifndef _APP_LOGIC_H_") :: map bytes
  ["#define _APP_LOGIC_H_"; "#include <mvvm/viewmodel.h>"; "#include <mvvm/model.h>";
   "#include <mvvm/pb/MvvmBasicParam.pb.h>"; ""; "namespace VMDefine {"; "  enum ModelType {"; "    kModelMain = __LINE__,";
   "    kModelProxy,"; "    kModelSocks5Server,"; "    kModelSelectApp"; "  };"; ""; ""; "  enum ViewModelType {";
   "    kViewModelMain = __LINE__,"; "    kViewModelProxy,"; "    kViewModelSocks5Server,"; "    kViewModelSelectApp";
   "  };"; "};"; ""; "namespace Main {"]%string.

Definition logic_define_after : list (list Z) := map bytes
  [""; "  enum Properties {"; "    kPropertyUserName = __LINE__,"; "    kPropertyPasswd"; "  };"; "};"; "#endif"; ""; ""]%string.

(** What is written for these lines. *)
Definition generated (n : Z) (lines : list (list Z)) : list java_item :=
  match generate pieces n [] lines with
  | Ok (items, _) => items
  | _ => []
  end.

Definition items_before : list java_item := Eval vm_compute in generated 0 logic_define_before.
Definition items_after : list java_item := Eval vm_compute in generated 28 logic_define_after.

(** The constants of the application, as the generated class has them. *)
Lemma java_constants_agree_witness :
  generate pieces 0 []
    (logic_define_before ++ [bytes "  enum Event {"] ++ [bytes "    kEventLogin = __LINE__,"; bytes "    kEventLogout"] ++
     [bytes "  };"] ++ logic_define_after) =
  Ok (items_before ++ [JavaClass 2 (bytes "Event")] ++
      [JavaConst (bytes "kEventLogin") kEventLogin; JavaConst (bytes "kEventLogout") kEventLogout] ++
      [JavaEnd 2] ++ items_after, []) /\
  In (JavaConst (bytes "kModelMain") kModelMain) items_before /\
  In (JavaConst (bytes "kViewModelMain") kViewModelMain) items_before /\
  In (JavaConst (bytes "kPropertyUserName") kPropertyUserName) items_after /\
  In (JavaConst (bytes "kPropertyPasswd") kPropertyPasswd) items_after.
Proof.
  split.
  - apply (java_constants_agree pieces logic_define_before (bytes "  enum Event {") (bytes "Event") [bytes "{"]
             [bytes "    kEventLogin = __LINE__,"; bytes "    kEventLogout"] [bytes "kEventLogin"; bytes "kEventLogout"]
             (bytes "  };") (bytes ";") logic_define_after items_before NAMESPACE_KEYWORD items_after []); try (vm_compute; reflexivity).
    repeat constructor; eexists; vm_compute; reflexivity.
  - repeat split; cbv; auto 30.
Defined.
