(* ===== verification/Jni.v ===== *)
(** * The bridge to Java

    src/base/jni_util: the cache of classes and ids (var_cache.{h,cc}), calls of
    methods and access to fields by name (comm_function.cc), and the objects that
    hold an environment or a string for a scope (scope_jenv.cc, scoped_jstring.cc).
    The virtual machine is a parameter: the functions of a [JNIEnv] on its state.
    A reference, a class and an id are numbers, 0 for null; a string of C++ is the
    list of its bytes.  [ASSERT] and the log macros are empty, and the caches of
    ids are not compiled in (USE_JNI_METHOD_CACHE, USE_JNI_FIELD_CACHE). *)

From Stdlib Require Import String ZArith List Bool Lia.
From S2P Require Import Prelude Cpp NetClient Crypto.
Import ListNotations.
Local Open Scope Z_scope.
Local Open Scope cpp_scope.

(** ** Values *)

Inductive jtype := JVoid | JObject | JBoolean | JByte | JChar | JShort | JInt | JLong | JFloat | JDouble.

(** A [jvalue] is cleared with [memset] or holds a member. *)
Inductive jvalue := Cleared | Holds (t : jtype) (v : Z).

(** The letters of descriptors; arrays are objects. *)
Definition jtype_of (c : Z) : option jtype :=
  if c =? 86 then Some JVoid
  else if (c =? 91) || (c =? 76) then Some JObject
  else if c =? 90 then Some JBoolean
  else if c =? 66 then Some JByte
  else if c =? 67 then Some JChar
  else if c =? 83 then Some JShort
  else if c =? 73 then Some JInt
  else if c =? 74 then Some JLong
  else if c =? 70 then Some JFloat
  else if c =? 68 then Some JDouble
  else None.

Definition jvalue_of (t : jtype) (v : Z) : jvalue :=
  match t with
  | JVoid => Cleared
  | _ => Holds t v
  end.

Definition jtype_num (t : jtype) : Z :=
  match t with
  | JVoid => 0 | JObject => 1 | JBoolean => 2 | JByte => 3 | JChar => 4 | JShort => 5 | JInt => 6 | JLong => 7
  | JFloat => 8 | JDouble => 9
  end.

(** The member of a [jvalue] that is read, which must be the one it holds. *)
Definition member (t : jtype) (v : jvalue) : outcome Z :=
  match v with
  | Cleared => Ok 0
  | Holds t' x => if jtype_num t =? jtype_num t' then Ok x else Undefined
  end.

(** ** The environment *)

(** The functions of a [JNIEnv] that the code calls, those that exist for every
    type of a value as one, and the ones of the threads and the [JavaVM]. *)
Class JNIEnv (V : Type) := {
  ExceptionOccurred : V -> V * Z;
  ExceptionCheck : V -> bool;
  ExceptionDescribe : V -> V;
  ExceptionClear : V -> V;
  ThrowNew : Z -> list Z -> V -> V;
  FindClass : list Z -> V -> V * Z;
  NewGlobalRef : Z -> V -> V * Z;
  DeleteGlobalRef : Z -> V -> V;
  NewLocalRef : Z -> V -> V * Z;
  DeleteLocalRef : Z -> V -> V;
  EnsureLocalCapacity : Z -> V -> V * Z;
  PushLocalFrame : Z -> V -> V * Z;
  PopLocalFrame : V -> V;
  GetObjectClass : Z -> V -> V * Z;
  GetMethodID : Z -> list Z -> list Z -> V -> V * Z;
  GetStaticMethodID : Z -> list Z -> list Z -> V -> V * Z;
  GetFieldID : Z -> list Z -> list Z -> V -> V * Z;
  GetStaticFieldID : Z -> list Z -> list Z -> V -> V * Z;
  CallMethod : jtype -> Z -> Z -> list jvalue -> V -> V * Z;
  CallStaticMethod : jtype -> Z -> Z -> list jvalue -> V -> V * Z;
  NewObject : Z -> Z -> list jvalue -> V -> V * Z;
  GetField : jtype -> Z -> Z -> V -> V * Z;
  GetStaticField : jtype -> Z -> Z -> V -> V * Z;
  SetField : jtype -> Z -> Z -> Z -> V -> V;
  NewByteArray : Z -> V -> V * Z;
  SetByteArrayRegion : Z -> list Z -> V -> V;
  GetByteArrayElements : Z -> V -> list Z;
  ReleaseByteArrayElements : Z -> V -> V;
  NewString : list Z -> V -> V * Z;
  NewStringUTF : list Z -> V -> V * Z;
  GetStringUTFChars : Z -> V -> V * option (list Z);
  ReleaseStringUTFChars : Z -> V -> V;
  GetStringLength : Z -> V -> Z;
  GetStringUTFRegion : Z -> Z -> V -> list Z;
  GetStringChars : Z -> V -> V * option (list Z);
  ReleaseStringChars : Z -> V -> V;
  pthread_getspecific : V -> Z;
  pthread_setspecific : Z -> V -> V;
  GetEnv : V -> V * option Z;
  AttachCurrentThread : V -> V * option Z
}.

(** ** The state of the library *)

Record JniMethodInfo := mk_method_info {
  classname : list Z;
  methodname : list Z;
  methodsig : list Z
}.

(** [operator<] of [std::string]. *)
Fixpoint string_lt (a b : list Z) : bool :=
  match a, b with
  | _, [] => false
  | [], _ => true
  | x :: a', y :: b' => if x =? y then string_lt a' b' else x <? y
  end.

(** [JniMethodInfo::operator<]. *)
Definition method_info_lt (a b : JniMethodInfo) : bool :=
  if string_lt (classname a) (classname b) then true
  else if bytes_eqb (classname a) (classname b) && string_lt (methodname a) (methodname b) then true
  else if bytes_eqb (classname a) (classname b) && bytes_eqb (methodname a) (methodname b)
          && string_lt (methodsig a) (methodsig b) then true
  else false.

(** [std::set::insert], with whether it inserted. *)
Fixpoint set_add {A} (lt : A -> A -> bool) (x : A) (l : list A) : list A * bool :=
  match l with
  | [] => ([x], true)
  | y :: l' =>
      if lt x y then (x :: l, true)
      else if lt y x then let (r, b) := set_add lt x l' in (y :: r, b)
      else (l, false)
  end.

(** The singleton [VarCache] and the sets of names to load. *)
Record VarCache := mk_cache {
  vm_ : Z;
  class_map_ : list (list Z * Z);
  class_name_set : list (list Z);
  static_method_info_set : list JniMethodInfo;
  method_info_set : list JniMethodInfo
}.

Definition new_cache : VarCache := mk_cache 0 [] [] [] [].

Definition set_class_map (m : list (list Z * Z)) (c : VarCache) : VarCache :=
  mk_cache (vm_ c) m (class_name_set c) (static_method_info_set c) (method_info_set c).

Fixpoint class_find (path : list Z) (m : list (list Z * Z)) : option Z :=
  match m with
  | [] => None
  | (p, c) :: m' => if bytes_eqb p path then Some c else class_find path m'
  end.

(** ** Code that uses both *)

Section Monad.
Context {V : Type}.

Definition jni (A : Type) : Type := VarCache * V -> outcome (VarCache * V * A).

Definition ret {A} (a : A) : jni A := fun '(c, v) => Ok (c, v, a).
Definition bind {A B} (m : jni A) (k : A -> jni B) : jni B := fun cv =>
  let? r := m cv in let '(c, v, a) := r in k a (c, v).
Definition env {A} (f : V -> V * A) : jni A := fun '(c, v) => let (v', a) := f v in Ok (c, v', a).
Definition env_ (f : V -> V) : jni unit := fun '(c, v) => Ok (c, f v, tt).
Definition ask {A} (f : V -> A) : jni A := fun '(c, v) => Ok (c, v, f v).
Definition cache {A} (f : VarCache -> VarCache * A) : jni A := fun '(c, v) => let (c', a) := f c in Ok (c', v, a).
Definition lift {A} (o : outcome A) : jni A := fun '(c, v) => let? a := o in Ok (c, v, a).

(** A null reference where the specification of JNI forbids it. *)
Definition nonnull {A} (r : Z) (m : jni A) : jni A := if r =? 0 then lift Undefined else m.

End Monad.

Declare Scope jni_scope.
Delimit Scope jni_scope with jni.
Notation "'let!' x := m 'in' k" := (bind m (fun x => k)) (at level 10, x name, m at level 100, k at level 200) : jni_scope.
Notation "m ;;; k" := (bind m (fun _ => k)) (at level 100, k at level 200, right associativity) : jni_scope.
Local Open Scope jni_scope.

Arguments jni : clear implicits.

Section Library.
Context {V : Type} `{JNIEnv V}.
Abbreviation jni := (Jni.jni V).

(** ** var_cache.cc *)

Definition cstr (s : string) : list Z := bytes s.

(** [snprintf] into a buffer of [n] bytes. *)
Definition snprintf (n : Z) (s : list Z) : list Z := firstn (Z.to_nat (n - 1)) s.

(** [if (env->ExceptionOccurred())]: the reference it makes is not deleted. *)
Definition exception_pending : jni bool :=
  let! e := env ExceptionOccurred in ret (negb (e =? 0)).

(** The block that replaces an exception by an [UnsatisfiedLinkError]. *)
Definition throw_link_error (message : list Z) : jni unit :=
  let! b := exception_pending in
  if b then
    env_ ExceptionClear ;;;
    let! cls := env (FindClass (cstr "java/lang/UnsatisfiedLinkError")) in
    env_ (ThrowNew cls (snprintf 512 message))
  else ret tt.

Definition GetJvm : jni Z := cache (fun c => (c, vm_ c)).
Definition SetJvm (vm : Z) : jni unit :=
  cache (fun c => (mk_cache vm (class_map_ c) (class_name_set c) (static_method_info_set c) (method_info_set c), tt)).

Definition GetClass (class_path : list Z) : jni Z :=
  let! b := exception_pending in
  if b then ret 0
  else
    let! found := cache (fun c => (c, class_find class_path (class_map_ c))) in
    match found with
    | Some clz => ret clz
    | None =>
        let! clz := env (FindClass class_path) in
        if clz =? 0 then throw_link_error (cstr "classPath:" ++ class_path) ;;; ret 0
        else
          let! gloable_clz := env (NewGlobalRef clz) in
          env_ (DeleteLocalRef clz) ;;;
          cache (fun c => (set_class_map (class_map_ c ++ [(class_path, gloable_clz)]) c, tt)) ;;;
          ret gloable_clz
    end.

Definition CacheClass (class_path : list Z) (clz : Z) : jni unit :=
  if clz =? 0 then ret tt
  else
    cache (fun c =>
      match class_find class_path (class_map_ c) with
      | Some _ => (c, tt)
      | None => (set_class_map (class_map_ c ++ [(class_path, clz)]) c, tt)
      end).

(** The four functions that look an id up in a class differ in the function of
    the environment and the message. *)
Definition lookup_id (get : Z -> list Z -> list Z -> V -> V * Z) (message : list Z) (clz : Z) (name sig : list Z) : jni Z :=
  let! b := exception_pending in
  if b then ret 0
  else if clz =? 0 then ret 0
  else
    let! id := env (get clz name sig) in
    throw_link_error message ;;; ret id.

Definition GetStaticMethodId (clz : Z) (name sig : list Z) : jni Z :=
  lookup_id GetStaticMethodID (cstr "method:" ++ name ++ cstr ", sig:" ++ sig) clz name sig.

Definition GetMethodId (clz : Z) (name sig : list Z) : jni Z :=
  lookup_id GetMethodID (cstr "method:" ++ name ++ cstr ", sig:" ++ sig) clz name sig.

Definition GetStaticFieldId (clz : Z) (name sig : list Z) : jni Z :=
  lookup_id GetStaticFieldID (cstr "static field:" ++ name ++ cstr ", sig:" ++ sig) clz name sig.

Definition GetFieldId (clz : Z) (name sig : list Z) : jni Z :=
  lookup_id GetFieldID (cstr "field:" ++ name ++ cstr ", sig:" ++ sig) clz name sig.

(** The overloads with the path of a class. *)
Definition GetStaticMethodId_path (class_path name sig : list Z) : jni Z :=
  let! clz := GetClass class_path in GetStaticMethodId clz name sig.

Definition GetMethodId_path (class_path name sig : list Z) : jni Z :=
  let! clz := GetClass class_path in GetMethodId clz name sig.

Definition GetStaticFieldId_path (class_path name sig : list Z) : jni Z :=
  let! clz := GetClass class_path in
  if clz =? 0 then ret 0 else GetStaticFieldId clz name sig.

Definition GetFieldId_path (class_path name sig : list Z) : jni Z :=
  let! clz := GetClass class_path in GetFieldId clz name sig.

(** The names registered before the library is loaded. *)
Definition AddClass (class_path : list Z) : jni bool :=
  cache (fun c => let (s, b) := set_add string_lt class_path (class_name_set c) in
                  (mk_cache (vm_ c) (class_map_ c) s (static_method_info_set c) (method_info_set c), b)).

Definition AddStaticMethod (cls name sig : list Z) : jni bool :=
  cache (fun c => let (s, b) := set_add method_info_lt (mk_method_info cls name sig) (static_method_info_set c) in
                  (mk_cache (vm_ c) (class_map_ c) (class_name_set c) s (method_info_set c), b)).

Definition AddMethod (cls name sig : list Z) : jni bool :=
  cache (fun c => let (s, b) := set_add method_info_lt (mk_method_info cls name sig) (method_info_set c) in
                  (mk_cache (vm_ c) (class_map_ c) (class_name_set c) (static_method_info_set c) s, b)).

(** The loops of the three [Load] functions. *)
Fixpoint load_all {A} (get : A -> jni Z) (l : list A) : jni bool :=
  match l with
  | [] => ret true
  | x :: l' => let! r := get x in if r =? 0 then ret false else load_all get l'
  end.

Definition LoadClass : jni bool :=
  let! names := cache (fun c => (c, class_name_set c)) in
  let! ok := load_all GetClass names in
  cache (fun c => (mk_cache (vm_ c) (class_map_ c) [] (static_method_info_set c) (method_info_set c), tt)) ;;;
  ret ok.

Definition LoadStaticMethod : jni bool :=
  let! infos := cache (fun c => (c, static_method_info_set c)) in
  load_all (fun i => GetStaticMethodId_path (classname i) (methodname i) (methodsig i)) infos.

Definition LoadMethod : jni bool :=
  let! infos := cache (fun c => (c, method_info_set c)) in
  load_all (fun i => GetMethodId_path (classname i) (methodname i) (methodsig i)) infos.

(** ** scope_jenv.cc *)

(** [env_] and [status_] of a [ScopeJEnv] and whether it pushed a frame; the
    environment of a thread is a number. *)
Record ScopeJEnv := mk_scope { se_env : Z; se_frame : bool; we_attach_ : bool }.

Definition scope_enter (clear_frame : bool) (capacity : Z) : jni ScopeJEnv :=
  let! specific := ask pthread_getspecific in
  let! r :=
    if negb (specific =? 0) then ret (specific, false)
    else
      let! got := env GetEnv in
      match got with
      | Some e => ret (e, false)
      | None =>
          let! attached := env AttachCurrentThread in
          match attached with
          | Some e => env_ (pthread_setspecific e) ;;; ret (e, true)
          | None => ret (0, false)
          end
      end in
  if fst r =? 0 then ret (mk_scope 0 clear_frame false)
  else if clear_frame then env (PushLocalFrame capacity) ;;; ret (mk_scope (fst r) true (snd r))
  else ret (mk_scope (fst r) false (snd r)).

Definition scope_leave (s : ScopeJEnv) : jni unit :=
  if negb (se_env s =? 0) && se_frame s then env_ PopLocalFrame else ret tt.

(** A body between constructor and destructor; it uses the environment without a
    look whether there is one. *)
Definition in_scope {A} (body : jni A) : jni A :=
  let! s := scope_enter true 16 in
  let! a := nonnull (se_env s) body in
  scope_leave s ;;; ret a.

(** [~VarCache]. *)
Definition delete_cache : jni unit :=
  in_scope
    (let! m := cache (fun c => (c, class_map_ c)) in
     fold_right (fun e k => env_ (DeleteGlobalRef (snd e)) ;;; k) (ret tt) m).
End Library.
