(* ===== verification/JniCall.v ===== *)
(** * Calls of Java by name

    src/base/jni_util/comm_function.cc, scoped_jstring.cc, and their users
    src/mvvm/jni/ActivityView.cc and src/mvvm/native-lib.ipp: methods are called
    and fields read by name and descriptor, exceptions are written to the log, and
    strings and arrays are copied in both directions. *)

From Stdlib Require Import String ZArith List Bool Lia.
From S2P Require Import Prelude Cpp NetClient Crypto Jni.
Import ListNotations.
Local Open Scope Z_scope.
Local Open Scope cpp_scope.
Local Open Scope jni_scope.

(** The loop that skips the types of the arguments: the letter of the result.
    Without a closing parenthesis the end of the string is overrun. *)
Fixpoint skip_arguments (descriptor : list Z) : outcome Z :=
  match descriptor with
  | [] => Undefined
  | c :: d => if c =? 41 then Ok (match d with [] => 0 | r :: _ => r end) else skip_arguments d
  end.

(** The switch of the fields, which has no case for void. *)
Definition field_type (sig : list Z) : option jtype :=
  match sig with
  | [] => None
  | c :: _ => match jtype_of c with Some JVoid => None | t => t end
  end.

(** A [wchar_t] has 32 bits, a [jchar] 16: the units at an address, low half
    first. *)
Definition jchars (w : list Z) : list Z := flat_map (fun c => [Z.land c 65535; Z.land (Z.shiftr c 16) 65535]) w.

Section Calls.
Context {V : Type} `{JNIEnv V}.
Abbreviation jni := (Jni.jni V).

(** ** Exceptions *)

Definition string_getter : list Z := cstr "()Ljava/lang/String;".

(** The text left in the buffer of [bufLen] bytes. *)
Definition getExceptionSummary (exception bufLen : Z) : jni (list Z) :=
  let! exceptionClazz := nonnull exception (env (GetObjectClass exception)) in
  let! classClazz := nonnull exceptionClazz (env (GetObjectClass exceptionClazz)) in
  let! classGetNameMethod := nonnull classClazz (env (GetMethodID classClazz (cstr "getName") string_getter)) in
  let! classNameStr := nonnull classGetNameMethod (env (CallMethod JObject exceptionClazz classGetNameMethod [])) in
  let! success :=
    if classNameStr =? 0 then ret None
    else
      let! classNameChars := env (GetStringUTFChars classNameStr) in
      let! text :=
        match classNameChars with
        | None => ret None
        | Some name =>
            let! throwableGetMessageMethod := env (GetMethodID exceptionClazz (cstr "getMessage") string_getter) in
            let! messageStr := nonnull throwableGetMessageMethod (env (CallMethod JObject exception throwableGetMessageMethod [])) in
            let! text :=
              if messageStr =? 0 then ret (firstn (Z.to_nat (bufLen - 1)) name)
              else
                let! messageChars := env (GetStringUTFChars messageStr) in
                let! text :=
                  match messageChars with
                  | Some m =>
                      env_ (ReleaseStringUTFChars messageStr) ;;; ret (snprintf bufLen (name ++ cstr ": " ++ m))
                  | None =>
                      env_ ExceptionClear ;;; ret (snprintf bufLen (name ++ cstr ": <error getting message>"))
                  end in
                env_ (DeleteLocalRef messageStr) ;;; ret text in
            env_ (ReleaseStringUTFChars classNameStr) ;;; ret (Some text)
        end in
      env_ (DeleteLocalRef classNameStr) ;;; ret text in
  env_ (DeleteLocalRef classClazz) ;;;
  env_ (DeleteLocalRef exceptionClazz) ;;;
  match success with
  | Some text => ret text
  | None => env_ ExceptionClear ;;; ret (snprintf bufLen (cstr "<error getting class name>"))
  end.

(** [GetStringUTFRegion] is given a number of characters and writes their bytes,
    of which there may be more; they have to fit into the buffer. *)
Definition copy_message (messageStr bufLen : Z) : jni (list Z) :=
  let! n := ask (GetStringLength messageStr) in
  let messageStrLength := if bufLen <=? n then bufLen - 1 else n in
  let! text := ask (GetStringUTFRegion messageStr messageStrLength) in
  lift (if zlen text <=? bufLen then Ok (firstn (Z.to_nat messageStrLength) text) else Undefined).

Definition printStackTrace (exception bufLen : Z) : jni (list Z) :=
  let! stringWriterClazz := env (FindClass (cstr "java/io/StringWriter")) in
  let! success :=
    if stringWriterClazz =? 0 then ret None
    else
      let! stringWriterCtor := env (GetMethodID stringWriterClazz (cstr "<init>") (cstr "()V")) in
      let! stringWriterToStringMethod := env (GetMethodID stringWriterClazz (cstr "toString") string_getter) in
      let! printWriterClazz := env (FindClass (cstr "java/io/PrintWriter")) in
      let! text :=
        if printWriterClazz =? 0 then ret None
        else
          let! printWriterCtor := env (GetMethodID printWriterClazz (cstr "<init>") (cstr "(Ljava/io/Writer;)V")) in
          let! stringWriterObj := nonnull stringWriterCtor (env (NewObject stringWriterClazz stringWriterCtor [])) in
          let! text :=
            if stringWriterObj =? 0 then ret None
            else
              let! printWriterObj :=
                nonnull printWriterCtor (env (NewObject printWriterClazz printWriterCtor [Holds JObject stringWriterObj])) in
              let! text :=
                if printWriterObj =? 0 then ret None
                else
                  let! exceptionClazz := nonnull exception (env (GetObjectClass exception)) in
                  let! printStackTraceMethod :=
                    env (GetMethodID exceptionClazz (cstr "printStackTrace") (cstr "(Ljava/io/PrintWriter;)V")) in
                  nonnull printStackTraceMethod
                    (env (CallMethod JVoid exception printStackTraceMethod [Holds JObject printWriterObj])) ;;;
                  let! thrown := ask ExceptionCheck in
                  let! text :=
                    if thrown then ret None
                    else
                      let! messageStr :=
                        nonnull stringWriterToStringMethod (env (CallMethod JObject stringWriterObj stringWriterToStringMethod [])) in
                      if messageStr =? 0 then ret None
                      else
                        let! text := copy_message messageStr bufLen in
                        env_ (DeleteLocalRef messageStr) ;;; ret (Some text) in
                  env_ (DeleteLocalRef exceptionClazz) ;;;
                  env_ (DeleteLocalRef printWriterObj) ;;;
                  ret text in
              env_ (DeleteLocalRef stringWriterObj) ;;; ret text in
          env_ (DeleteLocalRef printWriterClazz) ;;; ret text in
      env_ (DeleteLocalRef stringWriterClazz) ;;; ret text in
  match success with
  | Some text => ret text
  | None => env_ ExceptionClear ;;; getExceptionSummary exception bufLen
  end.

(** The text written to the log, if there was an exception. *)
Definition jniLogException : jni (option (list Z)) :=
  let! exception := env ExceptionOccurred in
  if exception =? 0 then ret None
  else
    env_ ExceptionDescribe ;;;
    env_ ExceptionClear ;;;
    let! text := printStackTrace exception 1024 in
    ret (Some text).

(** ** Methods and fields *)

(** [FatalError] ends the program. *)
Definition of_type (t : option jtype) (k : jtype -> jni jvalue) : jni jvalue :=
  match t with
  | Some t => k t
  | None => lift Throws
  end.

(** The switch on the type of the result, and the log. *)
Definition call_and_log (call : jtype -> V -> V * Z) (descriptor : list Z) : jni jvalue :=
  let! c := lift (skip_arguments descriptor) in
  let! result := of_type (jtype_of c) (fun t => let! v := env (call t) in ret (jvalue_of t v)) in
  jniLogException ;;; ret result.

Definition JNU_CallMethodByName (obj : Z) (name descriptor : list Z) (args : list jvalue) : jni jvalue :=
  let! ok := env (EnsureLocalCapacity 2) in
  if ok =? 0 then
    let! clazz := nonnull obj (env (GetObjectClass obj)) in
    let! mid := GetMethodId clazz name descriptor in
    let! result :=
      if mid =? 0 then ret Cleared
      else call_and_log (fun t => CallMethod t obj mid args) descriptor in
    env_ (DeleteLocalRef clazz) ;;; ret result
  else ret Cleared.

Definition JNU_CallMethodByMethodInfo (obj : Z) (info : JniMethodInfo) (args : list jvalue) : jni jvalue :=
  JNU_CallMethodByName obj (methodname info) (methodsig info) args.

Definition JNU_CallStaticMethodByName (clazz : Z) (name descriptor : list Z) (args : list jvalue) : jni jvalue :=
  let! mid := GetStaticMethodId clazz name descriptor in
  if mid =? 0 then ret Cleared
  else call_and_log (fun t => CallStaticMethod t clazz mid args) descriptor.

Definition JNU_CallStaticMethodByName_path (class_name name descriptor : list Z) (args : list jvalue) : jni jvalue :=
  let! clazz := GetClass class_name in
  JNU_CallStaticMethodByName clazz name descriptor args.

Definition JNU_CallStaticMethodByMethodInfo (info : JniMethodInfo) (args : list jvalue) : jni jvalue :=
  let! clazz := GetClass (classname info) in
  JNU_CallStaticMethodByName clazz (methodname info) (methodsig info) args.

Definition JNU_GetStaticField (clazz : Z) (name sig : list Z) : jni jvalue :=
  let! fid := GetStaticFieldId clazz name sig in
  if fid =? 0 then ret Cleared
  else
    let! result := of_type (field_type sig) (fun t => let! v := env (GetStaticField t clazz fid) in ret (jvalue_of t v)) in
    jniLogException ;;; ret result.

(** The field of an object. *)
Definition object_field (obj : Z) (name sig : list Z) : jni Z :=
  let! clazz := nonnull obj (env (GetObjectClass obj)) in
  let! fid := GetFieldId clazz name sig in
  env_ (DeleteLocalRef clazz) ;;; ret fid.

Definition JNU_SetField (obj : Z) (name sig : list Z) (value : jvalue) : jni jvalue :=
  let! b := exception_pending in
  if b then ret Cleared
  else
    let! fid := object_field obj name sig in
    if fid =? 0 then ret Cleared
    else
      of_type (field_type sig)
        (fun t => let! x := lift (member t value) in env_ (SetField t obj fid x) ;;; ret Cleared) ;;;
      jniLogException ;;; ret Cleared.

Definition JNU_GetField (obj : Z) (name sig : list Z) : jni jvalue :=
  let! b := exception_pending in
  if b then ret Cleared
  else
    let! fid := object_field obj name sig in
    if fid =? 0 then ret Cleared
    else
      let! result := of_type (field_type sig) (fun t => let! v := env (GetField t obj fid) in ret (jvalue_of t v)) in
      jniLogException ;;; ret result.

(** ** Arrays and strings *)

(** The length is cut to 32 bits. *)
Definition JNU_Buffer2JbyteArray (buffer : list Z) : jni Z :=
  let len := wrap 32 (zlen buffer) in
  let! arr := env (NewByteArray (i32 len)) in
  nonnull arr (env_ (SetByteArrayRegion arr (firstn (Z.to_nat len) buffer))) ;;; ret arr.

Definition JNU_FreeJbyteArray (arr : Z) : jni unit := env_ (DeleteLocalRef arr).

Definition JNU_JbyteArray2Buffer (arr : Z) : jni (list Z) :=
  if arr =? 0 then ret []
  else
    let! ba := ask (GetByteArrayElements arr) in
    env_ (ReleaseByteArrayElements arr) ;;; ret ba.

Definition JNU_Jstring2Wchar (jstr : Z) : jni (option (list Z)) :=
  if jstr =? 0 then ret None else env (GetStringChars jstr).

Definition JNU_FreeWchar (str : Z) : jni unit := env_ (ReleaseStringChars str).

(** The address of a wide string is taken for one of [jchar]s; the length is the
    number of wide characters. *)
Definition JNU_Wstring2Jstring (wstr : list Z) : jni Z := env (NewString (firstn (length wstr) (jchars wstr))).

Definition JNU_Wchar2JString (wchar : list Z) : jni Z := env (NewString (firstn (length wchar) (jchars wchar))).

(** The bytes are decoded by a constructor of [java.lang.String]. *)
Definition JNU_Chars2Jstring (pat : option (list Z)) : jni Z :=
  let! str_class := GetClass (cstr "java/lang/String") in
  let! ctorID := GetMethodId str_class (cstr "<init>") (cstr "([BLjava/lang/String;)V") in
  let data := match pat with Some s => s | None => [0] end in
  let! arr := env (NewByteArray (i32 (zlen data))) in
  nonnull arr (env_ (SetByteArrayRegion arr data)) ;;;
  let! encoding := env (NewStringUTF (cstr "utf-8")) in
  let! jstr := nonnull str_class (nonnull ctorID (env (NewObject str_class ctorID [Holds JObject arr; Holds JObject encoding]))) in
  env_ (DeleteLocalRef arr) ;;;
  env_ (DeleteLocalRef encoding) ;;;
  ret jstr.

Definition JNU_FreeJstring (str : Z) : jni unit := env_ (DeleteLocalRef str).

(** ** scoped_jstring.cc *)

Record ScopedJstring := mk_jstring { jstr_ : Z; char_ : option (list Z); jstr2char_ : bool }.

Definition jstring_from_java (jstr : Z) : jni ScopedJstring :=
  let! copy := env (NewLocalRef jstr) in
  if copy =? 0 then ret (mk_jstring 0 None true)
  else
    let! b := exception_pending in
    if b then ret (mk_jstring copy None true)
    else let! chars := env (GetStringUTFChars copy) in ret (mk_jstring copy chars true).

Definition jstring_from_chars (chars : option (list Z)) : jni ScopedJstring :=
  match chars with
  | None => ret (mk_jstring 0 None false)
  | Some s =>
      let! b := exception_pending in
      if b then ret (mk_jstring 0 chars false)
      else
        let! strClass := env (FindClass (cstr "java/lang/String")) in
        let! ctorID := nonnull strClass (env (GetMethodID strClass (cstr "<init>") (cstr "([BLjava/lang/String;)V"))) in
        let! arr := env (NewByteArray (i32 (zlen s))) in
        nonnull arr (env_ (SetByteArrayRegion arr s)) ;;;
        let! encoding := env (NewStringUTF (cstr "utf-8")) in
        let! jstr := nonnull ctorID (env (NewObject strClass ctorID [Holds JObject arr; Holds JObject encoding])) in
        env_ (DeleteLocalRef arr) ;;;
        env_ (DeleteLocalRef encoding) ;;;
        env_ (DeleteLocalRef strClass) ;;;
        ret (mk_jstring jstr chars false)
  end.

Definition destroy_jstring (s : ScopedJstring) : jni unit :=
  match char_ s with
  | None => ret tt
  | Some _ =>
      if jstr_ s =? 0 then ret tt
      else
        let! b := exception_pending in
        if b then ret tt
        else
          (if jstr2char_ s then env_ (ReleaseStringUTFChars (jstr_ s)) else ret tt) ;;;
          env_ (DeleteLocalRef (jstr_ s))
  end.

Definition GetChar (s : ScopedJstring) : jni (option (list Z)) :=
  let! b := exception_pending in ret (if b then None else char_ s).

Definition SafeGetChar (s : ScopedJstring) : jni (list Z) :=
  let! realstr := GetChar s in ret (match realstr with None => [] | Some r => r end).

Definition GetJstr (s : ScopedJstring) : jni Z :=
  let! b := exception_pending in ret (if b then 0 else jstr_ s).

(** ** ActivityView.cc *)

Definition KC2Java : list Z := cstr "com/mvvm/MVVMHelp".

Definition KC2Java_NotifyEventFiredBuffer : JniMethodInfo := mk_method_info KC2Java (cstr "NotifyEventFired") (cstr "(JI[B)V").
Definition KC2Java_NotifyPropertyChanged : JniMethodInfo :=
  mk_method_info KC2Java (cstr "NotifyPropertyChanged") (cstr "(JI[B)V").

(** Both functions of the file, which differ in the method. *)
Definition notify_java (info : JniMethodInfo) (instance id : Z) (value : list Z) : jni unit :=
  in_scope
    (let! j_value := JNU_Buffer2JbyteArray value in
     JNU_CallStaticMethodByMethodInfo info [Holds JLong instance; Holds JInt id; Holds JObject j_value] ;;;
     JNU_FreeJbyteArray j_value).

Definition NotifyEventFired (instance event_id : Z) (value : list Z) : jni unit :=
  notify_java KC2Java_NotifyEventFiredBuffer instance event_id value.

Definition NotifyPropertyChanged (instance event_id : Z) (new_buffer : list Z) : jni unit :=
  notify_java KC2Java_NotifyPropertyChanged instance event_id new_buffer.

(** A message that is not null is serialized. *)
Definition activity_OnPropertyChanged {M} (SerializeToString : M -> list Z) (this property_id : Z) (value : option M) : jni unit :=
  NotifyPropertyChanged this property_id (match value with Some m => SerializeToString m | None => [] end).

Definition activity_OnEventFired {M} (SerializeToString : M -> list Z) (this event_id : Z) (value : option M) : jni unit :=
  NotifyEventFired this event_id (match value with Some m => SerializeToString m | None => [] end).

(** ** native-lib.ipp *)

Definition JNI_VERSION_1_6 : Z := 65542.

(** [key_created] is whether [pthread_key_create] succeeded, [registered] the
    functions of the container. *)
Definition JNI_OnLoad (key_created : bool) (registered : list (jni unit)) (jvm : Z) : jni Z :=
  if key_created then
    in_scope
      (SetJvm jvm ;;;
       LoadClass ;;;
       LoadStaticMethod ;;;
       LoadMethod ;;;
       fold_right (fun f k => f ;;; k) (ret tt) registered) ;;;
    ret JNI_VERSION_1_6
  else ret (-1).

(** [VarCache::Release]; the sets of names are not members of the cache. *)
Definition JNI_OnUnload : jni unit :=
  delete_cache ;;;
  cache (fun c => (mk_cache 0 [] (class_name_set c) (static_method_info_set c) (method_info_set c), tt)).
End Calls.
