(* ===== verification/JniSpec.v ===== *)
(** * References are given back

    Every local reference the library makes is deleted again, except for the one
    it returns and those it makes when it is told of an exception; and what it does
    for a notification happens in a frame of its own.  The laws of the environment
    are those of the specification of JNI; they say nothing about what Java does.
    The state of the machine has a history: how many exceptions were reported to
    the thread and how many frames were refused, which is what the theorems say
    with "during the call". *)

From Stdlib Require Import String ZArith List Bool Lia Permutation.
From S2P Require Import Prelude Cpp NetClient Jni JniCall.
Import ListNotations.
Local Open Scope Z_scope.
Local Open Scope cpp_scope.
Local Open Scope jni_scope.

(** ** The laws *)

Section Laws.
Context {V : Type} (frames : V -> list (list Z)) (reported refused : V -> nat).

(** The history stays as it is. *)
Definition unnoticed (v v' : V) : Prop := reported v' = reported v /\ refused v' = refused v.

(** A new local reference in the innermost frame, or null. *)
Definition new_reference (v v' : V) (r : Z) : Prop :=
  if r =? 0 then frames v' = frames v else exists t fs, frames v = t :: fs /\ frames v' = (r :: t) :: fs.

(** A function that gives a new local reference, or null. *)
Definition gives (f : V -> V * Z) : Prop :=
  forall v v' r, f v = (v', r) -> unnoticed v v' /\ new_reference v v' r.

Definition keeps (f : V -> V) : Prop := forall v, unnoticed v (f v) /\ frames (f v) = frames v.

Definition keeps_with {A} (f : V -> V * A) : Prop := forall v, unnoticed v (fst (f v)) /\ frames (fst (f v)) = frames v.
End Laws.

(** The frames of live local references, the innermost first; how often
    [ExceptionOccurred] gave an exception, and how often [PushLocalFrame] failed.
    An exception is pending if [ExceptionCheck] says so. *)
Class JNILaws (V : Type) {ENV : JNIEnv V} := {
  frames : V -> list (list Z);
  reported : V -> nat;
  refused : V -> nat;
  frames_some : forall v, frames v <> [];
  occurred_gives : forall v v' r, ExceptionOccurred v = (v', r) -> new_reference frames v v' r;
  occurred_reports : forall v v' r, ExceptionOccurred v = (v', r) ->
    reported v' = (if r =? 0 then reported v else S (reported v)) /\ refused v' = refused v;
  occurred_check : forall v, ExceptionCheck v = negb (snd (ExceptionOccurred v) =? 0);
  check_occurred : forall v, ExceptionCheck (fst (ExceptionOccurred v)) = ExceptionCheck v;
  ensure_check : forall n v, snd (EnsureLocalCapacity n v) = 0 ->
    ExceptionCheck (fst (EnsureLocalCapacity n v)) = ExceptionCheck v;
  class_check : forall o v, ExceptionCheck (fst (GetObjectClass o v)) = ExceptionCheck v;
  method_check : forall c n s v, snd (GetMethodID c n s v) <> 0 ->
    ExceptionCheck (fst (GetMethodID c n s v)) = ExceptionCheck v;
  describe_keeps : keeps frames reported refused ExceptionDescribe;
  clear_keeps : keeps frames reported refused ExceptionClear;
  throw_keeps : forall cls msg, keeps frames reported refused (ThrowNew cls msg);
  find_gives : forall path, gives frames reported refused (FindClass path);
  global_keeps : forall r, keeps_with frames reported refused (NewGlobalRef r);
  local_gives : forall r, gives frames reported refused (NewLocalRef r);
  delete_unnoticed : forall r v, unnoticed reported refused v (DeleteLocalRef r v);
  delete_local : forall r v t fs l, frames v = t :: fs -> Permutation t (r :: l) -> r <> 0 ->
    exists t', frames (DeleteLocalRef r v) = t' :: fs /\ Permutation t' l;
  delete_null : forall v, frames (DeleteLocalRef 0 v) = frames v;
  ensure_keeps : forall n, keeps_with frames reported refused (EnsureLocalCapacity n);
  push_frame : forall n v v' r, PushLocalFrame n v = (v', r) -> reported v' = reported v /\
    (if r =? 0 then refused v' = refused v /\ frames v' = [] :: frames v
     else refused v' = S (refused v) /\ frames v' = frames v);
  pop_unnoticed : forall v, unnoticed reported refused v (PopLocalFrame v);
  pop_frame : forall v t fs, frames v = t :: fs -> fs <> [] -> frames (PopLocalFrame v) = fs;
  class_gives : forall o, gives frames reported refused (GetObjectClass o);
  class_some : forall o v, snd (GetObjectClass o v) <> 0;
  method_keeps : forall c n s, keeps_with frames reported refused (GetMethodID c n s);
  static_method_keeps : forall c n s, keeps_with frames reported refused (GetStaticMethodID c n s);
  field_keeps : forall c n s, keeps_with frames reported refused (GetFieldID c n s);
  static_field_keeps : forall c n s, keeps_with frames reported refused (GetStaticFieldID c n s);
  call_gives : forall o m args, gives frames reported refused (CallMethod JObject o m args);
  call_keeps : forall t o m args, t <> JObject -> keeps_with frames reported refused (CallMethod t o m args);
  call_static_gives : forall c m args, gives frames reported refused (CallStaticMethod JObject c m args);
  call_static_keeps : forall t c m args, t <> JObject -> keeps_with frames reported refused (CallStaticMethod t c m args);
  object_gives : forall c m args, gives frames reported refused (NewObject c m args);
  get_field_gives : forall o f, gives frames reported refused (GetField JObject o f);
  get_field_keeps : forall t o f, t <> JObject -> keeps_with frames reported refused (GetField t o f);
  get_static_field_gives : forall c f, gives frames reported refused (GetStaticField JObject c f);
  get_static_field_keeps : forall t c f, t <> JObject -> keeps_with frames reported refused (GetStaticField t c f);
  set_field_keeps : forall t o f x, keeps frames reported refused (SetField t o f x);
  array_gives : forall n, gives frames reported refused (NewByteArray n);
  region_keeps : forall a d, keeps frames reported refused (SetByteArrayRegion a d);
  elements_keep : forall a, keeps frames reported refused (ReleaseByteArrayElements a);
  string_gives : forall s, gives frames reported refused (NewString s);
  utf_gives : forall s, gives frames reported refused (NewStringUTF s);
  utf_chars_keep : forall s, keeps_with frames reported refused (GetStringUTFChars s);
  release_utf_keeps : forall s, keeps frames reported refused (ReleaseStringUTFChars s);
  specific_keeps : forall e, keeps frames reported refused (pthread_setspecific e);
  get_env_keeps : keeps_with frames reported refused GetEnv;
  attach_keeps : keeps_with frames reported refused AttachCurrentThread
}.

Create HintDb jni discriminated.
#[export] Hint Resolve describe_keeps clear_keeps throw_keeps find_gives global_keeps local_gives
  ensure_keeps class_gives method_keeps static_method_keeps field_keeps static_field_keeps call_gives call_static_gives
  object_gives get_field_gives get_static_field_gives set_field_keeps array_gives region_keeps elements_keep string_gives
  utf_gives utf_chars_keep release_utf_keeps specific_keeps get_env_keeps attach_keeps
  call_keeps call_static_keeps get_field_keeps get_static_field_keeps : jni.
#[export] Hint Extern 1 (_ <> JObject) => discriminate : jni.

(** ** Triples

    [triple pre m post]: [m] may delete the references [pre] of the innermost
    frame, and leaves the others alone; with the result [a] it leaves references
    [e], and [n] exceptions were reported to it, for which [post a e n] holds.
    Other frames stay as they are, and no frame was refused. *)

Abbreviation gives_new := (gives frames reported refused).
Abbreviation keeps_all := (keeps frames reported refused).
Abbreviation keeps_all_with := (keeps_with frames reported refused).

Section Triples.
Context {V : Type} `{L : JNILaws V}.
Abbreviation jni := (Jni.jni V).

Definition triple {A} (pre : list Z) (m : jni A) (post : A -> list Z -> nat -> Prop) : Prop :=
  forall c v c' v' a t fs l,
  m (c, v) = Ok (c', v', a) -> frames v = t :: fs -> Permutation t (pre ++ l) ->
  exists t' e n, frames v' = t' :: fs /\ (reported v' = n + reported v)%nat /\ refused v' = refused v /\
    post a e n /\ Permutation t' (e ++ l).

(** No exception was reported. *)
Definition still {A} (post : A -> list Z -> Prop) : A -> list Z -> nat -> Prop := fun a e n => post a e /\ n = 0%nat.

(** The same, with no reference gained or lost. *)
Definition neutral {A} (m : jni A) : Prop := forall pre, triple pre m (still (fun _ e => e = pre)).

Lemma t_bind {A B} pre (m : jni A) (k : A -> jni B) mid post :
  triple pre m mid -> (forall a e n, mid a e n -> triple e (k a) (fun b e' n' => post b e' (n + n')%nat)) ->
  triple pre (bind m k) post.
Proof.
  intros Hm Hk c v c' v' b t fs l. unfold bind. destruct (m (c, v)) as [[[c1 v1] a]| |] eqn:E; cbn; try discriminate.
  intros E2 Ht Hp. destruct (Hm _ _ _ _ _ _ _ _ E Ht Hp) as (t1 & e1 & n1 & F1 & N1 & Q1 & P1 & R1).
  destruct (Hk a e1 n1 P1 _ _ _ _ _ _ _ _ E2 F1 R1) as (t2 & e2 & n2 & F2 & N2 & Q2 & P2 & R2).
  exists t2, e2, (n1 + n2)%nat. repeat split; auto; [lia | congruence].
Qed.

Lemma t_step {A B} pre (m : jni A) (k : A -> jni B) mid post :
  triple pre m (still mid) -> (forall a e, mid a e -> triple e (k a) post) -> triple pre (bind m k) post.
Proof. intros Hm Hk. eapply t_bind; [exact Hm|]. intros a e n [Ha ->]. exact (Hk a e Ha). Qed.

Lemma t_conseq {A} pre (m : jni A) (post post' : A -> list Z -> nat -> Prop) :
  triple pre m post -> (forall a e n, post a e n -> post' a e n) -> triple pre m post'.
Proof.
  intros Hm Hp c v c' v' a t fs l E Ht R. destruct (Hm _ _ _ _ _ _ _ _ E Ht R) as (t1 & e & n & F & N & Q & P & R1).
  exists t1, e, n. auto 8.
Qed.

Lemma t_last {A} pre (m : jni A) mid (post : A -> list Z -> nat -> Prop) :
  triple pre m (still mid) -> (forall a e, mid a e -> post a e 0%nat) -> triple pre m post.
Proof. intros Hm Hp. eapply t_conseq; [exact Hm|]. intros a e n [Ha ->]. auto. Qed.

Lemma t_ret {A} pre (a : A) (post : A -> list Z -> nat -> Prop) : post a pre 0%nat -> triple pre (ret a) post.
Proof. intros Hp c v c' v' b t fs l E Ht R. injection E as <- <- <-. exists t, pre, 0%nat. auto 8. Qed.

Lemma t_new pre (f : V -> V * Z) c v c' v' a t fs l :
  env f (c, v) = Ok (c', v', a) -> new_reference frames v v' a -> frames v = t :: fs -> Permutation t (pre ++ l) ->
  exists t', frames v' = t' :: fs /\ Permutation t' ((if a =? 0 then pre else a :: pre) ++ l).
Proof.
  unfold new_reference. intros E Hn Ht R. destruct (a =? 0).
  - exists t. rewrite Hn. auto.
  - destruct Hn as (t0 & fs0 & F0 & F1). rewrite Ht in F0. injection F0 as <- <-.
    exists (a :: t). rewrite F1. split; [reflexivity|]. cbn. now rewrite R.
Qed.

Lemma t_gives pre f : gives_new f -> triple pre (env f) (still (fun r e => e = if r =? 0 then pre else r :: pre)).
Proof.
  intros Hf c v c' v' a t fs l E Ht R.
  assert (f v = (v', a)) as Ev by (unfold env in E; destruct (f v); now injection E as _ <- <-).
  destruct (Hf _ _ _ Ev) as [[N Q] Hn]. destruct (t_new pre f c v c' v' a t fs l E Hn Ht R) as (t' & F & P).
  exists t', (if a =? 0 then pre else a :: pre), 0%nat. unfold still. auto 8.
Qed.

Lemma n_keeps f : keeps_all f -> neutral (env_ f).
Proof.
  intros Hf pre c v c' v' a t fs l E Ht R. injection E as <- <- <-. destruct (Hf v) as [[N Q] F].
  exists t, pre, 0%nat. rewrite F. unfold still. auto 8.
Qed.

Lemma n_keeps_with {A} (f : V -> V * A) : keeps_all_with f -> neutral (env f).
Proof.
  intros Hf pre c v c' v' a t fs l. unfold env. destruct (Hf v) as [[N Q] F]. destruct (f v) as [v1 r]. cbn in N, Q, F.
  intros E Ht R. injection E as <- <- <-. exists t, pre, 0%nat. rewrite F. unfold still. auto 8.
Qed.

(** What does not touch the machine. *)
Lemma n_pure {A} (m : jni A) : (forall c v c' v' a, m (c, v) = Ok (c', v', a) -> v' = v) -> neutral m.
Proof.
  intros Hm pre c v c' v' a t fs l E Ht R. rewrite (Hm _ _ _ _ _ E). exists t, pre, 0%nat. unfold still. auto 8.
Qed.

Lemma n_ask {A} (f : V -> A) : neutral (ask f).
Proof. apply n_pure. intros c v c' v' a E. now injection E. Qed.

Lemma n_cache {A} (f : VarCache -> VarCache * A) : neutral (cache f).
Proof. apply n_pure. intros c v c' v' a. unfold cache. destruct (f c). intros E. now injection E. Qed.

Lemma n_lift {A} (o : outcome A) : neutral (lift o).
Proof. apply n_pure. intros c v c' v' a. unfold lift. destruct o; cbn; try discriminate. intros E. now injection E. Qed.

Lemma t_nonnull {A} pre r (m : jni A) post : (r <> 0 -> triple pre m post) -> triple pre (nonnull r m) post.
Proof.
  intros Hm. unfold nonnull. destruct (Z.eqb_spec r 0) as [->|Hr]; [|exact (Hm Hr)].
  intros c v c' v' a t fs l E. discriminate.
Qed.

Lemma t_delete x r pre : r <> 0 -> triple (x ++ r :: pre) (env_ (DeleteLocalRef r)) (still (fun _ e => e = x ++ pre)).
Proof.
  intros Hr c v c' v' a t fs l E Ht R. injection E as <- <- <-. destruct (delete_unnoticed r v) as [N Q].
  destruct (delete_local r v t fs (x ++ pre ++ l) Ht) as (t' & F & P); auto.
  - rewrite R, <- app_assoc. cbn. symmetry. apply Permutation_middle.
  - exists t', (x ++ pre), 0%nat. rewrite <- app_assoc. unfold still. auto 8.
Qed.

Lemma t_delete_given r pre :
  triple (if r =? 0 then pre else r :: pre) (env_ (DeleteLocalRef r)) (still (fun _ e => e = pre)).
Proof.
  destruct (Z.eqb_spec r 0) as [->|Hr]; [|exact (t_delete [] r pre Hr)].
  apply n_keeps. intros v. split; [apply delete_unnoticed | apply delete_null].
Qed.

Lemma t_class pre o : triple pre (env (GetObjectClass o)) (still (fun r e => r <> 0 /\ e = r :: pre)).
Proof.
  intros c v c' v' a t fs l E Ht R.
  assert (a <> 0) as Ha.
  { unfold env in E. pose proof (class_some o v). destruct (GetObjectClass o v). injection E as _ _ <-. auto. }
  destruct (t_gives pre _ (class_gives o) c v c' v' a t fs l E Ht R) as (t' & e & n & F & N & Q & [-> ->] & P).
  destruct (Z.eqb_spec a 0); [contradiction|]. exists t', (a :: pre), 0%nat. unfold still. auto 10.
Qed.

Lemma n_triple {A} pre (m : jni A) : neutral m -> triple pre m (still (fun _ e => e = pre)).
Proof. intros Hn. exact (Hn pre). Qed.

(** ** Automation *)

Lemma t_if {A} pre r (m1 m2 : jni A) post :
  (r = 0 -> triple pre m1 post) -> (r <> 0 -> triple pre m2 post) -> triple pre (if r =? 0 then m1 else m2) post.
Proof. intros H1 H2. destruct (Z.eqb_spec r 0); auto. Qed.
End Triples.

Ltac j_delete :=
  match goal with
  | |- triple (if ?r =? 0 then _ else _) (env_ (DeleteLocalRef ?r)) _ => apply t_delete_given
  | |- triple (?r :: ?l) (env_ (DeleteLocalRef ?r)) _ => apply (t_delete [] r l)
  | |- triple (?a :: ?r :: ?l) (env_ (DeleteLocalRef ?r)) _ => apply (t_delete [a] r l)
  | |- triple (?a :: ?b :: ?r :: ?l) (env_ (DeleteLocalRef ?r)) _ => apply (t_delete [a; b] r l)
  | |- triple (?x ++ ?r :: ?l) (env_ (DeleteLocalRef ?r)) _ => apply (t_delete x r l)
  end; try assumption.

(** A function of the environment. *)
Ltac j_env :=
  first
    [ j_delete
    | apply t_class
    | apply n_triple, n_keeps; eauto with jni; fail
    | apply n_triple, n_keeps_with; eauto with jni; fail
    | apply t_gives; eauto with jni; fail
    | apply n_triple, n_ask | apply n_triple, n_cache | apply n_triple, n_lift ].

(** Null or not, in the program and in the references. *)
Ltac j_null :=
  match goal with
  | |- triple _ (if ?r =? 0 then _ else _) _ => destruct (Z.eqb_spec r 0); [subst r|]
  | |- triple _ (nonnull ?r _) _ => unfold nonnull; destruct (Z.eqb_spec r 0); [intros ? ? ? ? ? ? ? ? ?; discriminate|]
  | |- triple _ (bind (nonnull ?r _) _) _ =>
      unfold nonnull at 1; destruct (Z.eqb_spec r 0); [intros ? ? ? ? ? ? ? ? ?; discriminate|]
  | |- triple _ (match ?o with Some _ => _ | None => _ end) _ => destruct o
  | |- triple _ (if ?b then _ else _) _ => destruct b
  end.

Ltac j_mid := let r := fresh "r" in let e := fresh "e" in intros r e; cbn beta; first [intros [? ->] | intros ->].

Ltac j_step :=
  match goal with
  | |- triple _ (ret _) _ => apply t_ret
  | |- triple _ (bind (env _) _) _ => eapply t_step; [j_env | j_mid]
  | |- triple _ (bind (env_ _) _) _ => eapply t_step; [j_env | j_mid]
  | |- triple _ (bind (ask _) _) _ => eapply t_step; [j_env | j_mid]
  | |- triple _ (bind (cache _) _) _ => eapply t_step; [j_env | j_mid]
  | |- triple _ (bind (lift _) _) _ => eapply t_step; [j_env | j_mid]
  | |- _ => j_null
  | |- triple _ (env _) _ => eapply t_last; [j_env | j_mid]
  | |- triple _ (env_ _) _ => eapply t_last; [j_env | j_mid]
  | |- triple _ (lift _) _ => eapply t_last; [j_env | j_mid]
  | |- triple _ (cache _) _ => eapply t_last; [j_env | j_mid]
  | |- triple _ ?m (still (fun _ e => e = _)) => apply n_triple; solve [eauto with jni]
  | |- triple (if _ =? 0 then ?p else _) (bind _ _) _ => apply (t_step _ _ _ (fun _ e => e = p)); [|j_mid]
  | |- triple ?p (bind _ _) _ => apply (t_step _ _ _ (fun _ e => e = p)); [|j_mid]
  end.

Section Functions.
Context {V : Type} `{L : JNILaws V}.

Lemma n_copy_message s n : neutral (copy_message s n).
Proof. intros pre. unfold copy_message. repeat j_step. split; reflexivity. Qed.

Lemma n_getExceptionSummary e n : neutral (getExceptionSummary e n).
Proof. intros pre. unfold getExceptionSummary. repeat j_step; split; reflexivity. Qed.

#[local] Hint Resolve n_copy_message n_getExceptionSummary : jni.

Lemma n_printStackTrace e n : neutral (printStackTrace e n).
Proof. intros pre. unfold printStackTrace. repeat j_step; split; reflexivity. Qed.

(** ** Exceptions

    [ExceptionOccurred] makes a reference to the exception, which nobody deletes;
    so does the class of an exception that is thrown. *)

(** An exception that is reported leaks two references at most. *)
Definition leaks (x : list Z) (n : nat) : Prop := (length x <= 2 * n)%nat.

(** Besides what it leaks, [m] leaves the references [held] of its result. *)
Definition leaky {A} (m : Jni.jni V A) (held : A -> list Z) : Prop :=
  forall pre, triple pre m (fun a e n => exists x, leaks x n /\ Permutation e (x ++ held a ++ pre)).

Definition nothing {A} (a : A) : list Z := [].

Lemma leaks_app x y n k : leaks x n -> leaks y k -> leaks (y ++ x) (n + k).
Proof. unfold leaks. rewrite length_app. lia. Qed.

Lemma leaks_nil n : leaks [] n.
Proof. unfold leaks. cbn. lia. Qed.

#[local] Hint Resolve leaks_app leaks_nil : core.

Lemma t_perm {A} pre pre' (m : Jni.jni V A) post : Permutation pre pre' -> triple pre m post -> triple pre' m post.
Proof.
  intros Hp Hm c v c' v' a t fs l E Ht R. apply (Hm c v c' v' a t fs l E Ht). now rewrite R, Hp.
Qed.

Lemma l_neutral {A} (m : Jni.jni V A) : neutral m -> leaky m nothing.
Proof. intros Hm pre. eapply t_last; [apply Hm|]. intros a e ->. exists []. auto. Qed.

Lemma l_bind {A B} (m : Jni.jni V A) (k : A -> Jni.jni V B) held :
  leaky m nothing -> (forall a, leaky (k a) held) -> leaky (bind m k) held.
Proof.
  intros Hm Hk pre. eapply t_bind; [apply Hm|]. intros a e n (x & Lx & P). cbn in P.
  eapply t_perm; [symmetry; exact P|]. eapply t_conseq; [apply Hk|]. intros b e' n' (y & Ly & P').
  exists (y ++ x). split; [auto|]. rewrite P', <- app_assoc. apply Permutation_app_head.
  rewrite !app_assoc. apply Permutation_app_tail, Permutation_app_comm.
Qed.

Lemma l_ret {A} (a : A) held : held a = [] -> leaky (ret a) held.
Proof. intros Hh pre. apply t_ret. exists []. rewrite Hh. auto. Qed.

(** Work after the result is there. *)
Lemma l_then {A B} (m : Jni.jni V A) (n : Jni.jni V B) held :
  leaky m held -> leaky n nothing -> leaky (let! a := m in n ;;; ret a) held.
Proof.
  intros Hm Hn pre. eapply t_bind; [apply Hm|]. intros a e k (x & Lx & P).
  eapply t_bind; [apply Hn|]. intros b e' k' (y & Ly & P'). apply t_ret.
  exists (y ++ x). rewrite Nat.add_0_r. split; [auto|]. cbn in P'. rewrite P', P, app_assoc. reflexivity.
Qed.

(** An exception gives one reference. *)
Lemma t_occurred pre :
  triple pre (env ExceptionOccurred)
    (fun r e n => if r =? 0 then e = pre /\ n = 0%nat else e = r :: pre /\ n = 1%nat).
Proof.
  intros c v c' v' a t fs l E Ht R.
  assert (ExceptionOccurred v = (v', a)) as Ev by (unfold env in E; destruct (ExceptionOccurred v); now injection E as _ <- <-).
  destruct (occurred_reports _ _ _ Ev) as [N Q].
  destruct (t_new pre _ c v c' v' a t fs l E (occurred_gives _ _ _ Ev) Ht R) as (t' & F & P).
  exists t', (if a =? 0 then pre else a :: pre), (if a =? 0 then 0%nat else 1%nat). rewrite N.
  destruct (a =? 0); auto 10.
Qed.

Lemma l_occurred : leaky (env ExceptionOccurred) nothing.
Proof.
  intros pre. eapply t_conseq; [apply t_occurred|]. intros r e n. cbn beta. destruct (r =? 0); intros [-> ->].
  - exists []. auto.
  - exists [r]. split; [unfold leaks; cbn; lia | reflexivity].
Qed.

(** What happens only after an exception may leak another one. *)
Lemma l_if_pending {A} (m1 m2 : Jni.jni V A) held :
  (forall pre, triple pre m1 (fun a e _ => exists x, (length x <= 1)%nat /\ Permutation e (x ++ held a ++ pre))) ->
  leaky m2 held ->
  leaky (let! b := exception_pending in if b then m1 else m2) held.
Proof.
  intros H1 H2 pre.
  apply (t_bind _ _ _ (fun b e n => if b : bool then (exists r, e = r :: pre) /\ n = 1%nat else e = pre /\ n = 0%nat)).
  - eapply t_bind; [apply t_occurred|]. intros r e n Hr. apply t_ret. rewrite Nat.add_0_r.
    cbn beta in Hr. revert Hr. destruct (r =? 0); cbn; intros [-> ->]; eauto.
  - intros [|] e n [He ->].
    + destruct He as [r ->]. eapply t_conseq; [apply H1|]. intros a e k (x & Hx & P). exists (x ++ [r]). split.
      * unfold leaks. rewrite length_app. cbn. lia.
      * rewrite P, <- app_assoc. apply Permutation_app_head. cbn. now rewrite <- Permutation_middle.
    + subst e. apply H2.
Qed.

Lemma l_throw_link_error msg : leaky (throw_link_error msg) nothing.
Proof.
  apply l_if_pending; [|now apply l_ret]. intros pre. repeat j_step.
  exists (if r0 =? 0 then [] else [r0]). destruct (r0 =? 0); split; cbn; auto.
Qed.

Lemma l_stop {A} (a : A) held (m : Jni.jni V A) :
  held a = [] -> leaky m held -> leaky (let! b := exception_pending in if b then ret a else m) held.
Proof.
  intros Ha Hm. apply l_if_pending; [|exact Hm]. intros pre. apply t_ret. exists []. rewrite Ha. auto.
Qed.

Lemma l_if {A} r (m1 m2 : Jni.jni V A) held : leaky m1 held -> leaky m2 held -> leaky (if r =? 0 then m1 else m2) held.
Proof. intros H1 H2. destruct (r =? 0); assumption. Qed.

Lemma l_cache {A} (f : VarCache -> VarCache * A) : leaky (cache f) nothing.
Proof. apply l_neutral, n_cache. Qed.

Lemma l_GetClass path : leaky (GetClass path) nothing.
Proof.
  apply l_stop; [reflexivity|]. apply l_bind; [apply l_cache|]. intros [clz|]; [now apply l_ret|].
  intros pre. eapply t_step; [apply t_gives; eauto with jni|]. intros clz e ->.
  destruct (Z.eqb_spec clz 0) as [->|Hc].
  - apply l_bind; [apply l_throw_link_error|]. intros _. now apply l_ret.
  - repeat j_step. exists []. auto.
Qed.

Lemma l_lookup_id get msg clz name sig :
  (forall c n s, keeps_all_with (get c n s)) -> leaky (lookup_id get msg clz name sig) nothing.
Proof.
  intros Hg. apply l_stop; [reflexivity|]. apply l_if; [now apply l_ret|].
  apply l_bind; [apply l_neutral, n_keeps_with, Hg|]. intros id.
  apply l_bind; [apply l_throw_link_error|]. intros _. now apply l_ret.
Qed.

Lemma l_jniLogException : leaky jniLogException nothing.
Proof.
  apply l_bind; [apply l_occurred|]. intros e. apply l_if; [now apply l_ret|].
  apply l_bind; [apply l_neutral, n_keeps, describe_keeps|]. intros _.
  apply l_bind; [apply l_neutral, n_keeps, clear_keeps|]. intros _.
  apply l_bind; [apply l_neutral, n_printStackTrace|]. intros text. now apply l_ret.
Qed.

(** ** Results *)

(** The reference in a value. *)
Definition held (r : jvalue) : list Z :=
  match r with
  | Holds JObject v => if v =? 0 then [] else [v]
  | _ => []
  end.

Lemma l_typed (call : jtype -> V -> V * Z) t :
  gives_new (call JObject) -> (forall t, t <> JObject -> keeps_all_with (call t)) ->
  leaky (let! v := env (call t) in ret (jvalue_of t v)) held.
Proof.
  intros Hg Hk pre. destruct t.
  2: { eapply t_step; [apply t_gives, Hg|]. intros v e ->. apply t_ret. exists []. split; [auto|]. cbn.
       destruct (v =? 0); reflexivity. }
  all: eapply t_step; [apply n_triple, n_keeps_with, Hk; discriminate|]; intros v e ->; apply t_ret; exists []; auto.
Qed.

Lemma l_of_type ty (k : jtype -> Jni.jni V jvalue) : (forall t, leaky (k t) held) -> leaky (of_type ty k) held.
Proof. intros Hk. destruct ty; [apply Hk|]. intros pre c v c' v' a t fs l E. discriminate. Qed.

Lemma l_call_and_log call d :
  gives_new (call JObject) -> (forall t, t <> JObject -> keeps_all_with (call t)) -> leaky (call_and_log call d) held.
Proof.
  intros Hg Hk. apply l_bind; [apply l_neutral, n_lift|]. intros c.
  apply l_then; [|apply l_jniLogException]. apply l_of_type. intros t. now apply l_typed.
Qed.

(** Work with the class of an object, which is deleted at the end. *)
Lemma l_with_class {A B} o (m : Z -> Jni.jni V A) (k : Z -> A -> Jni.jni V B) heldB :
  (forall r, leaky (m r) nothing) -> (forall r a, leaky (k r a) heldB) ->
  leaky (let! r := nonnull o (env (GetObjectClass o)) in
         let! a := m r in let! b := k r a in env_ (DeleteLocalRef r) ;;; ret b) heldB.
Proof.
  intros Hm Hk pre. eapply t_step; [apply t_nonnull; intros _; apply t_class|]. intros r e [Hr ->].
  eapply t_bind; [apply Hm|]. intros a e n (x & Lx & P). cbn in P. eapply t_perm; [symmetry; exact P|].
  eapply t_bind; [apply Hk|]. intros b e' n' (y & Ly & P'). eapply t_perm; [symmetry; exact P'|].
  eapply t_step; [eapply t_perm; [|apply (t_delete (y ++ heldB b ++ x) r pre Hr)]|].
  - rewrite <- !app_assoc. reflexivity.
  - intros _ e2 ->. apply t_ret. exists (y ++ x). rewrite Nat.add_0_r. split; [auto|].
    rewrite <- !app_assoc. apply Permutation_app_head. rewrite !app_assoc. apply Permutation_app_tail, Permutation_app_comm.
Qed.

Lemma l_CallMethod obj name d args : leaky (JNU_CallMethodByName obj name d args) held.
Proof.
  apply l_bind; [apply l_neutral, n_keeps_with, ensure_keeps|]. intros ok. apply l_if; [|now apply l_ret].
  apply (l_with_class obj (fun clazz => GetMethodId clazz name d)
           (fun clazz mid => if mid =? 0 then ret Cleared else call_and_log (fun t => CallMethod t obj mid args) d)).
  - intros clazz. apply l_lookup_id, method_keeps.
  - intros clazz mid. apply l_if; [now apply l_ret|]. apply l_call_and_log; eauto with jni.
Qed.

Lemma l_CallStaticMethod clazz name d args : leaky (JNU_CallStaticMethodByName clazz name d args) held.
Proof.
  apply l_bind; [apply l_lookup_id, static_method_keeps|]. intros mid. apply l_if; [now apply l_ret|].
  apply l_call_and_log; eauto with jni.
Qed.

Lemma l_CallStaticMethodInfo info args : leaky (JNU_CallStaticMethodByMethodInfo info args) held.
Proof. apply l_bind; [apply l_GetClass|]. intros clazz. apply l_CallStaticMethod. Qed.

Lemma l_GetStaticField clazz name sig : leaky (JNU_GetStaticField clazz name sig) held.
Proof.
  apply l_bind; [apply l_lookup_id, static_field_keeps|]. intros fid. apply l_if; [now apply l_ret|].
  apply l_then; [|apply l_jniLogException]. apply l_of_type. intros t.
  apply (l_typed (fun t => GetStaticField t clazz fid)); eauto with jni.
Qed.

Lemma l_object_field obj name sig : leaky (object_field obj name sig) nothing.
Proof.
  intros pre. eapply t_step; [apply t_nonnull; intros _; apply t_class|]. intros r e [Hr ->].
  eapply t_bind; [apply l_lookup_id, field_keeps|]. intros fid e n (x & Lx & P). cbn in P. eapply t_perm; [symmetry; exact P|].
  eapply t_step; [apply (t_delete x r pre Hr)|]. intros _ e2 ->. apply t_ret. exists x. rewrite Nat.add_0_r. auto.
Qed.

Lemma l_GetField obj name sig : leaky (JNU_GetField obj name sig) held.
Proof.
  apply l_stop; [reflexivity|]. apply l_bind; [apply l_object_field|]. intros fid. apply l_if; [now apply l_ret|].
  apply l_then; [|apply l_jniLogException]. apply l_of_type. intros t.
  apply (l_typed (fun t => GetField t obj fid)); eauto with jni.
Qed.

Lemma l_SetField obj name sig x : leaky (JNU_SetField obj name sig x) held.
Proof.
  apply l_stop; [reflexivity|]. apply l_bind; [apply l_object_field|]. intros fid. apply l_if; [now apply l_ret|].
  apply l_bind.
  - destruct (field_type sig); cbn; [|intros pre c v c' v' a t fs l E; discriminate].
    apply l_bind; [apply l_neutral, n_lift|]. intros y.
    apply l_bind; [apply l_neutral, n_keeps, set_field_keeps|]. intros _. now apply l_ret.
  - intros _. apply l_bind; [apply l_jniLogException|]. intros _. now apply l_ret.
Qed.

(** ** Scopes *)

(** The constructor pushes a frame, which may be refused; if there is an
    environment the destructor pops one all the same. *)
Lemma scope_enter_frames c v c' v' s :
  scope_enter true 16 (c, v) = Ok (c', v', s) -> se_env s <> 0 -> se_frame s = true /\
  (refused v' = refused v /\ frames v' = [] :: frames v \/ refused v' = S (refused v) /\ frames v' = frames v).
Proof.
  unfold scope_enter, bind, ask, env, env_, ret. cbn [outcome_bind].
  assert (forall w e b, unnoticed reported refused v w -> frames w = frames v ->
    match (let (w', a) := PushLocalFrame 16 w in Ok (c, w', a)) with
    | Ok a => let '(c1, v1, _) := a in Ok (c1, v1, mk_scope e true b)
    | Throws => Throws | Undefined => Undefined
    end = Ok (c', v', s) -> se_env s <> 0 -> se_frame s = true /\
    (refused v' = refused v /\ frames v' = [] :: frames v \/ refused v' = S (refused v) /\ frames v' = frames v)) as Hx.
  { intros w e b [_ Q] Hw. destruct (PushLocalFrame 16 w) as [w' a] eqn:Ep. destruct (push_frame _ _ _ _ Ep) as [_ Hf].
    intros E _. injection E as _ <- <-. rewrite <- Q, <- Hw. destruct (a =? 0); auto. }
  destruct (negb (pthread_getspecific v =? 0)) eqn:E0; cbn [outcome_bind fst snd].
  - destruct (pthread_getspecific v =? 0); [discriminate|]. apply Hx; [split|]; reflexivity.
  - destruct (get_env_keeps v) as [U1 G1]. destruct (GetEnv v) as [v1 [e|]]; cbn [outcome_bind fst snd] in *.
    + destruct (e =? 0); [intros E Hs; injection E as _ _ <-; now contradiction Hs | now apply Hx].
    + destruct (attach_keeps v1) as [U2 G2]. destruct (AttachCurrentThread v1) as [v2 [e|]]; cbn [outcome_bind fst snd] in *.
      * destruct (e =? 0); [intros E Hs; injection E as _ _ <-; now contradiction Hs|].
        destruct (specific_keeps e v2) as [U3 G3]. unfold unnoticed in *. apply Hx; [split|]; intuition congruence.
      * intros E Hs. injection E as _ _ <-. now contradiction Hs.
Qed.

(** Whatever a body leaves in its frame is gone with it; if there was no frame,
    the one of the caller is. *)
Lemma in_scope_frames {A} (body : Jni.jni V A) (post : list Z -> A -> list Z -> nat -> Prop) c v c' v' a t fs :
  (forall pre, triple pre body (post pre)) -> frames v = t :: fs -> in_scope body (c, v) = Ok (c', v', a) ->
  refused v' = refused v /\ frames v' = frames v \/ refused v' = S (refused v) /\ (fs <> [] -> frames v' = fs).
Proof.
  intros Hb Ht. unfold in_scope, bind at 1. destruct (scope_enter true 16 (c, v)) as [[[c1 v1] s]| |] eqn:E1; cbn; try discriminate.
  unfold bind at 1. destruct (nonnull (se_env s) body (c1, v1)) as [[[c2 v2] b]| |] eqn:E2; cbn; try discriminate.
  unfold nonnull in E2. destruct (Z.eqb_spec (se_env s) 0) as [|Hs]; [discriminate|].
  destruct (scope_enter_frames _ _ _ _ _ E1 Hs) as [Hf Hcase].
  unfold scope_leave, bind, env_, ret. rewrite Hf. apply Z.eqb_neq in Hs. rewrite Hs. cbn.
  intros E3. injection E3 as _ <- _. destruct (pop_unnoticed v2) as [_ Qp]. rewrite Qp.
  destruct Hcase as [[Q1 F1]|[Q1 F1]]; [left|right].
  - destruct (Hb [] c1 v1 c2 v2 b [] (frames v) [] E2 F1 (Permutation_refl _)) as (t' & e & n & F2 & _ & Q2 & _).
    split; [congruence|]. exact (pop_frame v2 t' (frames v) F2 (frames_some v)).
  - rewrite Ht in F1. destruct (Hb [] c1 v1 c2 v2 b t fs t E2 F1 (Permutation_refl _)) as (t' & e & n & F2 & _ & Q2 & _).
    split; [congruence|]. intros Hfs. exact (pop_frame v2 t' fs F2 Hfs).
Qed.

Lemma t_array pre buffer : triple pre (JNU_Buffer2JbyteArray buffer) (still (fun r e => r <> 0 /\ e = r :: pre)).
Proof.
  unfold JNU_Buffer2JbyteArray. cbv zeta. eapply t_step; [apply t_gives, array_gives|]. intros r e ->.
  j_null. eapply t_step; [apply n_triple, n_keeps, region_keeps|]. intros _ e ->. apply t_ret. repeat split; auto.
Qed.

(** The body of a notification deletes its array. *)
Lemma t_notify info instance id value pre : triple pre
  (let! j_value := JNU_Buffer2JbyteArray value in
   JNU_CallStaticMethodByMethodInfo info [Holds JLong instance; Holds JInt id; Holds JObject j_value] ;;;
   JNU_FreeJbyteArray j_value) (fun _ e n => exists r x, leaks x n /\ Permutation e (x ++ held r ++ pre)).
Proof.
  eapply t_step; [apply t_array|]. intros j e [Hj ->].
  eapply t_bind; [apply l_CallStaticMethodInfo|]. intros r e n (x & Lx & P). eapply t_perm; [symmetry; exact P|].
  eapply t_last; [eapply t_perm; [|apply (t_delete (x ++ held r) j pre Hj)]|].
  - rewrite <- app_assoc. reflexivity.
  - intros _ e2 ->. exists r, x. rewrite Nat.add_0_r. split; [exact Lx|]. now rewrite <- app_assoc.
Qed.

(** ** Returning *)

(** The test says whether an exception is pending, and does not change that. *)
Lemma pending_check c v : exists v', exception_pending (c, v) = Ok (c, v', ExceptionCheck v) /\
  ExceptionCheck v' = ExceptionCheck v /\ (ExceptionCheck v = false -> reported v' = reported v).
Proof.
  unfold exception_pending, bind, env, ret. pose proof (occurred_check v) as Hc. pose proof (check_occurred v) as Hk.
  destruct (ExceptionOccurred v) as [v' e] eqn:E. destruct (occurred_reports _ _ _ E) as [N _]. cbn in *.
  exists v'. rewrite Hc. repeat split; [congruence|]. rewrite N. destruct (e =? 0); [auto | discriminate].
Qed.

Lemma log_returns c v : ExceptionCheck v = false ->
  exists v', jniLogException (c, v) = Ok (c, v', None) /\ reported v' = reported v.
Proof.
  intros Hq. unfold jniLogException, bind, env, ret. pose proof (occurred_check v) as Hc.
  destruct (ExceptionOccurred v) as [v' e] eqn:E. destruct (occurred_reports _ _ _ E) as [N _]. cbn in *.
  destruct (e =? 0); [cbn; eauto | rewrite Hc in Hq; discriminate].
Qed.

Lemma link_error_returns msg c v : exists v', throw_link_error msg (c, v) = Ok (c, v', tt) /\
  (ExceptionCheck v = false -> ExceptionCheck v' = false /\ reported v' = reported v).
Proof.
  unfold throw_link_error, bind at 1. destruct (pending_check c v) as (v1 & -> & C1 & N1). cbn.
  destruct (ExceptionCheck v).
  - unfold bind, env, env_. cbn. destruct (FindClass _ _) as [v2 cls]. cbn. eexists. split; [reflexivity | discriminate].
  - exists v1. auto.
Qed.

(** An id that is found leaves no exception. *)
Lemma method_returns clz name sig c v :
  exists v' id, GetMethodId clz name sig (c, v) = Ok (c, v', id) /\
    (id <> 0 -> ExceptionCheck v' = false /\ exists u, id = snd (GetMethodID clz name sig u)) /\
    (ExceptionCheck v = false -> (forall w, ExceptionCheck w = false -> snd (GetMethodID clz name sig w) <> 0) ->
     reported v' = reported v).
Proof.
  unfold GetMethodId, lookup_id, bind at 1. destruct (pending_check c v) as (v1 & -> & C1 & N1). cbn.
  destruct (ExceptionCheck v) eqn:C0; [cbn; eexists _, _; split; [reflexivity|]; split; [contradiction | discriminate]|].
  destruct (clz =? 0); [cbn; eexists _, _; split; [reflexivity|]; split; [contradiction | auto]|].
  unfold bind at 1, env. pose proof (method_check clz name sig v1) as Hm. destruct (method_keeps clz name sig v1) as [[N2 _] _].
  destruct (GetMethodID clz name sig v1) as [v2 id] eqn:E. cbn in *.
  unfold bind at 1. destruct (link_error_returns (cstr "method:" ++ name ++ cstr ", sig:" ++ sig) c v2) as (v3 & E3 & C3).
  unfold cstr in *. cbn in E3 |- *. rewrite E3. cbn. exists v3, id. split; [reflexivity|]. split.
  - intros Hi. split; [apply C3; rewrite Hm by exact Hi; congruence|]. exists v1. now rewrite E.
  - intros _ Hf. specialize (Hf v1 ltac:(congruence)). rewrite E in Hf. cbn in Hf.
    destruct C3 as [_ ->]; [rewrite Hm by exact Hf; congruence|]. rewrite N2. auto.
Qed.

(** No method of this name and descriptor throws when it is called so. *)
Definition no_throw (ty : jtype) (obj : Z) (name d : list Z) (args : list jvalue) : Prop :=
  forall clazz u w, ExceptionCheck w = false ->
  ExceptionCheck (fst (CallMethod ty obj (snd (GetMethodID clazz name d u)) args w)) = false.

(** The method is found. *)
Definition found (name d : list Z) : Prop :=
  forall clazz w, ExceptionCheck w = false -> snd (GetMethodID clazz name d w) <> 0.

Lemma call_keeps_reported ty obj mid args w : reported (fst (CallMethod ty obj mid args w)) = reported w.
Proof.
  destruct (match ty with JObject => true | _ => false end) eqn:Et.
  - destruct ty; try discriminate. destruct (CallMethod JObject obj mid args w) as [w' r] eqn:E.
    exact (proj1 (proj1 (call_gives obj mid args _ _ _ E))).
  - assert (ty <> JObject) as Hn by (intros ->; discriminate). exact (proj1 (proj1 (call_keeps ty obj mid args Hn w))).
Qed.

Lemma call_returns obj name d args c v r t :
  obj <> 0 -> skip_arguments d = Ok r -> jtype_of r = Some t -> no_throw t obj name d args ->
  exists c' v' x, JNU_CallMethodByName obj name d args (c, v) = Ok (c', v', x) /\
    (ExceptionCheck v = false -> found name d -> reported v' = reported v).
Proof.
  intros Ho Hd Ht Hn. unfold JNU_CallMethodByName, bind at 1, env at 1.
  pose proof (ensure_check 2 v) as C1. destruct (ensure_keeps 2 v) as [[N1 _] _]. destruct (EnsureLocalCapacity 2 v) as [v1 ok]. cbn in *.
  destruct (Z.eqb_spec ok 0) as [Hok|]; [|cbn; eauto 6]. specialize (C1 Hok). unfold nonnull. destruct (Z.eqb_spec obj 0); [contradiction|].
  unfold bind at 1, env at 1. pose proof (class_check obj v1) as C2.
  destruct (GetObjectClass obj v1) as [v2 clazz] eqn:E2. destruct (class_gives obj _ _ _ E2) as [[N2 _] _]. cbn in *.
  unfold bind at 1. destruct (method_returns clazz name d c v2) as (v3 & mid & -> & C3 & N3). cbn. unfold bind at 1.
  assert (ExceptionCheck v = false -> found name d -> reported v3 = reported v) as N03.
  { intros Hv Hf. rewrite N3, N2, N1; [reflexivity | congruence | exact (Hf clazz)]. }
  destruct (Z.eqb_spec mid 0) as [|Hm].
  { cbn. eexists _, _, _. split; [reflexivity|]. intros Hv Hf. destruct (delete_unnoticed clazz v3) as [-> _]. auto. }
  unfold call_and_log, bind at 1, lift. rewrite Hd. cbn. rewrite Ht. cbn.
  unfold bind at 1, bind at 1, env at 1. destruct (C3 Hm) as [C3' [u Hu]]. pose proof (Hn clazz u v3 C3') as C4. rewrite <- Hu in C4. pose proof (call_keeps_reported t obj mid args v3) as N4.
  destruct (CallMethod t obj mid args v3) as [v4 x]. cbn in *. unfold bind at 1.
  destruct (log_returns c v4 C4) as (v5 & -> & N5). cbn. eexists _, _, _. split; [reflexivity|].
  intros Hv Hf. destruct (delete_unnoticed clazz v5) as [-> _]. rewrite N5, N4. auto.
Qed.
End Functions.

(** ** The cache *)

Lemma class_find_app path m e : class_find path (m ++ [(path, e)]) = Some (match class_find path m with Some r => r | None => e end).
Proof.
  induction m as [|[p c] m IH]; cbn.
  - unfold bytes_eqb. destruct (list_eq_dec Z.eq_dec path path); congruence.
  - destruct (bytes_eqb p path); [reflexivity | exact IH].
Qed.

(** A class that was found once is found again, with the same reference and
    without a search, unless an exception is pending. *)
Theorem class_cached {V : Type} `{L : JNILaws V} path c v c' v' r :
  GetClass path (c, v) = Ok (c', v', r) -> r <> 0 ->
  class_find path (class_map_ c') = Some r /\
  forall c2 v2, class_find path (class_map_ c2) = Some r -> ExceptionCheck v2 = false ->
    exists v3, GetClass path (c2, v2) = Ok (c2, v3, r).
Proof.
  intros E Hr. split.
  - revert E. unfold GetClass, bind at 1. destruct (pending_check c v) as (v1 & -> & _). cbn [outcome_bind].
    destruct (ExceptionCheck v); [intros E; injection E as <- <- <-; contradiction|].
    unfold bind at 1, cache at 1. cbn [outcome_bind]. destruct (class_find path (class_map_ c)) as [r'|] eqn:Ef.
    + intros E. injection E as <- <- <-. exact Ef.
    + unfold bind at 1, env at 1. destruct (FindClass path v1) as [v2 clz]. cbn [outcome_bind]. destruct (clz =? 0).
      * unfold bind at 1. destruct (throw_link_error _ (c, v2)) as [[[c1 w] []]| |]; cbn; try discriminate.
        intros E. injection E as <- <- <-. contradiction.
      * unfold bind, env, env_, cache, ret. destruct (NewGlobalRef clz v2) as [v4 g]. cbn. intros E. injection E as <- <- <-.
        cbn. rewrite class_find_app, Ef. reflexivity.
  - intros c2 v2 Ef Hc. unfold GetClass, bind at 1. destruct (pending_check c2 v2) as (v3 & -> & _). rewrite Hc. cbn [outcome_bind].
    unfold bind at 1, cache. cbn [outcome_bind]. rewrite Ef. exists v3. reflexivity.
Qed.

(** A wide string goes to Java with its halves taken for characters: of two
    letters the first arrives, followed by the upper half of it. *)
Lemma wide_string_halved {V : Type} `{JNIEnv V} a b :
  0 <= a < 65536 -> JNU_Wstring2Jstring (V := V) [a; b] = env (NewString [a; 0]).
Proof.
  intros Ha. unfold JNU_Wstring2Jstring, jchars. cbn [flat_map app length firstn].
  change 65535 with (Z.ones 16). rewrite !Z.land_ones, Z.shiftr_div_pow2 by lia.
  rewrite (Z.mod_small a), (Z.div_small a) by (change (2 ^ 16) with 65536; lia). reflexivity.
Qed.


(** ** A machine for the witness

    It finds every class and every method that has a name; the methods called
    [fail] throw, and there is room for four frames. *)

Record toy := mk_toy {
  toy_top : list Z; toy_below : list (list Z); toy_next : positive;
  toy_pending : bool; toy_reported : nat; toy_refused : nat
}.

Definition toy_set (top : list Z) (below : list (list Z)) (v : toy) : toy :=
  mk_toy top below (toy_next v) (toy_pending v) (toy_reported v) (toy_refused v).

Definition toy_throw (b : bool) (v : toy) : toy :=
  mk_toy (toy_top v) (toy_below v) (toy_next v) b (toy_reported v) (toy_refused v).

Definition toy_give (v : toy) : toy * Z :=
  (mk_toy (Z.pos (toy_next v) :: toy_top v) (toy_below v) (Pos.succ (toy_next v)) (toy_pending v) (toy_reported v) (toy_refused v),
   Z.pos (toy_next v)).

Definition toy_report (v : toy) : toy :=
  mk_toy (toy_top v) (toy_below v) (toy_next v) (toy_pending v) (S (toy_reported v)) (toy_refused v).

Definition toy_refuse (v : toy) : toy :=
  mk_toy (toy_top v) (toy_below v) (toy_next v) true (toy_reported v) (S (toy_refused v)).

Definition toy_method (name : list Z) (v : toy) : toy * Z :=
  match name with
  | [] => (toy_throw true v, 0)
  | _ => (v, if bytes_eqb name (cstr "fail") then 2 else 1)
  end.

Definition toy_call (t : jtype) (mid : Z) (v : toy) : toy * Z :=
  if mid =? 2 then (toy_throw true v, 0)
  else match t with JObject => toy_give v | _ => (v, 5) end.

Definition toy_get (t : jtype) (v : toy) : toy * Z := match t with JObject => toy_give v | _ => (v, 5) end.

Fixpoint remove_one (r : Z) (l : list Z) : list Z :=
  match l with
  | [] => []
  | x :: l' => if x =? r then l' else x :: remove_one r l'
  end.

#[local] Instance toy_env : JNIEnv toy := {|
  ExceptionOccurred v := if toy_pending v then toy_give (toy_report v) else (v, 0);
  ExceptionCheck v := toy_pending v;
  ExceptionDescribe v := v;
  ExceptionClear v := toy_throw false v;
  ThrowNew _ _ v := toy_throw true v;
  FindClass _ v := toy_give v;
  NewGlobalRef r v := (v, r);
  DeleteGlobalRef _ v := v;
  NewLocalRef _ v := toy_give v;
  DeleteLocalRef r v := if r =? 0 then v else toy_set (remove_one r (toy_top v)) (toy_below v) v;
  EnsureLocalCapacity _ v := (v, 0);
  PushLocalFrame _ v := if (length (toy_below v) <? 3)%nat then (toy_set [] (toy_top v :: toy_below v) v, 0) else (toy_refuse v, -1);
  PopLocalFrame v := match toy_below v with t :: b => toy_set t b v | [] => v end;
  GetObjectClass _ v := toy_give v;
  GetMethodID _ name _ v := toy_method name v;
  GetStaticMethodID _ name _ v := toy_method name v;
  GetFieldID _ name _ v := toy_method name v;
  GetStaticFieldID _ name _ v := toy_method name v;
  CallMethod t _ mid _ v := toy_call t mid v;
  CallStaticMethod t _ mid _ v := toy_call t mid v;
  NewObject _ _ _ v := toy_give v;
  GetField t _ _ v := toy_get t v;
  GetStaticField t _ _ v := toy_get t v;
  SetField _ _ _ _ v := v;
  NewByteArray _ v := toy_give v;
  SetByteArrayRegion _ _ v := v;
  GetByteArrayElements _ _ := [];
  ReleaseByteArrayElements _ v := v;
  NewString _ v := toy_give v;
  NewStringUTF _ v := toy_give v;
  GetStringUTFChars _ v := (v, Some []);
  ReleaseStringUTFChars _ v := v;
  GetStringLength _ _ := 0;
  GetStringUTFRegion _ _ _ := [];
  GetStringChars _ v := (v, None);
  ReleaseStringChars _ v := v;
  pthread_getspecific _ := 1;
  pthread_setspecific _ v := v;
  GetEnv v := (v, Some 1);
  AttachCurrentThread v := (v, Some 1)
|}.

Definition toy_frames (v : toy) : list (list Z) := toy_top v :: toy_below v.

Abbreviation toy_gives_new := (gives toy_frames toy_reported toy_refused).

Lemma toy_give_gives : toy_gives_new toy_give.
Proof. intros v v' r E. injection E as <- <-. repeat split. exists (toy_top v), (toy_below v). auto. Qed.

Lemma toy_call_gives mid : toy_gives_new (toy_call JObject mid).
Proof.
  intros v v' r. unfold toy_call. destruct (mid =? 2); [|apply toy_give_gives]. intros E. injection E as <- <-. repeat split.
Qed.

Lemma toy_call_keeps t mid : t <> JObject -> keeps_with toy_frames toy_reported toy_refused (toy_call t mid).
Proof. intros Ht v. unfold toy_call. destruct (mid =? 2), t; first [contradiction | repeat split]. Qed.

Lemma toy_get_keeps t : t <> JObject -> keeps_with toy_frames toy_reported toy_refused (toy_get t).
Proof. intros Ht v. destruct t; first [contradiction | repeat split]. Qed.

Lemma toy_method_keeps name : keeps_with toy_frames toy_reported toy_refused (toy_method name).
Proof. intros v. unfold toy_method. destruct name; repeat split. Qed.

Lemma toy_occurred v v' r : ExceptionOccurred v = (v', r) ->
  new_reference toy_frames v v' r /\ toy_reported v' = (if r =? 0 then toy_reported v else S (toy_reported v)) /\
  toy_refused v' = toy_refused v.
Proof.
  cbn. destruct (toy_pending v); intros E; injection E as <- <-; repeat split.
  exists (toy_top v), (toy_below v). auto.
Qed.

Lemma remove_one_perm r t l : Permutation t (r :: l) -> Permutation (remove_one r t) l.
Proof.
  intros Hp. assert (In r t) as Hi by (rewrite Hp; now left).
  apply (Permutation_cons_inv (a := r)). rewrite <- Hp. clear Hp.
  induction t as [|x t IH]; [contradiction|]. cbn. destruct (Z.eqb_spec x r) as [->|Hx]; [reflexivity|].
  destruct Hi as [Hi|Hi]; [contradiction|]. rewrite perm_swap. now rewrite IH.
Qed.

Lemma toy_push n v v' r : PushLocalFrame n v = (v', r) -> toy_reported v' = toy_reported v /\
  (if r =? 0 then toy_refused v' = toy_refused v /\ toy_frames v' = [] :: toy_frames v
   else toy_refused v' = S (toy_refused v) /\ toy_frames v' = toy_frames v).
Proof. cbn [PushLocalFrame toy_env]. destruct (length (toy_below v) <? 3)%nat; intros E; injection E as <- <-; repeat split. Qed.

#[local] Instance toy_laws : JNILaws toy.
Proof.
  apply (Build_JNILaws toy toy_env toy_frames toy_reported toy_refused);
    try discriminate; try (intros; intros v; repeat split; fail); try (intros; intros v v' r; apply toy_give_gives; fail);
    try (intros; apply toy_call_gives); try (intros; now apply toy_call_keeps); try (intros; now apply toy_get_keeps);
    try (intros; apply toy_method_keeps).
  - intros v v' r E. exact (proj1 (toy_occurred v v' r E)).
  - intros v v' r E. exact (proj2 (toy_occurred v v' r E)).
  - intros v. cbn. destruct (toy_pending v); reflexivity.
  - intros v. cbn. destruct (toy_pending v) eqn:E; cbn; auto.
  - reflexivity.
  - reflexivity.
  - intros c n z v. cbn. unfold toy_method. destruct n; [contradiction | reflexivity].
  - intros r v v2 r2. exact (toy_give_gives v v2 r2).
  - intros r v. cbn. destruct (r =? 0); split; reflexivity.
  - intros r v t fs l Ht Hp Hr. injection Ht as <- <-. cbn. destruct (Z.eqb_spec r 0); [contradiction|].
    eexists. split; [reflexivity|]. now apply remove_one_perm.
  - reflexivity.
  - exact toy_push.
  - intros v. cbn. destruct (toy_below v); split; reflexivity.
  - intros v t fs Ht Hf. injection Ht as <- <-. unfold toy_frames. cbn. destruct (toy_below v); [contradiction | reflexivity].
Defined.

Definition toy_start : toy := mk_toy [7] [] 8 false 0 0.

Definition toy_full : toy := mk_toy [7] [[6]; [5]; [4]] 8 false 0 0.

