(* ===== verification/NativeLib.v ===== *)
(** * The entry points of Java

    src/mvvm/native-lib.ipp: the functions Java calls to start the application and
    to create, bind, use and unbind the views behind its activities.  A view is
    known to Java by its address.  The view models and the events of the Android
    application are not part of src/: what a view model subscribes to, the
    numbers of the events and the messages they carry are parameters. *)

From Stdlib Require Import ZArith List Bool Lia.
From S2P Require Import Prelude Cpp Mvvm MvvmSpec Jni JniCall.
Import ListNotations.
Local Open Scope Z_scope.
Local Open Scope cpp_scope.
Local Open Scope jni_scope.

(** ** Data *)

(** The events of the switch. *)
Record event_ids := mk_event_ids {
  kEventAddSocks5Server : Z;
  kEventDeleteSocks5Server : Z;
  kEventGetSelectApp : Z;
  kEventUpdateSelectApp : Z;
  kEventClearSocks5Server : Z
}.

(** The classes of messages that are decoded. *)
Inductive pb_class := mvvm_Socks5Info | mvvm_ParamInt32 | mvvm_AppInfoList.

Section Entry.
Context {V : Type} `{JNIEnv V} {D B Msg : Type}.
(** [ParseFromString] into a new message of a class. *)
Variable parse_pb : pb_class -> list Z -> Msg.
Variable events : event_ids.
(** What [OnAttach] of a view model of some type subscribes to for the view at
    some address: models, events and delegates.  [OnDetach] does nothing. *)
Variable subscriptions : Z -> Z -> list (Z * Z * D).
(** The call of a builder, which gives a view model of the type. *)
Variable run_builder : B -> option (ViewModel Z Z).

(** The live views with their view models, by address; the calls of
    [OnEventFired] of view models. *)
Record android := mk_android {
  builders : list (Z * B);
  system : mvvm (D := D) (P := Z) (E := Z);
  handled : list (Z * Z * option Msg)
}.

Definition set_android (w : mvvm) (a : android) : android := mk_android (builders a) w (handled a).

(** [delete] of a view. *)
Definition map_erase {X} (k : Z) (m : list (Z * X)) : list (Z * X) := filter (fun e => negb (fst e =? k)) m.

(** ** Functions *)

Definition attach_view (this : Z) (f : framework D) (v : ViewModel Z Z) : framework D * ViewModel Z Z :=
  fold_left (fun r x => let '(model, event, d) := x in SUBSCRIE_EVENT model event d (fst r) (snd r))
    (subscriptions (viewmode_type_ v) this) (f, v).

(** [DecodePbMessage]. *)
Definition DecodePbMessage (c : pb_class) (buffer : list Z) : Msg := parse_pb c buffer.

(** [this] is what [new] returns. *)
Definition NativeCreateViewModel (this viewmode_type : Z) (a : android) : outcome android :=
  let? vm := CreateVM run_builder this this viewmode_type (builders a) in
  Ok (set_android (mk_mvvm (frame (system a)) (map_set this vm (views (system a)))) a).

(** The view at an address; there is none after [delete]. *)
Definition view_at {X} (instance : Z) (a : android) (k : ViewModel Z Z -> outcome X) : outcome X :=
  match map_find instance (views (system a)) with
  | Some vm => k vm
  | None => Undefined
  end.

Definition NativeBindViewModel (instance : Z) (a : android) : outcome android :=
  view_at instance a (fun vm =>
    let? r := BindVM (attach_view instance) instance (frame (system a)) (Some vm) in
    Ok (set_android (mk_mvvm (fst r) (map_set instance (snd r) (views (system a)))) a)).

(** With the view its view model is destroyed. *)
Definition NativeUnbindViewModel (instance : Z) (a : android) : outcome android :=
  view_at instance a (fun vm =>
    let? r := UnBindVM no_detach (frame (system a)) (Some vm) in
    let (f, _) := UnSubscrieAllEvent (fst r) (snd r) in
    Ok (set_android (mk_mvvm f (map_erase instance (views (system a)))) a)).

(** The switch; the default is [BOOST_VERIFY(false)], which stops the program. *)
Definition decode_event (event_id : Z) (pb_buffer : list Z) : outcome (option Msg) :=
  if event_id =? kEventAddSocks5Server events then Ok (Some (DecodePbMessage mvvm_Socks5Info pb_buffer))
  else if (event_id =? kEventDeleteSocks5Server events) || (event_id =? kEventGetSelectApp events)
  then Ok (Some (DecodePbMessage mvvm_ParamInt32 pb_buffer))
  else if event_id =? kEventUpdateSelectApp events then Ok (Some (DecodePbMessage mvvm_AppInfoList pb_buffer))
  else if event_id =? kEventClearSocks5Server events then Ok None
  else Throws.

(** [ActivityView::HandleEvent], which runs [OnEventFired] of the view model. *)
Definition activity_HandleEvent (instance event : Z) (value : option Msg) (a : android) : outcome android :=
  view_at instance a (fun _ => Ok (mk_android (builders a) (system a) (handled a ++ [(instance, event, value)]))).

Definition NativeHandleEvent (instance event_id buffer : Z) (a : android) : jni V android :=
  let! pb_buffer := JNU_JbyteArray2Buffer buffer in
  lift (let? pb := decode_event event_id pb_buffer in activity_HandleEvent instance event_id pb a).

(** [init] is [Application::Init]; a [std::string] cannot be made of a null
    pointer. *)
Definition MVVMHelp_Init {A} (init : list Z -> A -> A) (data_dir : Z) (a : A) : jni V A :=
  let! s := jstring_from_java data_dir in
  let! str_data_dir := GetChar s in
  destroy_jstring s ;;;
  match str_data_dir with
  | Some dir => ret (init dir a)
  | None => lift Undefined
  end.

(** ** What Java does *)

Inductive java_call := JavaCreate (this type : Z) | JavaBind (i : Z) | JavaUnbind (i : Z) | JavaEvent (i event : Z) (buffer : list Z).

Definition java_do (c : java_call) (a : android) : outcome android :=
  match c with
  | JavaCreate this type => NativeCreateViewModel this type a
  | JavaBind i => NativeBindViewModel i a
  | JavaUnbind i => NativeUnbindViewModel i a
  | JavaEvent i event buffer => let? pb := decode_event event buffer in activity_HandleEvent i event pb a
  end.

Fixpoint java_run (cs : list java_call) (a : android) : outcome android :=
  match cs with
  | [] => Ok a
  | c :: cs' => let? a' := java_do c a in java_run cs' a'
  end.

(** The views there are, with their types, and those that are bound, in order. *)
Record activities := mk_activities { live : list (Z * Z); bound : list (Z * Z) }.

Definition activities_step (s : activities) (c : java_call) : activities :=
  match c with
  | JavaCreate this type => mk_activities ((this, type) :: live s) (bound s)
  | JavaBind i => mk_activities (live s)
      (bound s ++ match map_find i (live s) with Some type => [(i, type)] | None => [] end)
  | JavaUnbind i => mk_activities (map_erase i (live s)) (map_erase i (bound s))
  | JavaEvent _ _ _ => s
  end.

(** The events of the switch. *)
Definition known_event (event : Z) : bool :=
  existsb (Z.eqb event) [kEventAddSocks5Server events; kEventDeleteSocks5Server events; kEventGetSelectApp events;
                         kEventUpdateSelectApp events; kEventClearSocks5Server events].

(** Java uses only what it has created and not yet unbound, creates only view
    models somebody has registered, and sends only events of the switch. *)
Definition allowed (types : list Z) (s : activities) (c : java_call) : bool :=
  match c with
  | JavaCreate this type =>
      match map_find this (live s) with Some _ => false | None => existsb (Z.eqb type) types end
  | JavaBind i | JavaUnbind i => match map_find i (live s) with Some _ => true | None => false end
  | JavaEvent i event _ => match map_find i (live s) with Some _ => known_event event | None => false end
  end.

Fixpoint obeys (types : list Z) (s : activities) (cs : list java_call) : bool :=
  match cs with
  | [] => true
  | c :: cs' => allowed types s c && obeys types (activities_step s c) cs'
  end.
End Entry.

Arguments android : clear implicits.
