(* ===== verification/NativeLibSpec.v ===== *)
(** * What Java can rely on

    Views that are created, bound and unbound in this order are never used after
    they are gone, and the events of models reach the bound ones. *)

From Stdlib Require Import String ZArith List Bool Lia.
From S2P Require Import Prelude Cpp Mvvm MvvmSpec Jni JniCall NativeLib.
Import ListNotations.
Local Open Scope Z_scope.
Local Open Scope cpp_scope.

Lemma map_find_erase {X} k k' (m : list (Z * X)) :
  map_find k (map_erase k' m) = if k =? k' then None else map_find k m.
Proof.
  unfold map_erase. induction m as [|[q x] m IH]; cbn; [now destruct (k =? k')|].
  destruct (Z.eqb_spec q k') as [->|Hq]; cbn; rewrite IH.
  - destruct (k =? k'); reflexivity.
  - destruct (Z.eqb_spec k k') as [->|Hk]; [|reflexivity]. destruct (Z.eqb_spec k' q); [congruence | reflexivity].
Qed.

Section Java.
Context {D B Msg : Type}.
Variable parse_pb : pb_class -> list Z -> Msg.
Variable events : event_ids.
Variable subscriptions : Z -> Z -> list (Z * Z * D).
Variable run_builder : B -> option (ViewModel Z Z).
(** The models and view models that have been registered. *)
Variables models types : list Z.

Abbreviation mvvm := (mvvm (D := D) (P := Z) (E := Z)).
Implicit Types (w : mvvm) (a : android D B Msg) (s : activities).

(** What a view is subscribed to once it is bound: to models there are. *)
Definition subscribed (i type : Z) : list (subscription (D := D)) :=
  filter (fun x => existsb (Z.eqb (s_type x)) models)
    (map (fun '(model, event, d) => mk_subscription i model event d) (subscriptions type i)).

Definition bound_bus s : bus := mk_bus models (flat_map (fun '(i, type) => subscribed i type) (bound s)).

Record java_inv s a : Prop := {
  ji_builders : forall type, existsb (Z.eqb type) types = true ->
    exists b vm, map_find type (builders a) = Some b /\ run_builder b = Some vm /\
                 viewmode_type_ vm = type /\ subscribe_ids_ vm = [];
  ji_views : forall i, option_map viewmode_type_ (map_find i (views (system a))) = map_find i (live s);
  ji_bound : forall i type, In (i, type) (bound s) -> map_find i (live s) = Some type;
  ji_sim : exists G, sim (system a) (bound_bus s) G
}.

(** A view has subscriptions only if it is bound. *)
Lemma subscribed_view s x : In x (active (bound_bus s)) -> exists type, In (s_view x, type) (bound s).
Proof.
  cbn. intros ([i type] & Hb & Hx)%in_flat_map. apply filter_In in Hx as [Hx _].
  apply in_map_iff in Hx as ([[m e] d] & <- & _). exists type. exact Hb.
Qed.

(** The subscriptions of [OnAttach], one after the other. *)
Lemma attach_sim i l w b G :
  registered b = models -> sim w b G ->
  let r := fold_left (fun r x => let '(model, event, d) := x in SUBSCRIE_EVENT model event d (fst r) (snd r)) l (frame w, view i w) in
  exists G', sim (mk_mvvm (fst r) (map_set i (snd r) (views w)))
    (mk_bus models (active b ++ filter (fun x => existsb (Z.eqb (s_type x)) models)
       (map (fun '(model, event, d) => mk_subscription i model event d) l))) G'.
Proof.
  intros Hb Hs. revert w b G Hb Hs. induction l as [|[[m e] d] l IH]; intros w b G Hb Hs; cbn [fold_left map filter].
  - exists G. rewrite app_nil_r. destruct b as [R act]. cbn in *. subst R.
    eapply sim_view_ext; [exact Hs | reflexivity|]. intros u. cbn [fst snd]. rewrite view_set.
    destruct (Z.eqb_spec u i) as [->|_]; reflexivity.
  - destruct (sim_subscribe _ _ _ i m e d Hs) as [G1 H1]. cbn [mvvm_step] in H1. unfold on_view in H1. cbn [fst snd s_type].
    destruct (SUBSCRIE_EVENT m e d (frame w) (view i w)) as [f1 v1].
    assert (registered (bus_step b (OpSubscribe i m e d)) = models) as Hb1 by (cbn; destruct (existsb _ _); exact Hb).
    destruct (IH _ _ _ Hb1 H1) as [G2 H2].
    exists G2. cbn [frame views] in H2. rewrite view_set, Z.eqb_refl, map_set_set in H2.
    cbn [bus_step] in H2. rewrite Hb in H2. destruct (existsb (Z.eqb m) models); cbn [active] in H2; [|exact H2].
    rewrite <- app_assoc in H2. exact H2.
Qed.

Lemma create_inv s a this type :
  java_inv s a -> allowed events types s (JavaCreate this type) = true ->
  exists a', NativeCreateViewModel run_builder this type a = Ok a' /\ java_inv (activities_step s (JavaCreate this type)) a'.
Proof.
  intros [I1 I2 I3 [G I4]] Ha. cbn in Ha. destruct (map_find this (live s)) eqn:El; [discriminate|].
  destruct (I1 type Ha) as (b & vm & Eb & Er & Et & Ei). unfold NativeCreateViewModel, CreateVM, Create. rewrite Eb, Er.
  cbn [outcome_bind]. eexists. split; [reflexivity|]. split; cbn [builders system set_android activities_step live bound views].
  - exact I1.
  - intros i. rewrite map_find_set. cbn [map_find]. destruct (i =? this); [cbn; now rewrite Et | apply I2].
  - intros i ty Hi. cbn [map_find]. destruct (Z.eqb_spec i this) as [->|_]; [rewrite (I3 _ _ Hi) in El; discriminate | exact (I3 _ _ Hi)].
  - exists G. eapply sim_view_ext; [exact I4 | reflexivity|]. intros u. rewrite view_set.
    destruct (Z.eqb_spec u this) as [->|_]; [|reflexivity]. cbn. rewrite Ei. symmetry. apply (sim_no_ids _ _ _ _ I4).
    intros x (ty & Hx)%subscribed_view Ex. rewrite Ex in Hx. rewrite (I3 _ _ Hx) in El. discriminate.
Qed.

Lemma view_live s a i :
  java_inv s a -> allowed events types s (JavaBind i) = true ->
  exists vm, map_find i (views (system a)) = Some vm /\ map_find i (live s) = Some (viewmode_type_ vm).
Proof.
  intros Hi Ha. pose proof (ji_views _ _ Hi i) as Hv. cbn in Ha. destruct (map_find i (live s)); [|discriminate].
  destruct (map_find i (views (system a))) as [vm|]; [|discriminate]. exists vm. split; [reflexivity | symmetry; exact Hv].
Qed.

(** Subscribing does not change the type. *)
Lemma attach_type l f (v : ViewModel Z Z) :
  viewmode_type_ (snd (fold_left (fun r x => let '(model, event, d) := x in SUBSCRIE_EVENT (D := D) model event d (fst r) (snd r)) l (f, v)))
  = viewmode_type_ v.
Proof.
  revert f v. induction l as [|[[m e] d] l IH]; intros f v; cbn [fold_left]; [reflexivity|].
  cbn [fst snd]. destruct (SUBSCRIE_EVENT m e d f v) as [f1 v1] eqn:E. rewrite IH. unfold SUBSCRIE_EVENT in E.
  destruct (ModelOf m f) as [f2 [md|]]; [destruct (SubscribeEvent _ _ _ _)|]; injection E as <- <-; reflexivity.
Qed.

Lemma bind_inv s a i :
  java_inv s a -> allowed events types s (JavaBind i) = true ->
  exists a', NativeBindViewModel subscriptions i a = Ok a' /\ java_inv (activities_step s (JavaBind i)) a'.
Proof.
  intros Hi Ha. destruct (view_live _ _ _ Hi Ha) as (vm & Ev & El). destruct Hi as [I1 I2 I3 [G I4]].
  unfold NativeBindViewModel, view_at. rewrite Ev. cbn [BindVM outcome_bind]. unfold NotifyBind, attach_view. cbn [viewmode_type_].
  set (vm' := mk_vm _ _ _ _ _). set (r := fold_left _ _ _). eexists. split; [reflexivity|].
  assert (viewmode_type_ (snd r) = viewmode_type_ vm) as Et by exact (attach_type _ _ vm').
  split; cbn [builders system set_android activities_step live bound views]; rewrite ?El.
  - exact I1.
  - intros j. rewrite map_find_set. destruct (Z.eqb_spec j i) as [->|_]; [|apply I2]. cbn. now rewrite Et, El.
  - intros j ty Hj. apply in_app_iff in Hj as [Hj|[Hj|[]]]; [exact (I3 _ _ Hj)|]. injection Hj as <- <-. exact El.
  - assert (sim (mk_mvvm (frame (system a)) (map_set i vm' (views (system a)))) (bound_bus s) G) as Hs.
    { eapply sim_view_ext; [exact I4 | reflexivity|]. intros u. rewrite view_set. destruct (Z.eqb_spec u i) as [->|_]; [|reflexivity].
      unfold view. rewrite Ev. reflexivity. }
    destruct (attach_sim i (subscriptions (viewmode_type_ vm) i) _ (bound_bus s) _ eq_refl Hs) as [G' H'].
    exists G'. cbn [frame views] in H'. rewrite view_set, Z.eqb_refl, map_set_set in H'. fold r in H'.
    unfold bound_bus. cbn [bound]. rewrite flat_map_app. cbn [flat_map]. rewrite app_nil_r. exact H'.
Qed.

Lemma unbind_inv s a i :
  java_inv s a -> allowed events types s (JavaUnbind i) = true ->
  exists a', NativeUnbindViewModel i a = Ok a' /\ java_inv (activities_step s (JavaUnbind i)) a'.
Proof.
  intros Hi Ha. destruct (view_live _ _ _ Hi Ha) as (vm & Ev & El). destruct Hi as [I1 I2 I3 [G I4]].
  unfold NativeUnbindViewModel, view_at. rewrite Ev. cbn [UnBindVM outcome_bind NotifyUnBind no_detach UnSubscrieAllEvent fst snd].
  eexists. split; [reflexivity|]. split; cbn [builders system set_android activities_step live bound views].
  - exact I1.
  - intros j. rewrite !map_find_erase. destruct (j =? i); [reflexivity | apply I2].
  - intros j ty Hj. apply filter_In in Hj as [Hj Hn]. cbn in Hn. rewrite map_find_erase. apply negb_true_iff in Hn as ->. exact (I3 _ _ Hj).
  - destruct (sim_remove _ _ _ i (new_viewmodel i) I4 eq_refl) as [G' H']. exists G'.
    replace (bound_bus (mk_activities (map_erase i (live s)) (map_erase i (bound s)))) with (bus_step (bound_bus s) (OpUnBind i)).
    + eapply sim_view_ext; [exact H' | |].
      * cbn. unfold view. rewrite Ev. reflexivity.
      * intros u. rewrite view_set. unfold view. cbn [views]. rewrite map_find_erase. destruct (u =? i); reflexivity.
    + cbn. unfold bound_bus. cbn. f_equal. clear. induction (bound s) as [|[j ty] l IH]; cbn; [reflexivity|].
      rewrite filter_app, IH. unfold subscribed at 1. destruct (Z.eqb_spec j i) as [->|Hj]; cbn.
      * replace (filter _ (filter _ _)) with (@nil (subscription (D := D))); [reflexivity|].
        induction (subscriptions ty i) as [|[[m e] d] xs IHx]; cbn; [reflexivity|].
        destruct (existsb _ _); cbn; rewrite ?Z.eqb_refl; exact IHx.
      * f_equal. unfold subscribed. induction (subscriptions ty j) as [|[[m e] d] xs IHx]; cbn; [reflexivity|].
        apply Z.eqb_neq in Hj. destruct (existsb _ _); cbn; rewrite ?Hj; cbn; congruence.
Qed.

(** The call of [OnEventFired] that an event of Java leads to. *)
Definition handled_by (c : java_call) : list (Z * Z * option Msg) :=
  match c with
  | JavaEvent i event buffer =>
      match decode_event parse_pb events event buffer with Ok pb => [(i, event, pb)] | _ => [] end
  | _ => []
  end.

Lemma decode_known event buffer :
  if known_event events event then exists pb, decode_event parse_pb events event buffer = Ok pb
  else decode_event parse_pb events event buffer = Throws.
Proof.
  unfold known_event, decode_event. cbn [existsb].
  destruct (event =? kEventAddSocks5Server events), (event =? kEventDeleteSocks5Server events), (event =? kEventGetSelectApp events),
    (event =? kEventUpdateSelectApp events), (event =? kEventClearSocks5Server events); cbn; eauto.
Qed.

Lemma java_do_inv c s a :
  java_inv s a -> allowed events types s c = true ->
  exists a', java_do parse_pb events subscriptions run_builder c a = Ok a' /\ java_inv (activities_step s c) a' /\
    handled a' = handled a ++ handled_by c.
Proof.
  intros Hi Hc. destruct c as [this type|i|i|i event buffer]; cbn [java_do handled_by].
  - destruct (create_inv s a this type Hi Hc) as (a' & E & H). exists a'. split; [exact E|]. split; [exact H|]. rewrite app_nil_r.
    unfold NativeCreateViewModel in E. destruct (CreateVM _ _ _ _ _); try discriminate. injection E as <-. reflexivity.
  - destruct (bind_inv s a i Hi Hc) as (a' & E & H). exists a'. split; [exact E|]. split; [exact H|]. rewrite app_nil_r.
    unfold NativeBindViewModel, view_at in E. destruct (map_find _ _); try discriminate. injection E as <-. reflexivity.
  - destruct (unbind_inv s a i Hi Hc) as (a' & E & H). exists a'. split; [exact E|]. split; [exact H|]. rewrite app_nil_r.
    unfold NativeUnbindViewModel, view_at in E. destruct (map_find _ _); try discriminate. injection E as <-. reflexivity.
  - cbn [allowed] in Hc. destruct (map_find i (live s)) eqn:El; [|discriminate]. pose proof (decode_known event buffer) as Hd.
    rewrite Hc in Hd. destruct Hd as [pb ->]. cbn [outcome_bind].
    destruct (view_live s a i Hi) as (vm & Ev & _); [cbn; now rewrite El|].
    unfold activity_HandleEvent, view_at. rewrite Ev. eexists. split; [reflexivity|]. split; [destruct Hi; split; auto | reflexivity].
Qed.

Lemma run_inv cs : forall s a, java_inv s a -> obeys events types s cs = true ->
  exists a', java_run parse_pb events subscriptions run_builder cs a = Ok a' /\ java_inv (fold_left activities_step cs s) a' /\
    handled a' = handled a ++ flat_map handled_by cs.
Proof.
  induction cs as [|c cs IH]; intros s a Hi; cbn [obeys java_run fold_left flat_map]; [exists a; rewrite app_nil_r; auto|].
  intros [Hc Hr]%andb_true_iff. destruct (java_do_inv c s a Hi Hc) as (a1 & -> & H1 & Hh). cbn [outcome_bind].
  destruct (IH _ a1 H1 Hr) as (a' & E & Hi' & Hh'). exists a'. rewrite Hh', Hh, <- app_assoc. auto.
Qed.
End Java.

(** An application that has just been initialized: models and view models are
    registered. *)
Definition started_android {D B Msg} (models : list Z) (builders : list (Z * B)) : android D B Msg :=
  mk_android builders (mk_mvvm (mk_framework 0 models []) []) [].

(** The delegates of a view for an event of a model. *)
Definition delegates_of {D} (subscriptions : Z -> Z -> list (Z * Z * D)) (models : list Z) (model event : Z) (view : Z * Z) : list D :=
  if existsb (Z.eqb model) models
  then map snd (filter (fun x => (fst (fst x) =? model) && (snd (fst x) =? event)) (subscriptions (snd view) (fst view))) else [].

Lemma bound_fired {D} (subscriptions : Z -> Z -> list (Z * Z * D)) models model event s :
  bus_fired model event (bound_bus subscriptions models s) =
  flat_map (delegates_of subscriptions models model event) (bound s).
Proof.
  unfold bus_fired, bound_bus. cbn [active]. induction (bound s) as [|[i type] l IH]; cbn [flat_map]; [reflexivity|].
  rewrite filter_app, map_app, IH. f_equal. clear. unfold subscribed, delegates_of. cbn [fst snd].
  induction (subscriptions type i) as [|[[m e] d] xs IH]; cbn; [now destruct (existsb _ _)|].
  destruct (Z.eqb_spec m model) as [->|Hm]; cbn.
  - destruct (existsb (Z.eqb model) models); cbn; [|exact IH]. rewrite Z.eqb_refl. cbn. destruct (e =? event); cbn; congruence.
  - apply Z.eqb_neq in Hm. destruct (existsb (Z.eqb m) models); cbn; rewrite ?Hm; exact IH.
Qed.

(** C21: The views of activities.  When Java creates only view models of registered
    types, uses a view only between its creation and its unbinding, and sends only
    the five events of the switch, every entry point succeeds and finds the view
    alive, at whatever addresses views are created; the view models have got the
    events that were sent, in order and with the messages decoded from their
    buffers; and an event of a model reaches the view models of the bound views
    and no others, in the order in which they were bound, each with its
    subscriptions in their order.  Any other event of Java stops the program at
    [BOOST_VERIFY(false)]. *)
Theorem java_views_correct {D B Msg} (parse_pb : pb_class -> list Z -> Msg) events (subscriptions : Z -> Z -> list (Z * Z * D))
  (run_builder : B -> option (ViewModel Z Z)) models types builders cs :
  (forall type, existsb (Z.eqb type) types = true ->
     exists b vm, map_find type builders = Some b /\ run_builder b = Some vm /\ viewmode_type_ vm = type /\ subscribe_ids_ vm = []) ->
  obeys events types (mk_activities [] []) cs = true ->
  exists a, java_run parse_pb events subscriptions run_builder cs (started_android models builders) = Ok a /\
    handled a = flat_map (handled_by parse_pb events) cs /\
    (forall model event, fired model event (system a) =
       flat_map (delegates_of subscriptions models model event) (bound (fold_left activities_step cs (mk_activities [] [])))) /\
    (forall i event buffer, known_event events event = false ->
       java_do parse_pb events subscriptions run_builder (JavaEvent i event buffer) a = Throws).
Proof.
  intros Hb Ho.
  destruct (run_inv parse_pb events subscriptions run_builder models types cs (mk_activities [] []) (started_android models builders))
    as (a & Ha & Hi & Hh); [|exact Ho|].
  - split; cbn; [exact Hb | reflexivity | contradiction|]. exists []. split; cbn; auto.
    split; cbn; [reflexivity | discriminate | constructor | discriminate].
  - exists a. split; [exact Ha|]. split; [exact Hh|]. split.
    + intros model event. destruct (ji_sim _ _ _ _ _ _ Hi) as [G Hs].
      rewrite (sim_fired _ _ _ model event Hs). apply bound_fired.
    + intros i event buffer Hk. cbn [java_do]. pose proof (decode_known parse_pb events event buffer) as Hd.
      rewrite Hk in Hd. rewrite Hd. reflexivity.
Qed.

(** Two kinds of view models; the second listens to two events. *)
Definition sample_subscriptions (type i : Z) : list (Z * Z * (Z * Z)) :=
  if type =? 17 then [(9, 26, (i, 26))] else [(9, 26, (i, 26)); (9, 27, (i, 27))].

Lemma java_views_correct_witness :
  exists a, java_run (fun _ b => b) (mk_event_ids 1 2 3 4 5) sample_subscriptions (fun t => Some (new_viewmodel t))
      [JavaCreate 4096 17; JavaBind 4096; JavaCreate 8192 18; JavaBind 8192; JavaEvent 8192 2 [8; 1];
       JavaUnbind 4096; JavaCreate 4096 18; JavaBind 4096]
      (started_android [9] [(17, 17); (18, 18)]) = Ok a /\
    (handled a = [(8192, 2, Some [8; 1])] /\ fired 9 26 (system a) = [(8192, 26); (4096, 26)]).
Proof.
  destruct (java_views_correct (fun _ b => b) (mk_event_ids 1 2 3 4 5) sample_subscriptions (fun t => Some (new_viewmodel t))
      [9] [17; 18] [(17, 17); (18, 18)]
      [JavaCreate 4096 17; JavaBind 4096; JavaCreate 8192 18; JavaBind 8192; JavaEvent 8192 2 [8; 1];
       JavaUnbind 4096; JavaCreate 4096 18; JavaBind 4096]) as (a & Ha & Hh & Hf & _).
  - intros type Ht. apply existsb_exists in Ht as (x & Hx & <-%Z.eqb_eq). exists type, (new_viewmodel type).
    destruct Hx as [<-|[<-|[]]]; repeat split.
  - reflexivity.
  - exists a. split; [exact Ha|]. split; [rewrite Hh; reflexivity | rewrite Hf; reflexivity].
Defined.
