(* ===== verification/HttpFindings.v ===== *)
(** * Inputs on which the code does not do what its comments say

    Concrete runs of the model, each evaluated by computation. *)

From Stdlib Require Import String ZArith List Bool Lia.
From S2P Require Import Prelude HttpDefs HttpUrl HttpExec HttpLogic HttpRecord HttpUrlSpec NetClient.
Import ListNotations.
Local Open Scope Z_scope.

(** The events of one call on a new parser, and its error. *)
Definition run_request (data : list Z) : list event * http_errno :=
  match http_parser_execute recorder (fresh_parser HTTP_REQUEST) [] data with
  | Returned P w _ => (w, hp_http_errno P)
  | Aborted _ => ([], HPE_UNKNOWN)
  end.

(** A control character in a header value is an error at the second byte of the
    value and accepted at the first and the third: the search for the line end
    passes over the bytes without looking at them. *)
Example control_character_second :
  snd (run_request (bytes "GET / HTTP/1.1" ++ crlf ++ bytes "A: b" ++ [1] ++ bytes "c" ++ crlf ++ crlf)) =
  HPE_INVALID_HEADER_TOKEN.
Proof. vm_compute. reflexivity. Qed.

Example control_character_third :
  run_request (bytes "GET / HTTP/1.1" ++ crlf ++ bytes "A: bc" ++ [1; 0] ++ crlf ++ crlf) =
  ([Notify message_begin; Data url (bytes "/"); Data header_field (bytes "A");
    Data header_value (bytes "bc" ++ [1; 0]); Headers_complete; Notify message_complete], HPE_OK).
Proof. vm_compute. reflexivity. Qed.

Example control_character_first :
  snd (run_request (bytes "GET / HTTP/1.1" ++ crlf ++ bytes "A: " ++ [1] ++ bytes "b" ++ crlf ++ crlf)) = HPE_OK.
Proof. vm_compute. reflexivity. Qed.

(** Blanks inside a Content-Length are skipped: "1 2" is the length 12. *)
Example blank_in_length :
  hp_content_length (parser_after (http_parser_execute recorder (fresh_parser HTTP_REQUEST) []
    (message ["POST / HTTP/1.1"; "Content-Length: 1 2"; ""; ""]%string))) = 12.
Proof. vm_compute. reflexivity. Qed.

(** A header whose name only begins with Content-Length makes the real one an
    error. *)
Example length_prefix :
  snd (run_request (message ["POST / HTTP/1.1"; "Content-Length-Hint: 5"; "Content-Length: 5"; ""; ""]%string)) =
  HPE_UNEXPECTED_CONTENT_LENGTH.
Proof. vm_compute. reflexivity. Qed.

(** A tab before a token of Connection hides the token: the test for a tab is
    made on the character with bit 5 set, which is never a tab. *)
Definition connection_closes (value : list Z) : bool :=
  has_flag (parser_after (http_parser_execute recorder (fresh_parser HTTP_REQUEST) []
    (bytes "GET / HTTP/1.1" ++ crlf ++ bytes "Connection: " ++ value ++ crlf ++ crlf))) F_CONNECTION_CLOSE.

Example connection_blank : connection_closes (bytes "x, close") = true.
Proof. vm_compute. reflexivity. Qed.

Example connection_tab : connection_closes (bytes "x," ++ [9] ++ bytes "close") = false.
Proof. vm_compute. reflexivity. Qed.

(** A chunk size with a byte from 128 on: the byte counts as the digit 0. *)
Example high_byte_in_chunk_size :
  snd (run_request (message ["POST / HTTP/1.1"; "Transfer-Encoding: chunked"; ""; "1"]%string ++ [200] ++ crlf
    ++ bytes "sixteen bytes ok" ++ crlf ++ bytes "0" ++ crlf ++ crlf)) = HPE_OK.
Proof. vm_compute. reflexivity. Qed.

(** The port is read by [strtoul] past the end of the URL when digits follow. *)
Example port_beyond_url :
  let u := url_after_parse (http_parser_parse_url (bytes "http://a:8012/") 11 false http_parser_url_init) in
  field_bytes (bytes "http://a:8012/") u UF_PORT = bytes "80" /\ port u = 8012.
Proof. vm_compute. split; reflexivity. Qed.

(** The empty URL is accepted. *)
Example empty_url :
  url_rc (http_parser_parse_url [0] 0 false http_parser_url_init) = Some 0.
Proof. vm_compute. reflexivity. Qed.

(** At the end of the input in the middle of a message the call returns 1,
    although no byte was given. *)
Example eof_count :
  match http_parser_execute recorder
          (parser_after (http_parser_execute recorder (fresh_parser HTTP_REQUEST) [] (bytes "GET"))) [] [] with
  | Returned P _ n => (hp_http_errno P, n)
  | Aborted _ => (HPE_OK, 0)
  end = (HPE_INVALID_EOF_STATE, 1).
Proof. vm_compute. reflexivity. Qed.

(** Without a Content-Length header the member holds [ULLONG_MAX], not 0. *)
Example absent_length :
  hp_content_length (parser_after (http_parser_execute recorder (fresh_parser HTTP_REQUEST) []
    (message ["GET / HTTP/1.1"; ""; ""]%string))) = ULLONG_MAX.
Proof. vm_compute. reflexivity. Qed.

(** [CreateHttpClient] on a URL without a path: the whole URL is the path, and
    the test for an empty path does not apply. *)
Example url_without_path :
  CreateHttpClient (sample_request (bytes "http://example.com")) =
  Created (HttpClientImpl (mk_net_request (bytes "example.com") (Some 80) kNetTypeHttp
    (bytes "http://example.com") [] 0 [] [])).
Proof. vm_compute. reflexivity. Qed.
